(* ===== verification/_CoqProject ===== *)
-Q . S2P
Prelude.v
Float64.v
Sha256.v
Json.v
JsonRoundtrip.v
Numbers.v
Timestamps.v
Datetimes.v
BoundedHttp.v
BoundedSafety.v
Identity.v
Contracts.v
Response.v
Clock.v
Maturation.v
Store.v
Journal.v
Calibration.v
Trust.v
TrustSafety.v
History.v
Metrics.v
Statistical.v
StatisticalFacts.v
Artifacts.v
ArtifactFacts.v
Worker.v
WorkerSafety.v
State.v
StateRoundtrip.v
Datasets.v
Replay.v
ReplaySafety.v
ReplayResume.v
ReplayDemo.v
Service.v
ServiceState.v
ServiceSafety.v
ServiceDemo.v
Auth.v
AuthSafety.v
Registry.v
Accuracy.v
Gapfill.v
GapfillSafety.v
LegacyHistory.v
Serving.v
ServingSafety.v
ServingDemo.v
Shadow.v
ShadowSafety.v
ShadowDemo.v
Admission.v
Server.v
