(* ===== verification/Prelude.v ===== *)
(** The statistical forecaster of the predictive autoscaler, in Rocq.

    The program answers one question for a Kubernetes operator: how many requests per second will this autoscaler's target
    see over the next minutes, and how sure is that. A caller posts to [/v2/predict]; the service reads the autoscaler
    object, reads the request rates from Prometheus, forecasts with a few statistical models, bounds the window's maximum
    from its own past errors, decides whether any model has earned trust, writes all of it to a journal before it answers,
    and later scores what it issued. This development models that service, [src/ml-engine/forecasting/], and the API code
    around it in [src/ml-engine/api/], as executable functions, and proves what makes it correct.

    * Parts of the program and the files that model them

    Shared ground.
    - [Prelude]: exceptions and the two monads ([res]: a value or an exception; [SE W]: the same over a state [W], which an
      exception does not undo), tactics ([ok_inv], [bool_prop]), Python's dicts ([dget], [dset]: insertion order, later value
      in the earlier place), sorting, ranges, and the generic lemmas.
    - [Float64]: binary64 on the Standard Library's executable specification, Python's comparison, [sum], [max] and the
      decimal conversions. [Sha256]: the hash, executable. [Json], [JsonRoundtrip]: JSON values, the canonical serialization,
      the parser, and their round trip. [Numbers], [Datetimes]: Python's [int(text)], [float(text)], [strip], [datetime],
      [isoformat] and [fromisoformat].

    The service.
    - [Timestamps], [Contracts], [Response]: [forecasting/contracts.py], wire times, settings and their fingerprint, lead and
      window, binding a request to the live object, the response and its check.
    - [Identity]: [api/identity.py], what the Kubernetes API must say for a request to be accepted.
    - [Clock]: [forecasting/clock.py]. [History]: [forecasting/history.py], the strict read of the request rates.
    - [Maturation]: [forecasting/maturation.py], when an issued window has an outcome and which.
    - [Store], [Journal]: [forecasting/store.py]; the operations on the SQLite file, and its transition system.
    - [Calibration]: [forecasting/calibration.py]. [Trust], [TrustSafety]: [forecasting/trust.py].
    - [Statistical], [StatisticalFacts]: [forecasting/statistical.py]. [Artifacts], [ArtifactFacts]: [forecasting/artifacts.py].
      [Worker], [WorkerSafety]: [forecasting/worker.py], the fit worker's threads.
    - [Metrics]: [forecasting/metrics.py].
    - [State], [StateRoundtrip], [Service], [ServiceState], [ServiceSafety], [ServiceDemo]: [forecasting/service.py]; the
      epoch state and the checkpoint's text, one request end to end, recovery, what holds across requests and restarts, and a
      run of the whole service inside the kernel.

    The API around it.
    - [Auth], [AuthSafety]: [api/auth.py]; the configuration, TokenReview and its cache, the middleware.
    - [Admission]: [api/admission.py] and the same rule in [api/auth.py]. [Server]: [api/statistical.py], the app.

    The older API, which serves LSTM models, and what it shares.
    - [BoundedHttp], [BoundedSafety]: [data/bounded_http.py], one HTTP exchange under a deadline and a cap, which both APIs read
      through.
    - [Registry], [Accuracy]: [api/registry.py] and [api/accuracy.py], the model records and the scoring of its forecasts.
    - [Gapfill], [GapfillSafety]: [data/gapfill.py], the validity mask, the filling of gaps, the input window.
    - [LegacyHistory]: [data/history.py], its history of a week.
    - [Serving], [ServingSafety], [ServingDemo]: [api/main.py], the reload of its models and [POST /predict], run in the kernel
      with a reload under way.

    Replay, and the observation of what was served.
    - [Shadow], [ShadowSafety], [ShadowDemo]: [observer/shadow.py], what each predictor would have answered at the origins the
      controller used, and a run of it.
    - [Datasets]: [evaluation/datasets.py], datasets pinned by digest, their CSV text, writing and loading.
    - [Replay], [ReplaySafety], [ReplayResume], [ReplayDemo]: [evaluation/forecast_replay.py], the run of the journal over a
      dataset on a simulated clock, what it may see, and its resumption.

    How they call each other. [Server.serve] is a request: [Auth.admit_request] asks a reviewer (the class
    [AuthSafety.Authenticator] is all it knows of one) and hands the body to [Server.predict_endpoint], which calls
    [Service.predict]. That binds the request ([Contracts.bind_request] over [Identity.resolve_signal]), reads the history,
    and under the service's lock records it, settles and folds what has matured ([Store], [Maturation], [Calibration],
    [Trust]), looks the origin up, issues if it is new ([Statistical] through [Artifacts] and [Worker]), checkpoints, and reads
    the answer out of the issuance ([Response]). [Serving.predict_endpoint] resolves the same way ([Identity.resolve_signal]), reads
    [LegacyHistory.query_history], reloads and pins a record ([Registry]), checks the window ([Gapfill.check_inference_window]),
    runs the model and scores what has matured ([Accuracy]). [Replay.run_replay] drives the operations of [Store] and the
    functions of [Calibration] and [Trust] with the observations of a [Datasets.Dataset].

    * How the code is modelled

    A function of the source is a function of the same name over the same data: a record per class, a list where Python has a
    list or a dict (dicts keep their order, because hashes, sums and truncations depend on it), a JSON value where the code has
    not checked a type yet, integers as [Z], floats as binary64 with every rounding. Exceptions are values of [exn], with the
    fixed part of their message. Code that holds a lock for its whole body is one step; where threads or callers interleave
    between locks ([Worker], [Auth], [Registry], [Admission], [Journal]) the locked sections are the steps of a relation,
    and the theorems are about every state it reaches. A request of the older API is a sequence of indivisible steps with any
    function of the whole process before each of them, the other requests; [ServingSafety.follows] is what it relies on them to
    keep, and what it is shown to keep itself. Computations of the service are state passing over the service and an
    outside world [X] they only meet through the operations they are given.

    What is a parameter, and what is assumed of it. The Kubernetes reader, the metrics backend, the clocks, the disk and the
    TokenReview exchange are computations over [X] of any result; nothing is assumed of them except where a theorem says so
    ([AuthSafety.review_runs] assumes a clock that does not go back). NumPy's and SciPy's routines are the operations of
    [Statistical.NumLib]; an LSTM model is an operation of any outcome ([Serving.ou_predict]); [NumLib]'s laws are stated at the theorems that need them. The ZIP and .npy containers are
    [Artifacts.Containers], with the law that what was written is read back. Unpickling is an argument of
    [Registry.load_record]. SQLite is the argument of each journal operation that says how a statement fails; a transaction is
    atomic. SHA-256 is computed; where a theorem needs that two texts have two digests it says "or they collide".

    Fuel and bounds. Recursion is structural except: the JSON parser, with twice the length of the text plus two, since every
    step consumes a character or enters a value; the decimal digits of an integer, with one more than its binary length; the
    shortest decimal of a float, seventeen digits, which always suffice; the loops of [plan_chunks] and
    [complete_segment_start], whose fuel is shown to be enough by [History.chunk_plan_exact] and
    [StatisticalFacts.complete_segment_longest]; the loop that takes filled gaps back ([Gapfill.enforce]), with one more than the
    number of gaps, which [GapfillSafety] shows to be enough; and the reads of a body ([BoundedHttp.read_body]), each of which
    adds a byte or ends the loop, with two more than the cap. Text is made of code points below 256; what the parser could only answer
    with other text it refuses.

    * What is proved

    - The service, across requests, restarts and everything outside: the journal stays well formed and every checkpoint is a
      state ([ServiceSafety.service_invariant]), a retry gets the very same answer ([retry_same_answer]), an issuance is in
      time ([issued_in_time]), every answer passed its own contract and none is eligible to act yet ([answers_checked]), every
      outcome is folded exactly once and a restart continues from the same state ([ServiceState]).
    - The journal: its invariant, immutability, idempotence, one terminal outcome, recovery before and after compaction.
    - Binding: an accepted request is the live object's, its settings within range, its window exact.
    - Evidence: an outcome is final and made of the right receipts; the bound is the order statistic it claims to be; the
      level stays in range; a selected model holds every gate, demotion is immediate and re-promotion earned; replay authorises
      nothing; ledgers are bounded.
    - Forecasts: no value after the cutoff is read; a forecast is finite and non-negative or fails by name; a history is
      exactly the samples of its answers; chunk plans partition the window.
    - Artifacts and the worker: round trip and refusal of every other binding, atomic and monotone promotion; one fit per
      signal, no ticket lost, nothing started after closing, a bounded drain.
    - Texts: canonical JSON, responses, timestamps and checkpoints are read back as they were.
    - The API: only an authenticated, configured account reaches the service ([Server.service_guarded]); reviews interleave
      soundly over a bounded cache ([AuthSafety]); no slot leaks ([Admission]); no model is cleaned up under a request or
      used for another signal ([Registry]); no forecast is scored twice, early or late ([Accuracy]).
    - The older API: an answered forecast was computed with one compatible record, held throughout, on a checked window, whatever
      the other requests do ([ServingSafety.forecast_attested]); a reload installs only files that did not change under it
      ([reload_sound]); its history is exactly the answer's series ([LegacyHistory.legacy_history_exact]); filled points are
      the allowed ones and outside the mask ([GapfillSafety]); an exchange closes what it opened and answers in time
      ([BoundedSafety.exchange_bounded]).
    - Replay: nothing is seen before it has arrived ([ReplaySafety.no_look_ahead]), a resumed run ends with the journal of an
      uninterrupted one ([ReplayResume.resume_same_journal]), and a dataset loads as it was written
      ([Datasets.dataset_roundtrip]). The shadow observer looks at nothing later than the controller's input, and its records are
      complete ([ShadowSafety.shadow_no_look_ahead], [record_attests], [run_accounts]).

    Where the code does not do what its text says, an [Example] shows it: [Identity.newline_accepted],
    [TrustSafety.hysteresis_forgotten], [stale_recipe] and [hour_dropped], [History.huge_integer_escapes],
    [ArtifactFacts.text_cutoff_escapes], [AuthSafety.huge_expiry_escapes], [LegacyHistory.huge_sample_escapes],
    [Datasets.float_cadence_admitted], [ReplayDemo.resume_needs_room], [ShadowDemo.huge_rpm_lost], [BoundedSafety.bad_port_escapes].

    * Not modelled

    Sockets, threads' scheduling, file systems and process management (their outcomes are arguments); the web framework; the
    text of log lines and of interpolated messages; in the older API, the benchmark experiment arms, which a deployment refuses
    unless it allows them, the training sandbox, the read-only endpoints, and its LSTM, ensemble and training code, which is
    TensorFlow, pandas and NumPy throughout; the synthetic datasets, drawn from the language's random numbers, and the reading
    of a mask's file; offline studies, benchmark and evidence scripts under [eval/], [deploy/] and [hack/];
    the Go operator. *)
From Stdlib Require Export ZArith Lia.
From stdpp Require Export base numbers list strings option decidable sorting.
#[global] Open Scope Z_scope.

(** * Exceptions and the result monad

    One constructor per exception class the modelled modules raise; the string is the fixed part of the source's
    message (interpolated values are left out). Python's exceptions form one universe, so a handler is a [match]. *)

Inductive exn :=
| ContractRefused (msg : string)
| ProvenanceRefused (msg : string)
| LookupFailed (msg : string)
| PyValueError (msg : string)
| PyTypeError
| PyKeyError
| PyIndexError
| ZeroDivisionError
| PyOverflowError
| ClockError (msg : string)
| CalibrationError (msg : string)
| TrustError (msg : string)
| KernelUnavailable (reason msg : string)
| HistoryRefused (msg : string)
| HistoryUnavailable (msg : string)
| StoreError (msg : string)
| IntegrityConflict (msg : string)
| RetiredKey (msg : string)
| StoreUnavailable (msg : string)
| StoreFull (msg : string)
| StoreCorrupt (msg : string)
| RegistryFull (msg : string)
| CardinalityExceeded (msg : string)
| ServiceError (status : Z) (reason msg : string)
| ArtifactRefused (reason msg : string)
| QueueFull (msg : string)
| FitRefused (msg : string)
| PyRuntimeError (msg : string)
| Unauthenticated (msg : string)
| Forbidden (msg : string)
| AuthUnavailable (msg : string)
| AuthMisconfigured (msg : string)
| Busy (msg : string)
| Refused (msg : string)
| ModelIncompatible (msg : string)
| DatasetInvalid (msg : string)
| ReplayError (msg : string)
| StopIteration
| TransportFailure (msg : string)
| DeadlineExceeded (msg : string)
| BodyTooLarge (msg : string)
| PyOSError
| HTTPException
| HTTPError (status : Z) (detail : string)     (* FastAPI's [HTTPException] *)
| ServiceBusy (msg : string)
| PyAttributeError.

#[export] Instance exn_eq_dec : EqDecision exn.
Proof. solve_decision. Defined.

Inductive res (A : Type) :=
| Ok (a : A)
| Raise (e : exn).
Arguments Ok {A} _.
Arguments Raise {A} _.

#[export] Instance res_ret : MRet res := @Ok.
#[export] Instance res_bind : MBind res :=
  λ _ _ k r, match r with Ok a => k a | Raise e => Raise e end.
#[export] Instance res_fmap : FMap res :=
  λ _ _ f r, match r with Ok a => Ok (f a) | Raise e => Raise e end.

#[export] Instance res_throw : MThrow exn res := @Raise.

(** Computations that also read and change a state [W] (the cluster, the journal): the state survives an exception. *)
Definition SE (W A : Type) : Type := W → res A * W.
#[export] Instance se_ret {W} : MRet (SE W) := λ _ a w, (Ok a, w).
#[export] Instance se_throw {W} : MThrow exn (SE W) := λ _ e w, (Raise e, w).
#[export] Instance se_bind {W} : MBind (SE W) :=
  λ _ _ k m w, match m w with (Ok a, w') => k a w' | (Raise e, w') => (Raise e, w') end.
Definition lift {W A} (r : res A) : SE W A := λ w, (r, w).
Definition sget {W} : SE W W := λ w, (Ok w, w).
Definition sput {W} (w : W) : SE W unit := λ _, (Ok (), w).

Lemma se_bind_eq {W A B} (m : SE W A) (k : A → SE W B) w :
  (m ≫= k) w = match m w with (Ok a, w') => k a w' | (Raise e, w') => (Raise e, w') end.
Proof. done. Qed.

Definition is_ok {A} (r : res A) : bool := match r with Ok _ => true | Raise _ => false end.

Declare Scope py_scope.
Delimit Scope py_scope with py.

(** [raise_if c with e ;; k] is the source's [if c: raise e] followed by [k]. *)
Notation "'raise_if' c 'with' e ';;' k" := (if c then mthrow (e : exn) else k)
  (at level 100, c at next level, e at next level, k at level 200, right associativity,
   format "'[v' 'raise_if'  c  'with'  e  ';;' '/' k ']'") : py_scope.
#[global] Open Scope py_scope.

Section loops.
Context {A B S : Type}.

(** [[f(x) for x in l]], stopping at the first exception. *)
Definition mapM_res (f : A → res B) : list A → res (list B) :=
  fix go l := match l with [] => Ok [] | x :: t => y ← f x; ys ← go t; Ok (y :: ys) end.

(** [for x in l: s = f(s, x)], stopping at the first exception. *)
Definition foldM (f : S → A → res S) : S → list A → res S :=
  fix go s l := match l with [] => Ok s | x :: t => s' ← f s x; go s' t end.
End loops.

Definition of_option {A} (e : exn) (o : option A) : res A :=
  match o with Some a => Ok a | None => Raise e end.

Lemma bind_ok {A B} (r : res A) (k : A → res B) v :
  (r ≫= k) = Ok v ↔ ∃ a, r = Ok a ∧ k a = Ok v.
Proof. destruct r; simpl; naive_solver. Qed.

Lemma fmap_ok {A B} (f : A → B) (r : res A) v : f <$> r = Ok v ↔ ∃ a, r = Ok a ∧ v = f a.
Proof. destruct r; simpl; naive_solver. Qed.

Lemma raise_if_ok {A} (c : bool) e (k : res A) v : (raise_if c with e ;; k) = Ok v ↔ c = false ∧ k = Ok v.
Proof. destruct c; cbn; naive_solver. Qed.

Lemma se_bind_ok {W A B} (m : SE W A) (k : A → SE W B) w v w2 :
  (m ≫= k) w = (Ok v, w2) ↔ ∃ a w1, m w = (Ok a, w1) ∧ k a w1 = (Ok v, w2).
Proof. rewrite se_bind_eq. destruct (m w) as [[a|e] w1]; naive_solver. Qed.

Lemma se_raise_if_ok {W A} (c : bool) e (k : SE W A) w v w2 :
  (raise_if c with e ;; k) w = (Ok v, w2) ↔ c = false ∧ k w = (Ok v, w2).
Proof. destruct c; cbn; naive_solver. Qed.

Lemma lift_ok {W A} (r : res A) (w : W) v w2 : lift r w = (Ok v, w2) ↔ r = Ok v ∧ w2 = w.
Proof. unfold lift. naive_solver. Qed.

Lemma of_option_ok {A} e (o : option A) v : of_option e o = Ok v ↔ o = Some v.
Proof. destruct o; simpl; naive_solver. Qed.

Lemma foldM_app {A S} (f : S → A → res S) s l1 l2 :
  foldM f s (l1 ++ l2) = (s' ← foldM f s l1; foldM f s' l2).
Proof. revert s; induction l1 as [|x t IH]; intros s; simpl; [done|]. destruct (f s x); simpl; auto. Qed.

Lemma foldM_fmap {A B S} (f : S → B → res S) (h : A → B) s l : foldM f s (h <$> l) = foldM (λ s x, f s (h x)) s l.
Proof. revert s. induction l as [|x t IH]; intros s; simpl; [done|]. destruct (f s (h x)); simpl; auto. Qed.

Lemma foldM_concat {A B S} (f : S → B → res S) (h : A → list B) s l :
  foldM f s (concat (h <$> l)) = foldM (λ s x, foldM f s (h x)) s l.
Proof.
  revert s. induction l as [|x t IH]; intros s; simpl; [done|]. rewrite foldM_app. destruct (foldM f s (h x)); simpl; auto.
Qed.

Lemma foldM_ext {A S} (f g : S → A → res S) s l : (∀ s x, f s x = g s x) → foldM f s l = foldM g s l.
Proof. intros H. revert s. induction l as [|x t IH]; intros s; simpl; [done|]. rewrite H. destruct (g s x); simpl; auto. Qed.

(** A loop that only checks its elements. *)
Lemma foldM_check {A} (f : A → res unit) l : foldM (λ _ x, f x) () l = Ok () ↔ Forall (λ x, f x = Ok ()) l.
Proof.
  induction l as [|x t IH]; simpl; [by split; [constructor|]|]. rewrite Forall_cons, <-IH.
  destruct (f x) as [[]|e]; simpl; naive_solver.
Qed.

Lemma foldM_inv {A S} (P : S → Prop) (f : S → A → res S) l :
  (∀ s x s', x ∈ l → P s → f s x = Ok s' → P s') →
  ∀ s s', P s → foldM f s l = Ok s' → P s'.
Proof.
  induction l as [|x t IH]; intros Hf s s' HP H; simpl in H; [by simplify_eq|].
  apply bind_ok in H as (s1 & H1 & H2).
  eapply (IH ltac:(intros; eapply Hf; [|done|done]; by right)); [|done].
  eapply Hf; [left|done|done].
Qed.

Lemma mapM_res_length {A B} (f : A → res B) l l' : mapM_res f l = Ok l' → length l' = length l.
Proof.
  revert l'; induction l as [|x t IH]; intros l' H; simpl in H; [by simplify_eq|].
  apply bind_ok in H as (y & _ & H). apply bind_ok in H as (ys & Hys & H). simplify_eq. simpl. f_equal; auto.
Qed.

Lemma mapM_res_Forall {A B} (P : B → Prop) (f : A → res B) l l' :
  (∀ x y, x ∈ l → f x = Ok y → P y) → mapM_res f l = Ok l' → Forall P l'.
Proof.
  revert l'; induction l as [|x t IH]; intros l' Hf H; simpl in H; [by simplify_eq; constructor|].
  apply bind_ok in H as (y & Hy & H). apply bind_ok in H as (ys & Hys & H). simplify_eq.
  constructor; [eapply Hf; [left|done]|]. eapply IH; [|done]. intros; eapply Hf; [by right|done].
Qed.

Lemma mapM_res_cons {A B} (f : A → res B) x l : mapM_res f (x :: l) = (y ← f x; ys ← mapM_res f l; Ok (y :: ys)).
Proof. done. Qed.

Lemma mapM_res_Forall2 {A B} (f : A → res B) l l' : mapM_res f l = Ok l' ↔ Forall2 (λ x y, f x = Ok y) l l'.
Proof.
  revert l'. induction l as [|x l IH]; intros l'; [split; [by intros [= <-]|by inversion 1]|]. rewrite mapM_res_cons. split.
  - intros Hm. apply bind_ok in Hm as (y & Hy & Hm). apply bind_ok in Hm as (ys & Hys & [= <-]). constructor; [done|]. by apply IH.
  - inversion 1 as [|? y ? ys Hy Hys]; subst. rewrite Hy. cbn [mbind res_bind]. apply IH in Hys as ->. done.
Qed.

Lemma mapM_res_ext {A B} (f g : A → res B) l : (∀ x, x ∈ l → f x = g x) → mapM_res f l = mapM_res g l.
Proof.
  intros Hfg. induction l as [|x l IH]; [done|]. rewrite !mapM_res_cons, Hfg by left. destruct (g x) as [y|]; [|done]. cbn [mbind res_bind].
  rewrite IH; [done|]. intros z Hz. apply Hfg. by right.
Qed.

(** * How a computation can fail *)

Definition fails_by (P : exn → Prop) {A} (r : res A) : Prop := match r with Ok _ => True | Raise e => P e end.

Lemma fails_bind P {A B} (r : res A) (k : A → res B) : fails_by P r → (∀ a, r = Ok a → fails_by P (k a)) → fails_by P (r ≫= k).
Proof. destruct r as [a|e]; cbn; auto. Qed.

Lemma fails_raise_if P {A} (c : bool) e (k : res A) : P e → (c = false → fails_by P k) → fails_by P (raise_if c with e ;; k).
Proof. destruct c; cbn; auto. Qed.

Lemma fails_of_option (P : exn → Prop) {A} e (o : option A) : P e → fails_by P (of_option e o).
Proof. destruct o; cbn; auto. Qed.

Lemma fails_raise (P : exn → Prop) {A} e : P e → fails_by P (@Raise A e).
Proof. done. Qed.

(** * Weakest preconditions of stateful computations *)

Section wp.
Context {W : Type}.

Definition wp {A} (m : SE W A) (Q : res A → W → Prop) (s : W) : Prop := let '(r, s') := m s in Q r s'.

Lemma wp_run {A} (m : SE W A) Q s r s' : wp m Q s → m s = (r, s') → Q r s'.
Proof. unfold wp. intros H E. by rewrite E in H. Qed.

Lemma wp_intro {A} (m : SE W A) (Q : res A → W → Prop) s : (∀ r s', m s = (r, s') → Q r s') → wp m Q s.
Proof. unfold wp. destruct (m s) as [r s']. auto. Qed.

Lemma wp_mono {A} (m : SE W A) (P Q : res A → W → Prop) s : (∀ r s', P r s' → Q r s') → wp m P s → wp m Q s.
Proof. unfold wp. destruct (m s). auto. Qed.

Lemma wp_ret {A} (a : A) Q (s : W) : Q (Ok a) s → wp (mret a) Q s.
Proof. done. Qed.
Lemma wp_throw {A} (e : exn) (Q : res A → W → Prop) s : Q (Raise e) s → wp (mthrow e) Q s.
Proof. done. Qed.
Lemma wp_lift {A} (r : res A) Q (s : W) : Q r s → wp (lift r) Q s.
Proof. done. Qed.
Lemma wp_get Q (s : W) : Q (Ok s) s → wp sget Q s.
Proof. done. Qed.
Lemma wp_put (s' : W) Q s : Q (Ok ()) s' → wp (sput s') Q s.
Proof. done. Qed.

Lemma wp_bind {A B} (m : SE W A) (k : A → SE W B) Q s :
  wp m (λ r s1, match r with Ok a => wp (k a) Q s1 | Raise e => Q (Raise e) s1 end) s → wp (m ≫= k) Q s.
Proof. unfold wp, mbind, se_bind. by destruct (m s) as [[a|e] s1]. Qed.

Lemma wp_raise_if {A} (c : bool) e (k : SE W A) Q s :
  (c = true → Q (Raise e) s) → (c = false → wp k Q s) → wp (raise_if c with e ;; k) Q s.
Proof. intros H1 H2. destruct c; [by apply H1|by apply H2]. Qed.
End wp.

(** [ok_inv H] takes a successful computation apart: binds, [raise_if]s and returns. *)
Ltac ok_inv H :=
  repeat (cbn beta iota zeta in H;
    match type of H with
    | (if ?c then mthrow _ else _) = Ok _ => apply raise_if_ok in H as [? H]
    | (if ?c then Raise _ else _) = Ok _ => apply raise_if_ok in H as [? H]
    | (if ?c then mthrow _ else _) _ = (Ok _, _) => apply se_raise_if_ok in H as [? H]
    | mbind _ _ _ = (Ok _, _) => apply se_bind_ok in H as (? & ? & ? & H)
    | lift _ _ = (Ok _, _) => apply lift_ok in H as [H ?]
    | mbind _ _ = Ok _ => apply bind_ok in H as (? & ? & H)
    | fmap _ _ = Ok _ => apply fmap_ok in H as (? & ? & H)
    | of_option _ _ = Ok _ => apply of_option_ok in H
    | Raise _ = Ok _ => discriminate H
    | mthrow _ = Ok _ => discriminate H
    | Ok _ = Ok _ => injection H as H
    | mret _ = Ok _ => injection H as H
    end).

Ltac lift_inv :=
  repeat match goal with E : lift _ _ = (Ok _, _) |- _ => apply lift_ok in E as [E ->] end.

(** Booleans that the code tests, turned into the propositions they decide. *)
Ltac bool_prop :=
  repeat match goal with
  | H : _ && _ = true |- _ => apply andb_true_iff in H as [? ?]
  | H : _ || _ = false |- _ => apply orb_false_iff in H as [? ?]
  | H : negb _ = true |- _ => apply negb_true_iff in H
  | H : negb _ = false |- _ => apply negb_false_iff in H
  | H : (_ <=? _) = true |- _ => apply Z.leb_le in H
  | H : (_ <=? _) = false |- _ => apply Z.leb_gt in H
  | H : (_ <? _) = true |- _ => apply Z.ltb_lt in H
  | H : (_ <? _) = false |- _ => apply Z.ltb_ge in H
  | H : (_ =? _) = true |- _ => apply Z.eqb_eq in H
  | H : (_ =? _) = false |- _ => apply Z.eqb_neq in H
  | H : bool_decide _ = true |- _ => apply bool_decide_eq_true in H
  | H : bool_decide _ = false |- _ => apply bool_decide_eq_false in H
  end.

(** Membership in a list whose elements are written out, up to existential variables. *)
Ltac list_member := first [left | right; list_member].

(** * Integers

    Python's [//] and [%] on integers are floor division and its remainder, which are [Z.div] and [Z.modulo] for every
    non-zero divisor. [ceil_div a b] is the idiom [-(-a // b)]. *)

Definition ceil_div (a b : Z) : Z := - ((- a) / b).

Lemma ceil_div_spec a b : 0 < b → b * (ceil_div a b - 1) < a ≤ b * ceil_div a b.
Proof. intros. unfold ceil_div. pose proof (Z.div_mod (- a) b). pose proof (Z.mod_pos_bound (- a) b). nia. Qed.

Lemma ceil_div_le a b c : 0 < b → ceil_div a b ≤ c ↔ a ≤ b * c.
Proof. intros Hb. pose proof (ceil_div_spec a b Hb). nia. Qed.

Lemma ceil_div_mono a a' b : 0 < b → a ≤ a' → ceil_div a b ≤ ceil_div a' b.
Proof. intros Hb ?. apply ceil_div_le; [done|]. pose proof (ceil_div_spec a' b Hb). lia. Qed.

Lemma ceil_div_mult q b : 0 < b → ceil_div (b * q) b = q.
Proof. intros Hb. pose proof (ceil_div_spec (b * q) b Hb). nia. Qed.

Lemma mod0_divide a b : 0 < b → a mod b = 0 ↔ (b | a).
Proof. intros. apply Z.mod_divide. lia. Qed.

(** [range lo hi dt] is [range(lo, hi, dt)] for a positive step. *)
Definition range (lo hi dt : Z) : list Z :=
  (λ k : nat, lo + Z.of_nat k * dt) <$> seq 0 (Z.to_nat (ceil_div (hi - lo) dt)).

Lemma elem_of_range lo hi dt t :
  0 < dt → t ∈ range lo hi dt ↔ lo ≤ t < hi ∧ (dt | t - lo).
Proof.
  intros Hdt. unfold range. rewrite list_elem_of_fmap. pose proof (ceil_div_spec (hi - lo) dt Hdt). split.
  - intros (k & -> & Hk). apply elem_of_seq in Hk. split; [nia|]. exists (Z.of_nat k). lia.
  - intros ([? ?] & q & Hq). exists (Z.to_nat q). split; [nia|]. apply elem_of_seq. nia.
Qed.

Lemma length_range lo hi dt : length (range lo hi dt) = Z.to_nat (ceil_div (hi - lo) dt).
Proof. unfold range. by rewrite length_fmap, length_seq. Qed.

Lemma lookup_range lo hi dt (i : nat) :
  Z.of_nat i < ceil_div (hi - lo) dt → range lo hi dt !! i = Some (lo + Z.of_nat i * dt).
Proof. intros. unfold range. rewrite list_lookup_fmap, lookup_seq_lt by lia. done. Qed.

(** * Lists *)

(** [l[-n:]]: the last [n] elements, and the whole list when [n] is 0 (since [-0 = 0]). *)
Definition last_n {A} (n : Z) (l : list A) : list A :=
  if n =? 0 then l else if n <? 0 then drop (Z.to_nat (- n)) l else drop (length l - Z.to_nat n) l.

Lemma last_n_length {A} n (l : list A) : 0 < n → (length (last_n n l) ≤ Z.to_nat n)%nat.
Proof.
  intros. unfold last_n. destruct (Z.eqb_spec n 0); [lia|]. destruct (Z.ltb_spec n 0); [lia|].
  rewrite length_drop. lia.
Qed.

Lemma last_n_suffix {A} n (l : list A) : last_n n l `suffix_of` l.
Proof.
  unfold last_n. destruct (n =? 0); [done|].
  destruct (n <? 0); [exists (take (Z.to_nat (- n)) l)|exists (take (length l - Z.to_nat n) l)];
  by rewrite take_drop.
Qed.

Lemma last_n_all {A} n (l : list A) : Z.of_nat (length l) ≤ n → last_n n l = l.
Proof.
  intros. unfold last_n. destruct (Z.eqb_spec n 0); [done|]. destruct (Z.ltb_spec n 0); [lia|].
  replace (length l - Z.to_nat n)%nat with 0%nat by lia. done.
Qed.

(** [l[i]]: a negative index counts from the end. *)
Definition py_nth {A} (l : list A) (i : Z) : res A :=
  let n := Z.of_nat (length l) in
  let j := if i <? 0 then i + n else i in
  if j <? 0 then Raise PyIndexError else of_option PyIndexError (l !! Z.to_nat j).

Lemma py_nth_ok {A} (l : list A) i x : 0 ≤ i → l !! Z.to_nat i = Some x → py_nth l i = Ok x.
Proof. intros Hi Hl. unfold py_nth. rewrite (proj2 (Z.ltb_ge _ _) Hi), (proj2 (Z.ltb_ge _ _) Hi). by rewrite Hl. Qed.

Definition sumZ (l : list Z) : Z := foldr Z.add 0 l.

Lemma string_length_app a b : String.length (a +:+ b) = (String.length a + String.length b)%nat.
Proof. induction a as [|c a IH]; [done|]. exact (f_equal S IH). Qed.

Lemma sumZ_cons x l : sumZ (x :: l) = x + sumZ l.
Proof. done. Qed.

Lemma sumZ_app l1 l2 : sumZ (l1 ++ l2) = sumZ l1 + sumZ l2.
Proof. induction l1; simpl; lia. Qed.

(** Python's stable sort: [leb x y] is [not (y < x)]. *)
Section sort.
Context {A : Type} (leb : A → A → bool).

Fixpoint insert_by (x : A) (l : list A) : list A :=
  match l with
  | [] => [x]
  | y :: t => if leb x y then x :: l else y :: insert_by x t
  end.

Definition sort_by (l : list A) : list A := foldr insert_by [] l.

Lemma insert_by_perm x l : insert_by x l ≡ₚ x :: l.
Proof. induction l as [|y t IH]; simpl; [done|]. destruct (leb x y); [done|]. rewrite IH. constructor. Qed.

Lemma sort_by_perm l : sort_by l ≡ₚ l.
Proof. induction l; simpl; [done|]. rewrite insert_by_perm. by f_equiv. Qed.

Lemma sort_by_length l : length (sort_by l) = length l.
Proof. by rewrite sort_by_perm. Qed.

Lemma elem_of_sort_by x l : x ∈ sort_by l ↔ x ∈ l.
Proof. by rewrite sort_by_perm. Qed.

Context (P : A → Prop).
Context (Htot : ∀ x y, P x → P y → leb x y = true ∨ leb y x = true).
Context (Htrans : ∀ x y z, P x → P y → P z → leb x y = true → leb y z = true → leb x z = true).

Lemma insert_by_sorted x l :
  P x → Forall P l → StronglySorted (λ a b, leb a b = true) l →
  StronglySorted (λ a b, leb a b = true) (insert_by x l).
Proof.
  intros Hx Hl Hs. induction Hs as [|y t Hs IH Hy]; simpl; [by repeat constructor|].
  inversion Hl; subst. destruct (leb x y) eqn:E.
  - constructor; [by constructor|]. constructor; [done|].
    rewrite Forall_forall in Hy |- *. intros z Hz. eapply Htrans; [done|done| |done|auto].
    rewrite Forall_forall in Hl. apply Hl. by right.
  - constructor; [auto|]. rewrite insert_by_perm. constructor; [|done].
    destruct (Htot x y); [done|done|congruence|done].
Qed.

Lemma sort_by_sorted l : Forall P l → StronglySorted (λ a b, leb a b = true) (sort_by l).
Proof.
  induction l as [|x t IH]; intros Hl; simpl; [constructor|]. inversion Hl; subst.
  apply insert_by_sorted; auto. by rewrite sort_by_perm.
Qed.

Lemma insert_by_id x l : StronglySorted (λ a b, leb a b = true) (x :: l) → insert_by x l = x :: l.
Proof. destruct l as [|y t]; [done|]. inversion 1; subst. simpl. by rewrite (Forall_inv H3). Qed.

Lemma sort_by_id l : StronglySorted (λ a b, leb a b = true) l → sort_by l = l.
Proof.
  induction l as [|x t IH]; intros Hs; [done|]. simpl. rewrite IH by (by inversion Hs). by apply insert_by_id.
Qed.
End sort.

Lemma SS_snoc {A} (R : A → A → Prop) l x :
  StronglySorted R l → Forall (λ y, R y x) l → StronglySorted R (l ++ [x]).
Proof.
  induction 1 as [|y t Hs IH Hy]; intros Hf; cbn; [by repeat constructor|]. apply Forall_cons in Hf as [? Hf].
  constructor; [by apply IH|]. apply Forall_app. by repeat constructor.
Qed.

Lemma SS_fmap_filter {A B} (R : B → B → Prop) (f : A → B) (P : A → Prop) `{∀ x, Decision (P x)} l :
  StronglySorted R (f <$> l) → StronglySorted R (f <$> filter P l).
Proof.
  induction l as [|x t IH]; intros Hs; [constructor|]. inversion Hs as [|? ? Ht Hx]; subst. rewrite filter_cons.
  case_decide; [|by apply IH]. constructor; [by apply IH|]. rewrite Forall_forall in Hx |- *. intros y Hy. apply Hx.
  apply list_elem_of_fmap in Hy as (z & -> & Hz). apply list_elem_of_fmap. exists z. split; [done|].
  by apply list_elem_of_filter in Hz as [? ?].
Qed.

Lemma SS_fmap {A B} (R : B → B → Prop) (f : A → B) l :
  StronglySorted (λ x y, R (f x) (f y)) l → StronglySorted R (f <$> l).
Proof. induction 1 as [|x t _ IH Hx]; cbn; constructor; [done|]. by apply Forall_fmap. Qed.

Lemma SS_suffix {A} (R : A → A → Prop) l l' : l' `suffix_of` l → StronglySorted R l → StronglySorted R l'.
Proof. intros [k ->]. induction k as [|x k IH]; [done|]. inversion 1; subst. by apply IH. Qed.

Lemma elem_of_last_n {A} n (l : list A) x : x ∈ last_n n l → x ∈ l.
Proof. destruct (last_n_suffix n l) as [k E]. intros. rewrite E. apply elem_of_app. by right. Qed.

Lemma NoDup_fmap_filter {A B} (f : A → B) (P : A → Prop) `{∀ x, Decision (P x)} l : NoDup (f <$> l) → NoDup (f <$> filter P l).
Proof.
  induction l as [|x t IH]; intros Hs; [constructor|]. apply NoDup_cons in Hs as [Hx Ht]. rewrite filter_cons.
  case_decide; [|by apply IH]. cbn. apply NoDup_cons. split; [|by apply IH]. intros Hy. apply Hx.
  apply list_elem_of_fmap in Hy as (z & -> & Hz). apply list_elem_of_fmap. exists z. split; [done|].
  by apply list_elem_of_filter in Hz as [? ?].
Qed.

Lemma list_nil_filter {A} (P : A → Prop) `{∀ x, Decision (P x)} l : Forall (λ x, ¬ P x) l → filter P l = [].
Proof. induction 1 as [|x t Hx _ IH]; [done|]. rewrite filter_cons. by rewrite decide_False. Qed.

Lemma filter_true {B} (P : B → Prop) `{∀ x, Decision (P x)} l : Forall P l → filter P l = l.
Proof. induction 1 as [|x t Hx _ IH]; [done|]. rewrite filter_cons, decide_True by done. by rewrite IH. Qed.

Lemma filter_bool_cons {A} (p : A → bool) x (l : list A) : filter (λ y, p y) (x :: l) = if p x then x :: filter (λ y, p y) l else filter (λ y, p y) l.
Proof. rewrite filter_cons. by destruct (p x). Qed.

Lemma filter_and {A} (p q : A → bool) (l : list A) : filter (λ x, p x && q x) l = filter (λ x, q x) (filter (λ x, p x) l).
Proof.
  induction l as [|x t IH]; [done|]. rewrite (filter_bool_cons (λ x, p x && q x)), (filter_bool_cons p).
  destruct (p x); rewrite ?andb_true_l, ?andb_false_l; [|done]. rewrite (filter_bool_cons q). destruct (q x); by rewrite IH.
Qed.

(** A list sorted by a rowid, cut at one. *)
Lemma SS_cut {A} (f : A → Z) (n : Z) (l : list A) : StronglySorted Z.lt (f <$> l) →
  l = filter (λ x, f x <=? n) l ++ filter (λ x, n <? f x) l.
Proof.
  induction l as [|x t IH]; intros Hs; [done|]. inversion Hs as [|? ? Ht Hx]; subst.
  rewrite filter_bool_cons, filter_bool_cons. destruct (Z.leb_spec (f x) n), (Z.ltb_spec n (f x)); try lia.
  - cbn. f_equal. by apply IH.
  - assert (filter (λ y, f y <=? n) t = []) as E.
    { apply list_nil_filter. rewrite Forall_fmap in Hx. eapply Forall_impl; [exact Hx|]. cbn. intros y ?.
      rewrite Is_true_true, Z.leb_le. lia. }
    specialize (IH Ht). rewrite E in IH |- *. cbn in *. by f_equal.
Qed.

Lemma Forall_filter {A} (Q P : A → Prop) `{∀ x, Decision (P x)} l : Forall Q l → Forall Q (filter P l).
Proof. rewrite !Forall_forall. intros H' x Hx. apply list_elem_of_filter in Hx as [_ ?]. auto. Qed.

(** Filtering and sorting commute. *)
Section sort_filter.
Context {A : Type} (leb : A → A → bool) (P : A → Prop) `{!∀ x, Decision (P x)}.
Context (Htot : ∀ x y, leb x y = true ∨ leb y x = true) (Htrans : ∀ x y z, leb x y = true → leb y z = true → leb x z = true).

Lemma filter_insert_by x l : StronglySorted (λ a b, leb a b = true) l →
  filter P (insert_by leb x l) = if decide (P x) then insert_by leb x (filter P l) else filter P l.
Proof.
  induction 1 as [|y t Hs IH Hy]; cbn [insert_by]; [by rewrite filter_cons|]. destruct (leb x y) eqn:E.
  - rewrite filter_cons. case_decide; [|done]. rewrite insert_by_id; [done|]. constructor.
    + pose proof (SS_fmap_filter (λ a b, leb a b = true) id P (y :: t)) as F. rewrite !list_fmap_id in F. apply F. by constructor.
    + apply Forall_filter. constructor; [done|]. eapply Forall_impl; [exact Hy|]. intros z Hz. by eapply Htrans.
  - rewrite !filter_cons, IH. repeat case_decide; try done. cbn [insert_by]. by rewrite E.
Qed.

Lemma filter_sort_by l : filter P (sort_by leb l) = sort_by leb (filter P l).
Proof.
  unfold sort_by. induction l as [|x t IH]; [done|]. cbn [foldr]. rewrite filter_insert_by.
  - rewrite IH, filter_cons. by case_decide.
  - apply (sort_by_sorted leb (λ _, True)); [intros; apply Htot|intros ? ? ? _ _ _; apply Htrans|by apply Forall_forall].
Qed.
End sort_filter.

Lemma NoDup_snoc {A} (l : list A) x : NoDup l → x ∉ l → NoDup (l ++ [x]).
Proof.
  intros Hl Hx. apply NoDup_app. split; [done|]. split; [|apply NoDup_singleton].
  intros y Hy ->%list_elem_of_singleton. done.
Qed.

(** The element a key names is unique. *)
Lemma NoDup_fmap_inj {A B} (f : A → B) l x y : NoDup (f <$> l) → x ∈ l → y ∈ l → f x = f y → x = y.
Proof.
  induction l as [|z t IH]; intros Hd Hx Hy E; [by apply elem_of_nil in Hx|]. apply NoDup_cons in Hd as [Hz Hd].
  apply elem_of_cons in Hx, Hy. destruct Hx as [->|Hx], Hy as [->|Hy]; [done| | |by apply IH].
  - destruct Hz. rewrite E. apply list_elem_of_fmap. eauto.
  - destruct Hz. rewrite <-E. apply list_elem_of_fmap. eauto.
Qed.

(** The first element that satisfies a test true of exactly one of them. *)
Lemma find_unique {A} (p : A → bool) l x :
  x ∈ l → p x = true → (∀ y, y ∈ l → p y = true → y = x) → List.find p l = Some x.
Proof.
  intros Hx Hp Hu. destruct (List.find p l) as [y|] eqn:E.
  - apply List.find_some in E as [Hy Hpy]. f_equal. apply Hu; [by apply list_elem_of_In|done].
  - pose proof (List.find_none _ _ E x (proj1 (list_elem_of_In _ _) Hx)). congruence.
Qed.

Lemma find_None {A} (p : A → bool) l : List.find p l = None ↔ ∀ x, x ∈ l → p x = false.
Proof.
  split; [intros H x Hx; eapply List.find_none; [done|by apply list_elem_of_In]|].
  intros H. destruct (List.find p l) as [y|] eqn:E; [|done]. apply List.find_some in E as [Hy Hp].
  apply list_elem_of_In in Hy. specialize (H y Hy). congruence.
Qed.

Lemma existsb_false {A} (p : A → bool) l : existsb p l = false ↔ ∀ x, x ∈ l → p x = false.
Proof.
  split.
  - intros H x Hx. destruct (p x) eqn:E; [|done]. assert (existsb p l = true); [|congruence].
    apply existsb_exists. exists x. split; [by apply list_elem_of_In|done].
  - intros H. destruct (existsb p l) eqn:E; [|done]. apply existsb_exists in E as (x & Hx & Hp).
    apply list_elem_of_In in Hx. specialize (H x Hx). congruence.
Qed.

(** * Dictionaries

    A Python dict keeps insertion order: assigning an existing key keeps its place, a new key goes last. The order is
    observable here (floating-point sums over a dict, JSON text before sorting), so a dict is an association list. *)
Section dict.
Context {K V : Type} `{EqDecision K}.

Fixpoint dget (k : K) (d : list (K * V)) : option V :=
  match d with
  | [] => None
  | (k', v) :: t => if decide (k = k') then Some v else dget k t
  end.

Fixpoint dset (k : K) (v : V) (d : list (K * V)) : list (K * V) :=
  match d with
  | [] => [(k, v)]
  | (k', v') :: t => if decide (k = k') then (k', v) :: t else (k', v') :: dset k v t
  end.

Definition ddel (k : K) (d : list (K * V)) : list (K * V) := filter (λ p, p.1 ≠ k) d.

Definition dhas (k : K) (d : list (K * V)) : bool := bool_decide (is_Some (dget k d)).

Lemma dget_dset_eq k v d : dget k (dset k v d) = Some v.
Proof. induction d as [|[k' v'] t IH]; simpl; repeat case_decide; simpl; repeat case_decide; congruence. Qed.

Lemma dget_dset_ne k k' v d : k ≠ k' → dget k (dset k' v d) = dget k d.
Proof.
  intros Hne. induction d as [|[k2 v2] t IH]; simpl; repeat case_decide; simpl; repeat case_decide; congruence.
Qed.

Lemma dget_dset k k' v d : dget k (dset k' v d) = if decide (k = k') then Some v else dget k d.
Proof. case_decide; subst; [apply dget_dset_eq|by apply dget_dset_ne]. Qed.

Lemma dget_ddel k k' d : dget k (ddel k' d) = if decide (k = k') then None else dget k d.
Proof.
  unfold ddel. induction d as [|[k2 v2] t IH]; simpl; [by case_decide|].
  rewrite filter_cons. simpl. repeat case_decide; simpl in *; subst; repeat case_decide; try congruence.
Qed.

Lemma dget_elem_of k v d : dget k d = Some v → (k, v) ∈ d.
Proof.
  induction d as [|[k2 v2] t IH]; simpl; [done|]. case_decide; intros; simplify_eq; [left|right; auto].
Qed.

Lemma elem_of_dget k v d : NoDup d.*1 → (k, v) ∈ d → dget k d = Some v.
Proof.
  induction d as [|[k2 v2] t IH]; simpl; intros Hd He; [by apply elem_of_nil in He|].
  apply NoDup_cons in Hd as [Hn Hd]. apply elem_of_cons in He as [He|He]; [simplify_eq; by case_decide|].
  case_decide; subst; [|auto]. destruct Hn. apply list_elem_of_fmap. by exists (k2, v).
Qed.

Lemma dget_None k d : dget k d = None ↔ k ∉ d.*1.
Proof.
  induction d as [|[k2 v2] t IH]; simpl; [split; [intros _; apply not_elem_of_nil|done]|].
  rewrite not_elem_of_cons. destruct (decide (k = k2)) as [->|]; naive_solver.
Qed.

Lemma dget_perm k d d' : NoDup d.*1 → d' ≡ₚ d → dget k d' = dget k d.
Proof.
  intros Hn Hp. assert (NoDup d'.*1) as Hn' by (by rewrite Hp). destruct (dget k d) as [v|] eqn:E.
  - apply elem_of_dget; [done|]. rewrite Hp. by apply dget_elem_of.
  - apply dget_None. rewrite Hp. by apply dget_None.
Qed.

Lemma dset_keys k v d : (dset k v d).*1 = if decide (k ∈ d.*1) then d.*1 else d.*1 ++ [k].
Proof.
  induction d as [|[k2 v2] t IH]; [done|]. cbn [dset]. destruct (decide (k = k2)) as [->|Hne]; cbn [fmap list_fmap fst].
  - rewrite decide_True by left. done.
  - rewrite IH. destruct (decide (k ∈ t.*1)) as [Hi|Hi].
    + by rewrite decide_True by by right.
    + rewrite decide_False; [done|]. rewrite elem_of_cons. naive_solver.
Qed.

Lemma dset_fresh k v d : k ∉ d.*1 → dset k v d = d ++ [(k, v)].
Proof.
  induction d as [|[k' v'] t IH]; cbn; [done|]. rewrite not_elem_of_cons. intros [? ?].
  rewrite decide_False by done. by rewrite IH.
Qed.

Lemma dset_NoDup k v d : NoDup d.*1 → NoDup (dset k v d).*1.
Proof.
  intros. rewrite dset_keys. case_decide; [done|]. apply NoDup_app. split; [done|]. split; [|apply NoDup_singleton].
  intros x Hx ->%list_elem_of_singleton. done.
Qed.

Lemma filter_keys_NoDup (P : K * V → Prop) `{∀ x, Decision (P x)} d : NoDup d.*1 → NoDup (filter P d).*1.
Proof.
  induction d as [|[k2 v2] t IH]; intros Hd; [constructor|]. apply NoDup_cons in Hd as [Hn Hd].
  rewrite filter_cons. case_decide; [|auto]. apply NoDup_cons. split; [|auto].
  intros He. apply Hn. apply list_elem_of_fmap in He as ([k3 v3] & -> & He%list_elem_of_filter).
  apply list_elem_of_fmap. exists (k3, v3). naive_solver.
Qed.

Lemma elem_of_dset k v k' v' d :
  (k', v') ∈ dset k v d → (k' = k ∧ v' = v) ∨ (k', v') ∈ d.
Proof.
  induction d as [|[k2 v2] t IH]; simpl; [rewrite list_elem_of_singleton; naive_solver|].
  destruct (decide (k = k2)) as [->|]; rewrite !elem_of_cons; naive_solver.
Qed.
End dict.

#[export] Hint Rewrite @dget_dset_eq @dget_dset @dget_ddel : dict.
Create HintDb py.
#[export] Hint Resolve dset_NoDup filter_keys_NoDup : py.

(** [max(a, b)] and friends on optional values: [x or y] where only [None] is falsy is written out at its use. *)
Definition or_default {A} (d : A) (o : option A) : A := match o with Some a => a | None => d end.
