(* ===== verification/Float64.v ===== *)
(** Python's [float]: IEEE 754 binary64 with round-to-nearest-even, computed by the Standard Library's executable
    specification ([SpecFloat]) at precision 53 and maximal exponent 1024. The comparisons, [max]/[min], [abs],
    [math.isfinite], [math.floor], the exact [int]-to-[float] conversion, true division of integers, [sum()] with the
    compensation it has had since Python 3.12 (the interpreter of the service images) and the correctly rounded decimal
    conversions behind [float(str)] and [repr(float)] are defined here, with the order laws the components use. *)
From Stdlib Require Import SpecFloat.
From S2P Require Import Prelude.

Abbreviation f64 := spec_float.

#[export] Instance f64_eq_dec : EqDecision f64.
Proof. solve_decision. Defined.

Declare Scope f64_scope.
Delimit Scope f64_scope with f64.

Definition prec : Z := 53.
Definition emax : Z := 1024.
Definition fadd (x y : f64) : f64 := SFadd prec emax x y.
Definition fsub (x y : f64) : f64 := SFsub prec emax x y.
Definition fmul (x y : f64) : f64 := SFmul prec emax x y.
Definition fdiv (x y : f64) : f64 := SFdiv prec emax x y.
Definition flt (x y : f64) : bool := SFltb x y.
Definition fle (x y : f64) : bool := SFleb x y.
Definition feq (x y : f64) : bool := SFeqb x y.
Definition fabs (x : f64) : f64 := SFabs x.

Infix "⊕" := fadd (at level 50, left associativity) : f64_scope.
Infix "⊖" := fsub (at level 50, left associativity) : f64_scope.
Infix "⊗" := fmul (at level 40, left associativity) : f64_scope.
Infix "⊘" := fdiv (at level 40, left associativity) : f64_scope.
Infix "<ᶠ" := flt (at level 70, no associativity) : f64_scope.
Infix "≤ᶠ" := fle (at level 70, no associativity) : f64_scope.
#[global] Open Scope f64_scope.

(** [float(z)] and the implicit conversion of an [int] operand. *)
Definition f64_of_Z (z : Z) : f64 := binary_normalize prec emax z 0 false.

Definition f0 : f64 := S754_zero false.
Definition f1 : f64 := f64_of_Z 1.

(** [a / b] on integers of at most 53 bits; the callers guard [b = 0]. *)
Definition idiv (a b : Z) : f64 := f64_of_Z a ⊘ f64_of_Z b.

Definition is_nan (x : f64) : bool := match x with S754_nan => true | _ => false end.
Definition is_finite (x : f64) : bool := match x with S754_zero _ | S754_finite _ _ _ => true | _ => false end.

(** [max(a, b)] and [min(a, b)] keep the first argument unless the second is strictly beyond it. *)
Definition fmax (a b : f64) : f64 := if a <ᶠ b then b else a.
Definition fmin (a b : f64) : f64 := if b <ᶠ a then b else a.
Definition fmax_list (x : f64) (l : list f64) : f64 := foldl fmax x l.

(** [sum()] of a sequence of floats: Neumaier's compensated sum, starting from the integer 0. *)
Fixpoint sum_from (s c : f64) (l : list f64) : f64 :=
  match l with
  | [] => if feq c f0 || negb (is_finite c) then s else s ⊕ c
  | x :: t =>
      let t' := s ⊕ x in
      let c' := if fle (fabs x) (fabs s) then c ⊕ ((s ⊖ t') ⊕ x) else c ⊕ ((x ⊖ t') ⊕ s) in
      sum_from t' c' t
  end.

Definition py_sum (l : list f64) : f64 :=
  match l with [] => f0 | x :: t => sum_from (f0 ⊕ x) f0 t end.

(** [math.floor] of a finite float. *)
Definition ffloor (x : f64) : option Z :=
  match x with
  | S754_zero _ => Some 0
  | S754_finite s m e =>
      let z := cond_Zopp s (Zpos m) in Some (if 0 <=? e then z * 2 ^ e else z / 2 ^ (- e))
  | _ => None
  end.

(** [float.is_integer]-style test and value: [x == int(x)]. *)
Definition f64_to_int (x : f64) : option Z :=
  match x with
  | S754_zero _ => Some 0
  | S754_finite s m e =>
      let z := cond_Zopp s (Zpos m) in
      if 0 <=? e then Some (z * 2 ^ e) else if z mod 2 ^ (- e) =? 0 then Some (z / 2 ^ (- e)) else None
  | _ => None
  end.

(** * Order

    Every float that is not a NaN has a key in lexicographically ordered triples: its class, then its signed exponent,
    then its signed mantissa. Comparison is comparison of keys, so the order laws are linear arithmetic. *)

Definition fkey (x : f64) : Z * Z * Z :=
  match x with
  | S754_zero _ | S754_nan => (0, 0, 0)
  | S754_infinity s => (if s then -2 else 2, 0, 0)
  | S754_finite s m e => if s then (-1, - e, Zneg m) else (1, e, Zpos m)
  end.

Definition key_lt (a b : Z * Z * Z) : Prop :=
  a.1.1 < b.1.1 ∨ a.1.1 = b.1.1 ∧ (a.1.2 < b.1.2 ∨ a.1.2 = b.1.2 ∧ a.2 < b.2).

Lemma SFcompare_key x y :
  is_nan x = false → is_nan y = false →
  match SFcompare x y with
  | Some Lt => key_lt (fkey x) (fkey y)
  | Some Gt => key_lt (fkey y) (fkey x)
  | Some Eq => fkey x = fkey y
  | None => False
  end.
Proof.
  unfold key_lt.
  destruct x as [sx|sx| |sx mx ex], y as [sy|sy| |sy my ey]; try discriminate; intros _ _;
    try destruct sx; try destruct sy; cbn; try lia; try done.
  - destruct (Z.compare_spec ex ey); subst; cbn; try lia.
    change (Pos.compare_cont Eq mx my) with (Pos.compare mx my).
    destruct (Pos.compare_spec mx my); subst; cbn; try lia; done.
  - destruct (Z.compare_spec ex ey); subst; cbn; try lia.
    change (Pos.compare_cont Eq mx my) with (Pos.compare mx my).
    destruct (Pos.compare_spec mx my); subst; cbn; try lia; done.
Qed.

Lemma SFcompare_nan x y : SFcompare x y = None ↔ is_nan x = true ∨ is_nan y = true.
Proof. destruct x, y; cbn; naive_solver. Qed.

Lemma flt_key x y : flt x y = true ↔ is_nan x = false ∧ is_nan y = false ∧ key_lt (fkey x) (fkey y).
Proof.
  unfold flt, SFltb. destruct (is_nan x) eqn:Hx; [|destruct (is_nan y) eqn:Hy].
  - destruct x; try discriminate. cbn. naive_solver.
  - destruct y; try discriminate. destruct x; cbn; naive_solver.
  - pose proof (SFcompare_key x y Hx Hy) as H. unfold key_lt in *.
    destruct (SFcompare x y) as [[]|]; [rewrite H| | |done]; split; intuition (try discriminate; try lia).
Qed.

Lemma fle_key x y : fle x y = true ↔ is_nan x = false ∧ is_nan y = false ∧ ¬ key_lt (fkey y) (fkey x).
Proof.
  unfold fle, SFleb. destruct (is_nan x) eqn:Hx; [|destruct (is_nan y) eqn:Hy].
  - destruct x; try discriminate. cbn. naive_solver.
  - destruct y; try discriminate. destruct x; cbn; naive_solver.
  - pose proof (SFcompare_key x y Hx Hy) as H. unfold key_lt in *.
    destruct (SFcompare x y) as [[]|]; [rewrite H| | |done]; split; intuition (try discriminate; try lia).
Qed.

Ltac f64_order :=
  rewrite ?fle_key, ?flt_key in *; unfold key_lt in *; intuition (try congruence; try lia).

Lemma feq_refl x : is_nan x = false → feq x x = true.
Proof.
  destruct x as [[]|[]| |[] m e]; try done; intros _; unfold feq, SFeqb; cbn [SFcompare];
    rewrite Z.compare_refl, Pos.compare_cont_refl; done.
Qed.

Lemma fle_refl x : is_nan x = false → fle x x = true.
Proof. intros. f64_order. Qed.
Lemma fle_trans x y z : fle x y = true → fle y z = true → fle x z = true.
Proof. intros. f64_order. Qed.
Lemma flt_le_trans x y z : flt x y = true → fle y z = true → flt x z = true.
Proof. intros. f64_order. Qed.
Lemma fle_lt_trans x y z : fle x y = true → flt y z = true → flt x z = true.
Proof. intros. f64_order. Qed.
Lemma flt_le x y : flt x y = true → fle x y = true.
Proof. intros. f64_order. Qed.
Lemma fle_total x y : is_nan x = false → is_nan y = false → fle x y = true ∨ fle y x = true.
Proof. intros. destruct (fle x y) eqn:E; [by left|right]. rewrite <-not_true_iff_false in E. f64_order. Qed.
Lemma flt_not_le x y : is_nan x = false → is_nan y = false → flt x y = negb (fle y x).
Proof.
  intros Hx Hy. destruct (fle y x) eqn:E; cbn.
  - rewrite <-not_true_iff_false. f64_order.
  - rewrite <-not_true_iff_false in E. f64_order.
Qed.
Lemma flt_irrefl x : flt x x = false.
Proof. rewrite <-not_true_iff_false. f64_order. Qed.
Lemma flt_asymm x y : flt x y = true → flt y x = false.
Proof. intros. rewrite <-not_true_iff_false. f64_order. Qed.
Lemma fle_nan_l x y : fle x y = true → is_nan x = false.
Proof. intros. f64_order. Qed.
Lemma fle_nan_r x y : fle x y = true → is_nan y = false.
Proof. intros. f64_order. Qed.
Lemma finite_not_nan x : is_finite x = true → is_nan x = false.
Proof. by destruct x. Qed.
Lemma fabs_nonneg x : is_nan x = false → fle f0 (fabs x) = true.
Proof. destruct x as [[]|[]| |[] ? ?]; try discriminate; reflexivity. Qed.

#[export] Hint Resolve fle_refl flt_le finite_not_nan : py.

Lemma fmax_l a b : is_nan a = false → is_nan b = false → fle a (fmax a b) = true.
Proof. intros. unfold fmax. destruct (flt a b) eqn:E; auto with py. Qed.
Lemma fmax_r a b : is_nan a = false → is_nan b = false → fle b (fmax a b) = true.
Proof.
  intros Ha Hb. unfold fmax. destruct (flt a b) eqn:E; [auto with py|].
  rewrite flt_not_le in E by done. by apply negb_false_iff.
Qed.
Lemma fmax_either a b : fmax a b = a ∨ fmax a b = b.
Proof. unfold fmax. destruct (flt a b); auto. Qed.

(** [max(0.0, x)] is never negative, whatever [x] is (a NaN gives 0.0). *)
Lemma fmax_0_nonneg x : fle f0 (fmax f0 x) = true.
Proof. unfold fmax. destruct (flt f0 x) eqn:E; [by apply flt_le|reflexivity]. Qed.

Lemma fmax_list_spec x l :
  is_nan x = false → Forall (λ y, is_nan y = false) l →
  fmax_list x l ∈ x :: l ∧ Forall (λ y, fle y (fmax_list x l) = true) (x :: l).
Proof.
  unfold fmax_list. revert x; induction l as [|y t IH]; intros x Hx Hl; cbn [foldl].
  - split; [left|]. constructor; [by apply fle_refl|constructor].
  - inversion Hl as [|? ? Hy Ht]; subst.
    assert (Hm : is_nan (fmax x y) = false) by (destruct (fmax_either x y) as [-> | ->]; done).
    destruct (IH _ Hm Ht) as [Hin Hall]. inversion Hall as [|? ? Hm1 Hall']; subst. split.
    + apply elem_of_cons in Hin as [->|Hin]; [|by do 2 right].
      destruct (fmax_either x y) as [-> | ->]; [left|right; left].
    + constructor; [|constructor; [|done]]; (eapply fle_trans; [|done]); [by apply fmax_l|by apply fmax_r].
Qed.

(** * Rounding never makes a NaN

    A finite result or an overflow to infinity: the mantissa stays non-negative through every shift. *)

Lemma shr_1_nonneg r : 0 <= shr_m r → 0 <= shr_m (shr_1 r).
Proof. destruct r as [[|[?|?|]|?] ? ?]; cbn; lia. Qed.

Lemma iter_shr_nonneg p r : 0 <= shr_m r → 0 <= shr_m (SpecFloat.iter_pos shr_1 p r).
Proof. revert r. induction p as [p IH|p IH|]; intros r H; cbn [SpecFloat.iter_pos]; auto using shr_1_nonneg. Qed.

Lemma shr_nonneg r e n : 0 <= shr_m r → 0 <= shr_m (shr r e n).1.
Proof. destruct n; cbn; auto using iter_shr_nonneg. Qed.

Lemma round_aux_not_nan s m e l : 0 <= m → is_nan (binary_round_aux prec emax s m e l) = false.
Proof.
  intros Hm. unfold binary_round_aux, shr_fexp.
  pose proof (shr_nonneg (shr_record_of_loc m l) e (fexp prec emax (Zdigits2 m + e) - e)) as H1.
  destruct (shr (shr_record_of_loc m l) e _) as [r1 e1]. cbn [fst] in H1.
  assert (0 <= shr_m r1) as H1' by (apply H1; destruct l as [|[]]; cbn; lia).
  set (m2 := round_nearest_even _ _). assert (0 <= m2) as Hm2.
  { unfold m2, round_nearest_even. destruct (loc_of_shr_record r1) as [|[]]; [|destruct (Z.even _)|..]; lia. }
  clearbody m2. pose proof (shr_nonneg (shr_record_of_loc m2 loc_Exact) e1 (fexp prec emax (Zdigits2 m2 + e1) - e1) Hm2) as H2.
  destruct (shr _ e1 _) as [r2 e2]. cbn [fst] in H2. destruct (shr_m r2); [done| |lia]. by destruct (_ <=? _).
Qed.

Lemma normalize_not_nan m e s : is_nan (binary_normalize prec emax m e s) = false.
Proof.
  destruct m as [|p|p]; unfold binary_normalize, binary_round; [done|..]; destruct (shl_align _ _ _) as [mz ez];
    by apply round_aux_not_nan.
Qed.

Lemma fadd_not_nan x y : is_finite x = true → is_finite y = true → is_nan (x ⊕ y) = false.
Proof.
  unfold fadd. destruct x as [[]|[]| |sx mx ex], y as [[]|[]| |sy my ey]; try done. intros _ _. cbn. apply normalize_not_nan.
Qed.
Lemma fsub_not_nan x y : is_finite x = true → is_finite y = true → is_nan (x ⊖ y) = false.
Proof.
  unfold fsub. destruct x as [[]|[]| |sx mx ex], y as [[]|[]| |sy my ey]; try done. intros _ _. cbn. apply normalize_not_nan.
Qed.
Lemma fmul_not_nan x y : is_finite x = true → is_finite y = true → is_nan (x ⊗ y) = false.
Proof.
  unfold fmul. destruct x as [[]|[]| |sx mx ex], y as [[]|[]| |sy my ey]; try done. intros _ _. cbn.
  by apply round_aux_not_nan.
Qed.
Lemma f64_of_Z_not_nan z : is_nan (f64_of_Z z) = false.
Proof. apply normalize_not_nan. Qed.

(** * Decimal conversions *)

(** [m * 10^k] rounded to the nearest float: the value of [float("<m>e<k>")] for [m >= 0]. *)
Definition f64_of_dec (neg : bool) (m k : Z) : f64 :=
  match m with
  | Zpos p =>
      if 0 <=? k then binary_round prec emax neg (Z.to_pos (m * 10 ^ k)) 0
      else let '(mz, ez, lz) := SFdiv_core_binary prec emax m 0 (10 ^ (- k)) 0 in
           binary_round_aux prec emax neg mz ez lz
  | _ => S754_zero neg
  end.

(** The number of decimal digits before the point of [m * 2^e] ([decpt] of the C library: [0.d1d2... * 10^decpt]). *)
Definition dec_ge (m e k : Z) : bool :=       (* 10^k <= m * 2^e *)
  let '(a, b) := if 0 <=? k then (10 ^ k, 1) else (1, 10 ^ (- k)) in
  let '(c, d) := if 0 <=? e then (m * 2 ^ e, 1) else (m, 2 ^ (- e)) in
  a * d <=? c * b.

Fixpoint decpt_up (fuel : nat) (m e k : Z) : Z :=
  match fuel with O => k | S n => if dec_ge m e k then decpt_up n m e (k + 1) else k end.

Definition decpt (m e : Z) : Z :=
  let guess := (Z.log2 m + e) * 30103 / 100000 - 1 in decpt_up 4 m e guess.

(** [m * 2^e] rounded half-even to [n] decimal digits when its point is at [dp]: the digits as an integer. *)
Definition dec_round (m e dp n : Z) : Z :=
  let k := n - dp in
  let '(a, b) := if 0 <=? k then (m * 10 ^ k, 1) else (m, 10 ^ (- k)) in
  let '(c, d) := if 0 <=? e then (a * 2 ^ e, b) else (a, b * 2 ^ (- e)) in
  let q := c / d in let r := c mod d in
  if 2 * r <? d then q else if d <? 2 * r then q + 1 else if Z.even q then q else q + 1.

(** [a / b] on integers, [b > 0]: the correctly rounded quotient. *)
Definition int_div (a b : Z) : f64 :=
  if a =? 0 then f0
  else let '(m, e, l) := SFdiv_core_binary prec emax (Z.abs a) 0 b 0 in binary_round_aux prec emax (a <? 0) m e l.

(** [round(x, n)] for [n >= 0]: the nearest decimal of [n] places, ties to even, and the float nearest to it. *)
Definition py_round (x : f64) (n : Z) : res f64 :=
  match x with
  | S754_finite s m e =>
      let r := f64_of_dec s (dec_round (Zpos m) e 0 n) (- n) in
      raise_if negb (is_finite r) with PyOverflowError ;; Ok r
  | _ => Ok x
  end.

Example tenth_sum : f64_of_dec false 1 (-1) ⊕ f64_of_dec false 2 (-1) = f64_of_dec false 30000000000000004 (-17).
Proof. vm_compute. reflexivity. Qed.
