(* ===== verification/Sha256.v ===== *)
(** [hashlib.sha256] of the Python standard library (FIPS 180-4), executable, on the bytes of a string, and
    [sha256_hex] of [forecasting/contracts.py]. Words are 32-bit integers with the wrap-around written out. *)
From S2P Require Import Prelude.
From Stdlib Require Import Ascii.

Module Sha256.

Definition w32 (x : Z) : Z := Z.land x 4294967295.
Definition add32 (x y : Z) : Z := w32 (x + y).
Definition rotr (n x : Z) : Z := Z.lor (Z.shiftr x n) (w32 (Z.shiftl x (32 - n))).

Definition K : list Z :=
  [1116352408; 1899447441; 3049323471; 3921009573; 961987163; 1508970993;
   2453635748; 2870763221; 3624381080; 310598401; 607225278; 1426881987;
   1925078388; 2162078206; 2614888103; 3248222580; 3835390401; 4022224774;
   264347078; 604807628; 770255983; 1249150122; 1555081692; 1996064986;
   2554220882; 2821834349; 2952996808; 3210313671; 3336571891; 3584528711;
   113926993; 338241895; 666307205; 773529912; 1294757372; 1396182291;
   1695183700; 1986661051; 2177026350; 2456956037; 2730485921; 2820302411;
   3259730800; 3345764771; 3516065817; 3600352804; 4094571909; 275423344;
   430227734; 506948616; 659060556; 883997877; 958139571; 1322822218;
   1537002063; 1747873779; 1955562222; 2024104815; 2227730452; 2361852424;
   2428436474; 2756734187; 3204031479; 3329325298].

Definition H0 : list Z :=
  [1779033703; 3144134277; 1013904242; 2773480762; 1359893119; 2600822924;
   528734635; 1541459225].

Definition ch (x y z : Z) : Z := Z.lxor (Z.land x y) (Z.land (Z.lxor x 4294967295) z).
Definition maj (x y z : Z) : Z := Z.lxor (Z.lxor (Z.land x y) (Z.land x z)) (Z.land y z).
Definition bsig0 (x : Z) : Z := Z.lxor (Z.lxor (rotr 2 x) (rotr 13 x)) (rotr 22 x).
Definition bsig1 (x : Z) : Z := Z.lxor (Z.lxor (rotr 6 x) (rotr 11 x)) (rotr 25 x).
Definition ssig0 (x : Z) : Z := Z.lxor (Z.lxor (rotr 7 x) (rotr 18 x)) (Z.shiftr x 3).
Definition ssig1 (x : Z) : Z := Z.lxor (Z.lxor (rotr 17 x) (rotr 19 x)) (Z.shiftr x 10).

(** The message schedule from its current 16 words: the next [n] words. *)
Fixpoint schedule (n : nat) (w : list Z) : list Z :=
  match n with
  | O => []
  | S n' =>
      let new := add32 (add32 (ssig1 (nth 14 w 0)) (nth 9 w 0)) (add32 (ssig0 (nth 1 w 0)) (nth 0 w 0)) in
      nth 0 w 0 :: schedule n' (tail w ++ [new])
  end.

Record regs := Regs { ra : Z; rb : Z; rc : Z; rd : Z; re : Z; rf : Z; rg : Z; rh : Z }.

Definition round (s : regs) (kw : Z * Z) : regs :=
  let t1 := add32 (add32 (add32 (rh s) (bsig1 (re s))) (ch (re s) (rf s) (rg s))) (add32 kw.1 kw.2) in
  let t2 := add32 (bsig0 (ra s)) (maj (ra s) (rb s) (rc s)) in
  Regs (add32 t1 t2) (ra s) (rb s) (rc s) (add32 (rd s) t1) (re s) (rf s) (rg s).

Definition compress (s : regs) (block : list Z) : regs :=
  let r := foldl round s (zip K (schedule 64 block)) in
  Regs (add32 (ra s) (ra r)) (add32 (rb s) (rb r)) (add32 (rc s) (rc r)) (add32 (rd s) (rd r))
       (add32 (re s) (re r)) (add32 (rf s) (rf r)) (add32 (rg s) (rg r)) (add32 (rh s) (rh r)).

Definition init : regs :=
  Regs (nth 0 H0 0) (nth 1 H0 0) (nth 2 H0 0) (nth 3 H0 0) (nth 4 H0 0) (nth 5 H0 0) (nth 6 H0 0) (nth 7 H0 0).

Definition be_bytes (n : nat) (x : Z) : list Z :=
  (λ i, Z.land (Z.shiftr x (8 * Z.of_nat (n - 1 - i))) 255) <$> seq 0 n.

Definition pad (m : list Z) : list Z :=
  let len := length m in
  let zeros := ((119 - len mod 64) mod 64)%nat in
  m ++ 128 :: replicate zeros 0 ++ be_bytes 8 (8 * Z.of_nat len).

Fixpoint words (n : nat) (b : list Z) : list Z :=
  match n with
  | O => []
  | S n' => (nth 0 b 0 * 16777216 + nth 1 b 0 * 65536 + nth 2 b 0 * 256 + nth 3 b 0) :: words n' (drop 4 b)
  end.

Fixpoint blocks (n : nat) (b : list Z) (s : regs) : regs :=
  match n with O => s | S n' => blocks n' (drop 64 b) (compress s (words 16 b)) end.

Definition digest (m : list Z) : list Z :=
  let p := pad m in
  let s := blocks (length p / 64) p init in
  [ra s; rb s; rc s; rd s; re s; rf s; rg s; rh s].

Definition hexdigit (d : Z) : ascii := ascii_of_nat (Z.to_nat (if d <? 10 then 48 + d else 87 + d)).

Definition hex32 (x : Z) (rest : string) : string :=
  foldr (λ i s, String (hexdigit (Z.land (Z.shiftr x (4 * i)) 15)) s) rest [7; 6; 5; 4; 3; 2; 1; 0].

Definition bytes_of_string (s : string) : list Z := (λ c, Z.of_nat (nat_of_ascii c)) <$> String.list_ascii_of_string s.

End Sha256.

Definition sha256_hex (data : string) : string :=
  foldr Sha256.hex32 EmptyString (Sha256.digest (Sha256.bytes_of_string data)).

(** The published test vectors: one block, and two. *)
Example sha256_abc :
  sha256_hex "abc" = "ba7816bf8f01cfea414140de5dae2223b00361a396177a9cb410ff61f20015ad".
Proof. vm_compute. reflexivity. Qed.

Example sha256_two_blocks :
  sha256_hex "abcdbcdecdefdefgefghfghighijhijkijkljklmklmnlmnomnopnopq"
  = "248d6a61d20638b8e5c026930c3e6039a33ce45964ff2167f6ecedd419db06c1".
Proof. vm_compute. reflexivity. Qed.

Lemma length_hex32 x rest : String.length (Sha256.hex32 x rest) = (8 + String.length rest)%nat.
Proof. reflexivity. Qed.

Lemma length_sha256_hex s : String.length (sha256_hex s) = 64%nat.
Proof. reflexivity. Qed.
