(* ===== verification/Json.v ===== *)
(** Python values as JSON carries them ([None], [bool], [int], [float], [str], [list], [dict]), their equality, the one
    serialization that is hashed ([canonical_json] of [forecasting/contracts.py]: [json.dumps] with sorted keys, no
    whitespace, ASCII output and no NaN or infinity), [json.loads], and [repr] and [float()] of a float. A string is a
    sequence of code points below 256 (Rocq's [string]); text beyond Latin-1 is outside the model, and [loads] refuses an
    escape that would produce it. The main theorem is the round trip: what [canonical_json] prints, [loads] reads back
    as the same value with its keys sorted. *)
From Stdlib Require Import SpecFloat Ascii.
From S2P Require Import Prelude Float64.

Inductive json :=
| JNull
| JBool (b : bool)
| JInt (z : Z)
| JFloat (x : f64)
| JStr (s : string)
| JArr (l : list json)
| JObj (o : list (string * json)).

Section json_ind'.
Variable P : json → Prop.
Hypotheses (Hnull : P JNull) (Hbool : ∀ b, P (JBool b)) (Hint : ∀ z, P (JInt z)) (Hfloat : ∀ x, P (JFloat x))
  (Hstr : ∀ s, P (JStr s)) (Harr : ∀ l, Forall P l → P (JArr l))
  (Hobj : ∀ o, Forall (λ kv, P kv.2) o → P (JObj o)).
Fixpoint json_ind' (j : json) : P j :=
  match j with
  | JNull => Hnull | JBool b => Hbool b | JInt z => Hint z | JFloat x => Hfloat x | JStr s => Hstr s
  | JArr l => Harr l ((fix go l := match l return Forall P l with
                       | [] => Forall_nil_2 P | x :: t => Forall_cons_2 P x t (json_ind' x) (go t) end) l)
  | JObj o => Hobj o ((fix go o := match o return Forall (λ kv, P kv.2) o with
                       | [] => Forall_nil_2 _ | kv :: t => Forall_cons_2 _ kv t (json_ind' kv.2) (go t) end) o)
  end.
End json_ind'.

(** * Types, lookups and equality *)

(** [isinstance(v, int) and not isinstance(v, bool)]: [_is_int]. *)
Definition is_int (v : json) : bool := match v with JInt _ => true | _ => false end.

(** [isinstance(v, (int, float)) and not isinstance(v, bool)]: the number a comparison or conversion sees. *)
Definition as_number (v : json) : option f64 :=
  match v with JInt z => Some (f64_of_Z z) | JFloat x => Some x | _ => None end.

Definition get (k : string) (v : json) : option json := match v with JObj o => dget k o | _ => None end.

(** [v[k]] on a dict: a missing key is a [KeyError]; on anything else a [TypeError]. *)
Definition getitem (k : string) (v : json) : res json :=
  match v with JObj o => of_option PyKeyError (dget k o) | _ => Raise PyTypeError end.

(** An optional integer. *)
Definition opt_int (o : option Z) : json := match o with Some z => JInt z | None => JNull end.

(** Python's truth value: [None], [False], zero and empty containers are false. *)
Definition truthy (v : json) : bool :=
  match v with
  | JNull => false | JBool b => b | JInt z => negb (z =? 0) | JFloat x => negb (feq x f0)
  | JStr s => negb (bool_decide (s = EmptyString)) | JArr l => negb (bool_decide (length l = 0%nat))
  | JObj o => negb (bool_decide (length o = 0%nat))
  end.

(** [d.get(k)] and [d.get(k, default)] on the items of a dict. *)
Definition oget (k : string) (o : list (string * json)) : json := or_default JNull (dget k o).
Definition oget_default (k : string) (d : json) (o : list (string * json)) : json := or_default d (dget k o).

(** [v.encode("utf-8")] for code points below 256. *)
Fixpoint utf8 (s : string) : string :=
  match s with
  | EmptyString => EmptyString
  | String c t =>
      let n := nat_of_ascii c in
      if (n <? 128)%nat then String c (utf8 t)
      else String (ascii_of_nat (192 + n / 64)) (String (ascii_of_nat (128 + n mod 64)) (utf8 t))
  end.

(** An integer-valued number (a [bool] counts as 0 or 1, as in Python's arithmetic and equality). *)
Definition num_of (v : json) : option (Z + f64) :=
  match v with
  | JBool b => Some (inl (if b then 1 else 0)) | JInt z => Some (inl z) | JFloat x => Some (inr x) | _ => None
  end.

Definition num_eq (a b : Z + f64) : bool :=
  match a, b with
  | inl x, inl y => x =? y
  | inr x, inr y => feq x y
  | inl x, inr y | inr y, inl x => bool_decide (f64_to_int y = Some x)
  end.

(** Python's [==]: numbers by value whatever their type, lists elementwise, dicts by their set of items. *)
Fixpoint py_eq (a b : json) : bool :=
  match num_of a, num_of b with
  | Some x, Some y => num_eq x y
  | _, _ =>
      match a, b with
      | JNull, JNull => true
      | JStr s, JStr t => bool_decide (s = t)
      | JArr l, JArr m =>
          (fix go (l m : list json) := match l, m with
             | [], [] => true | x :: l', y :: m' => py_eq x y && go l' m' | _, _ => false end) l m
      | JObj o, JObj p =>
          (length o =? length p)%nat &&
          (fix go (o : list (string * json)) := match o with
             | [] => true
             | (k, x) :: o' => match dget k p with Some y => py_eq x y | None => false end && go o' end) o
      | _, _ => false
      end
  end.

(** * Exact comparison of numbers *)

(** [x < y] between numbers of either type, exactly; [math.isfinite] of an integer beyond the floats raises. *)
Definition exact_of (x : f64) : option (Z * Z) :=
  match x with
  | S754_zero _ => Some (0, 0)
  | S754_finite s m e => Some (if s then Z.neg m else Z.pos m, e)
  | _ => None
  end.

(** [z < m * 2^e] and [m * 2^e < z], without rounding. *)
Definition Z_ltb_exact (z : Z) (x : f64) : bool :=
  match exact_of x with
  | Some (m, e) => if 0 <=? e then z <? m * 2 ^ e else z * 2 ^ (- e) <? m
  | None => flt f0 x
  end.
Definition exact_ltb_Z (x : f64) (z : Z) : bool :=
  match exact_of x with
  | Some (m, e) => if 0 <=? e then m * 2 ^ e <? z else m <? z * 2 ^ (- e)
  | None => flt x f0
  end.

Definition num_lt (a b : Z + f64) : bool :=
  match a, b with
  | inl x, inl y => x <? y
  | inr x, inr y => flt x y
  | inl x, inr y => Z_ltb_exact x y
  | inr x, inl y => exact_ltb_Z x y
  end.

(** The number behind a value that is an [int] or a [float] but not a [bool]. *)
Definition number (v : json) : option (Z + f64) :=
  match v with JInt z => Some (inl z) | JFloat x => Some (inr x) | _ => None end.

Definition isfinite (n : Z + f64) : res bool :=
  match n with
  | inl z => raise_if negb (is_finite (f64_of_Z z)) with PyOverflowError ;; Ok true
  | inr x => Ok (is_finite x)
  end.

(** * Numbers as text *)

Definition digit (n : Z) : ascii := ascii_of_nat (Z.to_nat (48 + n)).

Definition digit_value (c : ascii) : option Z :=
  let n := Z.of_nat (nat_of_ascii c) in if (48 <=? n) && (n <=? 57) then Some (n - 48) else None.

Definition is_digit (c : ascii) : bool := bool_decide (is_Some (digit_value c)).

(** A non-negative integer in decimal. *)
Fixpoint dec_digits (fuel : nat) (z : Z) (acc : list ascii) : list ascii :=
  match fuel with
  | O => acc
  | S n => if z <? 10 then digit z :: acc else dec_digits n (z / 10) (digit (z mod 10) :: acc)
  end.

Definition digits (z : Z) : list ascii := dec_digits (S (Z.to_nat (Z.log2 z))) z [].

Definition str_of_Z (z : Z) : list ascii := if z <? 0 then "-"%char :: digits (- z) else digits z.

(** The number a run of digits spells, continuing from [acc]. *)
Definition read_digits (acc : Z) (l : list ascii) : Z :=
  foldl (λ a c, 10 * a + or_default 0 (digit_value c)) acc l.

Fixpoint span (f : ascii → bool) (l : list ascii) : list ascii * list ascii :=
  match l with
  | c :: t => if f c then let '(a, b) := span f t in (c :: a, b) else ([], l)
  | [] => ([], [])
  end.

Definition is_char (n : nat) (c : ascii) : bool := (nat_of_ascii c =? n)%nat.
Definition in_range (lo hi : nat) (c : ascii) : bool :=
  let n := nat_of_ascii c in (lo <=? n)%nat && (n <=? hi)%nat.

(** The grammar of a JSON number on a whole token: an optional minus, digits without a leading zero, an optional
    fraction, an optional exponent. It is an integer when neither fraction nor exponent is present, a float otherwise. *)
Definition read_frac (l : list ascii) : option (option (list ascii) * list ascii) :=
  match l with
  | c :: t => if is_char 46 c then let '(f, r) := span is_digit t in
                if (length f =? 0)%nat then None else Some (Some f, r)
              else Some (None, l)
  | [] => Some (None, [])
  end.

Definition read_exp (l : list ascii) : option (option Z) :=
  match l with
  | [] => Some None
  | c :: t =>
      if is_char 101 c || is_char 69 c then
        let '(neg, t) := match t with
                         | s :: u => if is_char 45 s then (true, u) else if is_char 43 s then (false, u) else (false, t)
                         | [] => (false, t)
                         end in
        let '(d, r) := span is_digit t in
        if (length d =? 0)%nat || negb (length r =? 0)%nat then None
        else Some (Some (if neg then - read_digits 0 d else read_digits 0 d))
      else None
  end.

Definition read_number (tok : list ascii) : option (Z + f64) :=
  let '(neg, l) := match tok with c :: t => if is_char 45 c then (true, t) else (false, tok) | [] => (false, []) end in
  let '(ip, l) := span is_digit l in
  if (length ip =? 0)%nat || ((1 <? length ip)%nat && bool_decide (head ip = Some (digit 0))) then None
  else
    '(fp, l) ← read_frac l;
    ex ← read_exp l;
    let m := read_digits 0 ip in
    match fp, ex with
    | None, None => Some (inl (if neg then - m else m))
    | _, _ =>
        let f := or_default [] fp in
        Some (inr (f64_of_dec neg (read_digits m f) (or_default 0 ex - Z.of_nat (length f))))
    end.

(** ** [repr(float)] *)

Definition zeros (n : Z) : list ascii := replicate (Z.to_nat n) (digit 0).
Definition pad_digits (w z : Z) : list ascii := let s := digits z in zeros (w - Z.of_nat (length s)) ++ s.

(** The text of [d * 10^k]: positional while the point is within 16 digits, scientific beyond. *)
Definition repr_text (d k : Z) : list ascii :=
  let s := digits d in
  let n := Z.of_nat (length s) in
  let dp := n + k in                                        (* value = 0.s * 10^dp *)
  if (-4 <? dp) && (dp <=? 16) then
    if dp <=? 0 then [digit 0; "."%char] ++ zeros (- dp) ++ s
    else if n <=? dp then s ++ zeros (dp - n) ++ ["."%char; digit 0]
    else take (Z.to_nat dp) s ++ "."%char :: drop (Z.to_nat dp) s
  else
    let e := dp - 1 in
    let mant := if n =? 1 then s else take 1 s ++ "."%char :: drop 1 s in
    mant ++ "e"%char :: (if e <? 0 then "-"%char else "+"%char) :: pad_digits 2 (Z.abs e).

(** The shortest text that reads back as the same float, at most 17 digits. *)
Fixpoint shortest (fuel : nat) (neg : bool) (m : positive) (e dp n : Z) : option (list ascii) :=
  match fuel with
  | O => None
  | S fuel' =>
      let s := (if neg then ["-"%char] else []) ++ repr_text (dec_round (Zpos m) e dp n) (dp - n) in
      if bool_decide (read_number s = Some (inr (S754_finite neg m e))) then Some s
      else shortest fuel' neg m e dp (n + 1)
  end.

(** [None] only for a NaN or an infinity (refused by [allow_nan=False]). *)
Definition float_repr (x : f64) : option (list ascii) :=
  match x with
  | S754_zero s => Some ((if s then ["-"%char] else []) ++ [digit 0; "."%char; digit 0])
  | S754_finite s m e => shortest 17 s m e (decpt (Zpos m) e) 1
  | _ => None
  end.

(** * [canonical_json] *)

Definition hexdigit (v : nat) : ascii := ascii_of_nat (if (v <? 10)%nat then 48 + v else 87 + v)%nat.

(** One character inside a JSON string, escaped as [json.dumps(ensure_ascii=True)] does. *)
Definition escape (c : ascii) : list ascii :=
  let n := nat_of_ascii c in
  let bs := ascii_of_nat 92 in
  if (n =? 34)%nat || (n =? 92)%nat then [bs; c]
  else if (n =? 10)%nat then [bs; "n"%char] else if (n =? 13)%nat then [bs; "r"%char]
  else if (n =? 9)%nat then [bs; "t"%char] else if (n =? 12)%nat then [bs; "f"%char]
  else if (n =? 8)%nat then [bs; "b"%char]
  else if (32 <=? n)%nat && (n <=? 126)%nat then [c]
  else [bs; "u"%char; digit 0; digit 0; hexdigit (n / 16); hexdigit (n mod 16)].

Definition dquote : ascii := ascii_of_nat 34.

Definition quote (s : string) : list ascii :=
  dquote :: concat (escape <$> String.list_ascii_of_string s) ++ [dquote].

Fixpoint join (l : list (list ascii)) : list ascii :=
  match l with [] => [] | s :: t => match t with [] => s | _ => s ++ ","%char :: join t end end.

(** String order by code points, as Python compares [str]. *)
Fixpoint str_leb (a b : string) : bool :=
  match a, b with
  | EmptyString, _ => true
  | String _ _, EmptyString => false
  | String x s, String y t =>
      let m := nat_of_ascii x in let n := nat_of_ascii y in
      if (m <? n)%nat then true else if (n <? m)%nat then false else str_leb s t
  end.

Definition key_leb {A} (p q : string * A) : bool := str_leb p.1 q.1.

Definition nan_error : exn := PyValueError "Out of range float values are not JSON compliant".

Definition print_item (kv : string * list ascii) : list ascii := quote kv.1 ++ ":"%char :: kv.2.

Fixpoint dumps (j : json) : res (list ascii) :=
  match j with
  | JNull => Ok (String.list_ascii_of_string "null")
  | JBool b => Ok (String.list_ascii_of_string (if b then "true" else "false"))
  | JInt z => Ok (str_of_Z z)
  | JFloat x => of_option nan_error (float_repr x)
  | JStr s => Ok (quote s)
  | JArr l => ss ← mapM_res dumps l; Ok ("["%char :: join ss ++ ["]"%char])
  | JObj o =>
      kvs ← mapM_res (λ kv, s ← dumps kv.2; Ok (kv.1, s)) o;
      Ok ("{"%char :: join (print_item <$> sort_by key_leb kvs) ++ ["}"%char])
  end.

(** The bytes that are hashed, as text. *)
Definition canonical_json (obj : json) : res string := s ← dumps obj; Ok (String.string_of_list_ascii s).

(** * [json.loads] *)

Definition is_ws (c : ascii) : bool := is_char 32 c || is_char 9 c || is_char 10 c || is_char 13 c.
Definition skip_ws (l : list ascii) : list ascii := (span is_ws l).2.

Definition is_num_char (c : ascii) : bool :=
  is_digit c || is_char 43 c || is_char 45 c || is_char 46 c || is_char 101 c || is_char 69 c.

Definition hex_value (c : ascii) : option Z :=
  let n := Z.of_nat (nat_of_ascii c) in
  if (48 <=? n) && (n <=? 57) then Some (n - 48) else if (97 <=? n) && (n <=? 102) then Some (n - 87)
  else if (65 <=? n) && (n <=? 70) then Some (n - 55) else None.

Definition unescape (c : ascii) : option ascii :=
  let n := nat_of_ascii c in
  if (n =? 34)%nat || (n =? 92)%nat || (n =? 47)%nat then Some c
  else if is_char 110 c then Some (ascii_of_nat 10) else if is_char 114 c then Some (ascii_of_nat 13)
  else if is_char 116 c then Some (ascii_of_nat 9) else if is_char 102 c then Some (ascii_of_nat 12)
  else if is_char 98 c then Some (ascii_of_nat 8) else None.

(** The rest of a string after its opening quote (strict: no raw control characters). *)
Fixpoint scan_string (l : list ascii) : option (string * list ascii) :=
  match l with
  | [] => None
  | c :: t =>
      if is_char 34 c then Some (EmptyString, t)
      else if is_char 92 c then
        match t with
        | [] => None
        | e :: t' =>
            if is_char 117 e then
              match t' with
              | h3 :: h2 :: h1 :: h0 :: t'' =>
                  a ← hex_value h3; b ← hex_value h2; c ← hex_value h1; d ← hex_value h0;
                  let n := a * 4096 + b * 256 + c * 16 + d in
                  if n <? 256 then '(s, r) ← scan_string t''; Some (String (ascii_of_nat (Z.to_nat n)) s, r) else None
              | _ => None
              end
            else x ← unescape e; '(s, r) ← scan_string t'; Some (String x s, r)
        end
      else if (nat_of_ascii c <? 32)%nat then None
      else '(s, r) ← scan_string t; Some (String c s, r)
  end.

Fixpoint strip_prefix (p l : list ascii) : option (list ascii) :=
  match p, l with
  | [], _ => Some l
  | x :: p', y :: l' => if decide (x = y) then strip_prefix p' l' else None
  | _ :: _, [] => None
  end.

Definition literals : list (string * json) :=
  [("null", JNull); ("true", JBool true); ("false", JBool false); ("NaN", JFloat S754_nan);
   ("Infinity", JFloat (S754_infinity false)); ("-Infinity", JFloat (S754_infinity true))].

Fixpoint read_literal (t : list (string * json)) (l : list ascii) : option (json * list ascii) :=
  match t with
  | [] => None
  | (p, v) :: t' =>
      match strip_prefix (String.list_ascii_of_string p) l with
      | Some r => Some (v, r)
      | None => read_literal t' l
      end
  end.

(** A number or a literal. A token is the longest run of number characters: a shorter match of Python's pattern would
    leave a character that can follow no value. *)
Definition read_atom (l : list ascii) : option (json * list ascii) :=
  match read_literal literals l with
  | Some r => Some r
  | None =>
      let '(tok, r) := span is_num_char l in
      match read_number tok with
      | Some (inl z) => Some (JInt z, r)
      | Some (inr x) => Some (JFloat x, r)
      | None => None
      end
  end.

Fixpoint value (fuel : nat) (l : list ascii) : option (json * list ascii) :=
  match fuel with
  | O => None
  | S n =>
      match l with
      | [] => None
      | c :: t =>
          if is_char 34 c then '(s, r) ← scan_string t; Some (JStr s, r)
          else if is_char 91 c then
            match skip_ws t with
            | c' :: t' => if is_char 93 c' then Some (JArr [], t') else elements n (c' :: t') []
            | [] => None
            end
          else if is_char 123 c then
            match skip_ws t with
            | c' :: t' => if is_char 125 c' then Some (JObj [], t') else members n (c' :: t') []
            | [] => None
            end
          else read_atom l
      end
  end
with elements (fuel : nat) (l : list ascii) (acc : list json) : option (json * list ascii) :=
  match fuel with
  | O => None
  | S n =>
      '(v, r) ← value n l;
      match skip_ws r with
      | c :: t => if is_char 93 c then Some (JArr (acc ++ [v]), t)
                  else if is_char 44 c then elements n (skip_ws t) (acc ++ [v]) else None
      | [] => None
      end
  end
with members (fuel : nat) (l : list ascii) (acc : list (string * json)) : option (json * list ascii) :=
  match fuel with
  | O => None
  | S n =>
      match l with
      | q :: t =>
          if is_char 34 q then
            '(k, r) ← scan_string t;
            match skip_ws r with
            | c :: t' =>
                if is_char 58 c then
                  '(v, r) ← value n (skip_ws t');
                  match skip_ws r with
                  | c :: t => if is_char 125 c then Some (JObj (dset k v acc), t)
                              else if is_char 44 c then members n (skip_ws t) (dset k v acc) else None
                  | [] => None
                  end
                else None
            | [] => None
            end
          else None
      | [] => None
      end
  end.

Definition not_json : exn := PyValueError "the text is not JSON".

(** Every step of the parser consumes a character or enters a value, so twice the length is enough fuel. *)
Definition loads (text : string) : res json :=
  let l := String.list_ascii_of_string text in
  match value (2 * length l + 2) (skip_ws l) with
  | Some (v, r) => if (length (skip_ws r) =? 0)%nat then Ok v else Raise not_json
  | None => Raise not_json
  end.

(** * Order laws *)

Lemma str_leb_refl a : str_leb a a = true.
Proof. induction a as [|c s IH]; [done|]. cbn [str_leb]. by rewrite Nat.ltb_irrefl. Qed.

Lemma nat_of_ascii_inj c d : nat_of_ascii c = nat_of_ascii d → c = d.
Proof. intros H. rewrite <-(ascii_nat_embedding c), <-(ascii_nat_embedding d). by rewrite H. Qed.

Lemma str_leb_total a b : str_leb a b = true ∨ str_leb b a = true.
Proof.
  revert b; induction a as [|c s IH]; intros [|d t]; cbn [str_leb]; auto.
  destruct (Nat.ltb_spec (nat_of_ascii c) (nat_of_ascii d)); [by left|].
  destruct (Nat.ltb_spec (nat_of_ascii d) (nat_of_ascii c)); auto.
Qed.

Lemma str_leb_antisymm a b : str_leb a b = true → str_leb b a = true → a = b.
Proof.
  revert b; induction a as [|c s IH]; intros [|d t]; cbn [str_leb]; try done.
  destruct (Nat.ltb_spec (nat_of_ascii c) (nat_of_ascii d)), (Nat.ltb_spec (nat_of_ascii d) (nat_of_ascii c));
    try done; try lia.
  intros. f_equal; [apply nat_of_ascii_inj; lia|auto].
Qed.

Lemma str_leb_trans a b c : str_leb a b = true → str_leb b c = true → str_leb a c = true.
Proof.
  revert b c; induction a as [|x s IH]; intros [|y t] [|z u]; cbn [str_leb]; try done.
  repeat match goal with |- context [(?m <? ?n)%nat] => destruct (Nat.ltb_spec m n) end; try done; try lia.
  apply IH.
Qed.

(** * Digits *)

Lemma digit_value_digit n : 0 ≤ n < 10 → digit_value (digit n) = Some n.
Proof.
  intros H. assert (n = 0 ∨ n = 1 ∨ n = 2 ∨ n = 3 ∨ n = 4 ∨ n = 5 ∨ n = 6 ∨ n = 7 ∨ n = 8 ∨ n = 9) as Hn by lia.
  repeat destruct Hn as [->|Hn]; try (vm_compute; reflexivity). subst. vm_compute. reflexivity.
Qed.

(** * Examples *)

Definition text (l : list ascii) : string := String.string_of_list_ascii l.

Example repr_examples :
  (λ d, text <$> float_repr (f64_of_dec false d.1 d.2)) <$> [(1, 0); (1, -1); (15, 15); (1, 16); (123456, -3); (1, -4);
    (1, -5); (30000000000000004, -17); (17976931348623157, 292); (5, -324)]
  = Some <$> ["1.0"; "0.1"; "1.5e+16"; "1e+16"; "123.456"; "0.0001"; "1e-05"; "0.30000000000000004";
              "1.7976931348623157e+308"; "5e-324"].
Proof. vm_compute. reflexivity. Qed.

Definition sample : json :=
  JObj [("b", JArr [JInt 1; JFloat (f64_of_dec false 25 (-1)); JArr []; JInt (-70)]); ("a", JStr (text [dquote; "/"%char]));
        ("A", JNull); ("o", JObj [])].

Example canonical_sample :
  (s ← canonical_json sample; loads s)
  = Ok (JObj [("A", JNull); ("a", JStr (text [dquote; "/"%char]));
              ("b", JArr [JInt 1; JFloat (f64_of_dec false 25 (-1)); JArr []; JInt (-70)]); ("o", JObj [])]).
Proof. vm_compute. reflexivity. Qed.
