(* ===== verification/JsonRoundtrip.v ===== *)
(** The round trip of the canonical serialization: [loads] reads what [canonical_json] printed back as the same value,
    with the keys of every object sorted. Equal canonical texts therefore mean equal values up to key order, which is
    what the fingerprints, the evidence keys and the journal's byte comparisons rely on. *)
From Stdlib Require Import SpecFloat Ascii.
From S2P Require Import Prelude Float64 Sha256 Json.

(** The value a canonical text stands for: keys sorted at every level. *)
Fixpoint norm (j : json) : json :=
  match j with
  | JArr l => JArr (norm <$> l)
  | JObj o => JObj (sort_by key_leb ((λ kv, (kv.1, norm kv.2)) <$> o))
  | _ => j
  end.

(** Every object's keys are distinct, as in a Python dict. *)
Inductive distinct_keys : json → Prop :=
| dk_null : distinct_keys JNull
| dk_bool b : distinct_keys (JBool b)
| dk_int z : distinct_keys (JInt z)
| dk_float x : distinct_keys (JFloat x)
| dk_str s : distinct_keys (JStr s)
| dk_arr l : Forall distinct_keys l → distinct_keys (JArr l)
| dk_obj o : NoDup o.*1 → Forall (λ kv, distinct_keys kv.2) o → distinct_keys (JObj o).

(** * Digits *)


Lemma is_digit_digit n : 0 ≤ n < 10 → is_digit (digit n) = true.
Proof. intros. unfold is_digit. by rewrite digit_value_digit. Qed.

Lemma is_num_char_digit c : is_digit c = true → is_num_char c = true.
Proof. unfold is_num_char. by intros ->. Qed.

Lemma digits_step fuel z acc : 0 ≤ z →
  dec_digits (S fuel) z acc = if z <? 10 then digit z :: acc else dec_digits fuel (z / 10) (digit (z mod 10) :: acc).
Proof. done. Qed.

Lemma read_digits_cons a c l : read_digits a (c :: l) = read_digits (10 * a + or_default 0 (digit_value c)) l.
Proof. done. Qed.

Lemma log2_div10 z : 10 ≤ z → Z.log2 (z / 10) < Z.log2 z.
Proof.
  intros. assert (0 < z / 10) by (apply Z.div_str_pos; lia).
  assert (z / 10 ≤ z / 2) by (apply Z.div_le_compat_l; lia).
  eapply Z.le_lt_trans; [apply Z.log2_le_mono; eassumption|].
  rewrite <-Z.div2_div, Z.div2_spec, Z.log2_shiftr by lia.
  assert (0 < Z.log2 z) by (apply Z.log2_pos; lia). lia.
Qed.

(** The printed digits of [z >= 0] in front of [acc]: they are digits, spell [z], and start with 0 only for [z = 0]. *)
Lemma dec_digits_spec fuel z acc :
  0 ≤ z → Z.log2 z < Z.of_nat fuel →
  ∃ ds, dec_digits fuel z acc = ds ++ acc ∧ Forall (λ c, is_digit c = true) ds ∧ read_digits 0 ds = z ∧
        (∃ d t, ds = digit d :: t ∧ 0 ≤ d < 10 ∧ (0 < z → d ≠ 0)) ∧ (z = 0 → length ds = 1%nat).
Proof.
  revert z acc; induction fuel as [|fuel IH]; intros z acc Hz Hf; [pose proof (Z.log2_nonneg z); lia|].
  cbn [dec_digits]. destruct (Z.ltb_spec z 10).
  - exists [digit z]. split_and!; [done|by constructor; [apply is_digit_digit|]| |exists z, []; split_and!; [done..|lia]|done].
    rewrite read_digits_cons, digit_value_digit by lia. done.
  - destruct (IH (z / 10) (digit (z mod 10) :: acc)) as (ds & He & Hd & Hr & (d & t & -> & Hdd & Hnz) & _);
      [apply Z.div_pos; lia|pose proof (log2_div10 z); lia|].
    pose proof (Z.mod_pos_bound z 10 ltac:(lia)). exists ((digit d :: t) ++ [digit (z mod 10)]).
    split_and!.
    + rewrite He, <-app_assoc. done.
    + apply Forall_app. split; [done|]. constructor; [by apply is_digit_digit|done].
    + unfold read_digits in *. rewrite foldl_app, Hr. cbn [foldl]. rewrite digit_value_digit by lia. cbn.
      pose proof (Z.div_mod z 10). lia.
    + exists d, (t ++ [digit (z mod 10)]). split_and!; [done|lia|lia|]. intros _. apply Hnz. apply Z.div_str_pos; lia.
    + lia.
Qed.

Lemma digits_spec z :
  0 ≤ z →
  Forall (λ c, is_digit c = true) (digits z) ∧ read_digits 0 (digits z) = z ∧
  (∃ d t, digits z = digit d :: t ∧ 0 ≤ d < 10 ∧ (0 < z → d ≠ 0)) ∧ (z = 0 → length (digits z) = 1%nat).
Proof.
  intros Hz. pose proof (Z.log2_nonneg z).
  destruct (dec_digits_spec (S (Z.to_nat (Z.log2 z))) z [] Hz) as (ds & He & ?); [lia|].
  unfold digits. rewrite He, app_nil_r. done.
Qed.

(** * Spans and tokens *)

Lemma span_app f l : let '(a, b) := span f l in l = a ++ b ∧ Forall (λ c, f c = true) a.
Proof.
  induction l as [|c t IH]; cbn; [split; [done|constructor]|]. destruct (f c) eqn:E; [|split; [done|constructor]].
  destruct (span f t) as [a b]. destruct IH as [-> ?]. split; [done|by constructor].
Qed.

Lemma span_all f a b :
  Forall (λ c, f c = true) a → (∀ c t, b = c :: t → f c = false) → span f (a ++ b) = (a, b).
Proof.
  intros Ha Hb. induction Ha as [|c t Hc Ht IH]; cbn.
  - destruct b as [|c t]; [done|]. cbn. by rewrite (Hb c t).
  - by rewrite Hc, IH.
Qed.

Lemma span_all_nil f a : Forall (λ c, f c = true) a → span f a = (a, []).
Proof. intros. rewrite <-(app_nil_r a) at 1. apply span_all; done. Qed.

Lemma is_char_num n c : is_char n c = true → n ∈ [43%nat; 45%nat; 46%nat; 101%nat; 69%nat] → is_num_char c = true.
Proof.
  unfold is_num_char. intros H Hn. rewrite !elem_of_cons, elem_of_nil in Hn.
  destruct Hn as [->|[->|[->|[->|[->|[]]]]]]; rewrite H; rewrite ?orb_true_r; done.
Qed.

Ltac num_char := eapply is_char_num; [eassumption|rewrite !elem_of_cons; tauto].

Lemma Forall_num_digits l : Forall (λ c, is_digit c = true) l → Forall (λ c, is_num_char c = true) l.
Proof. intros. eapply Forall_impl; [done|]. apply is_num_char_digit. Qed.

Lemma length_0 {A} (l : list A) : (length l =? 0)%nat = true ↔ l = [].
Proof. destruct l; naive_solver. Qed.

Lemma read_exp_num l e : read_exp l = Some e → Forall (λ c, is_num_char c = true) l.
Proof.
  destruct l as [|c t]; [constructor|]. cbn. destruct (is_char 101 c || is_char 69 c) eqn:Ec; [|done].
  assert (is_num_char c = true) by (apply orb_true_iff in Ec as [?|?]; num_char).
  set (p := match t with [] => _ | _ => _ end).
  assert (Hp : ∃ sg, t = sg ++ p.2 ∧ Forall (λ c, is_num_char c = true) sg).
  { subst p. destruct t as [|s u]; [exists []; cbn; auto|]. destruct (is_char 45 s) eqn:E45.
    - exists [s]. split; [done|]. constructor; [num_char|constructor].
    - destruct (is_char 43 s) eqn:E43; [|exists []; done]. exists [s]. split; [done|]. constructor; [num_char|constructor]. }
  destruct p as [neg u]. cbn in Hp. destruct Hp as (sg & -> & Hsg).
  pose proof (span_app is_digit u) as Hs. destruct (span is_digit u) as [d r]. destruct Hs as [-> Hd].
  destruct ((length d =? 0)%nat || negb (length r =? 0)%nat) eqn:Eo; intros [= _].
  apply orb_false_iff in Eo as [_ Er]. apply negb_false_iff, length_0 in Er.
  subst. rewrite app_nil_r. constructor; [done|]. apply Forall_app. split; [done|]. by apply Forall_num_digits.
Qed.

(** A token the grammar accepts is made of number characters and starts with a digit, after an optional minus. *)
Lemma read_number_shape tok v :
  read_number tok = Some v →
  Forall (λ c, is_num_char c = true) tok ∧
  ∃ c t, (tok = c :: t ∨ ∃ m, is_char 45 m = true ∧ tok = m :: c :: t) ∧ is_digit c = true.
Proof.
  unfold read_number. intros H.
  set (p := match tok with [] => _ | _ => _ end) in H.
  assert (Hp : tok = p.2 ∨ ∃ m, is_char 45 m = true ∧ tok = m :: p.2).
  { subst p. destruct tok as [|c t]; [by left|]. destruct (is_char 45 c) eqn:E; cbn; eauto. }
  destruct p as [neg l]. cbn in Hp.
  pose proof (span_app is_digit l) as Hs. destruct (span is_digit l) as [ip l1]. destruct Hs as [-> Hip].
  destruct (_ || _) eqn:Eo; [done|]. apply orb_false_iff in Eo as [Ei _].
  destruct ip as [|c ip]; [done|]. inversion Hip as [|? ? Hc Hip']; subst.
  apply bind_Some in H as ([fp l2] & Hf & H). apply bind_Some in H as (ex & He & _).
  assert (Hl1 : Forall (λ c, is_num_char c = true) l1).
  { unfold read_frac in Hf. destruct l1 as [|c1 t1]; [constructor|]. destruct (is_char 46 c1) eqn:E46.
    - pose proof (span_app is_digit t1) as Hs. destruct (span is_digit t1) as [f r]. destruct Hs as [-> Hfd].
      destruct (length f =? 0)%nat; [done|]. simplify_eq. constructor; [num_char|].
      apply Forall_app. split; [by apply Forall_num_digits|by eapply read_exp_num].
    - simplify_eq. by eapply read_exp_num. }
  assert (Hall : Forall (λ c, is_num_char c = true) ((c :: ip) ++ l1)).
  { apply Forall_app. split; [by apply Forall_num_digits|done]. }
  destruct Hp as [->|(m & Hm & ->)].
  - split; [done|]. exists c, (ip ++ l1). split; [by left|done].
  - split; [constructor; [num_char|done]|]. exists c, (ip ++ l1). split; [right; by exists m|done].
Qed.

Lemma digits_head z : 0 ≤ z → ∃ d t, digits z = d :: t ∧ is_digit d = true.
Proof.
  intros Hz. destruct (digits_spec z Hz) as (_ & _ & (d & t & -> & Hd & _) & _).
  exists (digit d), t. split; [done|by apply is_digit_digit].
Qed.

Lemma not_minus_digit c : is_digit c = true → is_char 45 c = false.
Proof.
  unfold is_digit, digit_value, is_char. intros H. bool_prop.
  destruct (Nat.eqb_spec (nat_of_ascii c) 45) as [E|]; [|done]. rewrite E in H. destruct H as [? [=]].
Qed.

Lemma digit_inj_0 d : 0 ≤ d < 10 → digit d = digit 0 → d = 0.
Proof.
  intros H E. assert (Some d = Some 0) as [=]; [|done].
  rewrite <-(digit_value_digit d), <-(digit_value_digit 0), E by lia. done.
Qed.

Lemma read_number_digits (neg : bool) z l :
  0 ≤ z → l = (if neg then ["-"%char] else []) ++ digits z → read_number l = Some (inl (if neg then - z else z)).
Proof.
  intros Hz ->. destruct (digits_spec z Hz) as (Hall & Hr & (d & t & Hd & Hdd & Hnz) & Hone).
  assert (Hlead : (length (digits z) =? 0)%nat
                  || ((1 <? length (digits z))%nat && bool_decide (head (digits z) = Some (digit 0))) = false).
  { rewrite Hd in *. cbn [length Nat.eqb orb head]. apply andb_false_iff.
    destruct (Nat.ltb_spec 1 (S (length t))); [right|by left].
    apply bool_decide_eq_false. intros [= E%digit_inj_0]; [|done].
    destruct (Z.eq_dec z 0); [|apply Hnz; lia]. specialize (Hone ltac:(done)). cbn in Hone. lia. }
  unfold read_number.
  assert (Hsp : span is_digit (digits z) = (digits z, [])) by (by apply span_all_nil).
  destruct neg; cbn [app].
  - change (is_char 45 "-") with true. cbn match. rewrite Hsp. cbn match. rewrite Hlead. cbn [read_frac read_exp mbind option_bind]. by rewrite Hr.
  - destruct (digits z) as [|c u] eqn:E; [done|]. rewrite not_minus_digit by (by apply (Forall_inv Hall)).
    cbn match. rewrite Hsp. cbn match. rewrite Hlead.
    cbn [read_frac read_exp mbind option_bind]. by rewrite Hr.
Qed.

Lemma read_number_str z : read_number (str_of_Z z) = Some (inl z).
Proof.
  unfold str_of_Z. destruct (Z.ltb_spec z 0).
  - erewrite (read_number_digits true (- z)); [|lia|done]. do 2 f_equal. lia.
  - by erewrite (read_number_digits false z).
Qed.

Lemma shortest_reads fuel neg m e dp n s :
  shortest fuel neg m e dp n = Some s → read_number s = Some (inr (S754_finite neg m e)).
Proof.
  revert n; induction fuel as [|fuel IH]; intros n; cbn [shortest]; [done|].
  case_bool_decide; [|apply IH]. by intros [= <-].
Qed.

(** [repr] of a float reads back as that float, sign of zero included. *)
Lemma float_repr_reads x s : float_repr x = Some s → read_number s = Some (inr x).
Proof.
  destruct x as [[]| | |neg m e]; cbn [float_repr]; try done; [intros [= <-]; reflexivity..|]. apply shortest_reads.
Qed.

(** * Atoms *)

(** What may follow a value: nothing, or a character no number contains. *)
Definition delimited (r : list ascii) : Prop := ∀ c t, r = c :: t → is_num_char c = false.

Lemma no_literal c t : is_digit c = true → read_literal literals (c :: t) = None.
Proof. destruct c as [[] [] [] [] [] [] [] []]; vm_compute; try done; intros [=]. Qed.

Lemma no_literal_minus m c t :
  is_char 45 m = true → is_digit c = true → read_literal literals (m :: c :: t) = None.
Proof.
  intros Hm Hc. assert (m = "-"%char) as ->.
  { unfold is_char in Hm. apply Nat.eqb_eq in Hm. apply nat_of_ascii_inj. rewrite Hm. done. }
  destruct c as [[] [] [] [] [] [] [] []]; vm_compute; try done; vm_compute in Hc; done.
Qed.

Lemma read_atom_number tok v r :
  read_number tok = Some v → delimited r →
  read_atom (tok ++ r) = Some (match v with inl z => JInt z | inr x => JFloat x end, r).
Proof.
  intros Hn Hr. destruct (read_number_shape tok v Hn) as (Hall & c & t & Hs & Hc).
  assert (Hl : read_literal literals (tok ++ r) = None).
  { destruct Hs as [->|(m & Hm & ->)]; cbn [app]; [by apply no_literal|by apply no_literal_minus]. }
  unfold read_atom. rewrite Hl. rewrite span_all; [|done|done]. rewrite Hn. by destruct v.
Qed.

(** * Strings *)

Lemma scan_escape c r : scan_string (escape c ++ r) = ('(s, r') ← scan_string r; Some (String c s, r')).
Proof. destruct c as [[] [] [] [] [] [] [] []]; reflexivity. Qed.

Lemma scan_quoted s r :
  scan_string (concat (escape <$> String.list_ascii_of_string s) ++ dquote :: r) = Some (s, r).
Proof.
  induction s as [|c s IH]; [done|]. cbn [String.list_ascii_of_string fmap list_fmap concat].
  rewrite <-app_assoc, scan_escape, IH. done.
Qed.

(** * Values *)

(** The first character of a printed value is not white space and closes nothing. *)
Definition opens (l : list ascii) : Prop :=
  ∃ c t, l = c :: t ∧ is_ws c = false ∧ is_char 93 c = false ∧ is_char 125 c = false.

Lemma digit_opens c t : is_digit c = true → opens (c :: t).
Proof. intros H. exists c, t. split; [done|]. destruct c as [[] [] [] [] [] [] [] []]; vm_compute in *; split_and!; done. Qed.

Lemma number_opens tok v : read_number tok = Some v → opens tok.
Proof.
  intros H. destruct (read_number_shape tok v H) as (_ & c & t & [->|(m & Hm & ->)] & Hc); [by apply digit_opens|].
  assert (m = "-"%char) as ->.
  { unfold is_char in Hm. apply Nat.eqb_eq in Hm. apply nat_of_ascii_inj. by rewrite Hm. }
  exists "-"%char, (c :: t). done.
Qed.

Lemma dumps_opens j s : dumps j = Ok s → opens s.
Proof.
  destruct j as [|[]| | | | |]; cbn [dumps]; intros H; ok_inv H; subst.
  - by exists "n"%char, (String.list_ascii_of_string "ull").
  - by exists "t"%char, (String.list_ascii_of_string "rue").
  - by exists "f"%char, (String.list_ascii_of_string "alse").
  - eapply number_opens, read_number_str.
  - eapply number_opens. by eapply float_repr_reads.
  - unfold quote. by eexists _, _.
  - by eexists _, _.
  - by eexists _, _.
Qed.

Lemma skip_ws_opens l : opens l → skip_ws l = l.
Proof. intros (c & t & -> & Hc & _). unfold skip_ws. cbn. by rewrite Hc. Qed.

Lemma opens_app l r : opens l → opens (l ++ r).
Proof. intros (c & t & -> & H). exists c, (t ++ r). done. Qed.

Lemma opens_length l : opens l → (1 ≤ length l)%nat.
Proof. intros (c & t & -> & _). cbn. lia. Qed.

Definition reads (n : nat) (s : list ascii) (v : json) : Prop :=
  ∀ m r, (n ≤ m)%nat → delimited r → value m (s ++ r) = Some (v, r).

Lemma value_S n l :
  value (S n) l =
  match l with
  | [] => None
  | c :: t =>
      if is_char 34 c then '(s, r) ← scan_string t; Some (JStr s, r)
      else if is_char 91 c then
        match skip_ws t with
        | c' :: t' => if is_char 93 c' then Some (JArr [], t') else elements n (c' :: t') []
        | [] => None
        end
      else if is_char 123 c then
        match skip_ws t with
        | c' :: t' => if is_char 125 c' then Some (JObj [], t') else members n (c' :: t') []
        | [] => None
        end
      else read_atom l
  end.
Proof. done. Qed.

Lemma elements_S n l acc :
  elements (S n) l acc =
  ('(v, r) ← value n l;
   match skip_ws r with
   | c :: t => if is_char 93 c then Some (JArr (acc ++ [v]), t)
               else if is_char 44 c then elements n (skip_ws t) (acc ++ [v]) else None
   | [] => None
   end).
Proof. done. Qed.

Definition closing (n : nat) (c : ascii) := is_char n c = true ∧ is_num_char c = false ∧ is_ws c = false.

Lemma delimited_cons c t : is_num_char c = false → delimited (c :: t).
Proof. by intros H c' t' [= <- <-]. Qed.

Lemma skip_ws_cons c t : is_ws c = false → skip_ws (c :: t) = c :: t.
Proof. unfold skip_ws. cbn. by intros ->. Qed.

(** The elements of a printed array, from any of them on. *)
Lemma elements_read ss vs :
  Forall2 (λ s v, opens s ∧ reads (2 * length s) s v) ss vs → ss ≠ [] →
  ∀ n acc r, (2 * length (join ss) + 1 ≤ n)%nat →
  elements n (join ss ++ "]"%char :: r) acc = Some (JArr (acc ++ vs), r).
Proof.
  induction 1 as [|s v ss vs [Ho Hr] HF IH]; [done|]. intros _ n acc r Hn.
  destruct n as [|n]; [lia|]. rewrite elements_S. pose proof (opens_length s Ho).
  destruct ss as [|s2 ss].
  - inversion HF; subst. cbn [join] in *. rewrite Hr by (done || (by apply delimited_cons) || lia).
    cbn [mbind option_bind]. rewrite skip_ws_cons by done. done.
  - change (join (s :: s2 :: ss)) with (s ++ ","%char :: join (s2 :: ss)) in *.
    rewrite length_app in Hn. cbn [length] in Hn. rewrite <-app_assoc. cbn [app].
    rewrite Hr by (done || (by apply delimited_cons) || lia).
    cbn [mbind option_bind]. rewrite skip_ws_cons by done. change (is_char 93 ",") with false. change (is_char 44 ",") with true.
    cbn match. rewrite skip_ws_opens.
    + rewrite IH by (done || lia). by rewrite <-app_assoc.
    + apply opens_app. inversion HF as [|? ? ? ? [Ho2 _]]; subst. destruct ss; [done|]. by apply opens_app.
Qed.

Lemma value_array n ss vs r :
  Forall2 (λ s v, opens s ∧ reads (2 * length s) s v) ss vs →
  (2 * length (join ss) + 2 ≤ n)%nat → value n ("["%char :: join ss ++ "]"%char :: r) = Some (JArr vs, r).
Proof.
  intros HF Hn. destruct n as [|n]; [lia|]. rewrite value_S. change (is_char 34 "[") with false.
  change (is_char 91 "[") with true. cbn match. destruct ss as [|s ss].
  - inversion HF; subst. done.
  - assert (Ho : opens (join (s :: ss) ++ "]"%char :: r)).
    { apply opens_app. inversion HF as [|? ? ? ? [Ho _]]; subst. destruct ss; [done|]. by apply opens_app. }
    rewrite skip_ws_opens by done. destruct Ho as (c & t & E & _ & Hc & _). rewrite E, Hc, <-E.
    rewrite (elements_read (s :: ss) vs) by (done || lia). done.
Qed.

Lemma members_S n l acc :
  members (S n) l acc =
  match l with
  | q :: t =>
      if is_char 34 q then
        '(k, r) ← scan_string t;
        match skip_ws r with
        | c :: t' =>
            if is_char 58 c then
              '(v, r) ← value n (skip_ws t');
              match skip_ws r with
              | c :: t => if is_char 125 c then Some (JObj (dset k v acc), t)
                          else if is_char 44 c then members n (skip_ws t) (dset k v acc) else None
              | [] => None
              end
            else None
        | [] => None
        end
      else None
  | [] => None
  end.
Proof. done. Qed.

(** One printed item, followed by anything: the key and the value are read, the parser stands behind them. *)
Lemma member_read n k s v acc l :
  opens s → reads (2 * length s) s v → (2 * length s ≤ n)%nat → delimited l →
  members (S n) (print_item (k, s) ++ l) acc
  = match skip_ws l with
    | c :: t => if is_char 125 c then Some (JObj (dset k v acc), t)
                else if is_char 44 c then members n (skip_ws t) (dset k v acc) else None
    | [] => None
    end.
Proof.
  intros Ho Hr Hn Hl. unfold print_item, quote. cbn [fst snd]. cbn [app]. rewrite members_S.
  change (is_char 34 dquote) with true. cbn match. rewrite <-!app_assoc. cbn [app].
  rewrite scan_quoted. cbn [mbind option_bind]. rewrite skip_ws_cons by done. change (is_char 58 ":") with true.
  cbn match. rewrite skip_ws_opens by (by apply opens_app). rewrite Hr by done. done.
Qed.

Definition ins (acc : list (string * json)) (kv : string * json) := dset kv.1 kv.2 acc.

Lemma print_item_opens kv : opens (print_item kv).
Proof. unfold print_item, quote. by eexists _, _. Qed.

Lemma join_cons2 s s2 ss : join (s :: s2 :: ss) = s ++ ","%char :: join (s2 :: ss).
Proof. done. Qed.

Lemma length_print_item k s : (length s + 3 ≤ length (print_item (k, s)))%nat.
Proof. unfold print_item, quote. cbn [fst snd]. rewrite length_app. cbn [length]. rewrite length_app. cbn [length]. lia. Qed.

Lemma members_read kss kvs :
  Forall2 (λ ks kv, ks.1 = kv.1 ∧ opens ks.2 ∧ reads (2 * length ks.2) ks.2 kv.2) kss kvs → kss ≠ [] →
  ∀ n acc r, (2 * length (join (print_item <$> kss)) + 1 ≤ n)%nat →
  members n (join (print_item <$> kss) ++ "}"%char :: r) acc = Some (JObj (foldl ins acc kvs), r).
Proof.
  induction 1 as [|[k s] [k' v] kss kvs (Hk & Ho & Hr) HF IH]; [done|]. cbn [fst snd] in *. subst k'.
  intros _ n acc r Hn. destruct n as [|n]; [lia|]. pose proof (length_print_item k s).
  destruct kss as [|[k2 s2] kss].
  - inversion HF; subst. cbn [fmap list_fmap join] in *.
    rewrite (member_read _ _ _ v) by (done || (by apply delimited_cons) || lia). by rewrite skip_ws_cons.
  - cbn [fmap list_fmap] in *. rewrite join_cons2 in *. rewrite length_app in Hn. cbn [length] in Hn.
    rewrite <-app_assoc. cbn [app]. rewrite (member_read _ _ _ v) by (done || (by apply delimited_cons) || lia).
    rewrite skip_ws_cons by done. change (is_char 125 ",") with false. change (is_char 44 ",") with true. cbn match.
    rewrite skip_ws_opens.
    + rewrite IH by (done || lia). done.
    + apply opens_app. destruct kss; [apply print_item_opens|]. cbn [fmap list_fmap]. rewrite join_cons2.
      apply opens_app, print_item_opens.
Qed.

Lemma value_object n kss kvs r :
  Forall2 (λ ks kv, ks.1 = kv.1 ∧ opens ks.2 ∧ reads (2 * length ks.2) ks.2 kv.2) kss kvs →
  (2 * length (join (print_item <$> kss)) + 2 ≤ n)%nat →
  value n ("{"%char :: join (print_item <$> kss) ++ "}"%char :: r) = Some (JObj (foldl ins [] kvs), r).
Proof.
  intros HF Hn. destruct n as [|n]; [lia|]. rewrite value_S. change (is_char 34 "{") with false.
  change (is_char 91 "{") with false. change (is_char 123 "{") with true. cbn match. destruct kss as [|ks kss].
  - inversion HF; subst. done.
  - assert (Ho : opens (join (print_item <$> ks :: kss) ++ "}"%char :: r)).
    { apply opens_app. destruct kss; [apply print_item_opens|]. cbn [fmap list_fmap]. rewrite join_cons2.
      apply opens_app, print_item_opens. }
    rewrite skip_ws_opens by done. destruct Ho as (c & t & E & _ & _ & Hc). rewrite E, Hc, <-E.
    rewrite (members_read (ks :: kss) kvs) by (done || lia). done.
Qed.

(** Inserting items with new keys appends them. *)
Lemma foldl_ins acc kvs : NoDup (acc ++ kvs).*1 → foldl ins acc kvs = acc ++ kvs.
Proof.
  revert acc; induction kvs as [|[k v] t IH]; intros acc Hd; cbn; [by rewrite app_nil_r|].
  unfold ins at 2. cbn [fst snd]. rewrite dset_fresh.
  - rewrite IH; rewrite <-app_assoc; done.
  - rewrite fmap_app in Hd. apply NoDup_app in Hd as (_ & Hd & _). intros Hk. apply (Hd k Hk). left.
Qed.

(** Sorting by key moves printed items and their values alike. *)
Lemma mapM_dump_items P o kvs :
  mapM_res (λ kv : string * json, s ← dumps kv.2; Ok (kv.1, s)) o = Ok kvs →
  Forall (λ kv, ∀ s, dumps kv.2 = Ok s → P s (norm kv.2)) o →
  Forall2 (λ ks kv, ks.1 = kv.1 ∧ P ks.2 kv.2) kvs ((λ kv, (kv.1, norm kv.2)) <$> o).
Proof.
  revert kvs; induction o as [|[k x] t IH]; intros kvs H HP; cbn in H; [simplify_eq; constructor|].
  ok_inv H. subst. inversion HP; subst. cbn in *.
  match goal with E : mbind _ _ = Ok _ |- _ => ok_inv E; subst end. constructor; [split; [done|auto]|auto].
Qed.

Lemma Forall2_insert_by {A B} (P : A → B → Prop) x y (l : list (string * A)) (m : list (string * B)) :
  x.1 = y.1 ∧ P x.2 y.2 → Forall2 (λ a b, a.1 = b.1 ∧ P a.2 b.2) l m →
  Forall2 (λ a b, a.1 = b.1 ∧ P a.2 b.2) (insert_by key_leb x l) (insert_by key_leb y m).
Proof.
  intros Hxy. induction 1 as [|a b l m Hab HF IH]; cbn; [by constructor|].
  assert (key_leb x a = key_leb y b) as -> by (unfold key_leb; by rewrite (proj1 Hxy), (proj1 Hab)).
  destruct (key_leb y b); (constructor; [done|]); [by constructor|done].
Qed.

Lemma Forall2_sort_by {A B} (P : A → B → Prop) (l : list (string * A)) (m : list (string * B)) :
  Forall2 (λ a b, a.1 = b.1 ∧ P a.2 b.2) l m →
  Forall2 (λ a b, a.1 = b.1 ∧ P a.2 b.2) (sort_by key_leb l) (sort_by key_leb m).
Proof. induction 1; cbn; [constructor|]. by apply Forall2_insert_by. Qed.

Lemma mapM_dumps_spec (P : list ascii → json → Prop) l ss :
  mapM_res dumps l = Ok ss → Forall (λ j, ∀ s, dumps j = Ok s → P s (norm j)) l → Forall2 P ss (norm <$> l).
Proof.
  revert ss; induction l as [|j t IH]; intros ss H HP; cbn in H; [simplify_eq; constructor|].
  ok_inv H. subst. inversion HP; subst. constructor; auto.
Qed.

Lemma dumps_reads j : distinct_keys j → ∀ s, dumps j = Ok s → opens s ∧ reads (2 * length s) s (norm j).
Proof.
  induction j as [|b|z|x|t|l IH|o IH] using json_ind'; intros Hk s H; pose proof (dumps_opens _ _ H) as Ho;
    (split; [done|]); cbn [dumps] in H; ok_inv H; subst; intros n r Hn Hr; cbn [norm].
  - destruct n as [|n]; [cbn in Hn; lia|]. done.
  - destruct n as [|n]; [destruct b; cbn in Hn; lia|]. by destruct b.
  - pose proof (read_number_str z) as Hz. pose proof (opens_length _ Ho). destruct n as [|n]; [lia|].
    rewrite value_S. destruct (read_number_shape _ _ Hz) as (_ & c & u & Hs & Hc).
    rewrite <-(read_atom_number (str_of_Z z) (inl z) r Hz Hr).
    destruct Hs as [->|(m & Hm & ->)]; cbn [app].
    + destruct c as [[] [] [] [] [] [] [] []]; vm_compute in Hc; done.
    + assert (m = "-"%char) as -> by (unfold is_char in Hm; apply Nat.eqb_eq in Hm; apply nat_of_ascii_inj; by rewrite Hm).
      done.
  - match goal with E : float_repr x = Some _ |- _ => pose proof (float_repr_reads _ _ E) as Hz end.
    pose proof (opens_length _ Ho). destruct n as [|n]; [lia|].
    rewrite value_S. destruct (read_number_shape _ _ Hz) as (_ & c & u & Hs' & Hc).
    rewrite <-(read_atom_number _ (inr x) r Hz Hr).
    destruct Hs' as [->|(m & Hm & ->)]; cbn [app].
    + destruct c as [[] [] [] [] [] [] [] []]; vm_compute in Hc; done.
    + assert (m = "-"%char) as -> by (unfold is_char in Hm; apply Nat.eqb_eq in Hm; apply nat_of_ascii_inj; by rewrite Hm).
      done.
  - destruct n as [|n]; [unfold quote in Hn; cbn in Hn; lia|]. rewrite value_S. unfold quote. cbn [app].
    change (is_char 34 dquote) with true. cbn match. rewrite <-app_assoc. cbn [app]. by rewrite scan_quoted.
  - inversion Hk as [| | | | |l' Hl|]; subst. cbn [app]. rewrite <-app_assoc. cbn [app]. eapply value_array.
    + eapply (mapM_dumps_spec (λ s v, opens s ∧ reads (2 * length s) s v)); [eassumption|]. rewrite Forall_forall in *. intros j Hj s Hs. by apply IH; auto.
    + cbn [length] in Hn. rewrite length_app in Hn. cbn [length] in Hn. lia.
  - inversion Hk as [| | | | | |o' Hnd Hv]; subst.
    cbn [app]. rewrite <-app_assoc. cbn [app]. erewrite value_object.
    + rewrite foldl_ins; [done|]. cbn [app]. rewrite sort_by_perm, <-list_fmap_compose. done.
    + apply (Forall2_sort_by (λ s v, opens s ∧ reads (2 * length s) s v)).
      eapply (mapM_dump_items (λ s v, opens s ∧ reads (2 * length s) s v)); [eassumption|]. rewrite Forall_forall in *. intros kv Hj s Hs. apply IH; auto.
    + cbn [length] in Hn. rewrite length_app in Hn. cbn [length] in Hn. lia.
Qed.

(** What [canonical_json] prints, [json.loads] reads back with every object's keys in sorted order. *)
Lemma loads_canonical_json j s :
  distinct_keys j → canonical_json j = Ok s → loads s = Ok (norm j).
Proof.
  intros Hk H. unfold canonical_json in H. ok_inv H. subst.
  match goal with E : dumps j = Ok ?t |- _ => destruct (dumps_reads j Hk t E) as [Ho Hr]; rename t into txt end.
  unfold loads. rewrite String.list_ascii_of_string_of_list_ascii, skip_ws_opens by done.
  rewrite <-(app_nil_r txt) at 2. rewrite Hr by (done || lia). done.
Qed.

Lemma canonical_json_inj j k s :
  distinct_keys j → distinct_keys k → canonical_json j = Ok s → canonical_json k = Ok s → norm j = norm k.
Proof. intros Hj Hk Ej%loads_canonical_json Ek%loads_canonical_json; [|done..]. congruence. Qed.

(** Only a NaN or an infinity is refused, so a value without floats always has a text. *)
Fixpoint no_float (j : json) : bool :=
  match j with
  | JFloat _ => false
  | JArr l => forallb no_float l
  | JObj o => forallb (λ kv, no_float kv.2) o
  | _ => true
  end.

Lemma mapM_res_total {A B} (f : A → res B) l : Forall (λ x, ∃ y, f x = Ok y) l → ∃ ys, mapM_res f l = Ok ys.
Proof.
  induction 1 as [|x t (y & Hy) _ (ys & Hys)]; [by exists []|]. exists (y :: ys). cbn. rewrite Hy. cbn. by rewrite Hys.
Qed.

Lemma dumps_total j : no_float j = true → ∃ s, dumps j = Ok s.
Proof.
  induction j as [|b|z|x|t|l IH|o IH] using json_ind'; intros Hf; cbn [dumps]; eauto; try done; cbn in Hf.
  - destruct (mapM_res_total dumps l) as (ss & ->); [|cbn; eauto].
    rewrite Forall_forall in *. rewrite forallb_forall in Hf. intros x Hx. apply IH, Hf; [done|by apply list_elem_of_In].
  - match goal with |- context [mapM_res ?f o] => destruct (mapM_res_total f o) as (ss & ->) end; [|cbn; eauto].
    rewrite Forall_forall in *. rewrite forallb_forall in Hf. intros x Hx.
    destruct (IH x Hx) as (s & ->); [apply Hf; by apply list_elem_of_In|]. cbn. eauto.
Qed.

Lemma canonical_json_total j : no_float j = true → ∃ s, canonical_json j = Ok s.
Proof. intros (s & H)%dumps_total. unfold canonical_json. rewrite H. cbn. eauto. Qed.

(** A value hashed by its canonical text: equal hashes mean equal values up to key order, unless these very values have
    different texts with one SHA-256 digest. *)
Definition collides (j k : json) : Prop :=
  ∃ x y, canonical_json j = Ok x ∧ canonical_json k = Ok y ∧ x ≠ y ∧ sha256_hex x = sha256_hex y.

Lemma hash_inj j k h :
  distinct_keys j → distinct_keys k →
  (t ← canonical_json j; Ok (sha256_hex t)) = Ok h → (t ← canonical_json k; Ok (sha256_hex t)) = Ok h →
  norm j = norm k ∨ collides j k.
Proof.
  intros Hj Hk Ej Ek. ok_inv Ej. ok_inv Ek.
  match goal with A : canonical_json j = Ok ?x, B : canonical_json k = Ok ?y |- _ =>
    destruct (decide (x = y)) as [<-|]; [left; by eapply canonical_json_inj|right; exists x, y; split_and!; [done|done|done|congruence]] end.
Qed.

(** Decides [distinct_keys]: the keys of every object of a fixed schema are distinct. *)
Fixpoint keys_distinct (j : json) : bool :=
  match j with
  | JArr l => forallb keys_distinct l
  | JObj o => bool_decide (NoDup o.*1) && forallb (λ kv, keys_distinct kv.2) o
  | _ => true
  end.

Lemma keys_distinct_ok j : keys_distinct j = true → distinct_keys j.
Proof.
  induction j as [|b|z|x|t|l IH|o IH] using json_ind'; intros Hf; try constructor; cbn in Hf; bool_prop; try done;
    rewrite Forall_forall in *; rewrite forallb_forall in *; intros x Hx; (apply IH; [done|]);
    match goal with H : ∀ x, List.In x _ → _ |- _ => apply H; by apply list_elem_of_In end.
Qed.

(** C36: What [canonical_json] prints for a value whose objects have distinct keys, [json.loads] reads back as the same
    value with every object's keys in sorted order; and two values share a canonical text only when they are equal up
    to the order of their keys. *)
Theorem canonical_json_roundtrip j s :
  distinct_keys j → canonical_json j = Ok s →
  loads s = Ok (norm j) ∧ ∀ k, distinct_keys k → canonical_json k = Ok s → norm k = norm j.
Proof. split; [by apply loads_canonical_json|]. intros k Hk Hs. by eapply canonical_json_inj. Qed.

Lemma canonical_json_roundtrip_witness :
  ∃ s, loads s = Ok (norm sample) ∧ ∀ k, distinct_keys k → canonical_json k = Ok s → norm k = norm sample.
Proof.
  eexists. apply (canonical_json_roundtrip sample).
  - apply keys_distinct_ok. vm_compute. reflexivity.
  - vm_compute. reflexivity.
Defined.
