(* ===== verification/Numbers.v ===== *)
(** Python's [int(text)], [float(text)] and [str.strip], on text of code points below 256, and that the first two read back
    the number a JSON document's token stands for. *)
From Stdlib Require Import SpecFloat Ascii.
From S2P Require Import Prelude Float64 Json JsonRoundtrip.

(** * Whitespace *)

(** [str.strip] takes off every character of Unicode's whitespace; [int] and [float] leave the four separators 28 to 31 where
    they are, and then refuse them. *)
Definition number_space (c : ascii) : bool := in_range 9 13 c || is_char 32 c || is_char 133 c || is_char 160 c.
Definition str_space (c : ascii) : bool := number_space c || in_range 28 31 c.

Definition strip (space : ascii → bool) (l : list ascii) : list ascii := rev (span space (rev (span space l).2)).2.

(** * Numbers *)

(** Underscores are allowed between digits, and then dropped. *)
Fixpoint drop_underscores (prev : option ascii) (l : list ascii) : option (list ascii) :=
  let digit_before := match prev with Some p => is_digit p | None => false end in
  match l with
  | [] => if match prev with Some p => is_char 95 p | None => false end then None else Some []
  | c :: t =>
      if is_char 95 c then if digit_before then drop_underscores (Some c) t else None
      else if match prev with Some p => is_char 95 p | None => false end && negb (is_digit c) then None
      else r ← drop_underscores (Some c) t; Some (c :: r)
  end.

Definition read_sign (l : list ascii) : bool * list ascii :=
  match l with c :: t => if is_char 45 c then (true, t) else if is_char 43 c then (false, t) else (false, l) | [] => (false, []) end.

Definition MAX_STR_DIGITS : Z := 4300.

Definition py_int (l : list ascii) : option Z :=
  l ← drop_underscores None (strip number_space l);
  let '(neg, d) := read_sign l in
  if (length d =? 0)%nat || negb (forallb is_digit d) || (MAX_STR_DIGITS <? Z.of_nat (length d)) then None
  else Some (if neg then - read_digits 0 d else read_digits 0 d).

Definition lower (c : ascii) : ascii :=
  let n := nat_of_ascii c in if (65 <=? n)%nat && (n <=? 90)%nat then ascii_of_nat (n + 32) else c.

(** A decimal number: digits with an optional point, at least one digit, and an optional exponent. *)
Definition read_decimal (neg : bool) (l : list ascii) : option f64 :=
  let '(ip, l) := span is_digit l in
  let '(fp, l) := match l with c :: t => if is_char 46 c then span is_digit t else ([], l) | [] => ([], []) end in
  if (length ip + length fp =? 0)%nat then None
  else ex ← read_exp l; Some (f64_of_dec neg (read_digits (read_digits 0 ip) fp) (or_default 0 ex - Z.of_nat (length fp))).

Definition py_float (l : list ascii) : option f64 :=
  l ← drop_underscores None (strip number_space l);
  let '(neg, l) := read_sign l in
  let w := String.string_of_list_ascii (lower <$> l) in
  if bool_decide (w ∈ ["inf"; "infinity"]) then Some (S754_infinity neg)
  else if bool_decide (w = "nan") then Some S754_nan
  else read_decimal neg l.

Example py_float_examples :
  (λ s, py_float (String.list_ascii_of_string s)) <$> [" 1_0.5e1 "; ".5"; "5."; "-0"; "+Inf"; "nAn"; "1__0"; "1e"; "0x10"; "1 2"; EmptyString; "1e400"]
  = [Some (f64_of_Z 105); Some (f64_of_dec false 5 (-1)); Some (f64_of_Z 5); Some (S754_zero true);
     Some (S754_infinity false); Some S754_nan; None; None; None; None; None; Some (S754_infinity false)].
Proof. vm_compute. reflexivity. Qed.

(** The separators 28 to 31 are whitespace to [str.strip] alone. *)
Example separators_refused :
  let fs := ascii_of_nat 28 in py_float [fs; "1"%char] = None ∧ py_int [fs; "1"%char] = None ∧ strip str_space [fs; "1"%char] = ["1"%char]
  ∧ py_int (ascii_of_nat 160 :: String.list_ascii_of_string "1_0") = Some 10.
Proof. vm_compute. auto. Qed.

(** * Numbers read back *)

Lemma num_char_plain c : is_num_char c = true → number_space c = false ∧ is_char 95 c = false ∧ (nat_of_ascii c <? 128)%nat = true.
Proof. destruct c as [[] [] [] [] [] [] [] []]; vm_compute; intros H; try discriminate H; split_and!; reflexivity. Qed.

Lemma strip_plain space l : Forall (λ c, space c = false) l → strip space l = l.
Proof.
  assert (∀ l, Forall (λ c, space c = false) l → (span space l).2 = l) as H.
  { intros k Hk. destruct k as [|c t]; [done|]. cbn. by rewrite (Forall_inv Hk). }
  intros Hl. unfold strip. rewrite (H l Hl), (H (rev l)); [apply rev_involutive|]. by apply List.Forall_rev.
Qed.

Lemma drop_plain prev l : Forall (λ c, is_char 95 c = false) l → match prev with Some p => is_char 95 p = false | None => True end →
  drop_underscores prev l = Some l.
Proof.
  revert prev. induction l as [|c t IH]; intros prev Hl Hp; cbn.
  - destruct prev as [p|]; [by rewrite Hp|done].
  - apply Forall_cons in Hl as [Hc Ht]. rewrite Hc. destruct prev as [p|]; [rewrite Hp|]; cbn [andb]; by rewrite (IH (Some c)).
Qed.

Lemma number_plain tok v : read_number tok = Some v → drop_underscores None (strip number_space tok) = Some tok.
Proof.
  intros H. destruct (read_number_shape tok v H) as [Hall _].
  rewrite strip_plain by (eapply Forall_impl; [exact Hall|]; intros c Hc; apply (num_char_plain c Hc)).
  apply drop_plain; [|done]. eapply Forall_impl; [exact Hall|]. intros c Hc. apply (num_char_plain c Hc).
Qed.

(** The sign of a JSON number, and the digits after it. *)
Lemma number_sign tok v : read_number tok = Some v →
  ∃ neg d t, read_sign tok = (neg, d :: t) ∧ is_digit d = true
    ∧ (match tok with c :: t => if is_char 45 c then (true, t) else (false, tok) | [] => (false, []) end) = (neg, d :: t).
Proof.
  intros H. destruct (read_number_shape tok v H) as (_ & d & t & Hs & Hd). destruct Hs as [->|(m & Hm & ->)]; cbn.
  - exists false, d, t. rewrite not_minus_digit by done.
    assert (is_char 43 d = false) as -> by (by destruct d as [[] [] [] [] [] [] [] []]). done.
  - exists true, d, t. by rewrite Hm.
Qed.

Lemma py_int_number tok z : read_number tok = Some (inl z) → Z.of_nat (length tok) ≤ MAX_STR_DIGITS → py_int tok = Some z.
Proof.
  intros H Hlen. unfold py_int. rewrite (number_plain _ _ H). cbn [mbind option_bind].
  destruct (number_sign _ _ H) as (neg & d & t & Hs & Hd & He). rewrite Hs.
  assert (length (d :: t) ≤ length tok)%nat as Hl.
  { destruct tok as [|c u]; [discriminate He|]. destruct (is_char 45 c); injection He; intros; subst; cbn; lia. }
  unfold read_number in H. rewrite He in H. pose proof (span_app is_digit (d :: t)) as Hsp.
  destruct (span is_digit (d :: t)) as [ip r]. destruct Hsp as [Hr Hip]. destruct (_ || _); [done|].
  apply bind_Some in H as ([fp l2] & Hf & H). apply bind_Some in H as (ex & Hex & H). destruct fp as [fp|]; [discriminate|].
  destruct ex as [ex|]; [discriminate|]. injection H as H.
  assert (r = []) as ->.
  { unfold read_frac in Hf. destruct r as [|c u]; [done|]. destruct (is_char 46 c); [destruct (span is_digit u); by destruct (_ =? _)%nat|].
    injection Hf as <-. unfold read_exp in Hex. destruct (_ || _); [|done].
    destruct (match u with [] => _ | _ => _ end) as [sg u']. destruct (span is_digit u'). by destruct (_ || _). }
  rewrite app_nil_r in Hr. subst ip. cbn [length Nat.eqb orb].
  assert (forallb is_digit (d :: t) = true) as -> by (apply forallb_forall; rewrite Forall_forall in Hip; intros x ?; by apply Hip, list_elem_of_In).
  destruct (Z.ltb_spec MAX_STR_DIGITS (Z.of_nat (S (length t)))); [cbn in Hl; lia|]. by subst z.
Qed.

Lemma not_a_word (w : string) d t : is_digit d = true → w ∈ ["inf"; "infinity"; "nan"] → String.string_of_list_ascii (lower <$> d :: t) ≠ w.
Proof.
  intros Hd Hw. rewrite !elem_of_cons, elem_of_nil in Hw. intros E.
  assert (lower d = "i"%char ∨ lower d = "n"%char) as Hl by (destruct Hw as [->|[->|[->|[]]]]; injection E; auto).
  clear -Hd Hl. destruct d as [[] [] [] [] [] [] [] []]; try discriminate Hd; destruct Hl as [Hl|Hl]; discriminate Hl.
Qed.

Lemma py_float_number tok x : read_number tok = Some (inr x) → py_float tok = Some x.
Proof.
  intros H. unfold py_float. rewrite (number_plain _ _ H). cbn [mbind option_bind].
  destruct (number_sign _ _ H) as (neg & d & t & Hs & Hd & He). rewrite Hs.
  rewrite !bool_decide_false.
  2:{ by apply not_a_word; [|rewrite !elem_of_cons; auto]. }
  2:{ intros Hw. eapply (not_a_word _ d t Hd); [|reflexivity]. rewrite !elem_of_cons in *. tauto. }
  unfold read_number in H. rewrite He in H. unfold read_decimal.
  destruct (span is_digit (d :: t)) as [ip r] eqn:Esp. destruct (_ || _) eqn:Eo; [done|]. apply orb_false_iff in Eo as [Ei _].
  apply bind_Some in H as ([fp l2] & Hf & H). apply bind_Some in H as (ex & Hex & H).
  assert (∃ f, match r with c :: t0 => if is_char 46 c then span is_digit t0 else ([], r) | [] => ([], []) end = (f, l2)
    ∧ or_default [] fp = f) as (f & -> & Ef).
  { unfold read_frac in Hf. destruct r as [|c u]; [injection Hf as <- <-; by exists []|]. destruct (is_char 46 c).
    - destruct (span is_digit u) as [f r2]. destruct (length f =? 0)%nat; [discriminate|]. injection Hf as <- <-. by exists f.
    - injection Hf as <- <-. by exists []. }
  assert ((length ip + length f =? 0)%nat = false) as -> by (apply Nat.eqb_neq; apply Nat.eqb_neq in Ei; lia).
  rewrite Hex. cbn [mbind option_bind]. rewrite Ef in H. destruct fp, ex; (discriminate H || by injection H as <-).
Qed.
