(* ===== verification/Timestamps.v ===== *)
(** The wire timestamps of [forecasting/contracts.py]: grid times are epoch seconds, receipt times epoch milliseconds,
    and both are RFC 3339 UTC text with a literal Z ([format_ts], [format_ms], [parse_ts], [parse_ms]). The calendar is
    the proleptic Gregorian one of Python's [datetime]; its correctness over the 400-year cycle is checked by
    computation, and everything else follows by linear arithmetic. *)
From Stdlib Require Import Ascii.
From S2P Require Import Prelude Json.

(** * The calendar of [datetime] *)

Record civil := Civil { cy : Z; cm : Z; cd : Z }.

(** Days of a 400-year cycle that starts on 1 March: (year of era, day of year from March) and back. *)
Definition split_doe (doe : Z) : Z * Z :=
  let yoe := (doe - doe / 1460 + doe / 36524 - doe / 146096) / 365 in
  (yoe, doe - (365 * yoe + yoe / 4 - yoe / 100)).

Definition civil_of_days (z : Z) : civil :=
  let z := z + 719468 in
  let era := z / 146097 in
  let '(yoe, doy) := split_doe (z mod 146097) in
  let mp := (5 * doy + 2) / 153 in
  let m := if mp <? 10 then mp + 3 else mp - 9 in
  Civil (yoe + era * 400 + (if m <=? 2 then 1 else 0)) m (doy - (153 * mp + 2) / 5 + 1).

Definition days_of_civil (c : civil) : Z :=
  let y := if cm c <=? 2 then cy c - 1 else cy c in
  let era := y / 400 in
  let yoe := y mod 400 in
  let mp := if 2 <? cm c then cm c - 3 else cm c + 9 in
  let doy := (153 * mp + 2) / 5 + cd c - 1 in
  era * 146097 + (yoe * 365 + yoe / 4 - yoe / 100 + doy) - 719468.

Definition is_leap (y : Z) : bool := (y mod 4 =? 0) && (negb (y mod 100 =? 0) || (y mod 400 =? 0)).

Definition month_days (y m : Z) : Z :=
  if m =? 2 then (if is_leap y then 29 else 28) else if bool_decide (m ∈ [4; 6; 9; 11]) then 30 else 31.

Definition valid_civil (c : civil) : bool :=
  (1 <=? cy c) && (cy c <=? 9999) && (1 <=? cm c) && (cm c <=? 12) && (1 <=? cd c) && (cd c <=? month_days (cy c) (cm c)).

(** The first and the last second [datetime] can hold: 0001-01-01T00:00:00Z and 9999-12-31T23:59:59Z. *)
Definition min_epoch : Z := -62135596800.
Definition max_epoch : Z := 253402300799.

(** * Formatting *)

Definition d2 (n : Z) : list ascii := [digit (n / 10); digit (n mod 10)].
Definition d3 (n : Z) : list ascii := digit (n / 100) :: d2 (n mod 100).
Definition d4 (n : Z) : list ascii := d2 (n / 100) ++ d2 (n mod 100).

(** [strftime]'s [%Y] on the service's platform: not padded below the year 1000. *)
Definition fmt_year (y : Z) : list ascii := if y <? 1000 then digits y else d4 y.

Definition out_of_range : exn := PyValueError "year is out of range".

(** [datetime.fromtimestamp(epoch_s, tz=utc).strftime("%Y-%m-%dT%H:%M:%S")] *)
Definition strftime (epoch_s : Z) : res (list ascii) :=
  raise_if (epoch_s <? min_epoch) || (max_epoch <? epoch_s) with out_of_range ;;
  let c := civil_of_days (epoch_s / 86400) in
  let s := epoch_s mod 86400 in
  Ok (fmt_year (cy c) ++ "-"%char :: d2 (cm c) ++ "-"%char :: d2 (cd c) ++ "T"%char
      :: d2 (s / 3600) ++ ":"%char :: d2 (s / 60 mod 60) ++ ":"%char :: d2 (s mod 60)).

Definition string_of (l : list ascii) : string := String.string_of_list_ascii l.

Definition format_ts (epoch_s : json) : res string :=
  match epoch_s with
  | JInt z => s ← strftime z; Ok (string_of (s ++ ["Z"%char]))
  | _ => Raise (ContractRefused "grid time is not integer seconds")
  end.

Definition format_ms (epoch_ms : json) : res string :=
  match epoch_ms with
  | JInt z => s ← strftime (z / 1000); Ok (string_of (s ++ "."%char :: d3 (z mod 1000) ++ ["Z"%char]))
  | _ => Raise (ContractRefused "receipt time is not integer milliseconds")
  end.

(** * Parsing *)

(** [\d{n}]: exactly [n] digits, with the number they spell. *)
Fixpoint take_digits (n : nat) (acc : Z) (l : list ascii) : option (Z * list ascii) :=
  match n, l with
  | O, _ => Some (acc, l)
  | S n', c :: t => d ← digit_value c; take_digits n' (10 * acc + d) t
  | S _, [] => None
  end.

Definition take_char (c : ascii) (l : list ascii) : option (list ascii) :=
  match l with x :: t => if decide (x = c) then Some t else None | [] => None end.

Record stamp := Stamp { s_y : Z; s_mo : Z; s_d : Z; s_h : Z; s_mi : Z; s_s : Z; s_frac : option Z }.

(** The pattern [_TS]: [$] also matches before one final newline. *)
Definition match_ts (l : list ascii) : option stamp :=
  '(y, l) ← take_digits 4 0 l; l ← take_char "-" l;
  '(mo, l) ← take_digits 2 0 l; l ← take_char "-" l;
  '(d, l) ← take_digits 2 0 l; l ← take_char "T" l;
  '(h, l) ← take_digits 2 0 l; l ← take_char ":" l;
  '(mi, l) ← take_digits 2 0 l; l ← take_char ":" l;
  '(s, l) ← take_digits 2 0 l;
  '(frac, l) ← match take_char "." l with
               | Some l' => '(f, l') ← take_digits 3 0 l'; Some (Some f, l')
               | None => Some (None, l)
               end;
  l ← take_char "Z" l;
  match l with
  | [] => Some (Stamp y mo d h mi s frac)
  | [c] => if decide (nat_of_ascii c = 10%nat) then Some (Stamp y mo d h mi s frac) else None
  | _ => None
  end.

Definition ts_refused : exn := ContractRefused "is not an RFC 3339 UTC timestamp ending in Z".

(** [_parse]: the pattern, then the [datetime] constructor's own range checks. *)
Definition _parse (text : json) : res (Z * option Z) :=
  match text with
  | JStr s =>
      match match_ts (String.list_ascii_of_string s) with
      | None => Raise ts_refused
      | Some m =>
          let c := Civil (s_y m) (s_mo m) (s_d m) in
          raise_if negb (valid_civil c && (s_h m <? 24) && (s_mi m <? 60) && (s_s m <? 60)) with ts_refused ;;
          Ok (days_of_civil c * 86400 + s_h m * 3600 + s_mi m * 60 + s_s m, s_frac m)
      end
  | _ => Raise ts_refused
  end.

Definition parse_ts (text : json) : res Z :=
  '(s, frac) ← _parse text;
  match frac with Some _ => Raise (ContractRefused "must be whole seconds") | None => Ok s end.

Definition parse_ms (text : json) : res Z :=
  '(s, frac) ← _parse text;
  match frac with None => Raise (ContractRefused "must carry milliseconds") | Some f => Ok (s * 1000 + f) end.

(** * The calendar is right *)

#[local] Ltac Zify.zify_post_hook ::= Z.to_euclidean_division_equations.

Lemma split_doe_spec doe :
  0 ≤ doe < 146097 →
  let '(yoe, doy) := split_doe doe in
  0 ≤ yoe < 400 ∧ 0 ≤ doy ≤ 365 ∧ 365 * yoe + yoe / 4 - yoe / 100 + doy = doe ∧
  (doy = 365 → (yoe + 1) mod 4 = 0 ∧ ((yoe + 1) mod 100 ≠ 0 ∨ yoe = 399)).
Proof. intros. unfold split_doe. split_and!; lia. Qed.

Lemma month_spec doy :
  0 ≤ doy ≤ 365 →
  let mp := (5 * doy + 2) / 153 in
  0 ≤ mp ≤ 11 ∧ 1 ≤ doy - (153 * mp + 2) / 5 + 1 ≤ 31 ∧
  (mp = 11 → doy - (153 * mp + 2) / 5 + 1 ≤ 28 ∨ doy = 365 ∧ doy - (153 * mp + 2) / 5 + 1 = 29) ∧
  (mp = 1 ∨ mp = 3 ∨ mp = 6 ∨ mp = 8 → doy - (153 * mp + 2) / 5 + 1 ≤ 30).
Proof. intros. cbn zeta. split_and!; lia. Qed.

Lemma is_leap_era yoe era :
  (yoe + 1) mod 4 = 0 → (yoe + 1) mod 100 ≠ 0 ∨ yoe = 399 → is_leap (yoe + era * 400 + 1) = true.
Proof.
  intros H1 H2. unfold is_leap.
  destruct (Z.eqb_spec ((yoe + era * 400 + 1) mod 4) 0); [|lia].
  destruct (Z.eqb_spec ((yoe + era * 400 + 1) mod 100) 0); [|done].
  destruct (Z.eqb_spec ((yoe + era * 400 + 1) mod 400) 0); [done|lia].
Qed.

(** Every day [datetime] can hold has a valid date, and the date names the day. *)
Lemma civil_of_days_spec z :
  min_epoch ≤ z * 86400 ≤ max_epoch →
  valid_civil (civil_of_days z) = true ∧ days_of_civil (civil_of_days z) = z.
Proof.
  intros Hz. unfold min_epoch, max_epoch in Hz. unfold civil_of_days. set (w := z + 719468).
  pose proof (split_doe_spec (w mod 146097) ltac:(lia)) as H.
  destruct (split_doe (w mod 146097)) as [yoe doy]. destruct H as (Hy & Hd & He & Hl).
  pose proof (month_spec doy Hd) as Hm. cbn zeta in Hm.
  set (mp := (5 * doy + 2) / 153) in *. destruct Hm as (Hmp & Hday & Hfeb & H30).
  assert (Hw : w = w / 146097 * 146097 + w mod 146097) by lia.
  set (era := w / 146097) in *. set (doe := w mod 146097) in *. set (day := doy - (153 * mp + 2) / 5 + 1) in *.
  split.
  - unfold valid_civil, month_days. cbn [cy cm cd].
    destruct (Z.ltb_spec mp 10).
    + destruct (Z.leb_spec (mp + 3) 2); [lia|]. destruct (Z.eqb_spec (mp + 3) 2); [lia|].
      case_bool_decide as Hin; repeat (apply andb_true_iff; split); try lia.
      assert (mp = 1 ∨ mp = 3 ∨ mp = 6 ∨ mp = 8) as H4; [|specialize (H30 H4); lia].
      rewrite !elem_of_cons, elem_of_nil in Hin. lia.
    + destruct (Z.leb_spec (mp - 9) 2); [|lia]. destruct (Z.eqb_spec (mp - 9) 2).
      * assert (mp = 11) as H11 by lia. specialize (Hfeb H11).
        destruct (is_leap (yoe + era * 400 + 1)) eqn:El.
        -- repeat (apply andb_true_iff; split); lia.
        -- assert (doy <> 365) by (intros ->; destruct (Hl eq_refl) as [La Lb]; rewrite is_leap_era in El by done; done).
           repeat (apply andb_true_iff; split); lia.
      * case_bool_decide as Hin; [rewrite !elem_of_cons, elem_of_nil in Hin; lia|].
        repeat (apply andb_true_iff; split); lia.
  - unfold days_of_civil. cbn [cy cm cd].
    destruct (Z.ltb_spec mp 10).
    + destruct (Z.leb_spec (mp + 3) 2); [lia|]. destruct (Z.ltb_spec 2 (mp + 3)); [|lia].
      replace (mp + 3 - 3) with mp by lia. replace (yoe + era * 400 + 0) with (yoe + era * 400) by lia.
      replace ((yoe + era * 400) / 400) with era by lia. replace ((yoe + era * 400) mod 400) with yoe by lia. lia.
    + destruct (Z.leb_spec (mp - 9) 2); [|lia]. destruct (Z.ltb_spec 2 (mp - 9)); [lia|].
      replace (mp - 9 + 9) with mp by lia. replace (yoe + era * 400 + 1 - 1) with (yoe + era * 400) by lia.
      replace ((yoe + era * 400) / 400) with era by lia. replace ((yoe + era * 400) mod 400) with yoe by lia. lia.
Qed.

(** From 1000-01-01 on, the year has four digits. *)
Lemma civil_year_padded z : -354285 ≤ z → 1000 ≤ cy (civil_of_days z).
Proof.
  intros Hz. unfold civil_of_days, split_doe. cbn [cy].
  set (w := z + 719468). assert (365183 ≤ w) by lia. clearbody w. clear Hz z.
  set (doe := w mod 146097). set (yoe := (doe - doe / 1460 + doe / 36524 - doe / 146096) / 365).
  set (doy := doe - (365 * yoe + yoe / 4 - yoe / 100)). set (mp := (5 * doy + 2) / 153).
  destruct (Z_le_gt_dec 3 (w / 146097)).
  - assert (0 ≤ yoe) by lia. destruct (_ <=? 2); lia.
  - assert (w / 146097 = 2) by lia. assert (72989 ≤ doe) by lia. assert (0 ≤ yoe) by lia.
    destruct (Z_le_gt_dec 200 yoe); [destruct (_ <=? 2); lia|].
    assert (yoe = 199) by lia. assert (306 ≤ doy) by lia. assert (10 ≤ mp ≤ 11) by lia.
    destruct (Z.ltb_spec mp 10); [lia|]. destruct (Z.leb_spec (mp - 9) 2); lia.
Qed.

(** * Printed digits read back *)


Lemma take_digits_S n acc d l :
  0 ≤ d < 10 → take_digits (S n) acc (digit d :: l) = take_digits n (10 * acc + d) l.
Proof. intros. cbn [take_digits]. by rewrite digit_value_digit. Qed.

Lemma take_d2 n l : 0 ≤ n < 100 → take_digits 2 0 (d2 n ++ l) = Some (n, l).
Proof.
  intros. unfold d2. cbn [app]. rewrite !take_digits_S by lia. cbn [take_digits]. do 2 f_equal. lia.
Qed.

Lemma take_d3 n l : 0 ≤ n < 1000 → take_digits 3 0 (d3 n ++ l) = Some (n, l).
Proof.
  intros. unfold d3, d2. cbn [app]. rewrite !take_digits_S by lia. cbn [take_digits]. do 2 f_equal. lia.
Qed.

Lemma take_d4 n l : 0 ≤ n < 10000 → take_digits 4 0 (d4 n ++ l) = Some (n, l).
Proof.
  intros. unfold d4, d2. cbn [app]. rewrite !take_digits_S by lia. cbn [take_digits]. do 2 f_equal. lia.
Qed.

Lemma take_char_cons c l : take_char c (c :: l) = Some l.
Proof. unfold take_char. by rewrite decide_True. Qed.

(** The text of [strftime] followed by [tl] matches the pattern up to [tl]. *)
Definition match_tail (c : civil) (s : Z) (tl : list ascii) : option stamp :=
  '(frac, l) ← match take_char "." tl with
               | Some l' => '(f, l') ← take_digits 3 0 l'; Some (Some f, l')
               | None => Some (None, tl)
               end;
  l ← take_char "Z" l;
  let m := Stamp (cy c) (cm c) (cd c) (s / 3600) (s / 60 mod 60) (s mod 60) frac in
  match l with
  | [] => Some m
  | [x] => if decide (nat_of_ascii x = 10%nat) then Some m else None
  | _ => None
  end.

Definition min_padded : Z := -30610224000.

Lemma valid_civil_bounds c : valid_civil c = true → 1 ≤ cy c ≤ 9999 ∧ 1 ≤ cm c ≤ 12 ∧ 1 ≤ cd c ≤ 31.
Proof.
  unfold valid_civil, month_days. intros. bool_prop. split_and!; try lia.
  destruct (cm c =? 2); [destruct (is_leap (cy c)); lia|]. destruct (bool_decide _); lia.
Qed.

Lemma match_strftime t tl :
  min_padded ≤ t ≤ max_epoch →
  ∃ s, strftime t = Ok s ∧ match_ts (s ++ tl) = match_tail (civil_of_days (t / 86400)) (t mod 86400) tl ∧
       valid_civil (civil_of_days (t / 86400)) = true ∧ days_of_civil (civil_of_days (t / 86400)) = t / 86400.
Proof.
  intros Ht. unfold min_padded, max_epoch in Ht.
  destruct (civil_of_days_spec (t / 86400)) as [Hv Hd]; [unfold min_epoch, max_epoch; lia|].
  destruct (valid_civil_bounds _ Hv) as (Hcy & Hcm & Hcd).
  pose proof (civil_year_padded (t / 86400) ltac:(lia)) as Hpad.
  unfold strftime, min_epoch, max_epoch.
  destruct (Z.ltb_spec t (-62135596800)); [lia|]. destruct (Z.ltb_spec 253402300799 t); [lia|]. cbn [orb].
  eexists. split; [reflexivity|]. split; [|done].
  unfold fmt_year. destruct (Z.ltb_spec (cy (civil_of_days (t / 86400))) 1000); [lia|].
  set (c := civil_of_days (t / 86400)) in *. clearbody c. set (u := t mod 86400). assert (0 ≤ u < 86400) by lia. clearbody u.
  unfold match_ts, match_tail. rewrite <-!app_assoc. rewrite take_d4 by lia. cbn [mbind option_bind].
  do 4 (cbn [app]; rewrite take_char_cons; cbn [mbind option_bind]; rewrite <-?app_assoc;
        rewrite take_d2 by lia; cbn [mbind option_bind]).
  cbn [app]; rewrite take_char_cons; cbn [mbind option_bind]. rewrite take_d2 by lia. reflexivity.
Qed.

Lemma epoch_split t : t / 86400 * 86400 + t mod 86400 / 3600 * 3600 + t mod 86400 / 60 mod 60 * 60 + t mod 86400 mod 60 = t.
Proof. lia. Qed.

Lemma list_of_string_of l : String.list_ascii_of_string (string_of l) = l.
Proof. apply String.list_ascii_of_string_of_list_ascii. Qed.

Lemma match_tail_z c u :
  match_tail c u ["Z"%char] = Some (Stamp (cy c) (cm c) (cd c) (u / 3600) (u / 60 mod 60) (u mod 60) None).
Proof. reflexivity. Qed.

Lemma match_tail_ms c u f :
  0 ≤ f < 1000 →
  match_tail c u ("."%char :: d3 f ++ ["Z"%char])
  = Some (Stamp (cy c) (cm c) (cd c) (u / 3600) (u / 60 mod 60) (u mod 60) (Some f)).
Proof. intros. unfold match_tail. rewrite take_char_cons. cbn [mbind option_bind]. by rewrite take_d3. Qed.

(** A matched time of a valid date reads as its second. *)
Lemma parse_stamp s t frac :
  let c := civil_of_days (t / 86400) in
  let u := t mod 86400 in
  match_ts (String.list_ascii_of_string s)
  = Some (Stamp (cy c) (cm c) (cd c) (u / 3600) (u / 60 mod 60) (u mod 60) frac) →
  valid_civil c = true → days_of_civil c = t / 86400 →
  _parse (JStr s) = Ok (t, frac).
Proof.
  cbn zeta. intros Hm Hv Hd. unfold _parse. rewrite Hm. cbn [s_y s_mo s_d s_h s_mi s_s s_frac].
  destruct (civil_of_days (t / 86400)) as [y m d]. cbn [cy cm cd]. rewrite Hv, Hd.
  destruct (Z.ltb_spec (t mod 86400 / 3600) 24); [|lia]. destruct (Z.ltb_spec (t mod 86400 / 60 mod 60) 60); [|lia].
  destruct (Z.ltb_spec (t mod 86400 mod 60) 60); [|lia]. cbn [andb negb]. by rewrite epoch_split.
Qed.

Lemma format_parse_grid t :
  min_padded ≤ t ≤ max_epoch → ∃ s, format_ts (JInt t) = Ok s ∧ parse_ts (JStr s) = Ok t.
Proof.
  intros Ht. destruct (match_strftime t ["Z"%char] Ht) as (s & Hs & Hm & Hv & Hd).
  exists (string_of (s ++ ["Z"%char])). unfold format_ts, parse_ts. rewrite Hs. split; [done|].
  rewrite match_tail_z in Hm. rewrite (parse_stamp _ t None); [done| |done|done]. by rewrite list_of_string_of.
Qed.

Lemma format_parse_receipt t :
  min_padded ≤ t / 1000 ≤ max_epoch → ∃ s, format_ms (JInt t) = Ok s ∧ parse_ms (JStr s) = Ok t.
Proof.
  intros Ht.
  destruct (match_strftime (t / 1000) ("."%char :: d3 (t mod 1000) ++ ["Z"%char]) Ht) as (s & Hs & Hm & Hv & Hd).
  eexists. unfold format_ms, parse_ms. rewrite Hs. split; [reflexivity|].
  rewrite match_tail_ms in Hm by lia.
  rewrite (parse_stamp _ (t / 1000) (Some (t mod 1000))); [|by rewrite list_of_string_of|done|done].
  cbn. f_equal. lia.
Qed.

(** Every grid time from the year 1000 to the end of 9999 is printed by [format_ts], and [parse_ts] reads the text
    back as the same second. *)
Theorem format_parse_ts t :
  min_padded ≤ t ≤ max_epoch → ∃ s, format_ts (JInt t) = Ok s ∧ parse_ts (JStr s) = Ok t.
Proof. apply format_parse_grid. Qed.

(** The same for receipt times in milliseconds. *)
Theorem format_parse_ms t :
  min_padded * 1000 ≤ t < (max_epoch + 1) * 1000 → ∃ s, format_ms (JInt t) = Ok s ∧ parse_ms (JStr s) = Ok t.
Proof. intros Ht. apply format_parse_receipt. unfold min_padded, max_epoch in *. lia. Qed.

Example format_ts_examples :
  format_ts (JInt 0) = Ok "1970-01-01T00:00:00Z" ∧ format_ts (JInt 1709164799) = Ok "2024-02-28T23:59:59Z" ∧
  format_ts (JInt 1709164800) = Ok "2024-02-29T00:00:00Z" ∧ format_ms (JInt 951782400007) = Ok "2000-02-29T00:00:00.007Z" ∧
  parse_ts (JStr "2023-02-29T00:00:00Z") = Raise ts_refused ∧ parse_ts (JStr "2024-02-29T24:00:00Z") = Raise ts_refused.
Proof. vm_compute. repeat split; reflexivity. Qed.

Lemma format_parse_ts_witness : ∃ s, format_ts (JInt 1709164800) = Ok s ∧ parse_ts (JStr s) = Ok 1709164800.
Proof. apply (format_parse_ts 1709164800). unfold min_padded, max_epoch. lia. Defined.

Lemma format_parse_ms_witness : ∃ s, format_ms (JInt 951782400007) = Ok s ∧ parse_ms (JStr s) = Ok 951782400007.
Proof. apply (format_parse_ms 951782400007). unfold min_padded, max_epoch. lia. Defined.
