(* ===== verification/Datetimes.v ===== *)
(** Python's [datetime] as the service uses it: a time is a number of microseconds on its own clock, with the offset of its
    zone when it has one. [fromisoformat] reads what [isoformat] writes; the other forms of ISO 8601 that Python 3.11 added
    (week dates, no separators, other fractions) are outside the model and refused here. *)
From Stdlib Require Import SpecFloat Ascii.
From S2P Require Import Prelude Float64 Json Timestamps.

Record datetime := { dt_local : Z; dt_offset : option Z }.

Definition SECOND : Z := 1000000.
Definition min_us : Z := min_epoch * SECOND.
Definition max_us : Z := max_epoch * SECOND + 999999.

(** [replace(tzinfo=utc)] of a naive time, [astimezone(utc)] of an aware one: the time in UTC. *)
Definition utc_of (d : datetime) : res Z :=
  match dt_offset d with
  | None => Ok (dt_local d)
  | Some o => let t := dt_local d - o in raise_if (t <? min_us) || (max_us <? t) with PyOverflowError ;; Ok t
  end.

(** [timestamp()] of a time in UTC, and [int()] of a float. *)
Definition timestamp (us : Z) : f64 := int_div us SECOND.
Definition py_trunc (x : f64) : res Z :=
  match (if x <ᶠ f0 then Z.opp <$> ffloor (SFopp x) else ffloor x) with
  | Some z => Ok z
  | None => Raise (if is_nan x then PyValueError "cannot convert float NaN to integer" else PyOverflowError)
  end.

(** [isoformat()] of a naive time. *)
Definition d6 (n : Z) : list ascii := d3 (n / 1000) ++ d3 (n mod 1000).
Definition iso_text (us : Z) : list ascii :=
  let t := us / SECOND in let f := us mod SECOND in
  let c := civil_of_days (t / 86400) in let s := t mod 86400 in
  d4 (cy c) ++ "-"%char :: d2 (cm c) ++ "-"%char :: d2 (cd c) ++ "T"%char
    :: d2 (s / 3600) ++ ":"%char :: d2 (s / 60 mod 60) ++ ":"%char :: d2 (s mod 60) ++ (if f =? 0 then [] else "."%char :: d6 f).
Definition isoformat (us : Z) : string := string_of (iso_text us).

(** [HH[:MM[:SS[.fff[fff]]]]]: hours, minutes, seconds and microseconds, and the text after them. *)
Definition fraction (l : list ascii) : option (Z * list ascii) :=
  match take_char "." l with
  | None => Some (0, l)
  | Some l => match take_digits 6 0 l with Some r => Some r | None => '(f, l) ← take_digits 3 0 l; Some (f * 1000, l) end
  end.
Definition after_colon (k : list ascii → option (Z * Z * list ascii)) (l : list ascii) : option (Z * Z * list ascii) :=
  match take_char ":" l with None => Some (0, 0, l) | Some l => k l end.
Definition clock (l : list ascii) : option (Z * Z * Z * Z * list ascii) :=
  '(h, l) ← take_digits 2 0 l;
  match take_char ":" l with
  | None => Some (h, 0, 0, 0, l)
  | Some l =>
      '(m, l) ← take_digits 2 0 l;
      '(s, f, l) ← after_colon (λ l, '(s, l) ← take_digits 2 0 l; '(f, l) ← fraction l; Some (s, f, l)) l;
      Some (h, m, s, f, l)
  end.
Definition clock_us (h m s f : Z) : Z := ((h * 60 + m) * 60 + s) * SECOND + f.

(** [±HH:MM...], less than a day, to the end of the text. *)
Definition zone (l : list ascii) : option (option Z) :=
  match l with
  | [] => Some None
  | c :: t =>
      sign ← (if is_char 43 c then Some 1 else if is_char 45 c then Some (-1) else None);
      '(h, m, s, f, r) ← clock t;
      match r with [] => let o := clock_us h m s f in if o <? 86400 * SECOND then Some (Some (sign * o)) else None | _ => None end
  end.

Definition read_iso (l : list ascii) : option datetime :=
  '(y, l) ← take_digits 4 0 l; l ← take_char "-" l;
  '(mo, l) ← take_digits 2 0 l; l ← take_char "-" l;
  '(d, l) ← take_digits 2 0 l;
  let c := Civil y mo d in
  if negb (valid_civil c) then None else
  let day := days_of_civil c * 86400 * SECOND in
  match l with
  | [] => Some {| dt_local := day; dt_offset := None |}
  | _ :: l =>
      '(h, m, s, f, l) ← clock l;
      if negb ((h <? 24) && (m <? 60) && (s <? 60)) then None else
      o ← zone l; Some {| dt_local := day + clock_us h m s f; dt_offset := o |}
  end.
Definition fromisoformat (s : string) : res datetime :=
  of_option (PyValueError "Invalid isoformat string") (read_iso (String.list_ascii_of_string s)).

(** [s.replace("Z", "+00:00")] *)
Definition zulu (s : string) : string :=
  string_of (l ← String.list_ascii_of_string s; if is_char 90 l then String.list_ascii_of_string "+00:00" else [l]).

(** Each answer is the interpreter's. *)
Example iso_examples :
  (λ s, match fromisoformat s with Ok d => Some (dt_local d, dt_offset d) | Raise _ => None end)
    <$> ["2020-01-01"; "2020-01-01x05"; "2020-01-01T05:06:07.123456+05:30"; "2020-01-01T05:06:07-00:00:01"; "2020-01-01T00:00:00+00:99";
         "2020-01-01T00:00:00+23:60"; "2020-01-01T24:00"; "2020-02-30"; "2020-01-01T"; zulu "2020-01-01 05:06Z"; "2020-01-01T05:06Z+"]
  = [Some (1577836800000000, None); Some (1577854800000000, None); Some (1577855167123456, Some 19800000000);
     Some (1577855167000000, Some (-1000000)); Some (1577836800000000, Some 5940000000); None; None; None; None;
     Some (1577855160000000, Some 0); None].
Proof. vm_compute. reflexivity. Qed.

(** * What was written reads back *)

#[local] Ltac Zify.zify_post_hook ::= Z.to_euclidean_division_equations.

Lemma take_d6 n l : 0 ≤ n < 1000000 → take_digits 6 0 (d6 n ++ l) = Some (n, l).
Proof.
  intros. unfold d6, d3, d2. cbn [app]. rewrite !take_digits_S by lia. cbn [take_digits]. do 2 f_equal. lia.
Qed.

Lemma clock_of h m s f : 0 ≤ h < 100 → 0 ≤ m < 100 → 0 ≤ s < 100 → 0 ≤ f < 1000000 →
  clock (d2 h ++ ":"%char :: d2 m ++ ":"%char :: d2 s ++ (if f =? 0 then [] else "."%char :: d6 f)) = Some (h, m, s, f, []).
Proof.
  intros. unfold clock. rewrite take_d2 by done. cbn [mbind option_bind]. rewrite take_char_cons, take_d2 by done. cbn [mbind option_bind].
  unfold after_colon. rewrite take_char_cons, take_d2 by done. cbn [mbind option_bind]. unfold fraction.
  destruct (Z.eqb_spec f 0) as [->|]; [done|]. rewrite take_char_cons. rewrite <-(app_nil_r (d6 f)), take_d6 by done. done.
Qed.

(** [isoformat] and [fromisoformat] are inverse on every naive time. *)
Lemma isoformat_roundtrip us : min_us ≤ us ≤ max_us → fromisoformat (isoformat us) = Ok {| dt_local := us; dt_offset := None |}.
Proof.
  unfold min_us, max_us, min_epoch, max_epoch, SECOND. intros Hus. unfold fromisoformat, isoformat. rewrite list_of_string_of.
  destruct (civil_of_days_spec (us / SECOND / 86400)) as [Hv Hd]; [unfold min_epoch, max_epoch, SECOND; lia|].
  destruct (valid_civil_bounds _ Hv) as (Hy & Hm & Hday). unfold read_iso, iso_text.
  set (c := civil_of_days (us / SECOND / 86400)) in *. clearbody c.
  rewrite take_d4 by lia. cbn [mbind option_bind]. rewrite take_char_cons. cbn [mbind option_bind].
  rewrite take_d2 by lia. cbn [mbind option_bind]. rewrite take_char_cons. cbn [mbind option_bind]. rewrite take_d2 by lia. cbn [mbind option_bind].
  destruct c as [y m d]. cbn [cy cm cd] in *. rewrite Hv. cbn [negb]. set (t := us / SECOND) in *.
  rewrite clock_of by (unfold SECOND; lia). cbn [mbind option_bind].
  destruct (Z.ltb_spec (t mod 86400 / 3600) 24); [|lia]. destruct (Z.ltb_spec (t mod 86400 / 60 mod 60) 60); [|lia].
  destruct (Z.ltb_spec (t mod 86400 mod 60) 60); [|lia]. cbn. do 2 f_equal. rewrite Hd. unfold clock_us, t, SECOND. lia.
Qed.
