(* ===== verification/BoundedHttp.v ===== *)
(** [ml-engine/data/bounded_http.py]: one HTTP exchange under a deadline and a body cap. Sockets, TLS, http.client's connection
    and response, the clock, the event the timer sets and the resolver's pool are operations on an outside world [X], each with
    any outcome. What this process holds open is a list of handles; the variables of the function that the [finally] clause
    closes, and the watchdog's socket, are part of the state. *)
From Stdlib Require Import SpecFloat.
From S2P Require Import Prelude Float64.

Definition RESOLVER_SLOTS : Z := 4.
Definition READ_SIZE : Z := 64 * 1024.

(** What a lookup in the pool comes to within the time given to it. *)
Inductive lookup (A : Type) := Found (addresses : list A) | LookupTimeout | LookupRaised (e : exn).
Arguments Found {A} _.
Arguments LookupTimeout {A}.
Arguments LookupRaised {A} _.

Record Net (X Addr : Type) := {
  net_monotonic : X → f64 * X;
  net_expired : X → bool * X;                                  (* the timer has fired *)
  net_start_timer : f64 → SE X (); net_cancel_timer : X → X;
  net_acquire_slot : X → bool * X;
  net_submit : string → Z → SE X ();                           (* a lookup that raises gives its slot back *)
  net_result : f64 → X → lookup Addr * X;
  net_socket : Addr → SE X ();
  net_connect : Addr → f64 → SE X ();                          (* [settimeout] and [connect] *)
  net_dup : SE X ();
  net_settimeout : f64 → SE X ();
  net_handshake : string → SE X ();                            (* [wrap_socket] and [do_handshake] *)
  net_connection : string → Z → SE X ();                       (* http.client's connection, on our socket *)
  net_request : string → string → option string → list (string * string) → SE X ();
  net_getresponse : SE X Z;                                    (* the status *)
  net_read : Z → SE X string;
  net_framing : X → (bool * option Z) * X;                     (* [resp.chunked], [resp.length] *)
}.
Arguments net_monotonic {X Addr} _ _.
Arguments net_expired {X Addr} _ _.
Arguments net_start_timer {X Addr} _ _ _.
Arguments net_cancel_timer {X Addr} _ _.
Arguments net_acquire_slot {X Addr} _ _.
Arguments net_submit {X Addr} _ _ _ _.
Arguments net_result {X Addr} _ _ _.
Arguments net_socket {X Addr} _ _ _.
Arguments net_connect {X Addr} _ _ _ _.
Arguments net_dup {X Addr} _ _.
Arguments net_settimeout {X Addr} _ _ _.
Arguments net_handshake {X Addr} _ _ _.
Arguments net_connection {X Addr} _ _ _ _.
Arguments net_request {X Addr} _ _ _ _ _ _.
Arguments net_getresponse {X Addr} _ _.
Arguments net_read {X Addr} _ _ _.
Arguments net_framing {X Addr} _ _.

(** What [urlsplit] makes of a URL; reading its port can raise. *)
Record url := { u_scheme : string; u_hostname : option string; u_port : res (option Z); u_path : string; u_query : string }.

(** What is open, and what the function's variables hold. *)
Record handles := {
  hs_open : list nat; hs_next : nat; hs_live : option nat; hs_sock : option nat; hs_conn : option nat; hs_resp : option nat;
  hs_timer : bool;
}.
Definition no_handles : handles :=
  {| hs_open := []; hs_next := 0; hs_live := None; hs_sock := None; hs_conn := None; hs_resp := None; hs_timer := false |}.

Definition set_live (h : option nat) (s : handles) : handles :=
  {| hs_open := hs_open s; hs_next := hs_next s; hs_live := h; hs_sock := hs_sock s; hs_conn := hs_conn s; hs_resp := hs_resp s; hs_timer := hs_timer s |}.
Definition set_sock (h : option nat) (s : handles) : handles :=
  {| hs_open := hs_open s; hs_next := hs_next s; hs_live := hs_live s; hs_sock := h; hs_conn := hs_conn s; hs_resp := hs_resp s; hs_timer := hs_timer s |}.
Definition set_conn (h : option nat) (s : handles) : handles :=
  {| hs_open := hs_open s; hs_next := hs_next s; hs_live := hs_live s; hs_sock := hs_sock s; hs_conn := h; hs_resp := hs_resp s; hs_timer := hs_timer s |}.
Definition set_resp (h : option nat) (s : handles) : handles :=
  {| hs_open := hs_open s; hs_next := hs_next s; hs_live := hs_live s; hs_sock := hs_sock s; hs_conn := hs_conn s; hs_resp := h; hs_timer := hs_timer s |}.
Definition set_timer (b : bool) (s : handles) : handles :=
  {| hs_open := hs_open s; hs_next := hs_next s; hs_live := hs_live s; hs_sock := hs_sock s; hs_conn := hs_conn s; hs_resp := hs_resp s; hs_timer := b |}.
Definition add_handle (s : handles) : handles :=
  {| hs_open := hs_open s ++ [hs_next s]; hs_next := S (hs_next s); hs_live := hs_live s; hs_sock := hs_sock s; hs_conn := hs_conn s;
     hs_resp := hs_resp s; hs_timer := hs_timer s |}.
Definition drop_handle (h : option nat) (s : handles) : handles :=
  {| hs_open := match h with Some i => filter (λ j, j ≠ i) (hs_open s) | None => hs_open s end; hs_next := hs_next s; hs_live := hs_live s;
     hs_sock := hs_sock s; hs_conn := hs_conn s; hs_resp := hs_resp s; hs_timer := hs_timer s |}.

Section exchange.
Context {X Addr : Type} (N : Net X Addr).
Abbreviation W := (X * handles)%type.

Definition net {A} (m : SE X A) : SE W A := λ w, let '(r, x) := m w.1 in (r, (x, w.2)).
Definition asks {A} (m : X → A * X) : SE W A := net (λ x, let '(a, x') := m x in (Ok a, x')).
Definition now_holds (f : handles → handles) : SE W () := λ w, (Ok (), (w.1, f w.2)).
(** A call that opens something. *)
Definition opens {A} (m : SE X A) : SE W (nat * A) :=
  λ w, match m w.1 with (Ok a, x) => (Ok (hs_next w.2, a), (x, add_handle w.2)) | (Raise e, x) => (Raise e, (x, w.2)) end.
Definition closes (h : option nat) : SE W () := now_holds (drop_handle h).
(** [try: m] with its outcome as a value. *)
Definition attempt {A} (m : SE W A) : SE W (res A) := λ w, let '(r, w') := m w in (Ok r, w').

Definition _try_timeout (seconds : f64) : SE W () :=
  r ← attempt (net (net_settimeout N seconds)); match r with Raise PyOSError => mret () | r => lift r end.

Definition _resolve (host : string) (port : Z) (timeout : f64) : SE W (list Addr) :=
  got ← asks (net_acquire_slot N);
  raise_if negb got with TransportFailure "name resolution saturated (earlier lookups still running)" ;;
  _ ← net (net_submit N host port);
  r ← asks (net_result N timeout);
  match r with
  | Found l => mret l
  | LookupTimeout => mthrow (DeadlineExceeded "name resolution exceeded the deadline")
  | LookupRaised PyOSError => mthrow (TransportFailure "name resolution failed")
  | LookupRaised e => mthrow e
  end.

Section request.
Context (method : string) (split : res url) (body : option string) (headers : list (string * string)).
Context (deadline_s : f64) (max_bytes : Z) (connect_timeout_s : f64).

Definition remaining (deadline : f64) : SE W f64 :=
  now ← asks (net_monotonic N);
  let left := deadline ⊖ now in
  raise_if left ≤ᶠ f0 with DeadlineExceeded "exchange exceeded its deadline" ;; mret left.

(** [expired.is_set() or time.monotonic() >= deadline] *)
Definition past (deadline : f64) : SE W bool :=
  e ← asks (net_expired N);
  if (e : bool) then mret true else now ← asks (net_monotonic N); mret (deadline ≤ᶠ now).

(** Each address in turn, until one is connected. *)
Fixpoint connect_any (deadline : f64) (addrs : list Addr) : SE W () :=
  match addrs with
  | [] => mthrow (TransportFailure "could not connect")
  | a :: rest =>
      '(h, _) ← opens (net_socket N a);
      _ ← now_holds (set_live (Some h));
      e ← asks (net_expired N);
      if (e : bool) then _ ← closes (Some h); mthrow (DeadlineExceeded "deadline passed before connecting")
      else
        r ← attempt (left ← remaining deadline; net (net_connect N a (fmin connect_timeout_s left)));
        match r with
        | Ok _ => now_holds (set_sock (Some h))
        | Raise (DeadlineExceeded why) => _ ← closes (Some h); mthrow (DeadlineExceeded why)
        | Raise PyOSError =>
            _ ← closes (Some h);
            late ← past deadline;
            if (late : bool) then mthrow (DeadlineExceeded "connecting exceeded the deadline") else connect_any deadline rest
        | Raise e => mthrow e
        end
  end.

(** The reads of the body; each adds a character or ends the loop, so the fuel is not used up. *)
Fixpoint read_body (fuel : nat) (deadline : f64) (size : Z) (text : string) : SE W string :=
  match fuel with
  | O => mthrow (PyRuntimeError "out of fuel")
  | S n =>
      left ← remaining deadline;
      _ ← _try_timeout left;
      chunk ← net (net_read N READ_SIZE);
      if bool_decide (chunk = EmptyString) then mret text
      else
        let size := size + Z.of_nat (String.length chunk) in
        raise_if max_bytes <? size with BodyTooLarge "response exceeds the cap" ;;
        read_body n deadline size (text +:+ chunk)
  end.

Definition exchange (u : url) (host : string) (port : Z) (deadline : f64) : SE W (Z * string) :=
  left ← remaining deadline;
  addrs ← _resolve host port left;
  raise_if bool_decide (length addrs = 0%nat) with TransportFailure "no address" ;;
  _ ← connect_any deadline addrs;
  '(h, _) ← opens (net_dup N);
  _ ← now_holds (set_live (Some h));
  e ← asks (net_expired N);
  raise_if (e : bool) with DeadlineExceeded "deadline passed after connecting" ;;
  left ← remaining deadline;
  _ ← net (net_settimeout N left);
  _ ← (if bool_decide (u_scheme u = "https") then net (net_handshake N host) else mret ());
  '(h, _) ← opens (net_connection N host port);
  _ ← now_holds (set_conn (Some h));
  let path := (if bool_decide (u_path u = EmptyString) then "/" else u_path u) +:+
              (if bool_decide (u_query u = EmptyString) then EmptyString else "?" +:+ u_query u) in
  _ ← net (net_request N method path body headers);
  left ← remaining deadline;
  _ ← _try_timeout left;
  '(h, status) ← opens (net_getresponse N);
  _ ← now_holds (set_resp (Some h));
  text ← read_body (S (S (Z.to_nat max_bytes))) deadline 0 EmptyString;
  e ← asks (net_expired N);
  raise_if (e : bool) with DeadlineExceeded "exchange exceeded its deadline" ;;
  '(chunked, length) ← asks (net_framing N);
  if (chunked : bool) then mret (status, text)
  else match length with
       | None => mthrow (TransportFailure "unframed response")
       | Some n => raise_if 0 <? n with TransportFailure "truncated response" ;; mret (status, text)
       end.

Definition is_transport (e : exn) : bool :=
  match e with BodyTooLarge _ | TransportFailure _ | DeadlineExceeded _ => true | _ => false end.
Definition is_caught (e : exn) : bool := match e with PyOSError | HTTPException | PyValueError _ => true | _ => false end.

(** The [except] clauses. *)
Definition typed {A} (deadline : f64) (m : SE W A) : SE W A :=
  r ← attempt m;
  match r with
  | Ok a => mret a
  | Raise e =>
      if is_transport e then mthrow e
      else if is_caught e then late ← past deadline; if (late : bool) then mthrow (DeadlineExceeded "exchange exceeded its deadline")
                                                      else mthrow (TransportFailure "exchange failed")
      else mthrow e
  end.

(** The [finally] clause. *)
Definition cleanup (w : W) : W :=
  let '(x, s) := w in
  let watch := hs_live s in
  let s := set_live None (set_timer false s) in
  (net_cancel_timer N x, drop_handle watch (drop_handle (hs_sock s) (drop_handle (hs_conn s) (drop_handle (hs_resp s) s)))).

Definition finally {A} (m : SE W A) : SE W A := λ w, let '(r, w') := m w in (r, cleanup w').

Definition bounded_request : SE W (Z * string) :=
  raise_if bool_decide (method ∉ ["GET"; "POST"]) with TransportFailure "unsupported method" ;;
  raise_if deadline_s ≤ᶠ f0 with DeadlineExceeded "deadline already passed" ;;
  u ← lift split;
  match u_hostname u with
  | Some host =>
      raise_if negb (bool_decide (u_scheme u ∈ ["http"; "https"])) with TransportFailure "unsupported URL" ;;
      port ← lift (u_port u);
      let default := if bool_decide (u_scheme u = "https") then 443 else 80 in
      let port := match port with Some p => if p =? 0 then default else p | None => default end in
      now ← asks (net_monotonic N);
      let deadline := now ⊕ deadline_s in
      _ ← net (net_start_timer N deadline_s);
      _ ← now_holds (set_timer true);
      finally (typed deadline (exchange u host port deadline))
  | None => mthrow (TransportFailure "unsupported URL")
  end.
End request.

(** [bounded_get] *)
Definition bounded_get (split : res url) (headers : list (string * string)) (deadline_s : f64) (max_bytes : Z) (connect_timeout_s : f64)
    : SE W (Z * string) :=
  bounded_request "GET" split None headers deadline_s max_bytes connect_timeout_s.
End exchange.
