(* ===== verification/BoundedSafety.v ===== *)
(** What the bounded exchange guarantees: nothing it opened stays open and no timer keeps running, whatever happened; an answer
    is complete, within the cap and within the deadline; and what it raises is one of its three exceptions. *)
From Stdlib Require Import SpecFloat.
From S2P Require Import Prelude Float64 BoundedHttp.

Section exchange.
Context {X Addr : Type} (N : Net X Addr).
Abbreviation W := (X * handles)%type.

(** * Computations that open and close nothing *)

Definition quiet {A} (m : SE W A) : Prop := ∀ w, (m w).2.2 = w.2.

Lemma net_ret {A} (a : A) : quiet (mret a).
Proof. done. Qed.
Lemma net_throw {A} (e : exn) : quiet (A := A) (mthrow e).
Proof. done. Qed.
Lemma net_lift {A} (r : res A) : quiet (lift r).
Proof. done. Qed.
Lemma quiet_net {A} (m : SE X A) : quiet (net m).
Proof. intros w. unfold net. by destruct (m w.1). Qed.
Lemma quiet_asks {A} (m : X → A * X) : quiet (asks m).
Proof. apply quiet_net. Qed.
Lemma net_bind {A B} (m : SE W A) (k : A → SE W B) : quiet m → (∀ a, quiet (k a)) → quiet (m ≫= k).
Proof. intros Hm Hk w. rewrite se_bind_eq. specialize (Hm w). destruct (m w) as [[a|e] w1]; [|done]. cbn in Hm. rewrite <-Hm. apply Hk. Qed.
Lemma net_raise_if {A} (c : bool) e (k : SE W A) : quiet k → quiet (raise_if c with e ;; k).
Proof. by destruct c. Qed.
Lemma quiet_attempt {A} (m : SE W A) : quiet m → quiet (attempt m).
Proof. intros H w. unfold attempt. specialize (H w). by destruct (m w). Qed.

Create HintDb quiet.
#[local] Hint Resolve net_ret net_throw net_lift quiet_net quiet_asks net_bind net_raise_if quiet_attempt : quiet.

(** Walks through a computation made of such ones. *)
Ltac quietly :=
  repeat first
    [ solve [auto 2 with quiet] | apply net_bind; [|intros] | apply net_raise_if | apply quiet_attempt
    | match goal with |- quiet (match ?x with _ => _ end) => destruct x | |- quiet (let '(_, _) := ?x in _) => destruct x end ].

Lemma quiet_remaining d : quiet (remaining N d).
Proof. unfold remaining. quietly. Qed.
Lemma quiet_past d : quiet (past N d).
Proof. unfold past. quietly. Qed.
Lemma quiet_try_timeout s : quiet (_try_timeout N s).
Proof. unfold _try_timeout. quietly. Qed.
Lemma quiet_resolve h p t : quiet (_resolve N h p t).
Proof. unfold _resolve. quietly. Qed.
#[local] Hint Resolve quiet_remaining quiet_past quiet_try_timeout quiet_resolve : quiet.
Lemma quiet_read cap n d size text : quiet (read_body N cap n d size text).
Proof. revert size text. induction n as [|n IH]; intros size text; cbn [read_body]; quietly. Qed.
#[local] Hint Resolve quiet_read : quiet.

Lemma wp_quiet {A B} (m : SE W A) (k : A → SE W B) (P : handles → Prop) (Q : res B → W → Prop) w : quiet m → P w.2 →
  (∀ e w', P w'.2 → Q (Raise e) w') → (∀ a w', P w'.2 → wp (k a) Q w') → wp (m ≫= k) Q w.
Proof.
  intros Hm HP He Hk. apply wp_bind, wp_intro. intros r w' E. specialize (Hm w). rewrite E in Hm. cbn in Hm. rewrite <-Hm in HP.
  destruct r; [by apply Hk|by apply He].
Qed.

(** * Handles *)

(** Every open handle is one the [finally] clause closes. *)
Definition covered (s : handles) : Prop := ∀ h, h ∈ hs_open s → hs_live s = Some h ∨ hs_sock s = Some h ∨ hs_conn s = Some h ∨ hs_resp s = Some h.

(** Before there is a connection, only the socket is open. *)
Record connecting (s : handles) : Prop := {
  cn_open : ∀ h, h ∈ hs_open s → hs_sock s = Some h; cn_conn : hs_conn s = None; cn_resp : hs_resp s = None;
}.

Lemma connecting_covered s : connecting s → covered s.
Proof. intros [H _ _] h Hh. right. left. by apply H. Qed.

(** What a call opens is there for the rest, and nothing is lost when the call fails. *)
Lemma wp_opens {A B} (m : SE X A) (k : nat * A → SE W B) (Q : res B → W → Prop) w :
  (∀ e x, Q (Raise e) (x, w.2)) → (∀ a x, wp (k (hs_next w.2, a)) Q (x, add_handle w.2)) → wp (opens m ≫= k) Q w.
Proof. intros He Hk. apply wp_bind. unfold wp at 1, opens. destruct (m w.1) as [[a|e] x]; [apply Hk|apply He]. Qed.

Lemma wp_holds {B} f (k : () → SE W B) (Q : res B → W → Prop) w : wp (k ()) Q (w.1, f w.2) → wp (now_holds f ≫= k) Q w.
Proof. intros H. by apply wp_bind. Qed.

Lemma connect_any_covered ct d addrs w : (∀ h, h ∉ hs_open w.2) → hs_sock w.2 = None → hs_conn w.2 = None → hs_resp w.2 = None →
  wp (connect_any N ct d addrs) (λ r w', covered w'.2 ∧ (∀ u, r = Ok u → connecting w'.2)) w.
Proof.
  revert w. induction addrs as [|a rest IH]; intros w Ho Hs Hc Hr; cbn [connect_any].
  { apply wp_throw. split; [|done]. by intros h ?%Ho. }
  apply wp_opens; [by intros e x; split; [intros h ?%Ho|]|]. intros _ x. cbv beta iota. apply wp_holds. cbn [fst snd].
  set (s := set_live (Some (hs_next w.2)) (add_handle w.2)). set (h := hs_next w.2) in *.
  assert (hs_open s = [h]) as Hopen.
  { unfold s. cbn. destruct (hs_open w.2) as [|y l]; [done|]. by destruct (Ho y ltac:(left)). }
  assert (covered s) as Hcov by (intros j Hj; rewrite Hopen in Hj; apply list_elem_of_singleton in Hj as ->; by left).
  assert (hs_open (drop_handle (Some h) s) = []) as Hnone.
  { cbn [drop_handle hs_open]. fold s. rewrite Hopen, filter_cons, filter_nil, decide_False; [done|]. by intros []. }
  assert (∀ j, j ∉ hs_open (drop_handle (Some h) s)) as Hempty by (rewrite Hnone; intros j; apply not_elem_of_nil).
  eapply (wp_quiet _ _ (λ t, t = s)); [apply quiet_asks|done|by intros e w' ->|]. intros b w1 Hw1.
  destruct b.
  { apply wp_holds, wp_throw. rewrite Hw1. split; [|done]. by intros j ?%Hempty. }
  eapply (wp_quiet _ _ (λ t, t = s)); [|exact Hw1|by intros e w' ->|].
  { apply quiet_attempt, net_bind; [apply quiet_remaining|intros; apply quiet_net]. }
  intros r w2 Hw2. destruct r as [u|e].
  { unfold wp, now_holds. cbn [snd]. rewrite Hw2. split.
    - intros j Hj. change (j ∈ hs_open s) in Hj. rewrite Hopen in Hj. apply list_elem_of_singleton in Hj as ->. by left.
    - intros _ _. split; [|done|done]. intros j Hj. change (j ∈ hs_open s) in Hj. rewrite Hopen in Hj. by apply list_elem_of_singleton in Hj as ->. }
  assert (∀ e' : exn, wp (_ ← closes (Some h); (mthrow e' : SE W ())) (λ r w', covered w'.2 ∧ (∀ u, r = Ok u → connecting w'.2)) w2) as Hthrow.
  { intros e'. apply wp_holds, wp_throw. rewrite Hw2. split; [|done]. by intros j ?%Hempty. }
  destruct e; try (apply wp_throw; rewrite Hw2; by split); try apply Hthrow.
  apply wp_holds. rewrite Hw2. eapply (wp_quiet _ _ (λ t, t = drop_handle (Some h) s)); [apply quiet_past|done| |].
  - intros e w' ->. split; [|done]. by intros j ?%Hempty.
  - intros late w3 Hw3. destruct late; [apply wp_throw; rewrite Hw3; split; [by intros j ?%Hempty|done]|]. by apply IH; rewrite Hw3.
Qed.
Context (method : string) (split : res url) (body : option string) (headers : list (string * string)).
Context (deadline_s : f64) (max_bytes : Z) (connect_timeout_s : f64).
Abbreviation exchange := (exchange N method body headers max_bytes connect_timeout_s).

Record watched (s : handles) : Prop := {
  wd_open : ∀ h, h ∈ hs_open s → hs_live s = Some h ∨ hs_sock s = Some h; wd_conn : hs_conn s = None; wd_resp : hs_resp s = None;
}.
Record linked (s : handles) : Prop := {
  lk_open : ∀ h, h ∈ hs_open s → hs_live s = Some h ∨ hs_sock s = Some h ∨ hs_conn s = Some h; lk_resp : hs_resp s = None;
}.

Lemma add_live s : connecting s → watched (set_live (Some (hs_next s)) (add_handle s)).
Proof.
  intros [Ho Hc Hr]. split; [|done|done]. intros h [Hh|Hh]%elem_of_app; [right; by apply Ho|].
  apply list_elem_of_singleton in Hh as ->. by left.
Qed.
Lemma add_conn s : watched s → linked (set_conn (Some (hs_next s)) (add_handle s)).
Proof.
  intros [Ho Hc Hr]. split; [|done]. intros h [Hh|Hh]%elem_of_app; [destruct (Ho h Hh); auto|].
  apply list_elem_of_singleton in Hh as ->. by right; right.
Qed.
Lemma add_resp s : linked s → covered (set_resp (Some (hs_next s)) (add_handle s)).
Proof.
  intros [Ho Hr] h [Hh|Hh]%elem_of_app; [destruct (Ho h Hh) as [?|[?|?]]; auto|].
  apply list_elem_of_singleton in Hh as ->. by right; right; right.
Qed.
Lemma watched_covered s : watched s → covered s.
Proof. intros [Ho _ _] h Hh. destruct (Ho h Hh); auto. Qed.
Lemma linked_covered s : linked s → covered s.
Proof. intros [Ho _] h Hh. destruct (Ho h Hh) as [?|[?|?]]; auto. Qed.

#[local] Hint Resolve connecting_covered watched_covered linked_covered : quiet.

Lemma exchange_covered u host port d w : hs_open w.2 = [] → hs_sock w.2 = None → hs_conn w.2 = None → hs_resp w.2 = None →
  wp (exchange u host port d) (λ _ w', covered w'.2) w.
Proof.
  intros Ho Hs Hc Hr. assert (covered w.2) as H0 by (intros h; rewrite Ho; by intros ?%elem_of_nil). unfold BoundedHttp.exchange.
  eapply (wp_quiet _ _ (λ s, s = w.2)); [auto with quiet|done|by intros e w' ->|]. intros left w1 H1.
  eapply (wp_quiet _ _ (λ s, s = w.2)); [auto with quiet|done|by intros e w' ->|]. intros addrs w2 H2.
  apply wp_raise_if; [by rewrite H2|]. intros _. apply wp_bind. eapply wp_mono; [|apply connect_any_covered; rewrite H2; try done; intros h; rewrite Ho; apply not_elem_of_nil].
  intros [[]|e] w3 [H3 Hcn]; [|done]. specialize (Hcn () eq_refl). apply wp_opens; [done|]. intros _ x. cbv beta iota. apply wp_holds. cbn [fst snd].
  apply add_live in Hcn. clear H3.
  eapply (wp_quiet _ _ watched); [auto with quiet|exact Hcn|auto with quiet|]. intros late w4 H4. apply wp_raise_if; [auto with quiet|]. intros _.
  eapply (wp_quiet _ _ watched); [auto with quiet|exact H4|auto with quiet|]. intros left' w5 H5.
  eapply (wp_quiet _ _ watched); [auto with quiet|exact H5|auto with quiet|]. intros [] w6 H6.
  eapply (wp_quiet _ _ watched); [destruct (bool_decide _); auto with quiet|exact H6|auto with quiet|]. intros [] w7 H7.
  apply wp_opens; [auto with quiet|]. intros _ x'. cbv beta iota. apply wp_holds. cbn [fst snd]. apply add_conn in H7. cbv zeta.
  eapply (wp_quiet _ _ linked); [auto with quiet|exact H7|auto with quiet|]. intros [] w8 H8.
  eapply (wp_quiet _ _ linked); [auto with quiet|exact H8|auto with quiet|]. intros left2 w9 H9.
  eapply (wp_quiet _ _ linked); [auto with quiet|exact H9|auto with quiet|]. intros [] w10 H10.
  apply wp_opens; [auto with quiet|]. intros status x2. cbv beta iota. apply wp_holds. cbn [fst snd]. apply add_resp in H10.
  match goal with |- wp ?m _ _ => assert (quiet m) as Hq by quietly end.
  apply wp_intro. intros r w' E. specialize (Hq (x2, set_resp (Some (hs_next w10.2)) (add_handle w10.2))). rewrite E in Hq. cbn in Hq. by rewrite Hq.
Qed.

Lemma typed_covered {A} (m : SE W A) d w : wp m (λ _ w', covered w'.2) w → wp (typed N d m) (λ _ w', covered w'.2) w.
Proof.
  intros H. unfold typed. apply wp_bind. unfold wp at 1, attempt. unfold wp in H. destruct (m w) as [[a|e] w1]; [done|].
  destruct (is_transport e); [done|]. destruct (is_caught e); [|done].
  eapply (wp_quiet _ _ covered); [auto with quiet|exact H|done|]. intros [] w2 H2; done.
Qed.

Lemma cleanup_closes w : covered w.2 → hs_open (cleanup N w).2 = [] ∧ hs_timer (cleanup N w).2 = false ∧ hs_live (cleanup N w).2 = None.
Proof.
  destruct w as [x s]. intros Hc. split_and!; [|done|done]. cbn [cleanup snd]. destruct (hs_open _) as [|h l] eqn:E; [done|exfalso].
  assert (h ∈ hs_open (cleanup N (x, s)).2) as Hh by (cbn [cleanup snd]; rewrite E; left). clear E.
  assert (∀ j i t, j ∈ hs_open (drop_handle i t) → j ∈ hs_open t ∧ i ≠ Some j) as Hd.
  { intros j [i|] t Hj; cbn in Hj; [|done]. apply list_elem_of_filter in Hj as [? ?]. split; [done|congruence]. }
  cbn [cleanup snd] in Hh. apply Hd in Hh as [Hh Hl]. apply Hd in Hh as [Hh Hs]. apply Hd in Hh as [Hh Hn]. apply Hd in Hh as [Hh Hr].
  destruct (Hc h Hh) as [?|[?|[?|?]]]; done.
Qed.
End exchange.

(** * What is raised, and what is answered *)

(** An outside that raises only what its calls are documented to raise. *)
Record polite {X Addr} (N : Net X Addr) : Prop := {
  po_submit : ∀ h p x e, (net_submit N h p x).1 = Raise e → is_caught e = true;
  po_result : ∀ t x e, (net_result N t x).1 = LookupRaised e → is_caught e = true;
  po_socket : ∀ a x e, (net_socket N a x).1 = Raise e → is_caught e = true;
  po_connect : ∀ a t x e, (net_connect N a t x).1 = Raise e → is_caught e = true;
  po_dup : ∀ x e, (net_dup N x).1 = Raise e → is_caught e = true;
  po_settimeout : ∀ t x e, (net_settimeout N t x).1 = Raise e → is_caught e = true;
  po_handshake : ∀ h x e, (net_handshake N h x).1 = Raise e → is_caught e = true;
  po_connection : ∀ h p x e, (net_connection N h p x).1 = Raise e → is_caught e = true;
  po_request : ∀ m p b h x e, (net_request N m p b h x).1 = Raise e → is_caught e = true;
  po_getresponse : ∀ x e, (net_getresponse N x).1 = Raise e → is_caught e = true;
  po_read : ∀ n x e, (net_read N n x).1 = Raise e → is_caught e = true;
}.

Section answers.
Context {X Addr : Type} (N : Net X Addr).
Abbreviation W := (X * handles)%type.

(** Whatever it raises, the [except] clauses turn into one of the three exceptions. *)
Definition expected (e : exn) : bool := is_transport e || is_caught e.
Definition orderly {A} (m : SE W A) : Prop := ∀ w e, (m w).1 = Raise e → expected e = true.

Lemma orderly_ret {A} (a : A) : orderly (mret a).
Proof. by intros w e. Qed.
Lemma orderly_throw {A} (e : exn) : expected e = true → orderly (A := A) (mthrow e).
Proof. by intros H w e' [= <-]. Qed.
Lemma orderly_bind {A B} (m : SE W A) (k : A → SE W B) : orderly m → (∀ a, orderly (k a)) → orderly (m ≫= k).
Proof.
  intros Hm Hk w e. rewrite se_bind_eq. specialize (Hm w). destruct (m w) as [[a|e1] w1]; [apply Hk|]. cbn in *. intros [= ->]. by apply Hm.
Qed.
Lemma orderly_raise_if {A} (c : bool) e (k : SE W A) : expected e = true → orderly k → orderly (raise_if c with e ;; k).
Proof. intros He Hk. destruct c; [by apply orderly_throw|done]. Qed.
Lemma orderly_net {A} (m : SE X A) : (∀ x e, (m x).1 = Raise e → is_caught e = true) → orderly (net m).
Proof.
  intros Hm [x s] e. unfold net. cbn [fst snd]. specialize (Hm x e). destruct (m x) as [r x']. cbn in *. intros H.
  unfold expected. by rewrite (Hm H), orb_true_r.
Qed.
Lemma orderly_opens {A} (m : SE X A) : (∀ x e, (m x).1 = Raise e → is_caught e = true) → orderly (opens m).
Proof.
  intros Hm [x s] e. unfold opens. cbn [fst snd]. specialize (Hm x e). destruct (m x) as [[a|e'] x']; cbn in *; [done|]. intros [= ->].
  unfold expected. by rewrite (Hm eq_refl), orb_true_r.
Qed.
Lemma orderly_asks {A} (m : X → A * X) : orderly (asks m).
Proof. intros [x s] e. unfold asks, net. cbn. by destruct (m x). Qed.
Lemma orderly_holds f : orderly (now_holds (X := X) f).
Proof. by intros w e. Qed.
Lemma orderly_attempt {A B} (m : SE W A) (k : res A → SE W B) :
  (∀ a, orderly (k (Ok a))) → orderly m → (∀ e, expected e = true → orderly (k (Raise e))) → orderly (attempt m ≫= k).
Proof.
  intros Ha Hm Hr w e. rewrite se_bind_eq. unfold attempt. specialize (Hm w). destruct (m w) as [[a|e1] w1]; [apply Ha|].
  apply Hr. by apply Hm.
Qed.

Create HintDb orderly.
#[local] Hint Resolve orderly_ret orderly_throw orderly_bind orderly_raise_if orderly_asks orderly_holds : orderly.

Lemma orderly_remaining d : orderly (remaining N d).
Proof. unfold remaining. apply orderly_bind; [apply orderly_asks|intros now]. by apply orderly_raise_if. Qed.
Lemma orderly_past d : orderly (past N d).
Proof. unfold past. apply orderly_bind; [apply orderly_asks|intros []]; [done|]. by apply orderly_bind; [apply orderly_asks|]. Qed.

Section well_behaved.
Context (Hpol : polite N).

Lemma orderly_try_timeout t : orderly (_try_timeout N t).
Proof.
  unfold _try_timeout. apply orderly_attempt; [done|by apply orderly_net, (po_settimeout _ Hpol)|].
  intros e He w e' H. destruct e; cbn in H; by simplify_eq.
Qed.

Lemma orderly_resolve h p t : orderly (_resolve N h p t).
Proof.
  unfold _resolve. apply orderly_bind; [apply orderly_asks|intros got]. apply orderly_raise_if; [done|].
  apply orderly_bind; [by apply orderly_net, (po_submit _ Hpol)|intros _].
  intros [x s] e. rewrite se_bind_eq. unfold asks, net. cbn [fst snd]. pose proof (po_result _ Hpol t x) as Hr.
  destruct (net_result N t x) as [[l| |e'] x']; cbn in *; [done|by intros [= <-]|].
  specialize (Hr e' eq_refl). unfold expected. destruct e'; cbn in *; try discriminate; by intros [= <-].
Qed.

Lemma orderly_connect ct d addrs : orderly (connect_any N ct d addrs).
Proof.
  induction addrs as [|a rest IH]; cbn [connect_any]; [by apply orderly_throw|].
  apply orderly_bind; [by apply orderly_opens, (po_socket _ Hpol)|intros [h []]]. apply orderly_bind; [apply orderly_holds|intros _].
  apply orderly_bind; [apply orderly_asks|intros []]; [apply orderly_bind; [apply orderly_holds|by intros; apply orderly_throw]|].
  apply orderly_attempt; [intros; apply orderly_holds| |].
  { apply orderly_bind; [apply orderly_remaining|intros left]. by apply orderly_net, (po_connect _ Hpol). }
  intros e He. destruct e; try discriminate He; try (by apply orderly_throw).
  apply orderly_bind; [apply orderly_holds|intros _]. apply orderly_bind; [apply orderly_past|intros []]; [by apply orderly_throw|done].
Qed.
End well_behaved.

(** The reads end before the fuel does: each adds to a text that the cap bounds. *)
Lemma read_body_ends cap d n size text w : size = Z.of_nat (String.length text) → size ≤ Z.max 0 cap → Z.max 0 cap - size < Z.of_nat n →
  wp (read_body N cap n d size text) (λ r w', match r with
    | Ok t => Z.of_nat (String.length t) ≤ Z.max 0 cap ∧ ∃ x, net_read N READ_SIZE x = (Ok EmptyString, w'.1)
    | Raise e => polite N → expected e = true end) w.
Proof.
  revert size text w. induction n as [|n IH]; intros size text w Hs Hc Hn; [lia|]. cbn [read_body].
  apply wp_bind, wp_intro. intros [left|e] w1 E1; [|intros _; eapply (orderly_remaining d w); by rewrite E1].
  apply wp_bind, wp_intro. intros [[]|e] w2 E2; [|intros Hp; eapply (orderly_try_timeout Hp left w1); by rewrite E2].
  apply wp_bind. unfold wp at 1, net. destruct (net_read N READ_SIZE w2.1) as [[chunk|e] x] eqn:E3.
  2:{ intros Hp. unfold expected. rewrite (po_read _ Hp READ_SIZE w2.1 e); [apply orb_true_r|by rewrite E3]. }
  case_bool_decide as Hne; [subst chunk; apply wp_ret; split; [lia|by exists w2.1]|]. cbv zeta.
  assert (0 < String.length chunk)%nat by (destruct chunk; [done|cbn; lia]).
  apply wp_raise_if; [by intros _ _|]. intros Hcap. apply Z.ltb_ge in Hcap. apply IH; [rewrite string_length_app; lia|lia|lia].
Qed.
End answers.

(** * The whole exchange *)

Section whole.
Context {X Addr : Type} (N : Net X Addr) (method : string) (split : res url) (body : option string) (headers : list (string * string)).
Context (deadline_s : f64) (max_bytes : Z) (connect_timeout_s : f64).

(** The last look at the world: the body has ended, the timer has not fired, and the framing is complete. *)
Definition complete (x' : X) : Prop := ∃ x0 x1 x2 chunked length,
  net_read N READ_SIZE x0 = (Ok EmptyString, x1) ∧ net_expired N x1 = (false, x2) ∧
  net_framing N x2 = ((chunked, length), x') ∧ (chunked = true ∨ ∃ n, length = Some n ∧ n ≤ 0).

Definition answer_ok (r : res (Z * string)) (w : X * handles) : Prop :=
  match r with
  | Ok (_, text) => Z.of_nat (String.length text) ≤ Z.max 0 max_bytes ∧ complete w.1
  | Raise e => polite N → expected e = true
  end.

(** A step that cannot raise anything else, before one whose outcome is to be shown. *)
Lemma wp_orderly {A B} (m : SE (X * handles) A) (k : A → SE (X * handles) B) (Q : res B → X * handles → Prop) w :
  (polite N → orderly m) → (∀ e w', (polite N → expected e = true) → Q (Raise e) w') → (∀ a w', wp (k a) Q w') → wp (m ≫= k) Q w.
Proof.
  intros Hm He Hk. apply wp_bind, wp_intro. intros [a|e] w' E; [apply Hk|]. apply He. intros Hp. eapply (Hm Hp w). by rewrite E.
Qed.

Lemma exchange_answers u host port d w :
  wp (exchange N method body headers max_bytes connect_timeout_s u host port d) answer_ok w.
Proof.
  assert (∀ e w', (polite N → expected e = true) → answer_ok (Raise e) w') as He by done. unfold exchange.
  apply wp_orderly; [intros; apply orderly_remaining|done|intros left w1].
  apply wp_orderly; [by intros; apply orderly_resolve|done|intros addrs w2]. apply wp_raise_if; [by intros _ _|intros _].
  apply wp_orderly; [by intros; apply orderly_connect|done|intros [] w3].
  apply wp_orderly; [by intros Hp; apply orderly_opens, (po_dup _ Hp)|done|intros [h []] w4].
  apply wp_orderly; [intros; apply orderly_holds|done|intros [] w5].
  apply wp_orderly; [intros; apply orderly_asks|done|intros late w6]. apply wp_raise_if; [by intros _ _|intros _].
  apply wp_orderly; [intros; apply orderly_remaining|done|intros left' w7].
  apply wp_orderly; [by intros Hp; apply orderly_net, (po_settimeout _ Hp)|done|intros [] w8].
  apply wp_orderly; [intros Hp; case_bool_decide; [by apply orderly_net, (po_handshake _ Hp)|apply orderly_ret]|done|intros [] w9].
  apply wp_orderly; [by intros Hp; apply orderly_opens, (po_connection _ Hp)|done|intros [h' []] w10].
  apply wp_orderly; [intros; apply orderly_holds|done|intros [] w11]. cbv zeta.
  apply wp_orderly; [by intros Hp; apply orderly_net, (po_request _ Hp)|done|intros [] w12].
  apply wp_orderly; [intros; apply orderly_remaining|done|intros left2 w13].
  apply wp_orderly; [by intros; apply orderly_try_timeout|done|intros [] w14].
  apply wp_orderly; [by intros Hp; apply orderly_opens, (po_getresponse _ Hp)|done|intros [h2 status] w15].
  apply wp_orderly; [intros; apply orderly_holds|done|intros [] w16].
  apply wp_bind. eapply wp_mono; [|apply read_body_ends; [done|lia|lia]].
  intros [text|e] w17; [intros [Hlen [x0 H0]]|done].
  apply wp_bind. unfold wp at 1, asks, net. destruct (net_expired N w17.1) as [late2 x2] eqn:E2.
  apply wp_raise_if; [by intros _ _|]. intros ->.
  apply wp_bind. unfold wp at 1. cbn [fst snd]. destruct (net_framing N x2) as [[chunked length] x3] eqn:E3.
  assert (∀ P, (chunked = true ∨ ∃ n, length = Some n ∧ n ≤ 0) → answer_ok (Ok (status, text)) (x3, P)) as Hdone.
  { intros P Hf. split; [done|]. cbn [fst]. by exists x0, w17.1, x2, chunked, length. }
  destruct chunked; [apply wp_ret, Hdone; by left|]. destruct length as [n|]; [|by apply wp_throw].
  apply wp_raise_if; [by intros _ _|]. intros Hn%Z.ltb_ge. apply wp_ret, Hdone. right. by exists n.
Qed.

(** C11: An exchange leaks nothing and answers nothing half. Whatever the resolver, the sockets, the peer and the clock do, when
    the call returns or raises everything it opened is closed, its timer cancelled and its watched socket forgotten. An answer
    is a GET's or POST's with a positive deadline; its body ended, is complete by its framing and within the cap, and the timer
    had not fired when the last byte was in. And when the outside raises only what it is documented to, what the call raises is
    one of its own exceptions, unless the URL itself cannot be read or the timer's thread cannot start. *)
Theorem exchange_bounded x :
  let '(r, (x', s)) := bounded_request N method split body headers deadline_s max_bytes connect_timeout_s (x, no_handles) in
  (hs_open s = [] ∧ hs_timer s = false ∧ hs_live s = None) ∧
  match r with
  | Ok (_, text) =>
      method ∈ ["GET"; "POST"] ∧ (deadline_s ≤ᶠ f0) = false ∧ Z.of_nat (String.length text) ≤ Z.max 0 max_bytes ∧
      ∃ x1, complete x1 ∧ x' = net_cancel_timer N x1
  | Raise e => polite N → is_transport e = true ∨ split = Raise e ∨ (∃ u, split = Ok u ∧ u_port u = Raise e) ∨
                          (∃ x1, (net_start_timer N deadline_s x1).1 = Raise e)
  end.
Proof.
  unfold bounded_request. case_bool_decide as Hm; [by cbn; auto|]. destruct (deadline_s ≤ᶠ f0) eqn:Hd; [by cbn; auto|].
  rewrite se_bind_eq. unfold lift at 1. destruct split as [u|e]; [|by cbn; auto]. destruct (u_hostname u) as [host|]; [|by cbn; auto].
  destruct (negb _); [by cbn; auto|]. rewrite se_bind_eq. unfold lift at 1. destruct (u_port u) as [port|e] eqn:Ep.
  2:{ cbn. split; [done|]. intros _. right; right; left. by exists u. }
  cbv zeta. rewrite se_bind_eq. unfold asks, net at 1. cbn [fst snd]. destruct (net_monotonic N x) as [now x1]. rewrite se_bind_eq. unfold net at 1. cbn [fst snd].
  destruct (net_start_timer N deadline_s x1) as [[[]|e] x2] eqn:Et.
  2:{ cbn. split; [done|]. intros _. do 3 right. exists x1. by rewrite Et. }
  rewrite se_bind_eq. unfold now_holds at 1. cbn [fst snd]. unfold finally. cbv beta.
  match goal with |- context [typed N ?d ?m ?w] => set (ex := m); set (w0 := w); set (dl := d) end.
  assert (wp ex (λ _ w', covered w'.2) w0) as Hc by (by apply exchange_covered).
  assert (wp ex answer_ok w0) as Ha by apply exchange_answers. apply (typed_covered N ex dl) in Hc.
  assert (wp (typed N dl ex) (λ r w', match r with Ok a => answer_ok (Ok a) w' | Raise e => polite N → is_transport e = true end) w0) as Ht.
  { unfold typed. apply wp_bind. unfold wp at 1, attempt. unfold wp in Ha. destruct (ex w0) as [[a|e] w1]; [exact Ha|]. cbn in Ha.
    destruct (is_transport e) eqn:E1; [by apply wp_throw|]. destruct (is_caught e) eqn:E2.
    - apply wp_bind, wp_intro. intros [[]|e'] w2 E; [by apply wp_throw|by apply wp_throw|]. exfalso. revert E. unfold past, asks, net, mbind, se_bind.
      destruct (net_expired N w1.1) as [[] y]; cbn; [done|]. by destruct (net_monotonic N y).
    - apply wp_throw. intros Hp. specialize (Ha Hp). unfold expected in Ha. by rewrite E1, E2 in Ha. }
  unfold wp in Hc, Ht. destruct (typed N dl ex w0) as [r w1]. pose proof (cleanup_closes N w1 Hc) as Hcl.
  assert ((cleanup N w1).1 = net_cancel_timer N w1.1) as Hx by (by destruct w1). destruct (cleanup N w1) as [x' s]. cbn [fst snd] in *. split; [done|].
  destruct r as [[status text]|e]; [|intros Hp; left; by apply Ht]. destruct Ht as [Hlen Hcomp]. split_and!; try done. by exists w1.1.
Qed.
End whole.

(** A peer that answers in two pieces; the first of its two addresses refuses the connection. The world counts the seconds and
    holds the pieces still to come; the timer fires at its deadline. *)
Definition demo_net (length : option Z) : Net (Z * list string) nat := {|
  net_monotonic := λ x, (f64_of_Z x.1, (x.1 + 1, x.2)); net_expired := λ x, (100 <=? x.1, x);
  net_start_timer := λ _ x, (Ok (), x); net_cancel_timer := λ x, x; net_acquire_slot := λ x, (true, x); net_submit := λ _ _ x, (Ok (), x);
  net_result := λ _ x, (Found [0; 1]%nat, x); net_socket := λ _ x, (Ok (), x);
  net_connect := λ a _ x, (if (a =? 0)%nat then Raise PyOSError else Ok (), x); net_dup := λ x, (Ok (), x);
  net_settimeout := λ _ x, (Ok (), x); net_handshake := λ _ x, (Ok (), x); net_connection := λ _ _ x, (Ok (), x);
  net_request := λ _ _ _ _ x, (Ok (), x); net_getresponse := λ x, (Ok 200, x);
  net_read := λ _ x, match x.2 with c :: t => (Ok c, (x.1, t)) | [] => (Ok EmptyString, x) end; net_framing := λ x, ((false, length), x) |}.

Definition demo_url : url := {| u_scheme := "https"; u_hostname := Some "metrics"; u_port := Ok None; u_path := "/api"; u_query := "q=1" |}.
Definition demo_get (length : option Z) (deadline max_bytes : Z) : res (Z * string) :=
  (bounded_get (demo_net length) (Ok demo_url) [] (f64_of_Z deadline) max_bytes (f64_of_Z 3) ((0, ["hello "; "world"]), no_handles)).1.

Example demo_exchange : demo_get (Some 0) 60 11 = Ok (200, "hello world").
Proof. by vm_compute. Qed.
Example demo_refusals : demo_get (Some 4) 60 11 = Raise (TransportFailure "truncated response") ∧
  demo_get None 60 11 = Raise (TransportFailure "unframed response") ∧ demo_get (Some 0) 60 10 = Raise (BodyTooLarge "response exceeds the cap") ∧
  demo_get (Some 0) 3 11 = Raise (DeadlineExceeded "connecting exceeded the deadline").
Proof. split_and!; by vm_compute. Qed.

(** A port that is no port raises where the URL is read, before the exceptions are translated. *)
Example bad_port_escapes :
  (bounded_get (demo_net (Some 0)) (Ok {| u_scheme := "https"; u_hostname := Some "metrics"; u_port := Raise (PyValueError "Port out of range 0-65535");
     u_path := "/api"; u_query := "q=1" |}) [] (f64_of_Z 60) 11 (f64_of_Z 3) ((0, []), no_handles)).1 = Raise (PyValueError "Port out of range 0-65535").
Proof. by vm_compute. Qed.

Lemma demo_polite length : polite (demo_net length).
Proof.
  split; cbn; try discriminate.
  - intros a _ x e. by destruct (a =? 0)%nat; [intros [= <-]|].
  - intros _ x e. by destruct x.2.
Qed.

Lemma exchange_bounded_witness : ∃ r x' s,
  bounded_request (demo_net (Some 4)) "GET" (Ok demo_url) None [] (f64_of_Z 60) 11 (f64_of_Z 3) ((0, ["hello "; "world"]), no_handles) = (Raise r, (x', s)) ∧
  hs_open s = [] ∧ is_transport r = true.
Proof.
  assert (is_ok (demo_get (Some 4) 60 11) = false) as Hd by (by vm_compute).
  pose proof (exchange_bounded (demo_net (Some 4)) "GET" (Ok demo_url) None [] (f64_of_Z 60) 11 (f64_of_Z 3) (0, ["hello "; "world"])) as H.
  unfold demo_get, bounded_get in Hd. destruct (bounded_request _ _ _ _ _ _ _ _ _) as [[a|e] [x' s]]; [discriminate Hd|].
  exists e, x', s. destruct H as [(Ho & _) H]. split_and!; [done|done|].
  destruct (H (demo_polite _)) as [?|[?|[(u & [= <-] & ?)|[x1 ?]]]]; done.
Defined.
