(* ===== verification/Identity.v ===== *)
(** [ml-engine/api/identity.py]: a forecast request names an autoscaler; this component reads the autoscaler and its
    target Deployment from the Kubernetes API and accepts the request only when everything agrees. [KubeReader.get] is
    modelled over the outcome of its HTTP exchange; [resolve_autoscaler] and [resolve_signal] run over any reader, as a
    state-passing computation, because what the API answers may change between two reads. *)
From Stdlib Require Import Ascii.
From S2P Require Import Prelude Float64 Sha256 Json.

Definition CONTRACT : string := "requests-per-second/v1".
Definition API_GROUP : string := "autoscaling.devkuban.com".
Definition API_VERSION : string := "v1alpha1".

(** * Name syntax *)

Definition lower_alnum (c : ascii) : bool := in_range 97 122 c || in_range 48 57 c.
Definition label_char (c : ascii) : bool := lower_alnum c || is_char 45 c.

(** [[a-z0-9]([-a-z0-9]*[a-z0-9])?] on the whole list. *)
Definition dns_label (l : list ascii) : bool :=
  match l with
  | [] => false
  | c :: t => lower_alnum c && forallb label_char l && match last l with Some d => lower_alnum d | None => false end
  end.

Fixpoint split_on (n : nat) (cur : list ascii) (l : list ascii) : list (list ascii) :=
  match l with
  | [] => [rev cur]
  | c :: t => if is_char n c then rev cur :: split_on n [] t else split_on n (c :: cur) t
  end.

(** Python's [$] also matches before a final newline, so a pattern [^...$] accepts one more character. *)
Definition dollar (l : list ascii) : list ascii :=
  match rev l with c :: t => if is_char 10 c then rev t else l | [] => l end.

Definition chars (s : string) : list ascii := String.list_ascii_of_string s.

Definition valid_namespace (v : json) : bool :=
  match v with JStr s => (String.length s <=? 63)%nat && dns_label (dollar (chars s)) | _ => false end.

Definition valid_name (v : json) : bool :=
  match v with
  | JStr s => (String.length s <=? 253)%nat && forallb dns_label (split_on 46 [] (dollar (chars s)))
  | _ => false
  end.

Definition is_hex (c : ascii) : bool := in_range 48 57 c || in_range 97 102 c.

(** [isinstance(v, str) and _SHA256.match(v)] *)
Definition sha256_text (s : string) : bool :=
  let l := dollar (chars s) in (length l =? 64)%nat && forallb is_hex l.

(** * Reading the Kubernetes API *)

(** What the bounded HTTP exchange ([data/bounded_http.py]) comes back with. *)
Inductive fetched :=
| Answer (status : Z) (body : string)
| TransportFailed
| TooLarge.

Definition kube_get (host : string) (token : option string) (answer : fetched) : res (option json) :=
  raise_if bool_decide (host = EmptyString) with LookupFailed "not running in a cluster" ;;
  match token with
  | None => Raise (LookupFailed "service account token unreadable")
  | Some _ =>
      match answer with
      | TransportFailed | TooLarge => Raise (LookupFailed "Kubernetes API read failed")
      | Answer status body =>
          if status =? 404 then Ok None else
          raise_if negb (status =? 200) with LookupFailed "Kubernetes API answered HTTP" ;;
          match loads body with
          | Raise _ => Raise (LookupFailed "Kubernetes API answer is not JSON")
          | Ok (JObj o) => Ok (Some (JObj o))
          | Ok _ => Raise (LookupFailed "Kubernetes API answer is not an object")
          end
      end
  end.

(** * The resolved signal *)

Record ResolvedSignal := {
  rs_namespace : string;
  rs_name : string;
  rs_metric : string;
  rs_query : string;
  rs_sha256 : string;
  rs_contract : string;
  rs_autoscaler_uid : string;
  rs_target_uid : string;
  rs_generation : Z;
}.

(** [_obj]: a nested object, or [{}] when absent. *)
Definition _obj (parent : json) (field : string) : res (list (string * json)) :=
  match or_default JNull (get field parent) with
  | JNull => Ok []
  | JObj o => Ok o
  | _ => Raise (ProvenanceRefused "malformed object")
  end.

Definition _require (request : list (string * json)) (field : string) (check : json → bool) : res json :=
  let v := oget field request in
  raise_if negb (check v) with ProvenanceRefused (field +:+ " missing or malformed") ;; Ok v.

Definition nonempty_str (v : json) : bool := match v with JStr s => negb (bool_decide (s = EmptyString)) | _ => false end.

Definition str_of (v : json) : string := match v with JStr s => s | _ => EmptyString end.
Definition int_of (v : json) : Z := match v with JInt z => z | _ => 0 end.

Definition pa_path (ns name : string) : string :=
  "/apis/" +:+ API_GROUP +:+ "/" +:+ API_VERSION +:+ "/namespaces/" +:+ ns +:+ "/predictiveautoscalers/" +:+ name.
Definition deployment_path (ns name : string) : string :=
  "/apis/apps/v1/namespaces/" +:+ ns +:+ "/deployments/" +:+ name.

Section resolve.
Context {W : Type} (kget : string → SE W (option json)).

Definition resolve_autoscaler (pa_ns pa_name : json) : SE W ResolvedSignal :=
  raise_if negb (valid_namespace pa_ns && valid_name pa_name) with ProvenanceRefused "malformed autoscaler reference" ;;
  let ns := str_of pa_ns in let name := str_of pa_name in
  opa ← kget (pa_path ns name);
  match opa with
  | None => mthrow (ProvenanceRefused "PredictiveAutoscaler not found")
  | Some pa =>
      meta ← lift (_obj pa "metadata"); spec ← lift (_obj pa "spec"); status ← lift (_obj pa "status");
      let uid := oget "uid" meta in let generation := oget "generation" meta in
      raise_if negb (nonempty_str uid) || negb (is_int generation)
        with ProvenanceRefused "the autoscaler has no UID or generation" ;;
      match oget "metricSource" status with
      | JObj ms =>
          raise_if negb (py_eq (oget "observedGeneration" ms) generation)
            with ProvenanceRefused "the compiled metric source is from another generation" ;;
          let query := oget "query" ms in let sha := oget "sha256" ms in
          raise_if negb (nonempty_str query) || match sha with JStr _ => false | _ => true end
            with ProvenanceRefused "the compiled metric source is incomplete" ;;
          raise_if negb (bool_decide (sha256_hex (utf8 (str_of query)) = str_of sha))
            with ProvenanceRefused "the compiled query does not match its hash" ;;
          raise_if negb (py_eq (oget "contract" ms) (JStr CONTRACT))
            with ProvenanceRefused "compiled contract is not supported" ;;
          target ← lift (_obj (JObj spec) "targetDeployment");
          let t_name := oget "name" target in
          let t_ns := let v := oget "namespace" target in if truthy v then v else pa_ns in
          raise_if negb (py_eq t_ns pa_ns) with ProvenanceRefused "the target must be in the autoscaler's namespace" ;;
          raise_if negb (valid_name t_name) with ProvenanceRefused "the autoscaler's target name is malformed" ;;
          odep ← kget (deployment_path (str_of t_ns) (str_of t_name));
          match odep with
          | None => mthrow (ProvenanceRefused "target Deployment not found")
          | Some dep =>
              dmeta ← lift (_obj dep "metadata");
              let live_uid := oget "uid" dmeta in
              raise_if negb (nonempty_str live_uid) with ProvenanceRefused "the target Deployment has no UID" ;;
              raise_if negb (py_eq (oget "targetUID" ms) live_uid)
                with ProvenanceRefused "the target Deployment was replaced" ;;
              mret {| rs_namespace := str_of t_ns; rs_name := str_of t_name; rs_metric := "requests";
                      rs_query := str_of query; rs_sha256 := str_of sha; rs_contract := CONTRACT;
                      rs_autoscaler_uid := str_of uid; rs_target_uid := str_of live_uid;
                      rs_generation := int_of generation |}
          end
      | _ => mthrow (ProvenanceRefused "the autoscaler has no compiled metric source")
      end
  end.

Definition positive_int (v : json) : bool := match v with JInt z => 0 <? z | _ => false end.
Definition is_sha256 (v : json) : bool := match v with JStr s => sha256_text s | _ => false end.

Definition resolve_signal (request : json) : SE W ResolvedSignal :=
  match request with
  | JObj r =>
      pa_ns ← lift (_require r "autoscaler_namespace" valid_namespace);
      pa_name ← lift (_require r "autoscaler_name" valid_name);
      req_uid ← lift (_require r "autoscaler_uid" nonempty_str);
      req_gen ← lift (_require r "autoscaler_generation" positive_int);
      req_target_uid ← lift (_require r "target_uid" nonempty_str);
      req_sha ← lift (_require r "metric_query_sha256" is_sha256);
      raise_if negb (py_eq (oget "contract" r) (JStr CONTRACT)) with ProvenanceRefused "contract is not supported" ;;
      raise_if negb (py_eq (oget_default "metric_type" (JStr "requests") r) (JStr "requests"))
        with ProvenanceRefused "metric_type must be 'requests'" ;;
      sig ← resolve_autoscaler pa_ns pa_name;
      raise_if negb (py_eq (JStr (rs_autoscaler_uid sig)) req_uid)
        with ProvenanceRefused "the autoscaler was replaced (UID differs)" ;;
      raise_if negb (py_eq (JInt (rs_generation sig)) req_gen) with ProvenanceRefused "generation mismatch" ;;
      raise_if negb (py_eq (JStr (rs_sha256 sig)) req_sha) with ProvenanceRefused "query hash mismatch" ;;
      raise_if negb (py_eq (JStr (rs_target_uid sig)) req_target_uid)
        with ProvenanceRefused "the target Deployment was replaced (UID differs from the request)" ;;
      raise_if negb (py_eq (oget "application" r) (JStr (rs_name sig)))
               || negb (py_eq (oget_default "namespace" (JStr (rs_namespace sig)) r) (JStr (rs_namespace sig)))
        with ProvenanceRefused "application/namespace do not name the autoscaler's target" ;;
      mret sig
  | _ => mthrow (ProvenanceRefused "the request is not an object")
  end.
End resolve.

(** * Correctness *)

Lemma py_eq_str s v : py_eq (JStr s) v = true → v = JStr s.
Proof. destruct v; cbn; try done. intros. bool_prop. by subst. Qed.
Lemma py_eq_str_r v s : py_eq v (JStr s) = true → v = JStr s.
Proof. destruct v; cbn; try done. intros. bool_prop. by subst. Qed.

Lemma require_ok r f check v : _require r f check = Ok v → v = oget f r ∧ check v = true.
Proof. unfold _require. intros H. ok_inv H. bool_prop. by subst. Qed.

Lemma nonempty_str_inv v : nonempty_str v = true → v = JStr (str_of v).
Proof. by destruct v. Qed.

(** A value found in a nested object really is there. *)
Lemma obj_get p f o k v : _obj p f = Ok o → oget k o = v → v ≠ JNull → (m ← get f p; get k m) = Some v.
Proof.
  unfold _obj, oget. intros H Hv Hn. destruct (get f p) as [[| | | | | |o']|]; cbn in H; simplify_eq; cbn in *; try done.
  by destruct (dget k o).
Qed.

(** What [resolve_autoscaler] guarantees: both objects were read, the compiled source belongs to the object's current
    generation, its hash is the hash of its query, and the live Deployment is the one it was compiled for. *)
Record autoscaler_agrees {W} (kget : string → SE W (option json)) ns name w sig w' (pa ms dep : json) w1 : Prop := {
  aa_ns : ns = JStr (rs_namespace sig);
  aa_valid : valid_namespace ns = true ∧ valid_name name = true ∧ valid_name (JStr (rs_name sig)) = true;
  aa_pa : kget (pa_path (str_of ns) (str_of name)) w = (Ok (Some pa), w1);
  aa_dep : kget (deployment_path (rs_namespace sig) (rs_name sig)) w1 = (Ok (Some dep), w');
  aa_source : (st ← get "status" pa; get "metricSource" st) = Some ms;
  aa_uid : (m ← get "metadata" pa; get "uid" m) = Some (JStr (rs_autoscaler_uid sig));
  aa_generation : (m ← get "metadata" pa; get "generation" m) = Some (JInt (rs_generation sig));
  aa_current : ∃ g, get "observedGeneration" ms = Some g ∧ py_eq g (JInt (rs_generation sig)) = true;
  aa_query : get "query" ms = Some (JStr (rs_query sig));
  aa_hash : get "sha256" ms = Some (JStr (rs_sha256 sig)) ∧ sha256_hex (utf8 (rs_query sig)) = rs_sha256 sig;
  aa_target : get "targetUID" ms = Some (JStr (rs_target_uid sig));
  aa_live : (m ← get "metadata" dep; get "uid" m) = Some (JStr (rs_target_uid sig));
  aa_contract : rs_contract sig = CONTRACT;
}.

Lemma oget_get k ms v : oget k ms = v → v ≠ JNull → get k (JObj ms) = Some v.
Proof. unfold oget. cbn. intros <-. destruct (dget k ms); done. Qed.

Lemma resolve_autoscaler_spec {W} (kget : string → SE W (option json)) ns name w sig w' :
  resolve_autoscaler kget ns name w = (Ok sig, w') →
  ∃ pa ms dep w1, autoscaler_agrees kget ns name w sig w' pa ms dep w1.
Proof.
  unfold resolve_autoscaler. intros H. ok_inv H.
  match type of H with context [match ?x with Some _ => _ | None => _ end] => destruct x as [pa|]; [|done] end.
  ok_inv H.
  match type of H with match ?x with _ => _ end _ = _ => destruct x as [| | | | | |ms] eqn:Hms; try discriminate H end.
  ok_inv H.
  match type of H with context [match ?x with Some _ => _ | None => _ end] => destruct x as [dep|]; [|done] end.
  ok_inv H. injection H as <- <-. subst. bool_prop.
  repeat match goal with
  | E : nonempty_str _ = true |- _ => apply nonempty_str_inv in E
  | E : py_eq _ (JStr _) = true |- _ => apply py_eq_str_r in E
  end.
  lift_inv.
  match goal with E : py_eq (if _ then _ else _) ns = true |- _ => rename E into Hns end.
  match goal with E : py_eq _ (oget "uid" _) = true |- _ => rename E into Htu end.
  match goal with E : is_int (oget "generation" _) = true |- _ => rename E into Hg end.
  assert (ns = JStr (str_of ns)) as Hstr by (destruct ns; done).
  set (tns := if truthy _ then _ else ns) in *.
  assert (tns = ns) as Etns by (rewrite Hstr in Hns |- *; by apply py_eq_str_r in Hns).
  clearbody tns. subst tns.
  match goal with E : _obj dep "metadata" = Ok ?m |- _ => rename m into dmeta, E into Hdm end.
  match goal with E : _obj pa "metadata" = Ok ?m |- _ => rename m into meta, E into Hm end.
  match goal with E : _obj pa "status" = Ok ?m |- _ => rename m into status, E into Hst end.
  match goal with E : _obj (JObj _) "targetDeployment" = Ok ?m |- _ => rename m into target end.
  destruct (oget "uid" meta) eqn:Euid; try discriminate.
  destruct (oget "uid" dmeta) eqn:Eduid; try discriminate.
  destruct (oget "generation" meta) eqn:Egen; try discriminate.
  destruct (oget "query" ms) eqn:Eq; try discriminate.
  destruct (oget "sha256" ms) eqn:Es; try discriminate.
  destruct (oget "name" target) eqn:En; try discriminate.
  apply py_eq_str_r in Htu.
  eexists pa, (JObj ms), dep, _. split; cbn [rs_namespace rs_name rs_metric rs_query rs_sha256 rs_contract
    rs_autoscaler_uid rs_target_uid rs_generation str_of int_of]; try done.
  - by eapply obj_get.
  - by eapply obj_get.
  - by eapply obj_get.
  - eexists. split; [|eassumption]. apply oget_get; [done|]. intros E. rewrite E in *. done.
  - by apply oget_get.
  - split; [by apply oget_get|done].
  - by apply oget_get.
  - by eapply obj_get.
Qed.

(** The request [r] carries the resolved signal's own identity. *)
Record names_signal (r : list (string * json)) (sig : ResolvedSignal) : Prop := {
  ns_namespace : oget "autoscaler_namespace" r = JStr (rs_namespace sig);
  ns_uid : oget "autoscaler_uid" r = JStr (rs_autoscaler_uid sig);
  ns_generation : oget "autoscaler_generation" r = JInt (rs_generation sig) ∧ 0 < rs_generation sig;
  ns_target : oget "target_uid" r = JStr (rs_target_uid sig);
  ns_sha : oget "metric_query_sha256" r = JStr (rs_sha256 sig);
  ns_contract : oget "contract" r = JStr CONTRACT;
  ns_application : oget "application" r = JStr (rs_name sig);
}.

Lemma resolve_signal_spec {W} (kget : string → SE W (option json)) r w sig w' :
  resolve_signal kget (JObj r) w = (Ok sig, w') →
  (∃ pa ms dep w1,
     autoscaler_agrees kget (JStr (rs_namespace sig)) (oget "autoscaler_name" r) w sig w' pa ms dep w1) ∧
  names_signal r sig.
Proof.
  unfold resolve_signal. intros H. ok_inv H. injection H as <- <-. lift_inv. bool_prop.
  repeat match goal with E : _require _ _ _ = Ok _ |- _ => apply require_ok in E as [-> ?] end.
  repeat match goal with
  | E : py_eq _ (JStr _) = true |- _ => apply py_eq_str_r in E
  | E : py_eq (JStr _) _ = true |- _ => apply py_eq_str in E
  end.
  match goal with E : resolve_autoscaler _ _ _ _ = _ |- _ =>
    destruct (resolve_autoscaler_spec _ _ _ _ _ _ E) as (pa & ms & dep & w1 & A) end.
  pose proof (aa_ns _ _ _ _ _ _ _ _ _ _ A) as Hns.
  match goal with E : py_eq (JInt _) ?g = true, P : positive_int ?g = true |- _ =>
    destruct g as [| |gz| | | |] eqn:Eg; try discriminate P; cbn in E, P; apply Z.eqb_eq in E; apply Z.ltb_lt in P; subst gz end.
  rewrite Hns in A. split; [by exists pa, ms, dep, w1|]. split; done.
Qed.

(** A request that [resolve_signal] accepts names exactly the live objects: its namespace, UIDs, generation, query
    hash, contract and application are those of the resolved signal, and the signal is the one compiled in the
    autoscaler object that was read, for its current generation and the live target Deployment. *)
Theorem resolve_signal_agrees {W} (kget : string → SE W (option json)) r w sig w' :
  resolve_signal kget (JObj r) w = (Ok sig, w') →
  names_signal r sig ∧
  ∃ pa ms dep w1, autoscaler_agrees kget (JStr (rs_namespace sig)) (oget "autoscaler_name" r) w sig w' pa ms dep w1.
Proof. intros H. by destruct (resolve_signal_spec _ _ _ _ _ H). Qed.

(** * A small cluster *)

Definition demo_query : string := "sum(rate(http_requests_total[1m]))".
Definition demo_sha : string := "846cb266ee66b1e187a9b87141a6316edf0bc2dea8ca650d84f797f0d99eaad6".

Definition demo_pa : json := JObj
  [("metadata", JObj [("uid", JStr "pa-uid"); ("generation", JInt 3)]);
   ("spec", JObj [("targetDeployment", JObj [("name", JStr "web")])]);
   ("status", JObj [("metricSource", JObj
      [("observedGeneration", JInt 3); ("query", JStr demo_query); ("sha256", JStr demo_sha);
       ("contract", JStr CONTRACT); ("targetUID", JStr "dep-uid")]);
     ("prediction", JObj [("lead", JObj
      [("seconds", JInt 900); ("startupDelaySeconds", JInt 60); ("actuationAllowanceSeconds", JInt 15);
       ("method", JStr "measured"); ("sampleCount", JInt 20); ("observedGeneration", JInt 3)])])])].

Definition demo_deployment : json := JObj [("metadata", JObj [("uid", JStr "dep-uid")])].

Definition demo_get (path : string) : SE unit (option json) :=
  if bool_decide (path = pa_path "shop" "web-pa") then mret (Some demo_pa)
  else if bool_decide (path = deployment_path "shop" "web") then mret (Some demo_deployment) else mret None.

Definition demo_request : list (string * json) :=
  [("autoscaler_namespace", JStr "shop"); ("autoscaler_name", JStr "web-pa"); ("autoscaler_uid", JStr "pa-uid");
   ("autoscaler_generation", JInt 3); ("target_uid", JStr "dep-uid"); ("metric_query_sha256", JStr demo_sha);
   ("contract", JStr CONTRACT); ("application", JStr "web"); ("namespace", JStr "shop")].

Definition demo_signal : ResolvedSignal := {|
  rs_namespace := "shop"; rs_name := "web"; rs_metric := "requests"; rs_query := demo_query; rs_sha256 := demo_sha;
  rs_contract := CONTRACT; rs_autoscaler_uid := "pa-uid"; rs_target_uid := "dep-uid"; rs_generation := 3 |}.

Lemma resolve_signal_agrees_witness : names_signal demo_request demo_signal.
Proof.
  refine (proj1 (resolve_signal_agrees demo_get demo_request () demo_signal () _)). vm_compute. reflexivity.
Defined.

(** The [$] of a pattern accepts a final newline: such a name passes the check although it is no DNS label. *)
Example newline_accepted :
  valid_namespace (JStr (String.string_of_list_ascii (chars "shop" ++ [ascii_of_nat 10]))) = true.
Proof. vm_compute. reflexivity. Qed.
