(* ===== verification/Contracts.v ===== *)
(** [forecasting/contracts.py]: the forecast settings of an autoscaler object, their fingerprint and the evidence key,
    the operator's lead and the forecast window, the request a caller sends and the response it gets back. A field of a
    decoded document whose type the source checks only later is a [json] value here too. *)
From Stdlib Require Import Ascii.
From S2P Require Import Prelude Float64 Sha256 Json JsonRoundtrip Timestamps Identity.

Definition FORECAST_CONTRACT : string := "window-max-rps/v1".
Definition SETTINGS_SCHEMA : string := "forecast-settings/v1".
Definition EVIDENCE_SCHEMA : string := "forecast-evidence-key/v1".
Definition UNIT : string := "requests/second".
Definition ALLOWED_INTERVALS : list Z := [60; 120; 180; 240; 300; 360; 480; 600].
Definition LEGACY_LSTM_INTERVAL : Z := 600.
Definition MAX_HORIZON_SECONDS : Z := 3600.
Definition MAX_STEPS : Z := 60.
Definition MAX_HISTORY_DAYS : Z := 28.
Definition ENGINES : list string := ["statistical"; "legacyLstm"].
Definition SEASONALITIES : list string := ["daily"].
Definition PHASES : list string := ["Collecting"; "Calibrating"; "Shadow"; "Trusted"; "Degraded"].
Definition REASONS : list string :=
  ["HistoryInsufficient"; "CalibrationInsufficient"; "ShadowInsufficient"; "CoverageLow"; "DataUnavailable";
   "IdentityMismatch"; "StateUnavailable"; "LeadInsufficient"; "ReplayGateMissing"; "Ready"].
Definition MODEL_FAMILIES : list string := ["seasonal_naive"; "statistical"; "lstm"].
Definition LEAD_METHODS : list string := ["configured"; "measured"].
Definition BPS : Z := 10000.
Definition _LEGACY_PREDICTION_KEYS : list string := ["enabled"; "horizonMinutes"; "leadTimeMinutes"; "updateIntervalSeconds"].

(** [v in (...)] for a tuple of strings: membership by [==]. *)
Definition in_strs (v : json) (l : list string) : bool := existsb (λ s, py_eq v (JStr s)) l.

(** * Settings *)

Record RiskSettings := { miscoverage_bps : Z }.

Record CalibrationSettings := {
  min_windows : Z; max_scores : Z; retention_days : Z; eta_bps : Z; min_miscoverage_bps : Z; max_miscoverage_bps : Z;
}.

Record TrustSettings := {
  min_shadow_hours : Z; min_prospective_windows : Z; coverage_tolerance_bps : Z; worst_day_min_outcomes : Z;
  min_availability_bps : Z; acute_consecutive_misses : Z; acute_recent_windows : Z; repromotion_hours : Z;
  repromotion_windows : Z; challenger_min_pairs : Z; challenger_min_hours : Z; challenger_loss_ratio_bps : Z;
  challenger_exit_loss_ratio_bps : Z; challenger_cost_ratio_bps : Z; max_fit_age_hours : Z;
}.

Record PredictiveExtraSettings := { max_replicas : Z; max_percent : Z }.

Record ForecastSettings := {
  engine : string; sample_interval_seconds : Z; seasonality : string; history_days : Z; horizon_seconds : Z;
  settlement_seconds : Z; outcome_grace_seconds : Z; risk : RiskSettings; calibration : CalibrationSettings;
  trust : TrustSettings; predictive_extra : PredictiveExtraSettings;
}.

Definition freshness_seconds (s : ForecastSettings) : Z := settlement_seconds s + 2 * sample_interval_seconds s.
Definition steps (s : ForecastSettings) : Z := horizon_seconds s / sample_interval_seconds s.

(** The dataclass constructors: a keyword given, or the default. *)
Definition kwarg (kw : list (string * Z)) (name : string) (d : Z) : Z := or_default d (dget name kw).

Definition mk_risk (kw : list (string * Z)) : RiskSettings := {| miscoverage_bps := kwarg kw "miscoverage_bps" 1000 |}.

Definition mk_calibration (kw : list (string * Z)) : CalibrationSettings := {|
  min_windows := kwarg kw "min_windows" 128; max_scores := kwarg kw "max_scores" 512;
  retention_days := kwarg kw "retention_days" 7; eta_bps := kwarg kw "eta_bps" 50;
  min_miscoverage_bps := kwarg kw "min_miscoverage_bps" 100;
  max_miscoverage_bps := kwarg kw "max_miscoverage_bps" 2500 |}.

Definition mk_trust (kw : list (string * Z)) : TrustSettings := {|
  min_shadow_hours := kwarg kw "min_shadow_hours" 48;
  min_prospective_windows := kwarg kw "min_prospective_windows" 64;
  coverage_tolerance_bps := kwarg kw "coverage_tolerance_bps" 500;
  worst_day_min_outcomes := kwarg kw "worst_day_min_outcomes" 24;
  min_availability_bps := kwarg kw "min_availability_bps" 9500;
  acute_consecutive_misses := kwarg kw "acute_consecutive_misses" 5;
  acute_recent_windows := kwarg kw "acute_recent_windows" 32;
  repromotion_hours := kwarg kw "repromotion_hours" 24;
  repromotion_windows := kwarg kw "repromotion_windows" 32;
  challenger_min_pairs := kwarg kw "challenger_min_pairs" 64;
  challenger_min_hours := kwarg kw "challenger_min_hours" 48;
  challenger_loss_ratio_bps := kwarg kw "challenger_loss_ratio_bps" 9500;
  challenger_exit_loss_ratio_bps := kwarg kw "challenger_exit_loss_ratio_bps" 10000;
  challenger_cost_ratio_bps := kwarg kw "challenger_cost_ratio_bps" 10200;
  max_fit_age_hours := kwarg kw "max_fit_age_hours" 12 |}.

Definition mk_extra (kw : list (string * Z)) : PredictiveExtraSettings :=
  {| max_replicas := kwarg kw "max_replicas" 2; max_percent := kwarg kw "max_percent" 50 |}.

Definition default_settings : ForecastSettings := {|
  engine := "statistical"; sample_interval_seconds := 300; seasonality := "daily"; history_days := 14;
  horizon_seconds := 3600; settlement_seconds := 120; outcome_grace_seconds := 600;
  risk := mk_risk []; calibration := mk_calibration []; trust := mk_trust []; predictive_extra := mk_extra [] |}.

(** [asdict] of each group: its fields by name, in declaration order. *)
Definition risk_values (r : RiskSettings) : list (string * Z) := [("miscoverage_bps", miscoverage_bps r)].

Definition calibration_values (c : CalibrationSettings) : list (string * Z) :=
  [("min_windows", min_windows c); ("max_scores", max_scores c); ("retention_days", retention_days c);
   ("eta_bps", eta_bps c); ("min_miscoverage_bps", min_miscoverage_bps c);
   ("max_miscoverage_bps", max_miscoverage_bps c)].

Definition trust_values (t : TrustSettings) : list (string * Z) :=
  [("min_shadow_hours", min_shadow_hours t); ("min_prospective_windows", min_prospective_windows t);
   ("coverage_tolerance_bps", coverage_tolerance_bps t); ("worst_day_min_outcomes", worst_day_min_outcomes t);
   ("min_availability_bps", min_availability_bps t); ("acute_consecutive_misses", acute_consecutive_misses t);
   ("acute_recent_windows", acute_recent_windows t); ("repromotion_hours", repromotion_hours t);
   ("repromotion_windows", repromotion_windows t); ("challenger_min_pairs", challenger_min_pairs t);
   ("challenger_min_hours", challenger_min_hours t); ("challenger_loss_ratio_bps", challenger_loss_ratio_bps t);
   ("challenger_exit_loss_ratio_bps", challenger_exit_loss_ratio_bps t);
   ("challenger_cost_ratio_bps", challenger_cost_ratio_bps t); ("max_fit_age_hours", max_fit_age_hours t)].

Definition extra_values (e : PredictiveExtraSettings) : list (string * Z) :=
  [("max_replicas", max_replicas e); ("max_percent", max_percent e)].

Definition int_dict (kw : list (string * Z)) : json := JObj ((λ kv, (kv.1, JInt kv.2)) <$> kw).

Definition settings_dict (s : ForecastSettings) : json := JObj
  [("engine", JStr (engine s)); ("sample_interval_seconds", JInt (sample_interval_seconds s));
   ("seasonality", JStr (seasonality s)); ("history_days", JInt (history_days s));
   ("horizon_seconds", JInt (horizon_seconds s)); ("settlement_seconds", JInt (settlement_seconds s));
   ("outcome_grace_seconds", JInt (outcome_grace_seconds s)); ("risk", int_dict (risk_values (risk s)));
   ("calibration", int_dict (calibration_values (calibration s))); ("trust", int_dict (trust_values (trust s)));
   ("predictive_extra", int_dict (extra_values (predictive_extra s)))].

Definition canonical (s : ForecastSettings) : json :=
  JObj [("schema", JStr SETTINGS_SCHEMA); ("settings", settings_dict s)].

Definition fingerprint (s : ForecastSettings) : res string := t ← canonical_json (canonical s); Ok (sha256_hex t).

(** (spec key, attribute, lower bound, upper bound), bounds inclusive. *)
Definition field_spec : Type := string * string * Z * Z.

Definition _RISK : list field_spec := [("miscoverageBps", "miscoverage_bps", 100, 2500)].
Definition _CALIBRATION : list field_spec :=
  [("minWindows", "min_windows", 16, 4096); ("maxScores", "max_scores", 16, 4096);
   ("retentionDays", "retention_days", 1, 28); ("etaBps", "eta_bps", 1, 1000);
   ("minMiscoverageBps", "min_miscoverage_bps", 1, 5000); ("maxMiscoverageBps", "max_miscoverage_bps", 1, 5000)].
Definition _TRUST : list field_spec :=
  [("minShadowHours", "min_shadow_hours", 1, 24 * 28);
   ("minProspectiveWindows", "min_prospective_windows", 1, 4096);
   ("coverageToleranceBps", "coverage_tolerance_bps", 0, 2500);
   ("worstDayMinOutcomes", "worst_day_min_outcomes", 1, 1440);
   ("minAvailabilityBps", "min_availability_bps", 0, BPS);
   ("acuteConsecutiveMisses", "acute_consecutive_misses", 1, 1000);
   ("acuteRecentWindows", "acute_recent_windows", 1, 4096);
   ("repromotionHours", "repromotion_hours", 0, 24 * 28);
   ("repromotionWindows", "repromotion_windows", 1, 4096);
   ("challengerMinPairs", "challenger_min_pairs", 1, 4096);
   ("challengerMinHours", "challenger_min_hours", 1, 24 * 28);
   ("challengerLossRatioBps", "challenger_loss_ratio_bps", 1, BPS);
   ("challengerExitLossRatioBps", "challenger_exit_loss_ratio_bps", 1, 2 * BPS);
   ("challengerCostRatioBps", "challenger_cost_ratio_bps", BPS, 2 * BPS);
   ("maxFitAgeHours", "max_fit_age_hours", 1, 24)].
Definition _EXTRA : list field_spec := [("maxReplicas", "max_replicas", 0, 1000); ("maxPercent", "max_percent", 0, 1000)].
Definition _TOP : list string :=
  ["engine"; "sampleIntervalSeconds"; "seasonality"; "historyDays"; "settlementSeconds"; "outcomeGraceSeconds";
   "risk"; "calibration"; "trust"; "predictiveExtra"].

(** A nested object, [{}] when absent or null. *)
Definition _object (parent : list (string * json)) (key : string) : res (list (string * json)) :=
  match oget key parent with
  | JNull => Ok []
  | JObj o => Ok o
  | _ => Raise (ContractRefused "is not an object")
  end.

(** [set(obj) <= allowed] *)
Definition only_keys (obj : list (string * json)) (allowed : list string) : bool :=
  forallb (λ k, bool_decide (k ∈ allowed)) obj.*1.

Definition in_bounds (lo hi : Z) (v : json) : bool :=
  match v with JInt z => (lo <=? z) && (z <=? hi) | _ => false end.

Definition _int_group (obj : list (string * json)) (spec : list field_spec) : res (list (string * Z)) :=
  raise_if negb (only_keys obj ((λ f, f.1.1.1) <$> spec)) with ContractRefused "unknown settings" ;;
  foldM (λ values '(key, attr, lo, hi),
           match dget key obj with
           | None => Ok values
           | Some v =>
               raise_if negb (in_bounds lo hi v) with ContractRefused "must be an integer in" ;;
               Ok (dset attr (int_of v) values)
           end) [] spec.

(** [k = ceil((n+1)(1-a))] *)
Definition _rank (n miscoverage : Z) : Z := - ((- (n + 1)) * (BPS - miscoverage) / BPS).

Definition _check_feasible (s : ForecastSettings) : res unit :=
  let c := calibration s in
  let t := trust s in
  raise_if negb ((min_miscoverage_bps c <=? miscoverage_bps (risk s))
                 && (miscoverage_bps (risk s) <=? max_miscoverage_bps c))
    with ContractRefused "the nominal miscoverage must lie within the adaptive bounds" ;;
  raise_if max_miscoverage_bps c <=? min_miscoverage_bps c
    with ContractRefused "calibration.minMiscoverageBps must be below maxMiscoverageBps" ;;
  raise_if max_scores c <? min_windows c with ContractRefused "calibration.maxScores must hold at least minWindows scores" ;;
  raise_if min_windows c <? _rank (min_windows c) (min_miscoverage_bps c)
    with ContractRefused "calibration.minMiscoverageBps is infeasible" ;;
  raise_if retention_days c * 86400 / horizon_seconds s <? min_windows c
    with ContractRefused "calibration.retentionDays cannot hold minWindows nonoverlapping windows at this horizon" ;;
  raise_if (max_scores c <? acute_recent_windows t) || (max_scores c <? min_prospective_windows t)
    with ContractRefused "trust window counts exceed the calibration buffer" ;;
  raise_if challenger_exit_loss_ratio_bps t <? challenger_loss_ratio_bps t
    with ContractRefused "trust.challengerExitLossRatioBps must not be below challengerLossRatioBps" ;;
  raise_if retention_days c * 24 <? min_shadow_hours t with ContractRefused "trust.minShadowHours exceeds the retention" ;;
  Ok ().

Definition resolve_settings (pa : json) : res ForecastSettings :=
  match pa with
  | JObj top =>
      spec ← _object top "spec";
      pred ← _object spec "prediction";
      raise_if negb (only_keys pred (_TOP ++ _LEGACY_PREDICTION_KEYS))
        with ContractRefused "unknown spec.prediction settings" ;;
      raise_if match oget_default "enabled" (JBool true) pred with JBool true => false | _ => true end
        with ContractRefused "forecasting is disabled for this autoscaler (spec.prediction.enabled)" ;;
      let d := default_settings in
      let eng := oget_default "engine" (JStr (engine d)) pred in
      raise_if negb (in_strs eng ENGINES) with ContractRefused "spec.prediction.engine must be one of" ;;
      let seas := oget_default "seasonality" (JStr (seasonality d)) pred in
      raise_if negb (in_strs seas SEASONALITIES) with ContractRefused "spec.prediction.seasonality is not supported" ;;
      let ival := oget_default "sampleIntervalSeconds" (JInt (sample_interval_seconds d)) pred in
      raise_if negb (is_int ival && bool_decide (int_of ival ∈ ALLOWED_INTERVALS))
        with ContractRefused "spec.prediction.sampleIntervalSeconds must be one of" ;;
      let interval := int_of ival in
      raise_if bool_decide (str_of eng = "legacyLstm") && negb (interval =? LEGACY_LSTM_INTERVAL)
        with ContractRefused "engine legacyLstm supports only the 600 s grid" ;;
      let hmin := oget_default "horizonMinutes" (JInt (horizon_seconds d / 60)) pred in
      raise_if negb (is_int hmin) || (int_of hmin <=? 0)
        with ContractRefused "spec.prediction.horizonMinutes must be a positive integer" ;;
      let horizon := int_of hmin * 60 in
      raise_if (MAX_HORIZON_SECONDS <? horizon) || negb (horizon mod interval =? 0) || (MAX_STEPS <? horizon / interval)
        with ContractRefused "horizon must be a multiple of the cadence" ;;
      let hist := oget_default "historyDays" (JInt (history_days d)) pred in
      raise_if negb (in_bounds 1 MAX_HISTORY_DAYS hist) with ContractRefused "spec.prediction.historyDays must be in" ;;
      let settle := oget_default "settlementSeconds" (JInt (settlement_seconds d)) pred in
      raise_if negb (in_bounds 0 900 settle) with ContractRefused "spec.prediction.settlementSeconds must be in 0..900" ;;
      let grace := oget_default "outcomeGraceSeconds" (JInt (outcome_grace_seconds d)) pred in
      raise_if negb (in_bounds 0 3600 grace) with ContractRefused "spec.prediction.outcomeGraceSeconds must be in 0..3600" ;;
      orisk ← _object pred "risk"; rk ← _int_group orisk _RISK;
      ocal ← _object pred "calibration"; cal ← _int_group ocal _CALIBRATION;
      otrust ← _object pred "trust"; tr ← _int_group otrust _TRUST;
      oextra ← _object pred "predictiveExtra"; ex ← _int_group oextra _EXTRA;
      let s := {| engine := str_of eng; sample_interval_seconds := interval; seasonality := str_of seas;
                  history_days := int_of hist; horizon_seconds := horizon; settlement_seconds := int_of settle;
                  outcome_grace_seconds := int_of grace; risk := mk_risk rk; calibration := mk_calibration cal;
                  trust := mk_trust tr; predictive_extra := mk_extra ex |} in
      _ ← _check_feasible s;
      Ok s
  | _ => Raise (ContractRefused "the autoscaler is not an object")
  end.

(** * Lead and window *)

Record LeadSelection := {
  ls_lead_seconds : Z; ls_startup_delay_seconds : Z; ls_actuation_allowance_seconds : Z; ls_method : string;
  ls_sample_count : Z; ls_observed_generation : Z;
}.

Definition _LEAD_KEYS : list (string * string) :=
  [("seconds", "lead_seconds"); ("startupDelaySeconds", "startup_delay_seconds");
   ("actuationAllowanceSeconds", "actuation_allowance_seconds"); ("method", "method");
   ("sampleCount", "sample_count"); ("observedGeneration", "observed_generation")].

Definition automatic_lead_seconds (startup_delay_s decision_interval_s allowance_s interval_s : Z) : Z :=
  let total := startup_delay_s + decision_interval_s + allowance_s + interval_s in
  ceil_div total interval_s * interval_s.

(** [set(d) == keys] *)
Definition keys_are (d : list (string * json)) (keys : list string) : bool :=
  only_keys d keys && forallb (λ k, dhas k d) keys.

Definition nonneg_int (v : json) : bool := match v with JInt z => 0 <=? z | _ => false end.

Definition resolve_lead (pa : json) (settings : ForecastSettings) (generation : Z) : option LeadSelection * string :=
  let status := or_default JNull (get "status" pa) in
  let pred := or_default JNull (get "prediction" status) in
  match or_default JNull (get "lead" pred) with
  | JNull => (None, "no lead recorded in status.prediction.lead")
  | JObj lead =>
      if negb (keys_are lead (_LEAD_KEYS.*1)) then (None, "status.prediction.lead is malformed") else
      let vals := (λ ka, (ka.2, oget ka.1 lead)) <$> _LEAD_KEYS in
      if negb (in_strs (oget "method" vals) LEAD_METHODS) then (None, "lead method is unknown") else
      if negb (forallb (λ kv, nonneg_int kv.2) (filter (λ kv, kv.1 ≠ "method") vals))
      then (None, "lead fields must be non-negative integers") else
      let int k := int_of (oget k vals) in
      let sel := {| ls_lead_seconds := int "lead_seconds"; ls_startup_delay_seconds := int "startup_delay_seconds";
                    ls_actuation_allowance_seconds := int "actuation_allowance_seconds";
                    ls_method := str_of (oget "method" vals); ls_sample_count := int "sample_count";
                    ls_observed_generation := int "observed_generation" |} in
      if negb (ls_observed_generation sel =? generation) then (None, "the lead was selected for another generation") else
      let dt := sample_interval_seconds settings in
      if (ls_lead_seconds sel <? dt) || negb (ls_lead_seconds sel mod dt =? 0)
         || (horizon_seconds settings <? ls_lead_seconds sel)
      then (None, "the lead must be a positive multiple of the cadence within the horizon") else
      if ls_lead_seconds sel <? ls_startup_delay_seconds sel + dt + ls_actuation_allowance_seconds sel
      then (None, "the lead does not cover startup delay + decision interval + actuation allowance") else
      (Some sel, EmptyString)
  | _ => (None, "status.prediction.lead is malformed")
  end.

Record ForecastWindow := { fw_decision_origin : Z; fw_interval_seconds : Z; fw_lead_seconds : Z }.

Definition window_start (w : ForecastWindow) : Z := fw_decision_origin w.
Definition window_end (w : ForecastWindow) : Z := fw_decision_origin w + fw_lead_seconds w.

(** The interval of a window is an admitted cadence, never zero. *)
Definition target_timestamps (w : ForecastWindow) : list Z :=
  (λ k, fw_decision_origin w + k * fw_interval_seconds w) <$> range 1 (fw_lead_seconds w / fw_interval_seconds w + 1) 1.

Definition valid_until (w : ForecastWindow) (lead : LeadSelection) : Z :=
  let t := fw_decision_origin w in let dt := fw_interval_seconds w in let a := ls_actuation_allowance_seconds lead in
  Z.min (t + dt - a) (t + fw_lead_seconds w - ls_startup_delay_seconds lead - dt - a).

Definition actionable_at (w : ForecastWindow) (now_ms : Z) (lead : LeadSelection) : res bool :=
  let a_ms := ls_actuation_allowance_seconds lead * 1000 in
  match target_timestamps w with
  | [] => Raise PyIndexError
  | t1 :: _ => Ok ((now_ms + a_ms <? t1 * 1000) && (now_ms <? valid_until w lead * 1000))
  end.

Definition make_window (origin : Z) (settings : ForecastSettings) (lead : LeadSelection) : res ForecastWindow :=
  let dt := sample_interval_seconds settings in
  raise_if negb (origin mod dt =? 0) with ContractRefused "decision origin is not on the grid" ;;
  raise_if negb (ls_lead_seconds lead mod dt =? 0)
           || negb ((dt <=? ls_lead_seconds lead) && (ls_lead_seconds lead <=? horizon_seconds settings))
    with ContractRefused "the lead must be a positive multiple of the cadence within the horizon" ;;
  Ok {| fw_decision_origin := origin; fw_interval_seconds := dt; fw_lead_seconds := ls_lead_seconds lead |}.

Definition evidence_body (signal : ResolvedSignal) (s : ForecastSettings) (lead_seconds : Z) : json := JObj
  [("schema", JStr EVIDENCE_SCHEMA); ("autoscaler_uid", JStr (rs_autoscaler_uid signal));
   ("target_uid", JStr (rs_target_uid signal)); ("query_sha256", JStr (rs_sha256 signal));
   ("signal_contract", JStr (rs_contract signal)); ("forecast_contract", JStr FORECAST_CONTRACT);
   ("interval_seconds", JInt (sample_interval_seconds s)); ("lead_seconds", JInt lead_seconds);
   ("engine", JStr (engine s)); ("seasonality", JStr (seasonality s)); ("history_days", JInt (history_days s));
   ("settlement_seconds", JInt (settlement_seconds s)); ("outcome_grace_seconds", JInt (outcome_grace_seconds s));
   ("risk", int_dict (risk_values (risk s))); ("calibration", int_dict (calibration_values (calibration s)))].

Definition evidence_key (signal : ResolvedSignal) (s : ForecastSettings) (lead_seconds : Z) : res string :=
  t ← canonical_json (evidence_body signal s lead_seconds); Ok (sha256_hex t).

(** * Request *)

Definition _IDENTITY_FIELDS : list string :=
  ["autoscaler_namespace"; "autoscaler_name"; "autoscaler_uid"; "autoscaler_generation"; "target_uid";
   "metric_query_sha256"; "contract"; "application"; "namespace"].
Definition _REQUIRED_FIELDS : list string := _IDENTITY_FIELDS ++ ["forecast_contract"; "decision_origin"; "settings_sha256"].
Definition _REQUEST_FIELDS : list string := _REQUIRED_FIELDS ++ ["metric_type"].

Record V2Request := { rq_identity : list (string * json); rq_decision_origin : Z; rq_settings_sha256 : string }.

(** The reference fields, passed on unchanged ([ident]). *)
Definition request_identity (b : list (string * json)) : list (string * json) :=
  let ident := (λ k, (k, oget k b)) <$> _IDENTITY_FIELDS in
  match dget "metric_type" b with Some m => dset "metric_type" m ident | None => ident end.

Definition parse_request (body : json) : res V2Request :=
  match body with
  | JObj b =>
      raise_if negb (only_keys b _REQUEST_FIELDS) with ContractRefused "unknown request fields" ;;
      raise_if negb (forallb (λ k, dhas k b) _REQUIRED_FIELDS) with ContractRefused "missing request fields" ;;
      raise_if negb (py_eq (oget "forecast_contract" b) (JStr FORECAST_CONTRACT))
        with ContractRefused "forecast_contract is not window-max-rps/v1" ;;
      raise_if negb (py_eq (oget "contract" b) (JStr CONTRACT)) with ContractRefused "contract is not requests-per-second/v1" ;;
      let sha := oget "settings_sha256" b in
      raise_if negb (is_sha256 sha) with ContractRefused "settings_sha256 must be a lowercase sha256" ;;
      origin ← parse_ts (oget "decision_origin" b);
      Ok {| rq_identity := request_identity b; rq_decision_origin := origin; rq_settings_sha256 := str_of sha |}
  | _ => Raise (ContractRefused "the request is not an object")
  end.

Record BoundRequest := {
  br_autoscaler_namespace : string; br_autoscaler_name : string; br_signal : ResolvedSignal;
  br_settings : ForecastSettings; br_settings_sha256 : string; br_decision_origin : Z;
  br_lead : option LeadSelection; br_lead_problem : string;
}.

Definition br_window (b : BoundRequest) : res (option ForecastWindow) :=
  match br_lead b with
  | Some lead => Some <$> make_window (br_decision_origin b) (br_settings b) lead
  | None => Ok None
  end.

Definition br_evidence_key (b : BoundRequest) : res (option string) :=
  match br_lead b with
  | Some lead => Some <$> evidence_key (br_signal b) (br_settings b) (ls_lead_seconds lead)
  | None => Ok None
  end.

(** What [_RecordingReader] has kept: the answer of every read that did not raise, by path. *)
Definition objects : Type := list (string * option json).

Section bind.
Context {W : Type} (kget : string → SE W (option json)).

(** [_RecordingReader.get], threading the inner reader's state and the record. *)
Definition recording_get (path : string) : SE (W * objects) (option json) :=
  λ '(w, objs), match kget path w with
                | (Ok obj, w') => (Ok obj, (w', dset path obj objs))
                | (Raise e, w') => (Raise e, (w', objs))
                end.

Definition bind_request_rec (body : json) (now_ms : json) : SE (W * objects) BoundRequest :=
  req ← lift (parse_request body);
  sig ← resolve_signal recording_get (JObj (rq_identity req));
  let ns := str_of (oget "autoscaler_namespace" (rq_identity req)) in
  let name := str_of (oget "autoscaler_name" (rq_identity req)) in
  st ← sget;
  match dget (pa_path ns name) st.2 with
  | Some (Some (JObj o)) =>
      let pa := JObj o in
      settings ← lift (resolve_settings pa);
      sha ← lift (fingerprint settings);
      raise_if negb (bool_decide (sha = rq_settings_sha256 req))
        with ContractRefused "settings_sha256 does not match the autoscaler's resolved settings" ;;
      let dt := sample_interval_seconds settings in
      let origin := rq_decision_origin req in
      raise_if negb (origin mod dt =? 0) with ContractRefused "decision_origin is not on the grid" ;;
      raise_if negb (in_bounds (origin * 1000) ((origin + dt) * 1000 - 1) now_ms)
        with ContractRefused "decision_origin is not the current grid origin" ;;
      let '(lead, why) := resolve_lead pa settings (rs_generation sig) in
      mret {| br_autoscaler_namespace := ns; br_autoscaler_name := name; br_signal := sig; br_settings := settings;
              br_settings_sha256 := sha; br_decision_origin := origin; br_lead := lead; br_lead_problem := why |}
  | _ => mthrow (ContractRefused "the autoscaler object was not read")
  end.

(** [rec = _RecordingReader(reader)] starts with nothing recorded. *)
Definition bind_request (body : json) (now_ms : json) : SE W BoundRequest :=
  λ w, let '(r, (w', _)) := bind_request_rec body now_ms (w, []) in (r, w').
End bind.

(** * Settings: what [resolve_settings] accepts *)

Definition within (spec : list field_spec) (kw : list (string * Z)) : Prop :=
  Forall (λ '(_, attr, lo, hi), ∃ v, dget attr kw = Some v ∧ lo ≤ v ≤ hi) spec.

(** The settings the rest of the system relies on: every field within its bounds, and the constraints across fields. *)
Record settings_ok (s : ForecastSettings) : Prop := {
  so_engine : engine s ∈ ENGINES;
  so_seasonality : seasonality s ∈ SEASONALITIES;
  so_interval : sample_interval_seconds s ∈ ALLOWED_INTERVALS;
  so_lstm : engine s = "legacyLstm" → sample_interval_seconds s = LEGACY_LSTM_INTERVAL;
  so_horizon : 0 < horizon_seconds s ≤ MAX_HORIZON_SECONDS;
  so_horizon_min : horizon_seconds s mod 60 = 0;
  so_horizon_grid : horizon_seconds s mod sample_interval_seconds s = 0;
  so_history : 1 ≤ history_days s ≤ MAX_HISTORY_DAYS;
  so_settle : 0 ≤ settlement_seconds s ≤ 900;
  so_grace : 0 ≤ outcome_grace_seconds s ≤ 3600;
  so_risk : within _RISK (risk_values (risk s));
  so_calibration : within _CALIBRATION (calibration_values (calibration s));
  so_trust : within _TRUST (trust_values (trust s));
  so_extra : within _EXTRA (extra_values (predictive_extra s));
  so_feasible : _check_feasible s = Ok ();
}.

Lemma in_bounds_ok lo hi v : in_bounds lo hi v = true → v = JInt (int_of v) ∧ lo ≤ int_of v ≤ hi.
Proof. destruct v; try done. cbn. intros. by bool_prop. Qed.

Lemma in_strs_ok v l : in_strs v l = true → v = JStr (str_of v) ∧ str_of v ∈ l.
Proof.
  unfold in_strs. rewrite existsb_exists. intros (s & Hs & E%py_eq_str_r). subst. split; [done|].
  by apply list_elem_of_In.
Qed.

Lemma in_strs_intro s l : s ∈ l → in_strs (JStr s) l = true.
Proof.
  intros H. apply existsb_exists. exists s. split; [by apply list_elem_of_In|]. cbn. by rewrite bool_decide_true.
Qed.

(** Values collected from a group stay within the group's bounds. *)
Lemma int_group_values obj spec kw attr v :
  _int_group obj spec = Ok kw → dget attr kw = Some v → ∃ key lo hi, (key, attr, lo, hi) ∈ spec ∧ lo ≤ v ≤ hi.
Proof.
  unfold _int_group. intros H. ok_inv H. revert attr v.
  set (P := λ kw : list (string * Z),
         ∀ attr v, dget attr kw = Some v → ∃ key lo hi, (key, attr, lo, hi) ∈ spec ∧ lo ≤ v ≤ hi).
  change (P kw). revert H. apply foldM_inv; [|done].
  intros kw0 [[[key attr] lo] hi] kw1 Hin HP H. destruct (dget key obj) as [j|] eqn:E; [|by simplify_eq].
  ok_inv H. subst kw1. bool_prop. destruct (in_bounds_ok lo hi j) as [_ ?]; [done|].
  intros a v. rewrite dget_dset. case_decide; [intros; simplify_eq; eauto|apply HP].
Qed.

Lemma int_group_kwarg obj spec kw key attr lo hi d :
  _int_group obj spec = Ok kw → NoDup ((λ f, f.1.1.2) <$> spec) → (key, attr, lo, hi) ∈ spec → lo ≤ d ≤ hi →
  lo ≤ kwarg kw attr d ≤ hi.
Proof.
  intros H Hnd Hin Hd. unfold kwarg. destruct (dget attr kw) as [v|] eqn:E; [|done].
  destruct (int_group_values _ _ _ _ _ H E) as (key' & lo' & hi' & Hin' & ?). cbn.
  apply list_elem_of_lookup in Hin as [i Hi], Hin' as [j Hj].
  assert (i = j) as ->; [|by simplify_eq].
  eapply (NoDup_lookup _ i j attr Hnd); rewrite list_lookup_fmap; [by rewrite Hi|by rewrite Hj].
Qed.

(** The spec key of an attribute carries its value back: [_int_group] reads what [group_obj] writes. *)
Definition group_obj (spec : list field_spec) (kw : list (string * Z)) : list (string * json) :=
  (λ '(key, attr, _, _), (key, JInt (kwarg kw attr 0))) <$> spec.

Definition pred_items (s : ForecastSettings) : list (string * json) :=
  [("engine", JStr (engine s)); ("sampleIntervalSeconds", JInt (sample_interval_seconds s));
   ("seasonality", JStr (seasonality s)); ("historyDays", JInt (history_days s));
   ("horizonMinutes", JInt (horizon_seconds s / 60)); ("settlementSeconds", JInt (settlement_seconds s));
   ("outcomeGraceSeconds", JInt (outcome_grace_seconds s));
   ("risk", JObj (group_obj _RISK (risk_values (risk s))));
   ("calibration", JObj (group_obj _CALIBRATION (calibration_values (calibration s))));
   ("trust", JObj (group_obj _TRUST (trust_values (trust s))));
   ("predictiveExtra", JObj (group_obj _EXTRA (extra_values (predictive_extra s))))].

Definition settings_obj (s : ForecastSettings) : json := JObj [("spec", JObj [("prediction", JObj (pred_items s))])].

Lemma kwarg_within spec kw key attr lo hi :
  within spec kw → (key, attr, lo, hi) ∈ spec → lo ≤ kwarg kw attr 0 ≤ hi.
Proof.
  intros H Hin. unfold within in H. rewrite Forall_forall in H. destruct (H _ Hin) as (v & Hv & ?).
  unfold kwarg. by rewrite Hv.
Qed.

Definition group_values (spec : list field_spec) (kw : list (string * Z)) : list (string * Z) :=
  (λ '(_, attr, _, _), (attr, kwarg kw attr 0)) <$> spec.

Lemma only_keys_fmap {A} (f : A → string) g (l : list A) :
  only_keys ((λ x, (f x, g x)) <$> l) (f <$> l) = true.
Proof.
  apply forallb_forall. intros k Hk%list_elem_of_In. apply bool_decide_eq_true. by rewrite <-list_fmap_compose in Hk.
Qed.

Lemma int_group_fold obj spec kw kw0 :
  Forall (λ '(key, attr, lo, hi), dget key obj = Some (JInt (kwarg kw attr 0)) ∧ lo ≤ kwarg kw attr 0 ≤ hi) spec →
  NoDup (kw0.*1 ++ ((λ f, f.1.1.2) <$> spec)) →
  foldM (λ values '(key, attr, lo, hi),
           match dget key obj with
           | None => Ok values
           | Some v =>
               raise_if negb (in_bounds lo hi v) with ContractRefused "must be an integer in" ;;
               Ok (dset attr (int_of v) values)
           end) kw0 spec = Ok (kw0 ++ group_values spec kw).
Proof.
  revert kw0. induction spec as [|[[[key attr] lo] hi] spec IH]; intros kw0 H Hnd; cbn; [by rewrite app_nil_r|].
  apply Forall_cons in H as [[Hk Hb] H]. rewrite Hk. cbn. rewrite (proj2 (Z.leb_le _ _)), (proj2 (Z.leb_le _ _)) by lia. cbn.
  rewrite dset_fresh; [|apply NoDup_app in Hnd as (_ & Hd & _); intros Hi; apply (Hd _ Hi); left].
  rewrite IH; [by rewrite <-app_assoc|done|].
  rewrite fmap_app, <-app_assoc. done.
Qed.

Lemma int_group_read spec kw :
  within spec kw → NoDup ((λ f, f.1.1.1) <$> spec) → NoDup ((λ f, f.1.1.2) <$> spec) →
  _int_group (group_obj spec kw) spec = Ok (group_values spec kw).
Proof.
  intros Hw Hk Ha. unfold _int_group.
  assert (group_obj spec kw = (λ f, (f.1.1.1, JInt (kwarg kw f.1.1.2 0))) <$> spec) as E.
  { apply list_fmap_ext. by intros ? [[[]]]. }
  rewrite E, only_keys_fmap. cbn [negb]. apply (int_group_fold _ _ _ []); [|done].
  apply Forall_forall. intros [[[key attr] lo] hi] Hin. split; [|by eapply kwarg_within].
  apply elem_of_dget; [by rewrite <-list_fmap_compose|]. apply list_elem_of_fmap. by eexists (_, _, _, _).
Qed.

Ltac group_nodup := apply (bool_decide_unpack _); vm_compute; exact I.

Lemma check_feasible_cases s : _check_feasible s = Ok () ↔
  let c := calibration s in let t := trust s in
  min_miscoverage_bps c ≤ miscoverage_bps (risk s) ≤ max_miscoverage_bps c ∧
  min_miscoverage_bps c < max_miscoverage_bps c ∧ min_windows c ≤ max_scores c ∧
  _rank (min_windows c) (min_miscoverage_bps c) ≤ min_windows c ∧
  min_windows c ≤ retention_days c * 86400 / horizon_seconds s ∧
  acute_recent_windows t ≤ max_scores c ∧ min_prospective_windows t ≤ max_scores c ∧
  challenger_loss_ratio_bps t ≤ challenger_exit_loss_ratio_bps t ∧ min_shadow_hours t ≤ retention_days c * 24.
Proof.
  unfold _check_feasible. cbn zeta. rewrite !raise_if_ok, !negb_false_iff, andb_true_iff, orb_false_iff, !Z.leb_le,
    !Z.ltb_ge, !Z.leb_gt. intuition idtac.
Qed.

(** One field of a group: present in [asdict], and within its bounds. *)
Ltac group_within H :=
  unfold within; repeat (apply Forall_cons; split); [..|apply Forall_nil; exact I];
  (eexists; split; [reflexivity|]; eapply int_group_kwarg;
   [exact H|group_nodup|list_member|vm_compute; split; discriminate]).

Lemma risk_within o kw : _int_group o _RISK = Ok kw → within _RISK (risk_values (mk_risk kw)).
Proof. intros H. group_within H. Qed.
Lemma calibration_within o kw :
  _int_group o _CALIBRATION = Ok kw → within _CALIBRATION (calibration_values (mk_calibration kw)).
Proof. intros H. group_within H. Qed.
Lemma trust_within o kw : _int_group o _TRUST = Ok kw → within _TRUST (trust_values (mk_trust kw)).
Proof. intros H. group_within H. Qed.
Lemma extra_within o kw : _int_group o _EXTRA = Ok kw → within _EXTRA (extra_values (mk_extra kw)).
Proof. intros H. group_within H. Qed.

Lemma resolve_settings_sound pa s : resolve_settings pa = Ok s → settings_ok s.
Proof.
  destruct pa as [| | | | | |top]; try discriminate. unfold resolve_settings. intros H. ok_inv H.
  match goal with E : _check_feasible _ = Ok ?u |- _ => rename E into Hf; destruct u end. subst s.
  bool_prop.
  repeat match goal with
  | E : in_strs _ _ = true |- _ => apply in_strs_ok in E as [_ E]
  | E : in_bounds _ _ _ = true |- _ => apply in_bounds_ok in E as [_ E]
  end.
  split; cbn [engine sample_interval_seconds seasonality history_days horizon_seconds settlement_seconds
    outcome_grace_seconds risk calibration trust predictive_extra]; try done.
  - intros E. match goal with X : bool_decide _ && negb _ = false |- _ => apply andb_false_iff in X as [X|X] end;
      bool_prop; [contradiction|done].
  - split; [by apply Z.mul_pos_pos|done].
  - by apply Z.mod_mul.
  - by eapply risk_within.
  - by eapply calibration_within.
  - by eapply trust_within.
  - by eapply extra_within.
Qed.

Lemma intervals_cases i : i ∈ ALLOWED_INTERVALS →
  60 ≤ i ≤ 600 ∧ (60 | i) ∧ (i | 86400).
Proof.
  unfold ALLOWED_INTERVALS. rewrite !elem_of_cons, elem_of_nil.
  intros [->|[->|[->|[->|[->|[->|[->|[->|[]]]]]]]]]; (split; [lia|split; apply Z.mod_divide; try lia; reflexivity]).
Qed.

(** A resolved settings value determines its groups' dictionaries. *)
Lemma mk_risk_values kw r : kw = risk_values r → mk_risk kw = r.
Proof. intros ->. by destruct r. Qed.
Lemma mk_calibration_values kw c : kw = calibration_values c → mk_calibration kw = c.
Proof. intros ->. by destruct c. Qed.
Lemma mk_trust_values kw t : kw = trust_values t → mk_trust kw = t.
Proof. intros ->. by destruct t. Qed.
Lemma mk_extra_values kw e : kw = extra_values e → mk_extra kw = e.
Proof. intros ->. by destruct e. Qed.

Lemma in_bounds_intro lo hi z : lo ≤ z ≤ hi → in_bounds lo hi (JInt z) = true.
Proof. intros. cbn. by rewrite (proj2 (Z.leb_le _ _)), (proj2 (Z.leb_le _ _)) by lia. Qed.

Lemma resolve_settings_complete s : settings_ok s → resolve_settings (settings_obj s) = Ok s.
Proof.
  intros []. destruct (intervals_cases _ so_interval0) as (Hi1 & Hi2 & Hi3).
  assert (horizon_seconds s / 60 * 60 = horizon_seconds s) as Hh by (rewrite Z.mul_comm; symmetry; apply Z.div_exact; lia).
  unfold resolve_settings, settings_obj.
  change (_object _ "spec") with (@Ok (list (string * json)) [("prediction", JObj (pred_items s))]).
  cbn [mbind res_bind].
  change (_object _ "prediction") with (@Ok (list (string * json)) (pred_items s)). cbn [mbind res_bind].
  change (only_keys (pred_items s) _) with true.
  change (oget_default "enabled" _ _) with (JBool true).
  change (oget_default "engine" _ _) with (JStr (engine s)).
  change (oget_default "seasonality" _ _) with (JStr (seasonality s)).
  change (oget_default "sampleIntervalSeconds" _ _) with (JInt (sample_interval_seconds s)).
  change (oget_default "horizonMinutes" _ _) with (JInt (horizon_seconds s / 60)).
  change (oget_default "historyDays" _ _) with (JInt (history_days s)).
  change (oget_default "settlementSeconds" _ _) with (JInt (settlement_seconds s)).
  change (oget_default "outcomeGraceSeconds" _ _) with (JInt (outcome_grace_seconds s)).
  change (_object _ "risk") with (@Ok (list (string * json)) (group_obj _RISK (risk_values (risk s)))).
  change (_object _ "calibration")
    with (@Ok (list (string * json)) (group_obj _CALIBRATION (calibration_values (calibration s)))).
  change (_object _ "trust") with (@Ok (list (string * json)) (group_obj _TRUST (trust_values (trust s)))).
  change (_object _ "predictiveExtra")
    with (@Ok (list (string * json)) (group_obj _EXTRA (extra_values (predictive_extra s)))).
  cbn [negb str_of int_of is_int andb orb]. rewrite Hh, !in_strs_intro, !in_bounds_intro by done.
  rewrite (bool_decide_true (sample_interval_seconds s ∈ ALLOWED_INTERVALS)) by done.
  rewrite (proj2 (Z.leb_gt _ _)) by lia.
  rewrite (proj2 (Z.ltb_ge MAX_HORIZON_SECONDS _)) by lia. rewrite so_horizon_grid0, Z.eqb_refl.
  rewrite (proj2 (Z.ltb_ge MAX_STEPS _))
    by (unfold MAX_STEPS, MAX_HORIZON_SECONDS in *; apply Z.div_le_upper_bound; lia).
  replace (bool_decide (engine s = "legacyLstm") && _) with false.
  2: { case_bool_decide as E; [|done]. rewrite so_lstm0 by done. done. }
  cbn [negb orb mbind res_bind].
  rewrite !int_group_read by (done || group_nodup). cbn [mbind res_bind].
  rewrite (mk_risk_values _ (risk s)), (mk_calibration_values _ (calibration s)), (mk_trust_values _ (trust s)),
    (mk_extra_values _ (predictive_extra s)) by reflexivity.
  replace (Build_ForecastSettings _ _ _ _ _ _ _ _ _ _ _) with s by (by destruct s). by rewrite so_feasible0.
Qed.


(** * Fingerprints *)

Lemma fingerprint_total s : ∃ h, fingerprint s = Ok h.
Proof. destruct (canonical_json_total (canonical s)) as (t & E); [done|]. unfold fingerprint. rewrite E. cbn. eauto. Qed.

Lemma settings_dict_inj s1 s2 : norm (canonical s1) = norm (canonical s2) → s1 = s2.
Proof.
  destruct s1 as [? ? ? ? ? ? ? [] [] [] []], s2 as [? ? ? ? ? ? ? [] [] [] []]. vm_compute. intros [=]. by subst.
Qed.

(** The settings fingerprint covers every resolved value: it always exists, and two settings with one fingerprint
    are equal unless their two canonical texts differ and collide under SHA-256. *)
Theorem fingerprint_covers s1 s2 :
  ∃ h, fingerprint s1 = Ok h ∧ (fingerprint s2 = Ok h → s1 = s2 ∨ collides (canonical s1) (canonical s2)).
Proof.
  destruct (fingerprint_total s1) as (h & H1). exists h. split; [done|]. intros H2.
  destruct (hash_inj (canonical s1) (canonical s2) h) as [E|]; [by apply keys_distinct_ok..|done|done| |by right].
  left. by apply settings_dict_inj.
Qed.

(** The evidence key covers the evidence's identity: it always exists, and two keys are equal only for the same
    autoscaler UID, Deployment UID, query hash, signal contract, cadence, lead, engine, seasonality, history, settlement,
    grace, risk and calibration policy, unless the two evidence texts differ and collide under SHA-256; it ignores the trust thresholds, the
    horizon and the predictive-excess caps. *)
Theorem evidence_key_covers sig1 sig2 s1 s2 l1 l2 :
  ∃ k, evidence_key sig1 s1 l1 = Ok k ∧
  (evidence_key sig2 s2 l2 = Ok k →
   (rs_autoscaler_uid sig1 = rs_autoscaler_uid sig2 ∧ rs_target_uid sig1 = rs_target_uid sig2 ∧
    rs_sha256 sig1 = rs_sha256 sig2 ∧ rs_contract sig1 = rs_contract sig2 ∧
    sample_interval_seconds s1 = sample_interval_seconds s2 ∧ l1 = l2 ∧ engine s1 = engine s2 ∧
    seasonality s1 = seasonality s2 ∧ history_days s1 = history_days s2 ∧
    settlement_seconds s1 = settlement_seconds s2 ∧ outcome_grace_seconds s1 = outcome_grace_seconds s2 ∧
    risk s1 = risk s2 ∧ calibration s1 = calibration s2)
   ∨ collides (evidence_body sig1 s1 l1) (evidence_body sig2 s2 l2)) ∧
  (∀ tr ex hz, evidence_key sig1 {| engine := engine s1; sample_interval_seconds := sample_interval_seconds s1;
     seasonality := seasonality s1; history_days := history_days s1; horizon_seconds := hz;
     settlement_seconds := settlement_seconds s1; outcome_grace_seconds := outcome_grace_seconds s1; risk := risk s1;
     calibration := calibration s1; trust := tr; predictive_extra := ex |} l1 = Ok k).
Proof.
  destruct (canonical_json_total (evidence_body sig1 s1 l1)) as (t & Et); [done|].
  exists (sha256_hex t). assert (evidence_key sig1 s1 l1 = Ok (sha256_hex t)) as E1 by (unfold evidence_key; by rewrite Et).
  split_and!; [done| |intros; exact (f_equal (λ r : res string, t ← r; Ok (sha256_hex t)) Et)]. intros E2.
  destruct (hash_inj (evidence_body sig1 s1 l1) (evidence_body sig2 s2 l2) (sha256_hex t)) as [E|];
    [by apply keys_distinct_ok..|done|done| |by right].
  left. clear Et E1 E2. destruct s1 as [? ? ? ? ? ? ? [] [] ? ?], s2 as [? ? ? ? ? ? ? [] [] ? ?], sig1, sig2.
  revert E. vm_compute. intros [=]. subst. split_and!; reflexivity.
Qed.

(** * Lead and window *)

(** The automatic lead is the least multiple of the cadence that covers startup, decision interval, actuation
    allowance and one full interval of origin age; with the cadence as the decision interval it leaves the whole of the
    origin's interval, less the allowance, to act on the window. *)
Theorem automatic_lead_least d c a dt (Hdt : 0 < dt) :
  let l := automatic_lead_seconds d c a dt in
  (dt | l) ∧ d + c + a + dt ≤ l ∧ (∀ l', (dt | l') → d + c + a + dt ≤ l' → l ≤ l') ∧
  ∀ t lead, ls_startup_delay_seconds lead = d → ls_actuation_allowance_seconds lead = a → 0 ≤ a → dt ≤ c →
    valid_until {| fw_decision_origin := t; fw_interval_seconds := dt; fw_lead_seconds := l |} lead = t + dt - a.
Proof.
  cbn zeta. unfold automatic_lead_seconds. pose proof (ceil_div_spec (d + c + a + dt) dt Hdt) as Hs.
  split_and!.
  - by exists (ceil_div (d + c + a + dt) dt).
  - lia.
  - intros l' [q ->] Hq. apply Z.mul_le_mono_nonneg_r; [lia|].
    apply (proj2 (ceil_div_le _ _ _ Hdt)). lia.
  - intros t lead Hd Ha H0 Hc. unfold valid_until. cbn [fw_decision_origin fw_interval_seconds fw_lead_seconds]. lia.
Qed.

(** What a selected lead promises. *)
Record lead_ok (s : ForecastSettings) (generation : Z) (l : LeadSelection) : Prop := {
  lo_method : ls_method l ∈ LEAD_METHODS;
  lo_nonneg : 0 ≤ ls_startup_delay_seconds l ∧ 0 ≤ ls_actuation_allowance_seconds l ∧ 0 ≤ ls_sample_count l;
  lo_generation : ls_observed_generation l = generation;
  lo_grid : ls_lead_seconds l mod sample_interval_seconds s = 0;
  lo_range : sample_interval_seconds s ≤ ls_lead_seconds l ≤ horizon_seconds s;
  lo_covers : ls_startup_delay_seconds l + sample_interval_seconds s + ls_actuation_allowance_seconds l ≤ ls_lead_seconds l;
}.

Lemma resolve_lead_sound pa s g l why : resolve_lead pa s g = (Some l, why) → lead_ok s g l ∧ why = EmptyString.
Proof.
  unfold resolve_lead. destruct (or_default JNull (get "lead" _)) as [| | | | | |lead]; try discriminate.
  repeat match goal with |- context [if ?c then _ else _] => destruct c eqn:? end; try discriminate.
  intros [= <- <-]. bool_prop. split; [|done].
  match goal with E : forallb _ _ = true |- _ => rename E into Hn end.
  match goal with E : in_strs _ _ = true |- _ => apply in_strs_ok in E as [_ Hm] end.
  set (vals := (λ ka, (ka.2, oget ka.1 lead)) <$> _LEAD_KEYS) in *.
  assert (∀ k v, (k, v) ∈ vals → k ≠ "method" → 0 ≤ int_of v) as Hk.
  { intros k v Hin Hk. rewrite forallb_forall in Hn. specialize (Hn (k, v)). destruct v; try (cbn; lia).
    apply Z.leb_le, Hn, list_elem_of_In, list_elem_of_filter. done. }
  split; try done. cbn [ls_startup_delay_seconds ls_actuation_allowance_seconds ls_sample_count].
  split_and!; eapply Hk; [list_member|discriminate|list_member|discriminate|list_member|discriminate].
Qed.

Lemma elem_of_targets w t : 0 < fw_interval_seconds w → t ∈ target_timestamps w ↔
  fw_decision_origin w < t ≤ fw_decision_origin w + fw_lead_seconds w / fw_interval_seconds w * fw_interval_seconds w ∧
  (fw_interval_seconds w | t - fw_decision_origin w).
Proof.
  intros Hdt. unfold target_timestamps. rewrite list_elem_of_fmap. split.
  - intros (k & -> & Hk). apply elem_of_range in Hk as [? _]; [|done]. split; [nia|]. exists k. lia.
  - intros ([? ?] & q & Hq). exists q. split; [lia|]. apply elem_of_range; [done|]. split; [nia|]. exists (q - 1). lia.
Qed.

Lemma length_targets w : length (target_timestamps w) = Z.to_nat (fw_lead_seconds w / fw_interval_seconds w).
Proof.
  unfold target_timestamps. rewrite length_fmap, length_range. f_equal. unfold ceil_div. rewrite Z.div_1_r. lia.
Qed.

Lemma lookup_targets w (i : nat) : Z.of_nat i < fw_lead_seconds w / fw_interval_seconds w →
  target_timestamps w !! i = Some (fw_decision_origin w + (1 + Z.of_nat i) * fw_interval_seconds w).
Proof.
  intros Hi. unfold target_timestamps. rewrite list_lookup_fmap, lookup_range; [cbn; do 2 f_equal; lia|].
  unfold ceil_div. rewrite Z.div_1_r. lia.
Qed.

(** The first target is one interval after the origin. *)
Lemma targets_head w : 0 < fw_interval_seconds w ≤ fw_lead_seconds w →
  ∃ ts, target_timestamps w = fw_decision_origin w + fw_interval_seconds w :: ts.
Proof.
  intros H. assert (0 < fw_lead_seconds w / fw_interval_seconds w) by (apply Z.div_str_pos; lia).
  pose proof (lookup_targets w 0 ltac:(cbn; lia)) as Hl. destruct (target_timestamps w) as [|t ts]; [discriminate Hl|].
  exists ts. injection Hl as ->. f_equal. lia.
Qed.

(** A lead that [resolve_lead] selects is bound to the object's generation and covers startup, one interval and the
    allowance. On every grid origin it makes a window whose targets are exactly the grid points after the origin up to
    the lead, and the window is actionable precisely while an action now still takes effect before the first target and
    early enough for new capacity to be ready before the window's end. *)
Theorem resolved_lead_window pa s g l why t :
  settings_ok s → resolve_lead pa s g = (Some l, why) → t mod sample_interval_seconds s = 0 →
  let dt := sample_interval_seconds s in
  ls_observed_generation l = g ∧ why = EmptyString ∧
  ∃ w, make_window t s l = Ok w ∧ window_start w = t ∧ window_end w = t + ls_lead_seconds l ∧
    (∀ x, x ∈ target_timestamps w ↔ t < x ≤ window_end w ∧ (dt | x - t)) ∧
    Z.of_nat (length (target_timestamps w)) * dt = ls_lead_seconds l ∧
    (∀ now_ms, ∃ b, actionable_at w now_ms l = Ok b ∧
       (b = true ↔ now_ms + ls_actuation_allowance_seconds l * 1000 < (t + dt) * 1000 ∧
          now_ms + (ls_startup_delay_seconds l + dt + ls_actuation_allowance_seconds l) * 1000 < window_end w * 1000)).
Proof.
  intros Hs Hl Ht. cbn zeta. apply resolve_lead_sound in Hl as [[] ->]. split; [done|]. split; [done|].
  destruct (intervals_cases _ (so_interval _ Hs)) as [Hi _].
  assert (ls_lead_seconds l / sample_interval_seconds s * sample_interval_seconds s = ls_lead_seconds l) as Hq by (rewrite Z.mul_comm; symmetry; apply Z.div_exact; lia).
  exists {| fw_decision_origin := t; fw_interval_seconds := sample_interval_seconds s;
          fw_lead_seconds := ls_lead_seconds l |}.
  set (w := {| fw_decision_origin := t |}).
  assert (0 < fw_interval_seconds w ≤ fw_lead_seconds w) as Hw by (cbn; lia).
  split_and!; [|done|done|..].
  - unfold make_window. rewrite Ht, lo_grid0, (proj2 (Z.leb_le _ _)), (proj2 (Z.leb_le _ _)) by lia. done.
  - intros x. rewrite elem_of_targets by lia. unfold window_end. cbn. by rewrite Hq.
  - rewrite length_targets. cbn. rewrite Z2Nat.id by (apply Z.div_pos; lia). done.
  - intros now. unfold actionable_at. destruct (targets_head w Hw) as (ts & ->). eexists. split; [done|].
    rewrite andb_true_iff, !Z.ltb_lt. unfold valid_until, window_end. cbn. lia.
Qed.

(** * Binding a request *)

Lemma recording_get_ok {W} (kget : string → SE W (option json)) path w objs a w' objs' :
  recording_get kget path (w, objs) = (Ok a, (w', objs')) → kget path w = (Ok a, w') ∧ objs' = dset path a objs.
Proof. unfold recording_get. destruct (kget path w) as [[?|?] ?]; intros [= -> -> <-]; done. Qed.

Lemma pa_path_deployment n1 s1 n2 s2 : pa_path n1 s1 ≠ deployment_path n2 s2.
Proof. unfold pa_path, deployment_path, API_GROUP. intros E. discriminate E. Qed.

(** An agreement observed through the recording reader is one of the reader itself, and the object it speaks of is the
    recorded one. *)
Lemma recorded_agrees {W} (kget : string → SE W (option json)) ns name w sig w' objs pa ms dep st1 :
  autoscaler_agrees (recording_get kget) ns name (w, []) sig (w', objs) pa ms dep st1 →
  autoscaler_agrees kget ns name w sig w' pa ms dep st1.1 ∧
  dget (pa_path (str_of ns) (str_of name)) objs = Some (Some pa).
Proof.
  destruct st1 as [w1 objs1]. intros [? ? Hp Hd]. apply recording_get_ok in Hp as [Hp ->], Hd as [Hd ->].
  split; [by split|]. rewrite dget_dset_ne by apply pa_path_deployment. by rewrite dget_dset_eq.
Qed.

Lemma oget_fmap (f : string → json) k l : k ∈ l → oget k ((λ k, (k, f k)) <$> l) = f k.
Proof.
  unfold oget. induction l as [|x t IH]; [by intros ?%elem_of_nil|]. intros Hk. cbn. case_decide as E; [by subst|].
  apply IH. by apply elem_of_cons in Hk as [->|].
Qed.

Lemma parse_request_sound body req : parse_request body = Ok req → ∃ b, body = JObj b ∧
  (∀ k, k ∈ _IDENTITY_FIELDS → oget k (rq_identity req) = oget k b) ∧
  oget "settings_sha256" b = JStr (rq_settings_sha256 req) ∧ parse_ts (oget "decision_origin" b) = Ok (rq_decision_origin req).
Proof.
  destruct body as [| | | | | |b]; try discriminate. intros H. unfold parse_request in H. ok_inv H. bool_prop. subst req.
  exists b. cbn [rq_identity rq_settings_sha256 rq_decision_origin]. split_and!; [done| | |done].
  - intros k Hk. pose proof (oget_fmap (λ k, oget k b) k _IDENTITY_FIELDS Hk) as Ho.
    unfold request_identity. destruct (dget "metric_type" b); [|exact Ho]. unfold oget at 1. rewrite dget_dset_ne; [exact Ho|].
    intros ->. revert Hk. apply (bool_decide_unpack _). vm_compute. exact I.
  - by destruct (oget "settings_sha256" b).
Qed.

Lemma names_signal_ext r1 r2 sig :
  (∀ k, k ∈ _IDENTITY_FIELDS → oget k r1 = oget k r2) → names_signal r1 sig → names_signal r2 sig.
Proof. intros H []. split; rewrite <-H by (unfold _IDENTITY_FIELDS; list_member); done. Qed.

(** C12: A request that [bind_request] accepts is bound to the live autoscaler: the settings and the lead come from the
    very object whose identity was checked, the caller's settings hash is the fingerprint of those settings, and the
    decision origin is the grid origin current at [now]. *)
Theorem bind_request_sound {W} (kget : string → SE W (option json)) body now w b w' :
  bind_request kget body (JInt now) w = (Ok b, w') →
  let dt := sample_interval_seconds (br_settings b) in
  (∃ req, body = JObj req ∧ names_signal req (br_signal b) ∧
     oget "autoscaler_name" req = JStr (br_autoscaler_name b) ∧
     oget "settings_sha256" req = JStr (br_settings_sha256 b) ∧
     parse_ts (oget "decision_origin" req) = Ok (br_decision_origin b)) ∧
  (∃ pa ms dep w1,
     autoscaler_agrees kget (JStr (br_autoscaler_namespace b)) (JStr (br_autoscaler_name b)) w (br_signal b) w' pa ms dep w1 ∧
     resolve_settings pa = Ok (br_settings b) ∧
     resolve_lead pa (br_settings b) (rs_generation (br_signal b)) = (br_lead b, br_lead_problem b)) ∧
  fingerprint (br_settings b) = Ok (br_settings_sha256 b) ∧
  (dt | br_decision_origin b) ∧ br_decision_origin b * 1000 ≤ now < (br_decision_origin b + dt) * 1000.
Proof.
  unfold bind_request. destruct (bind_request_rec _ _ _ _) as [r [w2 objs]] eqn:E. intros [= -> ->]. cbn zeta.
  unfold bind_request_rec in E. ok_inv E. lift_inv.
  match goal with X : sget _ = _ |- _ => injection X as <- <- end.
  match type of E with context [match dget ?p ?o with _ => _ end] =>
    destruct (dget p o) as [[[| | | | | |o']|]|] eqn:Hpa; try discriminate E end.
  ok_inv E. lift_inv.
  destruct (resolve_lead _ _ _) as [lead why] eqn:Hl. injection E as <- ->. bool_prop.
  cbn [br_autoscaler_namespace br_autoscaler_name br_signal br_settings br_settings_sha256 br_decision_origin br_lead
    br_lead_problem].
  match goal with X : parse_request body = Ok ?q |- _ => destruct (parse_request_sound _ _ X) as (req & -> & Hk & Hsha & Hor) end.
  match goal with X : resolve_signal _ _ _ = _ |- _ =>
    destruct (resolve_signal_spec _ _ _ _ _ X) as ((pa & ms & dep & st1 & A) & Hn) end.
  pose proof (ns_namespace _ _ Hn) as Ens. rewrite Ens in Hpa |- *.
  assert (valid_name (oget "autoscaler_name" (rq_identity x)) = true) as Hv by apply (aa_valid _ _ _ _ _ _ _ _ _ _ A).
  assert (∃ name, oget "autoscaler_name" (rq_identity x) = JStr name) as [name En]
    by (destruct (oget "autoscaler_name" (rq_identity x)); try discriminate Hv; eauto).
  rewrite En in *. apply recorded_agrees in A as [A Ho]. cbn [str_of snd] in *. rewrite Ho in Hpa. injection Hpa as ->.
  apply in_bounds_ok in H5 as [_ Hnow]. cbn [int_of] in Hnow. subst x4.
  destruct (intervals_cases (sample_interval_seconds x0)) as [Hi _]; [by eapply so_interval, resolve_settings_sound|].
  split_and!; try done; [|by exists (JObj o'), ms, dep, st1.1|apply mod0_divide; lia|lia|lia].
  exists req. split_and!; try done; [by eapply names_signal_ext|].
  rewrite <-Hk by (unfold _IDENTITY_FIELDS; list_member). done.
Qed.

(** * The contract on concrete inputs *)

Definition fixture_signal : ResolvedSignal := {|
  rs_namespace := "shop"; rs_name := "web"; rs_metric := "requests"; rs_query := demo_query;
  rs_sha256 := "bbbbbbbbbbbbbbbbbbbbbbbbbbbbbbbbbbbbbbbbbbbbbbbbbbbbbbbbbbbbbbbb";
  rs_contract := CONTRACT; rs_autoscaler_uid := "pa-uid"; rs_target_uid := "dep-uid"; rs_generation := 3 |}.

(** The keys the repository's own fixtures record for the operator's tests. *)
Example fixture_keys :
  evidence_key fixture_signal default_settings 600
  = Ok "5f188cac15b00ceeedef8e54f4e1f0eb60c674c5898eefe723e58991e53384c2" ∧
  evidence_key fixture_signal default_settings 3600
  = Ok "c0c4ba06b01dfe17e53b54f087b29bfc1e69324ce46cb17ef0c626ac9abf35d3".
Proof. vm_compute. split; reflexivity. Qed.

Example fixture_leads :
  automatic_lead_seconds 0 60 0 60 = 120 ∧ automatic_lead_seconds 0 300 15 300 = 900 ∧
  automatic_lead_seconds 0 600 30 600 = 1800 ∧ automatic_lead_seconds 1 60 30 60 = 180.
Proof. vm_compute. repeat split; reflexivity. Qed.

Example resolve_defaults : resolve_settings demo_pa = Ok default_settings.
Proof. vm_compute. reflexivity. Qed.

Definition demo_lead : LeadSelection := {|
  ls_lead_seconds := 900; ls_startup_delay_seconds := 60; ls_actuation_allowance_seconds := 15;
  ls_method := "measured"; ls_sample_count := 20; ls_observed_generation := 3 |}.

Lemma default_settings_ok : settings_ok default_settings.
Proof. apply (resolve_settings_sound demo_pa). vm_compute. reflexivity. Qed.

Lemma resolved_lead_window_witness :
  ∃ w, make_window 1200 default_settings demo_lead = Ok w ∧ target_timestamps w = [1500; 1800; 2100].
Proof.
  destruct (resolved_lead_window demo_pa default_settings 3 demo_lead EmptyString 1200 default_settings_ok
    ltac:(vm_compute; reflexivity) eq_refl) as (_ & _ & w & H & _).
  exists w. split; [exact H|]. injection H as <-. vm_compute. reflexivity.
Defined.

Lemma automatic_lead_least_witness : 60 + 300 + 15 + 300 ≤ automatic_lead_seconds 60 300 15 300.
Proof. apply (automatic_lead_least 60 300 15 300). lia. Defined.

Definition demo_settings_sha : string := Eval vm_compute in
  match fingerprint default_settings with Ok h => h | Raise _ => EmptyString end.

Definition demo_body : json := JObj (demo_request ++
  [("forecast_contract", JStr FORECAST_CONTRACT); ("decision_origin", JStr "2024-02-29T00:00:00Z");
   ("settings_sha256", JStr demo_settings_sha)]).

Definition demo_bound : BoundRequest := {|
  br_autoscaler_namespace := "shop"; br_autoscaler_name := "web-pa"; br_signal := demo_signal;
  br_settings := default_settings; br_settings_sha256 := demo_settings_sha; br_decision_origin := 1709164800;
  br_lead := Some demo_lead; br_lead_problem := EmptyString |}.

Lemma bind_request_witness :
  bind_request demo_get demo_body (JInt 1709164830000) () = (Ok demo_bound, ()) ∧
  fingerprint default_settings = Ok demo_settings_sha.
Proof.
  assert (bind_request demo_get demo_body (JInt 1709164830000) () = (Ok demo_bound, ())) as H
    by (vm_compute; reflexivity).
  split; [exact H|]. exact (proj1 (proj2 (proj2 (bind_request_sound demo_get demo_body 1709164830000 () demo_bound () H)))).
Defined.
