(* ===== verification/Response.v ===== *)
(** [forecasting/contracts.py], the response: [V2Response], its wire form ([to_wire], [response_from_wire]) and
    [check_response]. The class does not check the types of its fields, so a field is a [json] value unless the decoder
    has already parsed it (timestamps, the two arrays). *)
From Stdlib Require Import SpecFloat Ascii.
From S2P Require Import Prelude Float64 Sha256 Json Timestamps Identity Contracts.

Record V2Response := {
  autoscaler_namespace : json; autoscaler_name : json; autoscaler_uid : json; autoscaler_generation : json;
  target_namespace : json; target_name : json; target_uid : json; metric_query_sha256 : json; contract : json;
  settings_sha256 : json; forecast_contract : json; unit_ : json;
  issuance_id : json; issued_at_ms : Z; input_end : Z; input_received_through_ms : Z; fit_cutoff : option Z;
  model_family : json; model_recipe : json; artifact_sha256 : json; calibration_epoch : json; checkpoint_sha256 : json;
  decision_origin : Z; r_window_start : Z; r_window_end : Z; r_target_timestamps : list Z;
  r_sample_interval_seconds : json; lead_seconds : json; startup_delay_seconds : json;
  actuation_allowance_seconds : json; r_valid_until : Z; point_rps : list json; base_window_max_rps : json;
  upper_window_max_rps : json; nominal_miscoverage_bps : json; working_miscoverage_ratio : json;
  calibration_windows : json; prospective_windows : json; gate_coverage_ratio : json; missing_outcome_ratio : json;
  selected_candidate : json; trust_state : json; reason : json; predictive_eligible : json; evidence_cutoff : option Z;
}.

(** [asdict(self)] *)
Definition asdict (r : V2Response) : list (string * json) :=
  [("autoscaler_namespace", autoscaler_namespace r); ("autoscaler_name", autoscaler_name r);
   ("autoscaler_uid", autoscaler_uid r); ("autoscaler_generation", autoscaler_generation r);
   ("target_namespace", target_namespace r); ("target_name", target_name r); ("target_uid", target_uid r);
   ("metric_query_sha256", metric_query_sha256 r); ("contract", contract r); ("settings_sha256", settings_sha256 r);
   ("forecast_contract", forecast_contract r); ("unit", unit_ r); ("issuance_id", issuance_id r);
   ("issued_at_ms", JInt (issued_at_ms r)); ("input_end", JInt (input_end r));
   ("input_received_through_ms", JInt (input_received_through_ms r)); ("fit_cutoff", opt_int (fit_cutoff r));
   ("model_family", model_family r); ("model_recipe", model_recipe r); ("artifact_sha256", artifact_sha256 r);
   ("calibration_epoch", calibration_epoch r); ("checkpoint_sha256", checkpoint_sha256 r);
   ("decision_origin", JInt (decision_origin r)); ("window_start", JInt (r_window_start r));
   ("window_end", JInt (r_window_end r)); ("target_timestamps", JArr (JInt <$> r_target_timestamps r));
   ("sample_interval_seconds", r_sample_interval_seconds r); ("lead_seconds", lead_seconds r);
   ("startup_delay_seconds", startup_delay_seconds r);
   ("actuation_allowance_seconds", actuation_allowance_seconds r); ("valid_until", JInt (r_valid_until r));
   ("point_rps", JArr (point_rps r)); ("base_window_max_rps", base_window_max_rps r);
   ("upper_window_max_rps", upper_window_max_rps r); ("nominal_miscoverage_bps", nominal_miscoverage_bps r);
   ("working_miscoverage_ratio", working_miscoverage_ratio r); ("calibration_windows", calibration_windows r);
   ("prospective_windows", prospective_windows r); ("gate_coverage_ratio", gate_coverage_ratio r);
   ("missing_outcome_ratio", missing_outcome_ratio r); ("selected_candidate", selected_candidate r);
   ("trust_state", trust_state r); ("reason", reason r); ("predictive_eligible", predictive_eligible r);
   ("evidence_cutoff", opt_int (evidence_cutoff r))].

(** * The wire form *)

(** [format_ts(v) if v is not None else None] *)
Definition format_opt (v : json) : res json :=
  match v with JNull => Ok JNull | _ => JStr <$> format_ts v end.

Definition wire_ms (w : list (string * json)) (field : string * string) : res (list (string * json)) :=
  t ← format_ms (oget field.1 w); Ok (dset field.2 (JStr t) (ddel field.1 w)).

Definition wire_ts (w : list (string * json)) (k : string) : res (list (string * json)) :=
  t ← format_opt (oget k w); Ok (dset k t w).

Definition to_wire (r : V2Response) : res (list (string * json)) :=
  w ← foldM wire_ms (asdict r)
        [("issued_at_ms", "issued_at"); ("input_received_through_ms", "input_received_through")];
  w ← foldM wire_ts w
        ["input_end"; "fit_cutoff"; "decision_origin"; "window_start"; "window_end"; "valid_until"; "evidence_cutoff"];
  ts ← mapM_res (λ t, format_ts (JInt t)) (r_target_timestamps r);
  Ok (dset "point_rps" (JArr (point_rps r)) (dset "target_timestamps" (JArr (JStr <$> ts)) w)).

Definition _TS_FIELDS : list string := ["input_end"; "decision_origin"; "window_start"; "window_end"; "valid_until"].
Definition _NULLABLE_TS_FIELDS : list string := ["fit_cutoff"; "evidence_cutoff"].
Definition _MS_FIELDS : list string := ["issued_at"; "input_received_through"].

(** The field names of the class, the two millisecond fields without their suffix. *)
Definition wire_fields : list string :=
  ["autoscaler_namespace"; "autoscaler_name"; "autoscaler_uid"; "autoscaler_generation"; "target_namespace";
   "target_name"; "target_uid"; "metric_query_sha256"; "contract"; "settings_sha256"; "forecast_contract"; "unit";
   "issuance_id"; "issued_at"; "input_end"; "input_received_through"; "fit_cutoff"; "model_family"; "model_recipe";
   "artifact_sha256"; "calibration_epoch"; "checkpoint_sha256"; "decision_origin"; "window_start"; "window_end";
   "target_timestamps"; "sample_interval_seconds"; "lead_seconds"; "startup_delay_seconds";
   "actuation_allowance_seconds"; "valid_until"; "point_rps"; "base_window_max_rps"; "upper_window_max_rps";
   "nominal_miscoverage_bps"; "working_miscoverage_ratio"; "calibration_windows"; "prospective_windows";
   "gate_coverage_ratio"; "missing_outcome_ratio"; "selected_candidate"; "trust_state"; "reason";
   "predictive_eligible"; "evidence_cutoff"].

Definition parse_opt (v : json) : res (option Z) :=
  match v with JNull => Ok None | _ => Some <$> parse_ts v end.

(** * Numbers of a response *)

Definition _finite_nonneg (v : json) : res bool :=
  match number v with
  | None => Ok false
  | Some n => b ← isfinite n; Ok (b && negb (num_lt n (inl 0)))
  end.

(** [max(values)] of numbers, the first of equal ones. *)
Definition max_number (x : json) (l : list json) : json :=
  foldl (λ m v, match number m, number v with Some a, Some b => if num_lt a b then v else m | _, _ => m end) x l.

(** [all(_finite_nonneg(x) for x in l)] *)
Definition all_finite_nonneg (l : list json) : res bool :=
  foldM (λ ok x, if ok : bool then _finite_nonneg x else Ok false) true l.

(** [x is None or (_finite_nonneg(x) and x <= 1)] *)
Definition null_or_ratio (x : json) : res bool :=
  match x with
  | JNull => Ok true
  | _ => b ← _finite_nonneg x;
         Ok (b && match number x with Some n => negb (num_lt (inl 1) n) | None => false end)
  end.

(** [_SHA256.match(v or "")]: a value that is neither falsy nor a string is a [TypeError]. *)
Definition sha_field (v : json) : res bool :=
  if truthy v then match v with JStr s => Ok (sha256_text s) | _ => Raise PyTypeError end else Ok false.

Definition is_bool (v : json) : bool := match v with JBool _ => true | _ => false end.
Definition is_none (v : json) : bool := match v with JNull => true | _ => false end.

(** * [check_response] *)

Definition INT_FIELDS : list string :=
  ["autoscaler_generation"; "sample_interval_seconds"; "lead_seconds"; "startup_delay_seconds";
   "actuation_allowance_seconds"; "nominal_miscoverage_bps"; "calibration_windows"; "prospective_windows";
   "issued_at_ms"; "input_received_through_ms"; "input_end"; "decision_origin"; "window_start"; "window_end";
   "valid_until"].

(** The lead of a response: only its first three fields are its own. *)
Definition response_lead (r : V2Response) : LeadSelection := {|
  ls_lead_seconds := int_of (lead_seconds r); ls_startup_delay_seconds := int_of (startup_delay_seconds r);
  ls_actuation_allowance_seconds := int_of (actuation_allowance_seconds r); ls_method := "configured";
  ls_sample_count := 0; ls_observed_generation := 0 |}.

Definition response_window (r : V2Response) : ForecastWindow := {|
  fw_decision_origin := decision_origin r; fw_interval_seconds := int_of (r_sample_interval_seconds r);
  fw_lead_seconds := int_of (lead_seconds r) |}.

Definition echoes (r : V2Response) (bound : BoundRequest) : bool :=
  let s := br_signal bound in
  forallb (λ p, py_eq p.1 p.2)
    [(autoscaler_namespace r, JStr (br_autoscaler_namespace bound)); (autoscaler_name r, JStr (br_autoscaler_name bound));
     (autoscaler_uid r, JStr (rs_autoscaler_uid s)); (autoscaler_generation r, JInt (rs_generation s));
     (target_namespace r, JStr (rs_namespace s)); (target_name r, JStr (rs_name s));
     (target_uid r, JStr (rs_target_uid s)); (metric_query_sha256 r, JStr (rs_sha256 s));
     (settings_sha256 r, JStr (br_settings_sha256 bound)); (JInt (decision_origin r), JInt (br_decision_origin bound));
     (r_sample_interval_seconds r, JInt (sample_interval_seconds (br_settings bound)));
     (nominal_miscoverage_bps r, JInt (miscoverage_bps (risk (br_settings bound))))].

(** The part of [check_response] under [if bound is not None]. *)
Definition check_bound (r : V2Response) (bound : BoundRequest) : res unit :=
  raise_if negb (echoes r bound) with ContractRefused "the response does not echo the request's identity, settings and origin" ;;
  raise_if match br_lead bound with
           | None => true
           | Some l => negb (py_eq (lead_seconds r) (JInt (ls_lead_seconds l))
                             && py_eq (startup_delay_seconds r) (JInt (ls_startup_delay_seconds l))
                             && py_eq (actuation_allowance_seconds r) (JInt (ls_actuation_allowance_seconds l)))
           end with ContractRefused "the response's lead differs from the autoscaler's" ;;
  key ← br_evidence_key bound;
  raise_if negb (py_eq (calibration_epoch r) match key with Some k => JStr k | None => JNull end)
    with ContractRefused "the response's calibration epoch is not the request's evidence key" ;;
  Ok ().

(** Enumerations, numbers and hashes of the response. *)
Definition check_fields (r : V2Response) : res unit :=
  raise_if negb (py_eq (forecast_contract r) (JStr FORECAST_CONTRACT)) || negb (py_eq (contract r) (JStr CONTRACT))
           || negb (py_eq (unit_ r) (JStr UNIT))
    with ContractRefused "unknown forecast contract, signal contract or unit" ;;
  raise_if negb (forallb (λ name, nonneg_int (oget name (asdict r))) INT_FIELDS)
    with ContractRefused "must be a non-negative integer" ;;
  raise_if negb (is_bool (predictive_eligible r)) with ContractRefused "predictive_eligible must be a boolean" ;;
  raise_if negb (in_strs (trust_state r) PHASES) || negb (in_strs (reason r) REASONS)
    with ContractRefused "unknown trust state or reason" ;;
  raise_if negb (in_strs (model_family r) MODEL_FAMILIES) || negb (in_strs (selected_candidate r) MODEL_FAMILIES)
    with ContractRefused "unknown model family" ;;
  foldM (λ _ v, ok ← sha_field v; raise_if negb ok with ContractRefused "is not a sha256" ;; Ok ()) ()
    [metric_query_sha256 r; settings_sha256 r].

(** The grid, the window, the deadline and the rates. *)
Definition check_window (r : V2Response) : res unit :=
  let dt := int_of (r_sample_interval_seconds r) in
  let lead := response_lead r in let win := response_window r in
  raise_if negb (bool_decide (dt ∈ ALLOWED_INTERVALS)) || negb (decision_origin r mod dt =? 0)
           || negb (ls_lead_seconds lead mod dt =? 0) || (ls_lead_seconds lead <? dt)
    with ContractRefused "the window is not on an admitted grid" ;;
  raise_if negb ((r_window_start r =? window_start win) && (r_window_end r =? window_end win)
                 && bool_decide (r_target_timestamps r = target_timestamps win))
    with ContractRefused "window bounds or target timestamps do not match the origin and lead" ;;
  raise_if negb (r_valid_until r =? valid_until win lead)
    with ContractRefused "valid_until does not follow from the window and the lead" ;;
  rates ← (if (length (point_rps r) =? length (r_target_timestamps r))%nat then all_finite_nonneg (point_rps r) else Ok false);
  raise_if negb rates with ContractRefused "point_rps must hold one finite, non-negative rate per target" ;;
  base ← _finite_nonneg (base_window_max_rps r);
  raise_if negb base || match point_rps r with
                        | x :: l => negb (py_eq (base_window_max_rps r) (max_number x l)) | [] => true end
    with ContractRefused "base_window_max_rps must be the maximum of point_rps" ;;
  upper ← (if is_none (upper_window_max_rps r) then Ok true else _finite_nonneg (upper_window_max_rps r));
  raise_if negb upper with ContractRefused "upper_window_max_rps must be null or a finite, non-negative rate" ;;
  foldM (λ _ v, ok ← null_or_ratio v; raise_if negb ok with ContractRefused "must be null or within 0..1" ;; Ok ()) ()
    [gate_coverage_ratio r; missing_outcome_ratio r; working_miscoverage_ratio r].

(** The evidence, the order of times and the conditions of eligibility. *)
Definition check_times (r : V2Response) : res unit :=
  let lead := response_lead r in let win := response_window r in
  raise_if negb (is_none (gate_coverage_ratio r)) && py_eq (calibration_windows r) (JInt 0)
           && py_eq (prospective_windows r) (JInt 0)
    with ContractRefused "coverage without any scored window" ;;
  raise_if (decision_origin r <? input_end r) || match fit_cutoff r with Some f => input_end r <? f | None => false end
    with ContractRefused "input or fit cutoff after the decision origin" ;;
  raise_if (issued_at_ms r <? input_received_through_ms r) || (issued_at_ms r <? decision_origin r * 1000)
    with ContractRefused "issue/receipt times are out of order" ;;
  raise_if match evidence_cutoff r with Some e => issued_at_ms r <? e * 1000 | None => false end
    with ContractRefused "evidence cutoff after the issue time" ;;
  raise_if negb (py_eq (target_namespace r) (autoscaler_namespace r))
    with ContractRefused "the target must be in the autoscaler's namespace" ;;
  t1 ← of_option PyIndexError (head (r_target_timestamps r));
  raise_if t1 * 1000 <=? issued_at_ms r with ContractRefused "the issuance is not before the first target" ;;
  raise_if truthy (predictive_eligible r)
           && (is_none (upper_window_max_rps r) || negb (py_eq (trust_state r) (JStr "Trusted"))
               || negb (py_eq (reason r) (JStr "Ready")))
    with ContractRefused "an eligible forecast needs an upper bound, trust state Trusted and reason Ready" ;;
  act ← (if truthy (predictive_eligible r) then actionable_at win (issued_at_ms r) lead else Ok true);
  raise_if negb act with ContractRefused "an eligible forecast must be issued while its window is still actionable" ;;
  Ok ().

Definition check_response (r : V2Response) (bound : option BoundRequest) : res unit :=
  _ ← check_fields r; _ ← check_window r; _ ← check_times r;
  match bound with Some b => check_bound r b | None => Ok () end.

(** [V2Response( **v )] on decoded fields. *)
Definition response_from_wire (w : json) : res V2Response :=
  match w with
  | JObj o =>
      raise_if negb (keys_are o wire_fields) with ContractRefused "response fields differ" ;;
      let v k := oget k o in
      issued ← parse_ms (v "issued_at"); received ← parse_ms (v "input_received_through");
      i_end ← parse_ts (v "input_end"); origin ← parse_ts (v "decision_origin");
      start ← parse_ts (v "window_start"); w_end ← parse_ts (v "window_end"); until ← parse_ts (v "valid_until");
      fit ← parse_opt (v "fit_cutoff"); evidence ← parse_opt (v "evidence_cutoff");
      match v "target_timestamps", v "point_rps" with
      | JArr ts, JArr rps =>
          targets ← mapM_res parse_ts ts;
          let r := {|
            autoscaler_namespace := v "autoscaler_namespace"; autoscaler_name := v "autoscaler_name";
            autoscaler_uid := v "autoscaler_uid"; autoscaler_generation := v "autoscaler_generation";
            target_namespace := v "target_namespace"; target_name := v "target_name"; target_uid := v "target_uid";
            metric_query_sha256 := v "metric_query_sha256"; contract := v "contract";
            settings_sha256 := v "settings_sha256"; forecast_contract := v "forecast_contract"; unit_ := v "unit";
            issuance_id := v "issuance_id"; issued_at_ms := issued; input_end := i_end;
            input_received_through_ms := received; fit_cutoff := fit; model_family := v "model_family";
            model_recipe := v "model_recipe"; artifact_sha256 := v "artifact_sha256";
            calibration_epoch := v "calibration_epoch"; checkpoint_sha256 := v "checkpoint_sha256";
            decision_origin := origin; r_window_start := start; r_window_end := w_end; r_target_timestamps := targets;
            r_sample_interval_seconds := v "sample_interval_seconds"; lead_seconds := v "lead_seconds";
            startup_delay_seconds := v "startup_delay_seconds";
            actuation_allowance_seconds := v "actuation_allowance_seconds"; r_valid_until := until; point_rps := rps;
            base_window_max_rps := v "base_window_max_rps"; upper_window_max_rps := v "upper_window_max_rps";
            nominal_miscoverage_bps := v "nominal_miscoverage_bps";
            working_miscoverage_ratio := v "working_miscoverage_ratio"; calibration_windows := v "calibration_windows";
            prospective_windows := v "prospective_windows"; gate_coverage_ratio := v "gate_coverage_ratio";
            missing_outcome_ratio := v "missing_outcome_ratio"; selected_candidate := v "selected_candidate";
            trust_state := v "trust_state"; reason := v "reason"; predictive_eligible := v "predictive_eligible";
            evidence_cutoff := evidence |} in
          _ ← check_response r None; Ok r
      | _, _ => Raise (ContractRefused "target_timestamps and point_rps must be arrays")
      end
  | _ => Raise (ContractRefused "the response is not an object")
  end.

(** * Round trip *)

Definition in_years (t : Z) : Prop := min_padded ≤ t ≤ max_epoch.

(** Every time of the response lies in the years 1000 to 9999. *)
Record times_in_years (r : V2Response) : Prop := {
  ty_ms : Forall (λ t, in_years (t / 1000)) [issued_at_ms r; input_received_through_ms r];
  ty_ts : Forall in_years [input_end r; decision_origin r; r_window_start r; r_window_end r; r_valid_until r];
  ty_opt : Forall (λ o, ∀ t, o = Some t → in_years t) [fit_cutoff r; evidence_cutoff r];
  ty_targets : Forall in_years (r_target_timestamps r);
}.

Lemma wire_time t : in_years t → ∃ j, format_opt (JInt t) = Ok j ∧ parse_ts j = Ok t.
Proof. intros H. destruct (format_parse_grid t H) as (s & Hf & Hp). exists (JStr s). unfold format_opt. by rewrite Hf. Qed.

Lemma wire_time_opt o : (∀ t, o = Some t → in_years t) → ∃ j, format_opt (opt_int o) = Ok j ∧ parse_opt j = Ok o.
Proof.
  destruct o as [t|]; [|by exists JNull]. intros H. destruct (format_parse_grid t (H t eq_refl)) as (s & Hf & Hp).
  exists (JStr s). unfold format_opt, parse_opt. cbn [opt_int]. rewrite Hf. cbn -[parse_ts]. by rewrite Hp.
Qed.

Lemma wire_targets ts : Forall in_years ts →
  ∃ ss, mapM_res (λ t, format_ts (JInt t)) ts = Ok ss ∧ mapM_res parse_ts (JStr <$> ss) = Ok ts.
Proof.
  induction 1 as [|t ts Ht _ (ss & Hf & Hp)]; [by exists []|]. destruct (format_parse_grid t Ht) as (s & Hs & Ht').
  exists (s :: ss). cbn -[parse_ts format_ts]. rewrite Hs. cbn -[parse_ts format_ts]. rewrite Hf, Ht'. cbn. by rewrite Hp.
Qed.

(** Looks up a concrete key of a dict of known keys. *)
Ltac lookup_step :=
  match goal with |- context [oget ?k ?w] =>
    let v := eval lazy -[opt_int mapM_res fmap list_fmap] in (oget k w) in change (oget k w) with v end.

(** Rewrites with the outcome of a formatter or parser and goes on. *)
Ltac wire_step :=
  match goal with
  | H : ?f ?x = Ok _ |- context [?f ?x] => rewrite H; cbn [mbind res_bind fmap res_fmap]
  end.

(** A coherent response survives the wire: [to_wire] succeeds and [response_from_wire], which re-checks it, returns
    the same response. *)
Theorem response_roundtrip r :
  check_response r None = Ok () → times_in_years r →
  ∃ w, to_wire r = Ok w ∧ response_from_wire (JObj w) = Ok r.
Proof.
  intros Hc [Hms Hts Hopt Htg].
  repeat match goal with H : Forall _ (_ :: _) |- _ => apply Forall_cons in H as [? H] end.
  clear Hms Hts Hopt. destruct (wire_targets _ Htg) as (ss & Hss & Hps). clear Htg.
  destruct r; cbn [issued_at_ms input_received_through_ms input_end decision_origin r_window_start r_window_end
    r_valid_until fit_cutoff evidence_cutoff r_target_timestamps] in *.
  repeat match goal with
  | H : in_years (_ / 1000) |- _ => apply format_parse_receipt in H as (? & ? & ?)
  | H : in_years _ |- _ => apply wire_time in H as (? & ? & ?)
  | H : ∀ t, _ = Some t → in_years t |- _ => apply wire_time_opt in H as (? & ? & ?)
  end.
  unfold to_wire. cbn [foldM fst snd]. unfold wire_ms, wire_ts. cbn [fst snd].
  repeat (lookup_step; wire_step).
  cbn [r_target_timestamps point_rps]. rewrite Hss. cbn [mbind res_bind].
  eexists. split; [reflexivity|]. unfold response_from_wire.
  change (keys_are _ _) with true. cbn [negb].
  repeat lookup_step. repeat wire_step. reflexivity.
Qed.

(** * What a checked response promises *)

Lemma py_eq_int v z : is_int v = true → py_eq v (JInt z) = true → v = JInt z.
Proof. destruct v; try done. cbn. by intros _ ->%Z.eqb_eq. Qed.

Lemma check_fields_int r name : check_fields r = Ok () → name ∈ INT_FIELDS →
  ∃ z, oget name (asdict r) = JInt z ∧ 0 ≤ z.
Proof.
  intros H Hin. unfold check_fields in H. ok_inv H. bool_prop.
  match goal with E : forallb _ INT_FIELDS = true |- _ => rewrite forallb_forall in E;
    specialize (E name (proj1 (list_elem_of_In _ _) Hin)); rename E into Hn end.
  destruct (oget name (asdict r)) as [| |z| | | |]; try done. exists z. cbn in Hn. bool_prop. done.
Qed.

Lemma check_window_spec r : check_window r = Ok () →
  0 < fw_interval_seconds (response_window r) ≤ fw_lead_seconds (response_window r) ∧
  r_target_timestamps r = target_timestamps (response_window r) ∧
  r_valid_until r = valid_until (response_window r) (response_lead r).
Proof.
  intros H. unfold check_window in H. ok_inv H. bool_prop.
  match goal with E : _ ∈ ALLOWED_INTERVALS |- _ => apply intervals_cases in E as [? _] end.
  split_and!; [cbn in *; lia|cbn in *; lia|done|done].
Qed.

Lemma check_times_spec r t1 : check_times r = Ok () → head (r_target_timestamps r) = Some t1 →
  decision_origin r * 1000 ≤ issued_at_ms r < t1 * 1000 ∧
  (predictive_eligible r = JBool true →
     upper_window_max_rps r ≠ JNull ∧ trust_state r = JStr "Trusted" ∧ reason r = JStr "Ready" ∧
     actionable_at (response_window r) (issued_at_ms r) (response_lead r) = Ok true).
Proof.
  intros H Ht. unfold check_times in H. ok_inv H.
  match goal with E : of_option _ _ = Ok _ |- _ => apply of_option_ok in E; rewrite Ht in E; injection E as <- end. bool_prop.
  split; [lia|]. intros He. rewrite He in *. cbn [truthy andb] in *. bool_prop.
  repeat match goal with E : py_eq _ (JStr _) = true |- _ => apply py_eq_str_r in E end.
  match goal with E : actionable_at _ _ _ = Ok ?b |- _ => rewrite E; destruct b; [|discriminate] end.
  split_and!; try done. intros E. by rewrite E in *.
Qed.


(** * A response to the request of [demo_bound] *)

Definition demo_epoch : string := Eval vm_compute in
  match evidence_key demo_signal default_settings 900 with Ok k => k | Raise _ => EmptyString end.

Definition demo_response : V2Response := {|
  autoscaler_namespace := JStr "shop"; autoscaler_name := JStr "web-pa"; autoscaler_uid := JStr "pa-uid";
  autoscaler_generation := JInt 3; target_namespace := JStr "shop"; target_name := JStr "web";
  target_uid := JStr "dep-uid"; metric_query_sha256 := JStr demo_sha; contract := JStr CONTRACT;
  settings_sha256 := JStr demo_settings_sha; forecast_contract := JStr FORECAST_CONTRACT; unit_ := JStr UNIT;
  issuance_id := JStr "i-1"; issued_at_ms := 1709164831000; input_end := 1709164500;
  input_received_through_ms := 1709164830000; fit_cutoff := Some 1709164500; model_family := JStr "seasonal_naive";
  model_recipe := JStr "naive"; artifact_sha256 := JNull; calibration_epoch := JStr demo_epoch; checkpoint_sha256 := JNull;
  decision_origin := 1709164800; r_window_start := 1709164800; r_window_end := 1709165700;
  r_target_timestamps := [1709165100; 1709165400; 1709165700]; r_sample_interval_seconds := JInt 300;
  lead_seconds := JInt 900; startup_delay_seconds := JInt 60; actuation_allowance_seconds := JInt 15;
  r_valid_until := 1709165085; point_rps := [JInt 10; JFloat (f64_of_dec false 125 (-1)); JInt 12];
  base_window_max_rps := JFloat (f64_of_dec false 125 (-1)); upper_window_max_rps := JInt 15;
  nominal_miscoverage_bps := JInt 1000; working_miscoverage_ratio := JFloat (f64_of_dec false 1 (-1));
  calibration_windows := JInt 200; prospective_windows := JInt 70;
  gate_coverage_ratio := JFloat (f64_of_dec false 9 (-1)); missing_outcome_ratio := JInt 0;
  selected_candidate := JStr "seasonal_naive"; trust_state := JStr "Trusted"; reason := JStr "Ready";
  predictive_eligible := JBool true; evidence_cutoff := Some 1709164500 |}.

Lemma response_roundtrip_witness : ∃ w, to_wire demo_response = Ok w ∧ response_from_wire (JObj w) = Ok demo_response.
Proof.
  apply (response_roundtrip demo_response); [vm_compute; reflexivity|].
  split; cbn; unfold in_years, min_padded, max_epoch; repeat (apply Forall_cons; split); try (apply Forall_nil; exact I); try lia;
    try (intros t [= <-]; lia); vm_compute; split; discriminate.
Defined.

