(* ===== verification/Clock.v ===== *)
(** [forecasting/clock.py]: the receipt clocks. [ReceiptClock.now_ms] is modelled as one step on its last answer for a
    reading of the wall clock (the source, an argument); the lock makes each step atomic, so the answers of concurrent
    callers are those of some sequence of steps. *)
From S2P Require Import Prelude Json.

(** [_last], and a new reading; the answer is the new [_last]. *)
Definition now_ms (last : option Z) (reading : json) : res Z :=
  match reading with
  | JInt v => raise_if v <? 0 with ClockError "clock source returned" ;;
              Ok match last with None => v | Some l => Z.max l v end
  | _ => Raise (ClockError "clock source returned")
  end.

(** The answers to a sequence of readings, one call after another; a refused reading leaves the clock as it was. *)
Fixpoint answers (last : option Z) (readings : list json) : list (res Z) :=
  match readings with
  | [] => []
  | v :: t => let r := now_ms last v in
              r :: answers match r with Ok a => Some a | Raise _ => last end t
  end.

Definition manual_start (start_ms : json) : res Z :=
  match start_ms with
  | JInt s => raise_if s <? 0 with ClockError "bad start" ;; Ok s
  | _ => Raise (ClockError "bad start")
  end.

Definition manual_set (now : Z) (ms : json) : res Z :=
  match ms with
  | JInt z => raise_if z <? now with ClockError "the replay clock cannot move" ;; Ok z
  | _ => Raise (ClockError "the replay clock cannot move")
  end.

Definition manual_advance (now ms : Z) : res Z := manual_set now (JInt (now + ms)).

Definition times (l : list (res Z)) : list Z := omap (λ r, match r with Ok a => Some a | Raise _ => None end) l.

Lemma now_ms_ge last v a : now_ms last v = Ok a →
  0 ≤ a ∧ (∀ l, last = Some l → l ≤ a) ∧ ∃ z, v = JInt z ∧ (a = z ∨ last = Some a).
Proof.
  destruct v as [| |z| | | |]; try discriminate. unfold now_ms. intros H. ok_inv H. bool_prop. subst.
  destruct last as [l|]; split_and!; [lia|intros ? [= ->]; lia| |lia|done|exists z; auto].
  exists z. destruct (Z.max_spec l z) as [[? ->]|[? ->]]; auto.
Qed.

(** The receipt clock never goes backwards, whatever the wall clock does: the times it answers are sorted,
    non-negative, and each is a reading it was given or a repetition of its previous answer. *)
Theorem receipt_clock_monotone last readings :
  (∀ l, last = Some l → 0 ≤ l) →
  Sorted Z.le (or_default 0 last :: times (answers last readings)) ∧
  Forall (λ a, JInt a ∈ readings ∨ last = Some a) (times (answers last readings)).
Proof.
  revert last. induction readings as [|v t IH]; intros last Hl; cbn [answers times omap list_omap].
  - split; [by repeat constructor|constructor].
  - destruct (now_ms last v) as [a|e] eqn:E.
    + destruct (now_ms_ge _ _ _ E) as (H0 & Hge & z & -> & Hz).
      destruct (IH (Some a)) as [Hs Hf]; [by intros ? [= <-]|]. split.
      * apply Sorted_cons; [exact Hs|]. constructor. destruct last as [l|]; cbn; [by apply Hge|lia].
      * constructor; [destruct Hz as [->|]; [left; left|by right]|].
        eapply Forall_impl; [exact Hf|]. intros b [Hb|[= <-]]; [left; by right|].
        destruct Hz as [->|]; [left; left|by right].
    + destruct (IH last Hl) as [Hs Hf]. split; [done|]. eapply Forall_impl; [exact Hf|].
      intros b [Hb|Hb]; [left; by right|by right].
Qed.

Lemma receipt_clock_monotone_witness :
  Sorted Z.le (0 :: times (answers None [JInt 5; JInt 3; JNull; JInt 7])) ∧
  times (answers None [JInt 5; JInt 3; JNull; JInt 7]) = [5; 5; 7].
Proof. split; [|reflexivity]. apply (receipt_clock_monotone None). done. Defined.

Lemma manual_set_forward now ms t : manual_set now ms = Ok t → now ≤ t.
Proof. destruct ms; try discriminate. unfold manual_set. intros H. ok_inv H. bool_prop. lia. Qed.
