(* ===== verification/Maturation.v ===== *)
(** [forecasting/maturation.py]: when an issued window becomes a terminal outcome, and which. A rate of the journal is a
    float; an integer in a bundle stands for the float of the same value. *)
From Stdlib Require Import SpecFloat.
From S2P Require Import Prelude Float64 Sha256 Json JsonRoundtrip.

Definition OUTCOME_SCHEMA : string := "forecast-outcome/v1".

Definition truth_deadline_ms (window_end settlement_s grace_s : Z) : Z := (window_end + settlement_s + grace_s) * 1000.

(** Consecutive differences. *)
Definition steps_of (targets : list Z) : list Z := zip_with (λ a b, b - a) targets (tail targets).

(** Empty, not evenly spaced, or not increasing: refused. *)
Definition check_window (targets : list Z) : res unit :=
  raise_if bool_decide (targets = []) with PyValueError "a window has integer target times" ;;
  match steps_of targets with
  | [] => Ok ()
  | d :: ds => raise_if negb (forallb (Z.eqb d) ds) || (d <=? 0)
                 with PyValueError "window targets must be evenly spaced and increasing" ;; Ok ()
  end.

Definition targets_sha256 (targets : list Z) : res string :=
  t ← canonical_json (JArr (JInt <$> targets)); Ok (sha256_hex t).

(** Event time to (value, first receipt ms). *)
Definition receipts : Type := list (Z * (f64 * Z)).

(** The targets inside an exclusion, with its name ([why := excluded(t)] is truthy). *)
Definition excluded_hits (excluded : option (Z → option string)) (targets : list Z) : list (Z * string) :=
  match excluded with
  | None => []
  | Some f => omap (λ t, match f t with
                         | Some why => if bool_decide (why = EmptyString) then None else Some (t, why)
                         | None => None
                         end) targets
  end.

(** One pass over the targets: the values received by the cutoff, the missing targets, the last receipt. *)
Record gathered := { g_values : list f64; g_missing : list Z; g_completed : Z }.

Definition gather (received : receipts) (cutoff : Z) (targets : list Z) : gathered :=
  foldl (λ g t, match dget t received with
                | Some (v, at_ms) =>
                    if cutoff <? at_ms then {| g_values := g_values g; g_missing := g_missing g ++ [t]; g_completed := g_completed g |}
                    else {| g_values := g_values g ++ [v]; g_missing := g_missing g; g_completed := Z.max (g_completed g) at_ms |}
                | None => {| g_values := g_values g; g_missing := g_missing g ++ [t]; g_completed := g_completed g |}
                end) {| g_values := []; g_missing := []; g_completed := 0 |} targets.

Definition opt_float (u : option f64) : json := match u with Some x => JFloat x | None => JNull end.

(** [None] while the window is pending. *)
Definition window_outcome (targets : list Z) (base_rps : f64) (upper_rps : option f64) (received : receipts)
    (now_ms settlement_s grace_s : Z) (excluded : option (Z → option string)) : res (option (string * json)) :=
  _ ← check_window targets;
  let window_end := or_default 0 (last targets) in
  let close_ms := (window_end + settlement_s) * 1000 in
  let deadline_ms := truth_deadline_ms window_end settlement_s grace_s in
  if now_ms <? close_ms then Ok None else
  let count := JInt (Z.of_nat (length targets)) in
  match excluded_hits excluded targets with
  | (t, why) :: hit =>
      sha ← targets_sha256 targets;
      Ok (Some ("unscorable", JObj
        [("schema", JStr OUTCOME_SCHEMA); ("reason", JStr "excluded");
         ("excluded_targets", JInt (Z.of_nat (S (length hit)))); ("targets", count); ("targets_sha256", JStr sha);
         ("first_excluded", JInt t); ("exclusion", JStr why); ("deadline_ms", JInt deadline_ms)]))
  | [] =>
      let g := gather received (Z.min now_ms deadline_ms) targets in
      match g_missing g with
      | t :: missing =>
          if now_ms <? deadline_ms then Ok None else
          sha ← targets_sha256 targets;
          Ok (Some ("unscorable", JObj
            [("schema", JStr OUTCOME_SCHEMA); ("reason", JStr "missing_truth");
             ("missing_targets", JInt (Z.of_nat (S (length missing)))); ("targets", count);
             ("targets_sha256", JStr sha); ("first_missing", JInt t); ("deadline_ms", JInt deadline_ms)]))
      | [] =>
          match g_values g with
          | [] => Raise (PyValueError "max() iterable argument is empty")
          | v :: vs =>
              let y := fmax_list v vs in
              sha ← targets_sha256 targets;
              vtext ← canonical_json (JArr (JFloat <$> g_values g));
              Ok (Some ("scored", JObj
                [("schema", JStr OUTCOME_SCHEMA); ("y_window_max_rps", JFloat y); ("targets", count);
                 ("targets_sha256", JStr sha); ("base_window_max_rps", JFloat base_rps);
                 ("upper_window_max_rps", opt_float upper_rps);
                 ("covered", match upper_rps with None => JNull | Some u => JBool (y ≤ᶠ u) end);
                 ("residual_rps", JFloat (y ⊖ base_rps)); ("abs_error_rps", JFloat (fabs (y ⊖ base_rps)));
                 ("values", JArr (JFloat <$> g_values g)); ("values_sha256", JStr (sha256_hex vtext));
                 ("completed_at_ms", JInt (g_completed g))]))
          end
      end
  end.

(** One model's issued values in an issuance bundle. *)
Definition candidate (bundle : list (string * json)) (model : string) : res (list (string * json)) :=
  match dget "candidates" bundle with
  | Some (JObj cs) =>
      match oget model cs with
      | JObj c => Ok c
      | _ => Raise (PyValueError "the issuance has no candidate")
      end
  | Some _ => Raise (PyValueError "the issuance has no candidate")
  | None =>
      raise_if negb (py_eq (oget "model_family" bundle) (JStr model)) with PyValueError "the issuance was made by another model" ;;
      point ← of_option PyKeyError (dget "point_rps" bundle);
      base ← of_option PyKeyError (dget "base_window_max_rps" bundle);
      upper ← of_option PyKeyError (dget "upper_window_max_rps" bundle);
      Ok [("recipe", oget "model_recipe" bundle); ("point_rps", point); ("base_window_max_rps", base);
          ("upper_window_max_rps", upper)]
  end.

(** A rate, or a missing one, read from a bundle. *)
Definition rate_of (v : json) : res f64 := of_option PyTypeError (as_number v).
Definition opt_rate_of (v : json) : res (option f64) := match v with JNull => Ok None | _ => Some <$> rate_of v end.
Definition ints_of (v : json) : res (list Z) :=
  match v with
  | JArr l => mapM_res (λ x, match x with JInt z => Ok z | _ => Raise (PyValueError "a window has integer target times") end) l
  | _ => Raise PyTypeError
  end.

Definition issued_outcome (bundle : list (string * json)) (model : string) (received : receipts)
    (now_ms settlement_s grace_s : Z) (excluded : option (Z → option string)) : res (option (string * json)) :=
  c ← candidate bundle model;
  jt ← of_option PyKeyError (dget "target_timestamps" bundle); targets ← ints_of jt;
  jb ← of_option PyKeyError (dget "base_window_max_rps" c); base ← rate_of jb;
  ju ← of_option PyKeyError (dget "upper_window_max_rps" c); upper ← opt_rate_of ju;
  window_outcome targets base upper received now_ms settlement_s grace_s excluded.

(** * Evenly spaced windows *)

Lemma check_window_nonempty targets : check_window targets = Ok () → targets ≠ [].
Proof. unfold check_window. intros H. ok_inv H. by bool_prop. Qed.

Lemma check_window_range o dt (n : nat) : 0 < dt → (0 < n)%nat →
  check_window ((λ k, o + Z.of_nat k * dt) <$> seq 1 n) = Ok ().
Proof.
  intros Hdt Hn. destruct n as [|n]; [lia|]. unfold check_window. rewrite bool_decide_false by done.
  assert (∀ i m, steps_of ((λ k, o + Z.of_nat k * dt) <$> seq i m) = replicate (m - 1) dt) as E.
  { intros i m. revert i. induction m as [|[|m] IH]; intros i; [done|done|].
    cbn -[Z.of_nat Z.mul Nat.sub]. specialize (IH (S i)). unfold steps_of in *. cbn -[Z.of_nat Z.mul Nat.sub] in *.
    rewrite IH. replace (S (S m) - 1)%nat with (S m) by lia. replace (S m - 1)%nat with m by lia. cbn. f_equal. lia. }
  rewrite E. cbn. rewrite Nat.sub_0_r. destruct n as [|n]; [done|]. cbn [replicate].
  replace (forallb _ _) with true; [|symmetry; apply forallb_forall; intros x [-> _]%list_elem_of_In%elem_of_replicate; apply Z.eqb_refl].
  destruct (Z.leb_spec dt 0); [lia|done].
Qed.

(** * What one pass gathers *)

(** The value of a target, when it was received by the cutoff. *)
Definition received_by (received : receipts) (cutoff t : Z) : option (f64 * Z) :=
  match dget t received with Some (v, a) => if cutoff <? a then None else Some (v, a) | None => None end.

Lemma gather_spec received cutoff targets :
  gather received cutoff targets =
  {| g_values := (omap (received_by received cutoff) targets).*1;
     g_missing := filter (λ t, received_by received cutoff t = None) targets;
     g_completed := foldl Z.max 0 (omap (received_by received cutoff) targets).*2 |}.
Proof.
  unfold gather. induction targets as [|t l IH] using rev_ind; [done|].
  rewrite foldl_app, IH, filter_app, omap_app, !fmap_app, foldl_app, filter_cons, filter_nil. cbn. unfold received_by.
  destruct (dget t received) as [[v a]|]; [destruct (cutoff <? a)|]; cbn; rewrite ?app_nil_r; done.
Qed.

Lemma received_by_Some received cutoff t v a :
  received_by received cutoff t = Some (v, a) ↔ dget t received = Some (v, a) ∧ a ≤ cutoff.
Proof.
  unfold received_by. destruct (dget t received) as [[v' a']|]; [|naive_solver].
  destruct (Z.ltb_spec cutoff a'); naive_solver lia.
Qed.

(** A later journal: every receipt is kept, and a new one arrived after [now]. *)
Definition grows (now : Z) (r1 r2 : receipts) : Prop :=
  ∀ t v a, (dget t r1 = Some (v, a) → dget t r2 = Some (v, a)) ∧
           (dget t r2 = Some (v, a) → a ≤ now → dget t r1 = Some (v, a)).

Lemma grows_received r1 r2 now c1 c2 t p : grows now r1 r2 → c1 ≤ now → c1 ≤ c2 →
  received_by r1 c1 t = Some p → received_by r2 c2 t = Some p.
Proof. destruct p as [v a]. rewrite !received_by_Some. intros Hg ? ? [? ?]. split; [by apply Hg|lia]. Qed.

Lemma grows_received_eq r1 r2 now c t : grows now r1 r2 → c ≤ now → received_by r2 c t = received_by r1 c t.
Proof.
  intros Hg Hc. destruct (received_by r1 c t) as [p|] eqn:E.
  - eapply grows_received; [done|exact Hc|lia|done].
  - destruct (received_by r2 c t) as [[v a]|] eqn:E2; [|done]. apply received_by_Some in E2 as [E2 ?].
    assert (received_by r1 c t = Some (v, a)) as E3; [|congruence].
    apply received_by_Some. split; [|done]. apply (Hg t v a); [done|lia].
Qed.

Lemma gather_ext r1 r2 c1 c2 targets :
  (∀ t, t ∈ targets → received_by r1 c1 t = received_by r2 c2 t) → gather r1 c1 targets = gather r2 c2 targets.
Proof.
  intros H. rewrite !gather_spec.
  assert (omap (received_by r1 c1) targets = omap (received_by r2 c2) targets) as ->.
  { induction targets as [|t l IH]; [done|]. cbn. rewrite (H t) by left. rewrite IH; [done|]. intros; apply H; by right. }
  f_equal. induction targets as [|t l IH]; [done|]. rewrite !filter_cons, (H t) by left.
  rewrite IH by (intros; apply H; by right). done.
Qed.

Lemma no_missing received cutoff targets t :
  g_missing (gather received cutoff targets) = [] → t ∈ targets → ∃ p, received_by received cutoff t = Some p.
Proof.
  rewrite gather_spec. cbn. intros H Ht. destruct (received_by received cutoff t) eqn:E; [eauto|].
  assert (t ∈ filter (λ t, received_by received cutoff t = None) targets) as Hin by by apply list_elem_of_filter.
  rewrite H in Hin. by apply elem_of_nil in Hin.
Qed.

(** C14: An outcome is final. Once a window has one, every later evaluation, over a journal that has only grown, gives
    the same status and payload: a late receipt never changes it, and evaluating late never extends the deadline. *)
Theorem outcome_final targets base upper received received' now now' settle grace excluded o :
  0 ≤ grace →
  window_outcome targets base upper received now settle grace excluded = Ok (Some o) →
  now ≤ now' → grows now received received' →
  window_outcome targets base upper received' now' settle grace excluded = Ok (Some o).
Proof.
  intros Hgr H Hnow Hg. unfold window_outcome in *. ok_inv H.
  match goal with E : check_window _ = Ok ?u |- _ => rewrite E; clear E end. cbn [mbind res_bind].
  set (end_ := or_default 0 (last targets)) in *. set (dl := truth_deadline_ms end_ settle grace) in *.
  destruct (Z.ltb_spec now ((end_ + settle) * 1000)); [discriminate H|].
  destruct (Z.ltb_spec now' ((end_ + settle) * 1000)); [lia|].
  destruct (excluded_hits excluded targets) as [|[]]; [|exact H].
  destruct (g_missing (gather received (Z.min now dl) targets)) as [|t ms] eqn:Em.
  - assert (gather received' (Z.min now' dl) targets = gather received (Z.min now dl) targets) as ->.
    { apply gather_ext. intros t Ht. destruct (no_missing _ _ _ _ Em Ht) as [p Hp]. rewrite Hp.
      eapply grows_received; [exact Hg| | |exact Hp]; lia. }
    rewrite Em. exact H.
  - destruct (Z.ltb_spec now dl); [discriminate H|].
    assert (gather received' (Z.min now' dl) targets = gather received (Z.min now dl) targets) as ->.
    { apply gather_ext. intros t' Ht. rewrite !Z.min_r by lia. eapply grows_received_eq; [exact Hg|lia]. }
    rewrite Em. destruct (Z.ltb_spec now' dl); [lia|exact H].
Qed.

Lemma dl_close_le window_end settle grace : 0 ≤ grace → (window_end + settle) * 1000 ≤ truth_deadline_ms window_end settle grace.
Proof. unfold truth_deadline_ms. lia. Qed.

(** A window is pending exactly while it cannot close yet, or while a target without an exclusion is still missing
    before the fixed deadline; at the deadline it is decided. *)
Theorem pending_iff targets base upper received now settle grace excluded :
  check_window targets = Ok () →
  let end_ := or_default 0 (last targets) in
  let dl := truth_deadline_ms end_ settle grace in
  window_outcome targets base upper received now settle grace excluded = Ok None ↔
  now < (end_ + settle) * 1000 ∨
  (excluded_hits excluded targets = [] ∧ now < dl ∧ ∃ t, t ∈ targets ∧ received_by received (Z.min now dl) t = None).
Proof.
  intros Hw end_ dl. unfold window_outcome. rewrite Hw. cbn [mbind res_bind]. fold end_. fold dl.
  destruct (Z.ltb_spec now ((end_ + settle) * 1000)); [naive_solver|].
  destruct (excluded_hits excluded targets) as [|[]]; [|split; [|naive_solver lia]].
  2: { destruct (targets_sha256 targets); discriminate. }
  destruct (g_missing (gather received (Z.min now dl) targets)) as [|t ms] eqn:Em.
  - split.
    + match goal with |- context [g_values ?x] => destruct (g_values x); [discriminate|] end. destruct (targets_sha256 targets); cbn [mbind res_bind]; [|discriminate].
      match goal with |- context [canonical_json ?x] => destruct (canonical_json x); discriminate end.
    + intros [?|(_ & _ & t & Ht & E)]; [lia|]. destruct (no_missing _ _ _ _ Em Ht). congruence.
  - assert (t ∈ g_missing (gather received (Z.min now dl) targets)) as Ht by (rewrite Em; left).
    rewrite gather_spec in Ht. cbn in Ht. apply list_elem_of_filter in Ht as [? ?].
    destruct (Z.ltb_spec now dl); [split; [intros _; right; eauto|done]|].
    split; [|lia]. destruct (targets_sha256 targets); discriminate.
Qed.

Lemma gathered_values received cutoff targets :
  g_missing (gather received cutoff targets) = [] →
  Forall2 (λ t v, ∃ a, dget t received = Some (v, a) ∧ a ≤ cutoff) targets (g_values (gather received cutoff targets)).
Proof.
  intros H. assert (∀ t, t ∈ targets → ∃ p, received_by received cutoff t = Some p) as Ha
    by (intros t; by apply no_missing).
  rewrite gather_spec. cbn. clear H. induction targets as [|t l IH]; [constructor|].
  destruct (Ha t) as [[v a] E]; [left|]. cbn. rewrite E. cbn. constructor.
  - exists a. by apply received_by_Some.
  - apply IH. intros; apply Ha; by right.
Qed.

(** A scored outcome is the truth of the exact window: every target was received by the fixed deadline and by now,
    [Y] is the maximum of exactly those values, the window was not excluded, and coverage says whether [Y] is at most
    the bound that was issued (null without one). *)
Theorem scored_truth targets base upper received now settle grace excluded p :
  window_outcome targets base upper received now settle grace excluded = Ok (Some ("scored", p)) →
  let end_ := or_default 0 (last targets) in
  ∃ v vs y,
    Forall2 (λ t v, ∃ a, dget t received = Some (v, a) ∧ a ≤ now ∧ a ≤ truth_deadline_ms end_ settle grace) targets (v :: vs) ∧
    (Forall (λ x, is_nan x = false) (v :: vs) → y ∈ v :: vs ∧ Forall (λ x, (x ≤ᶠ y) = true) (v :: vs)) ∧
    excluded_hits excluded targets = [] ∧ (end_ + settle) * 1000 ≤ now ∧
    get "y_window_max_rps" p = Some (JFloat y) ∧ get "base_window_max_rps" p = Some (JFloat base) ∧
    get "upper_window_max_rps" p = Some (opt_float upper) ∧
    get "covered" p = Some match upper with None => JNull | Some u => JBool (y ≤ᶠ u) end.
Proof.
  intros H end_. unfold window_outcome in H. ok_inv H. fold end_ in H.
  destruct (Z.ltb_spec now ((end_ + settle) * 1000)); [discriminate H|].
  destruct (excluded_hits excluded targets) as [|[]]; [|by ok_inv H].
  set (dl := truth_deadline_ms end_ settle grace) in *.
  destruct (g_missing (gather received (Z.min now dl) targets)) as [|t ms] eqn:Em.
  2: { destruct (now <? dl); [discriminate H|by ok_inv H]. }
  pose proof (gathered_values _ _ _ Em) as Hf.
  destruct (g_values (gather received (Z.min now dl) targets)) as [|v vs]; [discriminate H|].
  ok_inv H. subst p. exists v, vs, (fmax_list v vs). split_and!; try done.
  - eapply Forall2_impl; [exact Hf|]. cbn. intros t z (a & ? & ?). exists a. split_and!; [done|lia|lia].
  - intros Hn. apply Forall_cons in Hn as [? ?]. by apply fmax_list_spec.
Qed.

(** * A window of three targets *)

Definition demo_receipts : receipts :=
  [(1500, (f64_of_Z 10, 1530000)); (1800, (f64_of_Z 14, 1830000)); (2100, (f64_of_Z 12, 2130000))].

Definition demo_outcome (r : receipts) (now : Z) : res (option (string * json)) :=
  window_outcome [1500; 1800; 2100] (f64_of_Z 11) (Some (f64_of_Z 15)) r now 120 600 None.

Example demo_scored : (λ o, o.1) <$> (match demo_outcome demo_receipts 2230000 with Ok o => o | Raise _ => None end)
  = Some "scored".
Proof. vm_compute. reflexivity. Qed.

Definition demo_scored_payload : json := Eval vm_compute in
  match demo_outcome demo_receipts 2230000 with Ok (Some o) => o.2 | _ => JNull end.

Lemma outcome_final_witness :
  demo_outcome (demo_receipts ++ [(2400, (f64_of_Z 99, 2430000))]) 9000000 = Ok (Some ("scored", demo_scored_payload)).
Proof.
  apply (outcome_final [1500; 1800; 2100] (f64_of_Z 11) (Some (f64_of_Z 15)) demo_receipts
           (demo_receipts ++ [(2400, (f64_of_Z 99, 2430000))]) 2230000 9000000 120 600 None);
    [lia|vm_compute; reflexivity|lia|].
  intros t v a. cbn. repeat case_decide; split; intros; simplify_eq; done.
Defined.

Lemma pending_iff_witness : demo_outcome (take 2 demo_receipts) 2230000 = Ok None.
Proof.
  refine (proj2 (pending_iff [1500; 1800; 2100] (f64_of_Z 11) (Some (f64_of_Z 15)) (take 2 demo_receipts) 2230000 120 600
            None eq_refl) _).
  right. split_and!; [done|vm_compute; reflexivity|]. exists 2100. split; [list_member|reflexivity].
Defined.

Lemma scored_truth_witness : get "y_window_max_rps" demo_scored_payload = Some (JFloat (f64_of_Z 14)).
Proof.
  destruct (scored_truth [1500; 1800; 2100] (f64_of_Z 11) (Some (f64_of_Z 15)) demo_receipts 2230000 120 600 None
              demo_scored_payload ltac:(vm_compute; reflexivity)) as (v & vs & y & _ & _ & _ & _ & Hy & _).
  rewrite Hy. vm_compute in Hy. exact (eq_sym Hy).
Defined.
