(* ===== verification/Store.v ===== *)
(** [forecasting/store.py]: the forecast journal. The SQLite file is the record [store]: a list of rows per table in
    commit order (rowids only grow), the retention horizon of [meta], and the health flag of the process. Every public
    method holds the store's lock, so it is one step; what it meets outside (database size, clock, a failing statement)
    is its [env] argument. A failing statement inside a transaction rolls the whole transaction back. *)
From Stdlib Require Import Ascii.
From S2P Require Import Prelude Float64 Sha256 Json JsonRoundtrip Identity.

Definition SCHEMA_VERSION : Z := 1.
Definition MAX_OUTCOME_BYTES : Z := 4096.
Definition MAX_CHECKPOINT_BYTES : Z := 1048576.
Definition CHECKPOINTS_KEPT : nat := 3.
Definition OUTCOME_STATUSES : list string := ["scored"; "unscorable"].
Definition MAX_MODELS : Z := 3.

(** * Records *)

Record IssuanceKey := {
  k_evidence_key : string; k_decision_origin : Z; k_window_start : Z; k_window_end : Z; k_settings_sha256 : string;
}.

(** [IssuanceKey( ... )] with its [__post_init__]. *)
Definition mk_key (evidence_key : string) (decision_origin window_start window_end : Z) (settings_sha256 : string)
    : res IssuanceKey :=
  raise_if negb (sha256_text evidence_key && sha256_text settings_sha256) with StoreError "must be a sha256" ;;
  raise_if (decision_origin <? 0) || (window_start <? 0) || (window_end <? 0)
    with StoreError "must be a non-negative integer" ;;
  raise_if negb (window_start =? decision_origin) || (window_end <=? window_start)
    with StoreError "a window starts at its decision origin and ends after it" ;;
  Ok {| k_evidence_key := evidence_key; k_decision_origin := decision_origin; k_window_start := window_start;
        k_window_end := window_end; k_settings_sha256 := settings_sha256 |}.

Definition key_body (k : IssuanceKey) : json := JObj
  [("schema", JStr "issuance-key/v1"); ("evidence_key", JStr (k_evidence_key k));
   ("decision_origin", JInt (k_decision_origin k)); ("window_start", JInt (k_window_start k));
   ("window_end", JInt (k_window_end k)); ("settings_sha256", JStr (k_settings_sha256 k))].

Definition key_sha256 (k : IssuanceKey) : res string := t ← canonical_json (key_body k); Ok (sha256_hex t).

Record Issuance := {
  i_seq : Z; i_issuance_id : string; i_key : IssuanceKey; i_bundle : string; i_bundle_sha256 : string;
  i_models : list string; i_committed_at_ms : Z;
}.
Definition i_payload (i : Issuance) : res json := loads (i_bundle i).

Record Outcome := {
  o_seq : Z; o_issuance_id : string; o_evidence_key : string; o_window_end : Z; o_model : string; o_status : string;
  o_payload_bytes : string; o_payload_sha256 : string; o_committed_at_ms : Z;
}.
Definition o_payload (o : Outcome) : res json := loads (o_payload_bytes o).

Record Checkpoint := {
  c_seq : Z; c_evidence_key : string; c_last_outcome_seq : Z; c_state : json; c_payload_sha256 : string;
  c_created_at_ms : Z;
}.

Record ObservationReceipt := { new : Z; duplicate : Z; corrected : Z }.

(** * Tables *)

Record issuance_row := {
  ir_seq : Z; ir_issuance_id : string; ir_key_sha256 : string; ir_evidence_key : string; ir_decision_origin : Z;
  ir_window_start : Z; ir_window_end : Z; ir_settings_sha256 : string; ir_bundle : string; ir_bundle_sha256 : string;
  ir_models : string; ir_committed_at_ms : Z;
}.

Record checkpoint_row := {
  cr_seq : Z; cr_evidence_key : string; cr_last_outcome_seq : Z; cr_schema_version : Z; cr_payload : string;
  cr_payload_sha256 : string; cr_created_at_ms : Z;
}.

Record observation_row := {
  ob_series : string; ob_event_time : Z; ob_value : f64; ob_received_ms : Z; ob_source_sha256 : string;
}.

Record retention_row := {
  rt_through_window_end : Z; rt_issued : Z; rt_scored : Z; rt_unscorable : Z; rt_digest : string;
}.

Record store := {
  store_id : string;
  retention_seconds : Z; obs_extra : Z; quota_bytes : Z; max_bundle_bytes : Z;
  problem : option string;
  horizon : Z;
  issuances : list issuance_row;
  outcomes : list Outcome;
  observations : list observation_row;
  corrections : list observation_row;
  checkpoints : list checkpoint_row;
  retention : list (string * retention_row);
  issuance_seq : Z; outcome_seq : Z; checkpoint_seq : Z;      (* AUTOINCREMENT: the last rowid ever given *)
}.

Definition set_problem (p : option string) (s : store) : store :=
  {| store_id := store_id s; retention_seconds := retention_seconds s; obs_extra := obs_extra s;
     quota_bytes := quota_bytes s; max_bundle_bytes := max_bundle_bytes s; problem := p; horizon := horizon s;
     issuances := issuances s; outcomes := outcomes s; observations := observations s; corrections := corrections s;
     checkpoints := checkpoints s; retention := retention s; issuance_seq := issuance_seq s;
     outcome_seq := outcome_seq s; checkpoint_seq := checkpoint_seq s |}.
Definition set_issuances (l : list issuance_row) (n : Z) (s : store) : store :=
  {| store_id := store_id s; retention_seconds := retention_seconds s; obs_extra := obs_extra s;
     quota_bytes := quota_bytes s; max_bundle_bytes := max_bundle_bytes s; problem := problem s; horizon := horizon s;
     issuances := l; outcomes := outcomes s; observations := observations s; corrections := corrections s;
     checkpoints := checkpoints s; retention := retention s; issuance_seq := n;
     outcome_seq := outcome_seq s; checkpoint_seq := checkpoint_seq s |}.
Definition set_outcomes (l : list Outcome) (n : Z) (s : store) : store :=
  {| store_id := store_id s; retention_seconds := retention_seconds s; obs_extra := obs_extra s;
     quota_bytes := quota_bytes s; max_bundle_bytes := max_bundle_bytes s; problem := problem s; horizon := horizon s;
     issuances := issuances s; outcomes := l; observations := observations s; corrections := corrections s;
     checkpoints := checkpoints s; retention := retention s; issuance_seq := issuance_seq s;
     outcome_seq := n; checkpoint_seq := checkpoint_seq s |}.
Definition set_observations (l c : list observation_row) (s : store) : store :=
  {| store_id := store_id s; retention_seconds := retention_seconds s; obs_extra := obs_extra s;
     quota_bytes := quota_bytes s; max_bundle_bytes := max_bundle_bytes s; problem := problem s; horizon := horizon s;
     issuances := issuances s; outcomes := outcomes s; observations := l; corrections := c;
     checkpoints := checkpoints s; retention := retention s; issuance_seq := issuance_seq s;
     outcome_seq := outcome_seq s; checkpoint_seq := checkpoint_seq s |}.
Definition set_checkpoints (l : list checkpoint_row) (n : Z) (s : store) : store :=
  {| store_id := store_id s; retention_seconds := retention_seconds s; obs_extra := obs_extra s;
     quota_bytes := quota_bytes s; max_bundle_bytes := max_bundle_bytes s; problem := problem s; horizon := horizon s;
     issuances := issuances s; outcomes := outcomes s; observations := observations s; corrections := corrections s;
     checkpoints := l; retention := retention s; issuance_seq := issuance_seq s;
     outcome_seq := outcome_seq s; checkpoint_seq := n |}.
Definition set_compacted (h : Z) (il : list issuance_row) (os : list Outcome) (obs : list observation_row)
    (rt : list (string * retention_row)) (s : store) : store :=
  {| store_id := store_id s; retention_seconds := retention_seconds s; obs_extra := obs_extra s;
     quota_bytes := quota_bytes s; max_bundle_bytes := max_bundle_bytes s; problem := problem s; horizon := h;
     issuances := il; outcomes := os; observations := obs; corrections := corrections s;
     checkpoints := checkpoints s; retention := rt; issuance_seq := issuance_seq s;
     outcome_seq := outcome_seq s; checkpoint_seq := checkpoint_seq s |}.

(** * Failures *)

(** What SQLite reports for a statement, sorted as [_guard] sorts it. *)
Inductive sql_error := SqlIntegrity | SqlFull | SqlMalformed | SqlOperational | SqlNotADatabase.

(** What an operation meets outside the tables: the size of the database and its log, the clock's answer, and a failing
    statement of its transaction. *)
Record env := { e_usage : Z; e_now : Z; e_sql : option sql_error }.

Definition guard_error (e : sql_error) : exn :=
  match e with
  | SqlIntegrity => StoreError "refused by the journal"
  | SqlFull => StoreFull "database or disk is full"
  | SqlMalformed | SqlNotADatabase => StoreCorrupt "database disk image is malformed"
  | SqlOperational => StoreUnavailable "disk I/O error"
  end.

(** Marks the store for good. *)
Definition _fail (why : string) (s : store) : store :=
  match problem s with None => set_problem (Some why) s | Some _ => s end.

Definition unavailable (e : exn) : bool :=
  match e with StoreUnavailable _ | StoreFull _ | StoreCorrupt _ => true | _ => false end.

(** [with self._guard(what)]: an unavailable or corrupt store stays marked; other refusals leave it usable. *)
Definition _guard {A} (what : string) (m : SE store A) : SE store A :=
  λ s, match m s with
       | (Raise e, s') => (Raise e, if unavailable e then _fail what s' else s')
       | r => r
       end.

Definition _require_healthy : SE store () :=
  λ s, (match problem s with Some _ => Raise (StoreUnavailable "the journal is unavailable since an earlier failure")
        | None => Ok () end, s).

Definition _check_quota (env : env) (incoming : Z) : SE store () :=
  λ s, (if quota_bytes s <? e_usage env + incoming
        then Raise (StoreFull "the journal would exceed its byte quota") else Ok (), s).

(** [with self._tx()]: all of the body's writes to the tables, or none of them. A mark left by the body stays: it is the
    process's, not the file's. *)
Definition _tx {A} (env : env) (body : SE store A) : SE store A :=
  λ s, match e_sql env with
       | Some e => (Raise (guard_error e), s)
       | None => match body s with
                 | (Ok a, s') => (Ok a, s')
                 | (Raise e, s') => (Raise e, set_problem (problem s') s)
                 end
       end.

(** * Encoding *)

Definition _encode (payload : json) (cap : Z) : res string :=
  match payload with
  | JObj _ =>
      match canonical_json payload with
      | Ok data => raise_if cap <? Z.of_nat (String.length data) with StoreError "above the byte cap" ;; Ok data
      | Raise _ => Raise (StoreError "is not canonical JSON")
      end
  | _ => Raise (StoreError "must be an object")
  end.

Definition model_char (c : ascii) : bool := in_range 97 122 c || in_range 48 57 c || is_char 95 c.
Definition model_name (m : string) : bool :=
  let l := dollar (chars m) in (1 <=? length l)%nat && (length l <=? 32)%nat && forallb model_char l.

(** The expected model set, kept sorted. *)
Definition _models (models : list string) : res (list string) :=
  let out := sort_by str_leb (remove_dups models) in
  raise_if negb (length out =? length models)%nat || (length out =? 0)%nat
           || (MAX_MODELS <? Z.of_nat (length out)) || negb (forallb model_name out)
    with StoreError "models must be 1..3 distinct names" ;; Ok out.

(** [json.loads] of the stored model set; anything but a list of names is malformed. *)
Definition stored_models (text : string) : res (list string) :=
  j ← loads text;
  match j with
  | JArr l => names ← mapM_res (λ v, match v with JStr m => Ok m | _ => Raise (StoreError "models must be names") end) l;
              _models names
  | _ => Raise (StoreError "models must be a list of model names")
  end.

Definition nul : string := String (ascii_of_nat 0) EmptyString.

(** ["iss-" + sha256_hex(f"{store_id}\0{key.sha256}")[:32]] *)
Definition issuance_id_for (id : string) (key : IssuanceKey) : res string :=
  k ← key_sha256 key; Ok ("iss-" +:+ String.substring 0 32 (sha256_hex (id +:+ nul +:+ k))).

(** * Issuances *)

(** A row that fails its checksum or carries a malformed model set corrupts the store. *)
Definition _row_to_issuance (r : issuance_row) : SE store Issuance :=
  λ s,
  if negb (bool_decide (sha256_hex (ir_bundle r) = ir_bundle_sha256 r))
  then (Raise (StoreCorrupt "issuance does not match its checksum"), _fail "issuance does not match its checksum" s) else
  match stored_models (ir_models r) with
  | Raise _ => (Raise (StoreCorrupt "issuance has a malformed model set"), _fail "issuance has a malformed model set" s)
  | Ok models =>
      (key ← mk_key (ir_evidence_key r) (ir_decision_origin r) (ir_window_start r) (ir_window_end r)
              (ir_settings_sha256 r);
       Ok {| i_seq := ir_seq r; i_issuance_id := ir_issuance_id r; i_key := key; i_bundle := ir_bundle r;
             i_bundle_sha256 := ir_bundle_sha256 r; i_models := models; i_committed_at_ms := ir_committed_at_ms r |}, s)
  end.

Definition mapM_se {A B} (f : A → SE store B) : list A → SE store (list B) :=
  fix go l := match l with [] => mret [] | x :: t => y ← f x; ys ← go t; mret (y :: ys) end.

Definition find_issuance (p : issuance_row → bool) : SE store (option Issuance) :=
  s ← sget;
  match List.find p (issuances s) with
  | Some row => i ← _row_to_issuance row; mret (Some i)
  | None => mret None
  end.

Definition get_issuance (key : IssuanceKey) : SE store (option Issuance) :=
  _guard "read issuance"
    (k ← lift (key_sha256 key); find_issuance (λ r, bool_decide (ir_key_sha256 r = k))).

Definition get_issuance_by_id (id : string) : SE store (option Issuance) :=
  _guard "read issuance" (find_issuance (λ r, bool_decide (ir_issuance_id r = id))).

Definition _same (existing : Issuance) (bundle : string) (models : list string) : res Issuance :=
  raise_if negb (bool_decide (i_bundle existing = bundle)) || negb (bool_decide (i_models existing = models))
    with IntegrityConflict "is already committed with different bytes or models" ;; Ok existing.

Definition _refuse_retired (key : IssuanceKey) : SE store () :=
  λ s, (if k_window_end key <? horizon s then Raise (RetiredKey "is below the retention horizon") else Ok (), s).

(** The INSERT with its unique columns and the [issuances_not_retired] trigger. *)
Definition insert_issuance (id k : string) (key : IssuanceKey) (bundle models : string) (now : Z) : SE store () :=
  s ← sget;
  raise_if existsb (λ r, bool_decide (ir_issuance_id r = id) || bool_decide (ir_key_sha256 r = k)) (issuances s)
    with StoreError "refused by the journal" ;;
  raise_if k_window_end key <? horizon s with StoreError "refused by the journal" ;;
  let n := issuance_seq s + 1 in
  sput (set_issuances (issuances s ++
    [{| ir_seq := n; ir_issuance_id := id; ir_key_sha256 := k; ir_evidence_key := k_evidence_key key;
        ir_decision_origin := k_decision_origin key; ir_window_start := k_window_start key;
        ir_window_end := k_window_end key; ir_settings_sha256 := k_settings_sha256 key; ir_bundle := bundle;
        ir_bundle_sha256 := sha256_hex bundle; ir_models := models; ir_committed_at_ms := now |}]) n s).

Definition commit_issuance (env : env) (key : IssuanceKey) (payload : json) (models : list string)
    : SE store (Issuance * bool) :=
  s0 ← sget;
  bundle ← lift (_encode payload (max_bundle_bytes s0));
  expected ← lift (_models models);
  id ← lift (issuance_id_for (store_id s0) key);
  _guard "commit issuance"
    (_ ← _require_healthy;
     existing ← get_issuance key;
     match existing with
     | Some i => r ← lift (_same i bundle expected); mret (r, false)
     | None =>
         _ ← _refuse_retired key;
         _ ← _check_quota env (Z.of_nat (String.length bundle));
         k ← lift (key_sha256 key);
         text ← lift (canonical_json (JArr (JStr <$> expected)));
         _ ← _tx env (insert_issuance id k key bundle text (e_now env));
         committed ← get_issuance key;
         i ← lift (of_option PyTypeError committed);
         mret (i, true)
     end).

Definition get_or_issue (env : env) (key : IssuanceKey) (build : string → res json) (models : list string)
    : SE store (Issuance * bool) :=
  _guard "issue"
    (_ ← _require_healthy;
     existing ← get_issuance key;
     match existing with
     | Some i =>
         expected ← lift (_models models);
         raise_if negb (bool_decide (i_models i = expected)) with IntegrityConflict "expects models" ;;
         mret (i, false)
     | None =>
         _ ← _refuse_retired key;
         s ← sget;
         id ← lift (issuance_id_for (store_id s) key);
         payload ← lift (build id);
         commit_issuance env key payload models
     end).

Definition issuance_order (a b : issuance_row) : bool :=
  (ir_window_end a <? ir_window_end b) || ((ir_window_end a =? ir_window_end b) && (ir_seq a <=? ir_seq b)).

Definition open_issuances (evidence_key model : string) (window_end_at_most : Z) : SE store (list Issuance) :=
  _guard "read open issuances"
    (s ← sget;
     let open r := bool_decide (ir_evidence_key r = evidence_key) && (ir_window_end r <=? window_end_at_most)
                   && negb (existsb (λ o, bool_decide (o_issuance_id o = ir_issuance_id r)
                                          && bool_decide (o_model o = model)) (outcomes s)) in
     found ← mapM_se _row_to_issuance (sort_by issuance_order (filter open (issuances s)));
     mret (filter (λ i, model ∈ i_models i) found)).

Definition issuances_after (evidence_key : string) (after_seq : Z) : SE store (list Issuance) :=
  _guard "read issuances"
    (s ← sget;
     mapM_se _row_to_issuance
       (filter (λ r, bool_decide (ir_evidence_key r = evidence_key) && (after_seq <? ir_seq r)) (issuances s))).

(** [issuances]: of one epoch, or all of them. *)
Definition list_issuances (evidence_key : option string) : SE store (list Issuance) :=
  _guard "read issuances"
    (s ← sget;
     mapM_se _row_to_issuance
       match evidence_key with
       | Some (String _ _ as ek) => filter (λ r, bool_decide (ir_evidence_key r = ek)) (issuances s)
       | _ => issuances s
       end).

(** * Outcomes *)

Definition _row_to_outcome (o : Outcome) : SE store Outcome :=
  λ s, if bool_decide (sha256_hex (o_payload_bytes o) = o_payload_sha256 o) then (Ok o, s)
       else (Raise (StoreCorrupt "outcome does not match its checksum"), _fail "outcome does not match its checksum" s).

Definition is_outcome_of (id model : string) (o : Outcome) : bool :=
  bool_decide (o_issuance_id o = id) && bool_decide (o_model o = model).

(** The INSERT with its foreign key and its unique pair. *)
Definition insert_outcome (i : Issuance) (model status data : string) (now : Z) : SE store () :=
  s ← sget;
  raise_if negb (existsb (λ r, bool_decide (ir_issuance_id r = i_issuance_id i)) (issuances s))
           || existsb (is_outcome_of (i_issuance_id i) model) (outcomes s)
    with StoreError "refused by the journal" ;;
  let n := outcome_seq s + 1 in
  sput (set_outcomes (outcomes s ++
    [{| o_seq := n; o_issuance_id := i_issuance_id i; o_evidence_key := k_evidence_key (i_key i);
        o_window_end := k_window_end (i_key i); o_model := model; o_status := status; o_payload_bytes := data;
        o_payload_sha256 := sha256_hex data; o_committed_at_ms := now |}]) n s).

Definition commit_outcome (env : env) (issuance_id model status : string) (payload : json) : SE store (Outcome * bool) :=
  raise_if negb (bool_decide (status ∈ OUTCOME_STATUSES)) with StoreError "outcome status is not one of" ;;
  raise_if bool_decide (model = EmptyString) with StoreError "an outcome names its model" ;;
  data ← lift (_encode payload MAX_OUTCOME_BYTES);
  _guard "commit outcome"
    (_ ← _require_healthy;
     s ← sget;
     match List.find (is_outcome_of issuance_id model) (outcomes s) with
     | Some row =>
         o ← _row_to_outcome row;
         raise_if negb (bool_decide (o_status o = status)) || negb (bool_decide (o_payload_bytes o = data))
           with IntegrityConflict "the outcome is already committed" ;;
         mret (o, false)
     | None =>
         found ← get_issuance_by_id issuance_id;
         match found with
         | None => mthrow (StoreError "no issuance")
         | Some iss =>
             raise_if negb (bool_decide (model ∈ i_models iss)) with StoreError "expects outcomes for other models" ;;
             _ ← _check_quota env (Z.of_nat (String.length data));
             raise_if e_now env <? k_window_end (i_key iss) * 1000
               with StoreError "an outcome cannot be committed before its window has ended" ;;
             _ ← _tx env (insert_outcome iss model status data (e_now env));
             s' ← sget;
             row ← lift (of_option PyTypeError (List.find (is_outcome_of issuance_id model) (outcomes s')));
             o ← _row_to_outcome row;
             mret (o, true)
         end
     end).

Definition outcomes_after (evidence_key : string) (after_seq : Z) : SE store (list Outcome) :=
  _guard "read outcomes"
    (s ← sget;
     mapM_se _row_to_outcome
       (filter (λ o, bool_decide (o_evidence_key o = evidence_key) && (after_seq <? o_seq o)) (outcomes s))).

(** * Observations *)

(** A sample is (event time, RPS, receipt ms). *)
Definition valid_sample (x : Z * f64 * Z) : bool :=
  let '(_, v, at_ms) := x in (f0 ≤ᶠ v) && is_finite v && (0 <=? at_ms).

Definition is_observation (series : string) (ts : Z) (o : observation_row) : bool :=
  bool_decide (ob_series o = series) && (ob_event_time o =? ts).

(** One sample: kept when it is the first of its event time, counted when equal, otherwise noted as a correction. *)
Definition record_one (series source : string) (acc : ObservationReceipt * store) (x : Z * f64 * Z)
    : ObservationReceipt * store :=
  let '(n, s) := acc in let '(ts, v, at_ms) := x in
  let row := {| ob_series := series; ob_event_time := ts; ob_value := v; ob_received_ms := at_ms;
                ob_source_sha256 := source |} in
  match List.find (is_observation series ts) (observations s) with
  | None => ({| new := new n + 1; duplicate := duplicate n; corrected := corrected n |},
             set_observations (observations s ++ [row]) (corrections s) s)
  | Some o => if feq (ob_value o) v
              then ({| new := new n; duplicate := duplicate n + 1; corrected := corrected n |}, s)
              else ({| new := new n; duplicate := duplicate n; corrected := corrected n + 1 |},
                    set_observations (observations s) (corrections s ++ [row]) s)
  end.

Definition record_observations (env : env) (series : string) (samples : list (Z * f64 * Z)) (source_sha256 : string)
    : SE store ObservationReceipt :=
  raise_if negb (sha256_text source_sha256) with StoreError "observations name the sha256 of their source" ;;
  raise_if negb (forallb valid_sample samples) with StoreError "invalid observation" ;;
  _guard "record observations"
    (_ ← _require_healthy;
     _ ← _check_quota env (64 * Z.of_nat (length samples));
     _tx env (λ s, let '(n, s') := foldl (record_one series source_sha256)
                                     ({| new := 0; duplicate := 0; corrected := 0 |}, s) samples in (Ok n, s'))).

Definition time_order (a b : Z * f64 * Z) : bool := a.1.1 <=? b.1.1.

Definition observations_between (series : string) (lo hi : Z) (s : store) : list (Z * f64 * Z) :=
  sort_by time_order ((λ o, (ob_event_time o, ob_value o, ob_received_ms o)) <$>
    filter (λ o, bool_decide (ob_series o = series) && (lo <=? ob_event_time o) && (ob_event_time o <=? hi)) (observations s)).

Definition corrections_of (series : string) (s : store) : list (Z * f64 * Z) :=
  (λ o, (ob_event_time o, ob_value o, ob_received_ms o)) <$>
    filter (λ o, bool_decide (ob_series o = series)) (corrections s).

(** * Checkpoints *)

Definition latest_checkpoint (evidence_key : string) : SE store (option Checkpoint) :=
  _guard "read checkpoint"
    (s ← sget;
     match last (filter (λ c, bool_decide (cr_evidence_key c = evidence_key)) (checkpoints s)) with
     | None => mret None
     | Some c =>
         raise_if negb (cr_schema_version c =? SCHEMA_VERSION)
                  || negb (bool_decide (sha256_hex (cr_payload c) = cr_payload_sha256 c))
           with StoreCorrupt "checkpoint does not match its checksum or schema" ;;
         state ← lift (loads (cr_payload c));
         mret (Some {| c_seq := cr_seq c; c_evidence_key := evidence_key; c_last_outcome_seq := cr_last_outcome_seq c;
                       c_state := state; c_payload_sha256 := cr_payload_sha256 c; c_created_at_ms := cr_created_at_ms c |})
     end).

(** The INSERT, and the DELETE of an epoch's checkpoints beyond the newest [CHECKPOINTS_KEPT]. *)
Definition insert_checkpoint (evidence_key data : string) (last_outcome_seq now : Z) : SE store () :=
  s ← sget;
  let n := checkpoint_seq s + 1 in
  let rows := checkpoints s ++
    [{| cr_seq := n; cr_evidence_key := evidence_key; cr_last_outcome_seq := last_outcome_seq;
        cr_schema_version := SCHEMA_VERSION; cr_payload := data; cr_payload_sha256 := sha256_hex data;
        cr_created_at_ms := now |}] in
  let mine := filter (λ c, bool_decide (cr_evidence_key c = evidence_key)) rows in
  let keep := cr_seq <$> drop (length mine - CHECKPOINTS_KEPT) mine in
  sput (set_checkpoints
    (filter (λ c, negb (bool_decide (cr_evidence_key c = evidence_key)) || bool_decide (cr_seq c ∈ keep)) rows) n s).

Definition write_checkpoint (env : env) (evidence_key : string) (state : json) (last_outcome_seq : Z)
    : SE store Checkpoint :=
  data ← lift (_encode state MAX_CHECKPOINT_BYTES);
  _guard "write checkpoint"
    (_ ← _require_healthy;
     latest ← latest_checkpoint evidence_key;
     let write : SE store Checkpoint :=
       _ ← _check_quota env (Z.of_nat (String.length data));
       _ ← _tx env (insert_checkpoint evidence_key data last_outcome_seq (e_now env));
       c ← latest_checkpoint evidence_key;
       lift (of_option PyTypeError c) in
     match latest with
     | Some c =>
         raise_if last_outcome_seq <? c_last_outcome_seq c
           with StoreError "a checkpoint cannot go back before the latest one" ;;
         if (c_last_outcome_seq c =? last_outcome_seq) && bool_decide (c_payload_sha256 c = sha256_hex data)
         then mret c else write
     | None => write
     end).

Definition recover (evidence_key : string) (fold : json → Outcome → res json) (initial : json)
    : SE store (json * Z * Z) :=
  cp ← latest_checkpoint evidence_key;
  let '(state, last) := match cp with Some c => (c_state c, c_last_outcome_seq c) | None => (initial, 0) end in
  os ← outcomes_after evidence_key last;
  lift (foldM (λ '(state, _, applied) o, state' ← fold state o; Ok (state', o_seq o, applied + 1)) (state, last, 0) os).

(** * Retention *)

Record compacted := { n_issuances : Z; n_outcomes : Z; n_observations : Z; n_kept : Z }.

Definition compact_nothing : compacted := {| n_issuances := 0; n_outcomes := 0; n_observations := 0; n_kept := 0 |}.

(** The epochs of the old issuances, each with the last outcome its latest verified checkpoint covers. *)
Definition epoch_cover (h : Z) : SE store (list (string * Z)) :=
  s ← sget;
  mapM_se (λ ek, cp ← latest_checkpoint ek; mret (ek, match cp with Some c => c_last_outcome_seq c | None => 0 end))
    (remove_dups (ir_evidence_key <$> filter (λ r, ir_window_end r <? h) (issuances s))).

Definition same_set (a b : list string) : bool :=
  forallb (λ x, bool_decide (x ∈ b)) a && forallb (λ x, bool_decide (x ∈ a)) b.

(** An old issuance goes with its outcomes when every expected model has one and all are covered by the checkpoint. *)
Definition removable (covered : list (string * Z)) (i : Issuance) (outs : list Outcome) : bool :=
  same_set (o_model <$> outs) (i_models i)
  && forallb (λ o, o_seq o <=? or_default 0 (dget (k_evidence_key (i_key i)) covered)) outs.

(** The pass over the old issuances: those that go, by epoch in order of first appearance, and how many stay. *)
Definition gather_gone (covered : list (string * Z)) (os : list Outcome) (acc : list (string * list (Issuance * list Outcome)) * Z)
    (i : Issuance) : list (string * list (Issuance * list Outcome)) * Z :=
  let '(epochs, kept) := acc in
  let outs := filter (λ o, bool_decide (o_issuance_id o = i_issuance_id i)) os in
  if removable covered i outs
  then let ek := k_evidence_key (i_key i) in
       (dset ek (or_default [] (dget ek epochs) ++ [(i, outs)]) epochs, kept)
  else (epochs, kept + 1).

Definition zero64 : string := "0000000000000000000000000000000000000000000000000000000000000000".

Definition count_status (st : string) (outs : list Outcome) : Z :=
  Z.of_nat (length (filter (λ o, bool_decide (o_status o = st)) outs)).

(** One removed issuance on an epoch's retention row: counts, and a link of the digest chain. *)
Definition retire_item (r : retention_row) (item : Issuance * list Outcome) : res retention_row :=
  let '(i, outs) := item in
  link ← canonical_json (JArr [JStr (rt_digest r); JStr (i_issuance_id i); JStr (i_bundle_sha256 i);
                               JArr (JStr <$> i_models i); JArr ((λ o, JStr (o_payload_sha256 o)) <$> outs)]);
  Ok {| rt_through_window_end := rt_through_window_end r; rt_issued := rt_issued r + 1;
        rt_scored := rt_scored r + count_status "scored" outs;
        rt_unscorable := rt_unscorable r + count_status "unscorable" outs; rt_digest := sha256_hex link |}.

Definition retire_epoch (h : Z) (rt : list (string * retention_row)) (ek : string) (items : list (Issuance * list Outcome))
    : res (list (string * retention_row)) :=
  let prev := or_default {| rt_through_window_end := h; rt_issued := 0; rt_scored := 0; rt_unscorable := 0;
                            rt_digest := zero64 |} (dget ek rt) in
  row ← foldM retire_item {| rt_through_window_end := h; rt_issued := rt_issued prev; rt_scored := rt_scored prev;
                             rt_unscorable := rt_unscorable prev; rt_digest := rt_digest prev |} items;
  Ok (dset ek row rt).

(** The body of compaction's transaction. Deleting a row at or above the horizon would be refused by its trigger. *)
Definition compact_tx (h : Z) (covered : list (string * Z)) : SE store compacted :=
  s ← sget;
  gone ← mapM_se _row_to_issuance (filter (λ r, ir_window_end r <? h) (issuances s));
  s ← sget;
  let '(epochs, kept) := foldl (gather_gone covered (outcomes s)) ([], 0) gone in
  rt ← lift (foldM (λ rt '(ek, items), retire_epoch h rt ek items) (retention s) epochs);
  let ids := (λ it, i_issuance_id it.1) <$> concat epochs.*2 in
  let gone_out := filter (λ o, o_issuance_id o ∈ ids) (outcomes s) in
  raise_if existsb (λ o, h <=? o_window_end o) gone_out with StoreError "outcomes are removed by retention only" ;;
  let gone_iss := filter (λ r, ir_issuance_id r ∈ ids) (issuances s) in
  raise_if existsb (λ r, h <=? ir_window_end r) gone_iss with StoreError "issuances are removed by retention only" ;;
  let old o := ob_event_time o <? h - obs_extra s in
  _ ← sput (set_compacted h (filter (λ r, ir_issuance_id r ∉ ids) (issuances s))
              (filter (λ o, o_issuance_id o ∉ ids) (outcomes s)) (filter (λ o, negb (old o)) (observations s)) rt s);
  mret {| n_issuances := Z.of_nat (length gone_iss); n_outcomes := Z.of_nat (length gone_out);
          n_observations := Z.of_nat (length (filter old (observations s))); n_kept := kept |}.

Definition compact (env : env) (now_s : Z) : SE store compacted :=
  _guard "compact"
    (_ ← _require_healthy;
     s ← sget;
     let h := now_s - retention_seconds s in
     if h <=? horizon s then mret compact_nothing else
     covered ← epoch_cover h;
     _tx env (compact_tx h covered)).

Definition retention_summary (evidence_key : string) (s : store) : option retention_row := dget evidence_key (retention s).

(** * Opening and verifying *)

(** A new file. *)
Definition create (id : string) (keep_s observation_s quota cap : Z) : res store :=
  raise_if observation_s - keep_s <? 0
    with StoreError "observations must be kept at least as long as issuances" ;;
  Ok {| store_id := id; retention_seconds := keep_s; obs_extra := observation_s - keep_s;
        quota_bytes := quota; max_bundle_bytes := cap; problem := None; horizon := 0; issuances := []; outcomes := [];
        observations := []; corrections := []; checkpoints := []; retention := []; issuance_seq := 0;
        outcome_seq := 0; checkpoint_seq := 0 |}.

(** Reopening an existing file with the process's own parameters, after SQLite's own check [quick_ok]: the tables stay, the
    mark does not. *)
Definition reopen (id : option string) (keep_s observation_s quota cap : Z) (quick_ok : bool) (s : store) : res store :=
  raise_if observation_s - keep_s <? 0
    with StoreError "observations must be kept at least as long as issuances" ;;
  raise_if negb quick_ok with StoreCorrupt "quick_check" ;;
  raise_if match id with Some i => negb (bool_decide (i = store_id s)) | None => false end
    with StoreCorrupt "the journal belongs to another store identity" ;;
  Ok {| store_id := store_id s; retention_seconds := keep_s; obs_extra := obs_extra s; quota_bytes := quota;
        max_bundle_bytes := cap; problem := None; horizon := horizon s; issuances := issuances s;
        outcomes := outcomes s; observations := observations s; corrections := corrections s;
        checkpoints := checkpoints s; retention := retention s; issuance_seq := issuance_seq s;
        outcome_seq := outcome_seq s; checkpoint_seq := checkpoint_seq s |}.

Definition verify (integrity_ok : bool) : SE store () :=
  _guard "verify"
    (raise_if negb integrity_ok with StoreCorrupt "integrity_check" ;;
     s ← sget;
     _ ← list_issuances None;
     _ ← mapM_se (λ ek, outcomes_after ek 0) (remove_dups (o_evidence_key <$> outcomes s));
     _ ← mapM_se latest_checkpoint (remove_dups (cr_evidence_key <$> checkpoints s));
     mret ()).

(** * Export *)

Definition observation_order (a b : observation_row) : bool :=
  if bool_decide (ob_series a = ob_series b) then ob_event_time a <=? ob_event_time b
  else str_leb (ob_series a) (ob_series b).

Definition observation_cells (o : observation_row) : json :=
  JArr [JStr (ob_series o); JInt (ob_event_time o); JFloat (ob_value o); JInt (ob_received_ms o); JStr (ob_source_sha256 o)].

(** The tables in the order the digest reads them, each with its rows' cells. *)
Definition digest_rows (s : store) : list (string * list json) :=
  [("issuances", (λ r, JArr [JStr (ir_issuance_id r); JStr (ir_key_sha256 r); JStr (ir_bundle_sha256 r);
                             JStr (ir_models r); JInt (ir_committed_at_ms r)]) <$> issuances s);
   ("outcomes", (λ o, JArr [JStr (o_issuance_id o); JStr (o_model o); JStr (o_status o); JStr (o_payload_sha256 o);
                            JInt (o_committed_at_ms o)]) <$> outcomes s);
   ("checkpoints", (λ c, JArr [JStr (cr_evidence_key c); JInt (cr_last_outcome_seq c); JStr (cr_payload_sha256 c);
                               JInt (cr_created_at_ms c)]) <$> checkpoints s);
   ("observation_corrections", observation_cells <$> corrections s);
   ("observations", observation_cells <$> sort_by observation_order (observations s));
   ("retention", (λ '(ek, r), JArr [JStr ek; JInt (rt_through_window_end r); JInt (rt_issued r); JInt (rt_scored r);
                                    JInt (rt_unscorable r); JStr (rt_digest r)])
                   <$> sort_by (λ a b, str_leb a.1 b.1) (retention s))].

Definition journal_digest : SE store string :=
  _guard "digest"
    (s ← sget;
     texts ← lift (mapM_res (λ '(name, rows), ts ← mapM_res canonical_json rows; Ok (name +:+ String.concat EmptyString ts)) (digest_rows s));
     mret (sha256_hex (String.concat EmptyString texts))).

Definition export_manifest : SE store json :=
  s ← sget;
  let count {A} (l : list A) := JInt (Z.of_nat (length l)) in
  digest ← journal_digest;
  mret (JObj [("schema", JStr "forecast-journal-manifest/v1"); ("store_id", JStr (store_id s));
    ("schema_version", JInt SCHEMA_VERSION);
    ("counts", JObj [("issuances", count (issuances s)); ("outcomes", count (outcomes s));
                     ("observations", count (observations s)); ("observation_corrections", count (corrections s));
                     ("checkpoints", count (checkpoints s))]);
    ("journal_sha256", JStr digest)]).
