(* ===== verification/Journal.v ===== *)
(** What the forecast journal of [forecasting/store.py] guarantees: an invariant of every reachable file, the immutability
    of what was committed, the idempotence of issuing, the single terminal outcome, the first receipt of an observation,
    and that recovery folds every outcome exactly once, before and after compaction. The operations are modelled in
    [Store.v]; here they become the steps of a transition system. *)
From stdpp Require Import relations.
From S2P Require Import Prelude Float64 Sha256 Json JsonRoundtrip Identity Store.

(** * Steps that write nothing *)

(** Only the process's mark may change, and never back. *)
Definition same_tables (s s' : store) : Prop := ∃ p, s' = set_problem p s ∧ (problem s ≠ None → p = problem s).

Lemma set_problem_id s : set_problem (problem s) s = s.
Proof. by destruct s. Qed.

Lemma same_refl s : same_tables s s.
Proof. exists (problem s). by rewrite set_problem_id. Qed.

Lemma same_trans s1 s2 s3 : same_tables s1 s2 → same_tables s2 s3 → same_tables s1 s3.
Proof.
  intros (p & -> & Hp) (q & -> & Hq). exists q. split; [done|]. cbn in Hq. intros Hn. rewrite Hq; [by apply Hp|].
  by rewrite Hp.
Qed.

Lemma same_fail why s : same_tables s (_fail why s).
Proof. unfold _fail. destruct (problem s) eqn:E; [apply same_refl|]. exists (Some why). split; [done|congruence]. Qed.

(** [m] only reads. *)
Definition reads {A} (m : SE store A) : Prop := ∀ s, wp m (λ _ s', same_tables s s') s.

Lemma reads_bind {A B} (m : SE store A) (k : A → SE store B) : reads m → (∀ a, reads (k a)) → reads (m ≫= k).
Proof.
  intros Hm Hk s. apply wp_bind. eapply wp_mono; [|apply Hm]. intros [a|e] s1 H; [|done].
  eapply wp_mono; [|apply Hk]. intros ? ? ?. by eapply same_trans.
Qed.
Lemma reads_ret {A} (a : A) : reads (mret a).
Proof. intros s. apply same_refl. Qed.
Lemma reads_throw {A} (e : exn) : reads (A := A) (mthrow e).
Proof. intros s. apply same_refl. Qed.
Lemma reads_lift {A} (r : res A) : reads (lift r).
Proof. intros s. apply same_refl. Qed.
Lemma reads_get : reads sget.
Proof. intros s. apply same_refl. Qed.
Lemma reads_raise_if {A} (c : bool) e (k : SE store A) : reads k → reads (raise_if c with e ;; k).
Proof. intros Hk s. destruct c; [apply same_refl|apply Hk]. Qed.
Lemma reads_guard {A} what (m : SE store A) : reads m → reads (_guard what m).
Proof.
  intros Hm s. specialize (Hm s). unfold wp, _guard in *. destruct (m s) as [[a|e] s']; [done|].
  destruct (unavailable e); [|done]. by eapply same_trans, same_fail.
Qed.
Lemma reads_mapM {A B} (f : A → SE store B) l : (∀ x, reads (f x)) → reads (mapM_se f l).
Proof. intros Hf. induction l; cbn; [apply reads_ret|]. repeat (apply reads_bind; intros); auto using reads_ret. Qed.
Lemma reads_row r : reads (_row_to_issuance r).
Proof.
  intros s. unfold wp, _row_to_issuance. destruct (negb _); [apply same_fail|].
  destruct (stored_models _); [apply same_refl|apply same_fail].
Qed.
Lemma reads_outcome o : reads (_row_to_outcome o).
Proof. intros s. unfold wp, _row_to_outcome. case_bool_decide; [apply same_refl|apply same_fail]. Qed.
Lemma reads_healthy : reads _require_healthy.
Proof. intros s. apply same_refl. Qed.
Lemma reads_quota env n : reads (_check_quota env n).
Proof. intros s. apply same_refl. Qed.
Lemma reads_retired key : reads (_refuse_retired key).
Proof. intros s. apply same_refl. Qed.
Lemma reads_find p : reads (find_issuance p).
Proof. apply reads_bind; [apply reads_get|]. intros s. destruct (List.find p _); auto using reads_bind, reads_row, reads_ret. Qed.

Create HintDb reads.
#[export] Hint Resolve reads_bind reads_ret reads_throw reads_lift reads_get reads_raise_if reads_guard reads_mapM reads_row
  reads_outcome reads_healthy reads_quota reads_retired reads_find : reads.

(** Walks through a computation that only reads. *)
Ltac reads :=
  repeat first
    [ progress intros
    | apply reads_guard | apply reads_bind | apply reads_raise_if | apply reads_mapM
    | solve [auto 2 with reads]
    | match goal with |- reads (match ?x with _ => _ end) => destruct x end ].

Lemma reads_get_issuance key : reads (get_issuance key).
Proof. unfold get_issuance. reads. Qed.
Lemma reads_get_issuance_by_id id : reads (get_issuance_by_id id).
Proof. unfold get_issuance_by_id. reads. Qed.
Lemma reads_open ek m t : reads (open_issuances ek m t).
Proof. unfold open_issuances. reads. Qed.
Lemma reads_issuances_after ek n : reads (issuances_after ek n).
Proof. unfold issuances_after. reads. Qed.
Lemma reads_outcomes_after ek n : reads (outcomes_after ek n).
Proof. unfold outcomes_after. reads. Qed.
Lemma reads_latest_checkpoint ek : reads (latest_checkpoint ek).
Proof. unfold latest_checkpoint. reads. Qed.
Lemma reads_list_issuances ek : reads (list_issuances ek).
Proof. unfold list_issuances. reads. Qed.
Lemma reads_digest : reads journal_digest.
Proof. unfold journal_digest. reads. Qed.
#[export] Hint Resolve reads_list_issuances reads_digest reads_get_issuance reads_get_issuance_by_id reads_open reads_issuances_after reads_outcomes_after
  reads_latest_checkpoint : reads.
Lemma reads_recover ek fold init : reads (recover ek fold init).
Proof. unfold recover. reads. Qed.
Lemma reads_epoch_cover h : reads (epoch_cover h).
Proof. unfold epoch_cover. reads. Qed.
Lemma reads_manifest : reads export_manifest.
Proof. unfold export_manifest. reads. Qed.
Lemma reads_verify ok : reads (verify ok).
Proof. unfold verify. reads. Qed.
#[export] Hint Resolve reads_recover reads_epoch_cover reads_verify : reads.

(** * What a read returns *)

(** The record a row stands for, when the row is sound. *)
Record decodes (r : issuance_row) (i : Issuance) : Prop := {
  de_key : mk_key (ir_evidence_key r) (ir_decision_origin r) (ir_window_start r) (ir_window_end r)
             (ir_settings_sha256 r) = Ok (i_key i);
  de_models : stored_models (ir_models r) = Ok (i_models i);
  de_sha : sha256_hex (ir_bundle r) = ir_bundle_sha256 r;
  de_seq : i_seq i = ir_seq r;
  de_id : i_issuance_id i = ir_issuance_id r;
  de_bundle : i_bundle i = ir_bundle r;
  de_bundle_sha : i_bundle_sha256 i = ir_bundle_sha256 r;
  de_at : i_committed_at_ms i = ir_committed_at_ms r;
}.

Lemma row_decodes r s i s' : _row_to_issuance r s = (Ok i, s') → decodes r i ∧ s' = s.
Proof.
  unfold _row_to_issuance. case_bool_decide as E; cbn [negb]; [|discriminate].
  destruct (stored_models (ir_models r)) eqn:Em; [|discriminate]. intros [= H <-]. ok_inv H. subst i. done.
Qed.

Lemma decodes_row r i s : decodes r i → _row_to_issuance r s = (Ok i, s).
Proof.
  destruct i. intros []. unfold _row_to_issuance. rewrite bool_decide_true by done. cbn in *. subst.
  by rewrite de_models0, de_key0.
Qed.

Lemma mk_key_fields ek o ws we ss k : mk_key ek o ws we ss = Ok k →
  k = {| k_evidence_key := ek; k_decision_origin := o; k_window_start := ws; k_window_end := we; k_settings_sha256 := ss |}
  ∧ ws = o ∧ 0 ≤ o < we.
Proof. unfold mk_key. intros H. ok_inv H. bool_prop. subst. split_and!; [done|done|lia|lia]. Qed.

Lemma decodes_window_end r i : decodes r i → k_window_end (i_key i) = ir_window_end r ∧ k_evidence_key (i_key i) = ir_evidence_key r.
Proof. intros []. apply mk_key_fields in de_key0 as (-> & _). done. Qed.

Lemma guard_ok {A} what (m : SE store A) s a s' : _guard what m s = (Ok a, s') → m s = (Ok a, s').
Proof. unfold _guard. destruct (m s) as [[?|?] ?]; [done|discriminate]. Qed.

Lemma find_issuance_ok p s o s' : find_issuance p s = (Ok o, s') →
  s' = s ∧ match o with
           | Some i => ∃ r, List.find p (issuances s) = Some r ∧ decodes r i
           | None => List.find p (issuances s) = None
           end.
Proof.
  unfold find_issuance. intros H. ok_inv H. match goal with E : sget _ = _ |- _ => injection E as <- <- end.
  destruct (List.find p (issuances s)) as [r|].
  - ok_inv H. injection H as <- <-. match goal with E : _row_to_issuance _ _ = _ |- _ => apply row_decodes in E as [? ->] end. eauto.
  - injection H as <- <-. done.
Qed.

Lemma find_issuance_decodes p s r i : List.find p (issuances s) = Some r → decodes r i → find_issuance p s = (Ok (Some i), s).
Proof. intros Hf Hd. unfold find_issuance, mbind, se_bind, sget. rewrite Hf. by rewrite (decodes_row r i s Hd). Qed.

Lemma get_issuance_ok key s o s' : get_issuance key s = (Ok o, s') →
  ∃ k, key_sha256 key = Ok k ∧ s' = s ∧ match o with
    | Some i => ∃ r, List.find (λ r, bool_decide (ir_key_sha256 r = k)) (issuances s) = Some r ∧ decodes r i
    | None => List.find (λ r, bool_decide (ir_key_sha256 r = k)) (issuances s) = None
    end.
Proof.
  unfold get_issuance. intros H%guard_ok. ok_inv H. lift_inv.
  apply find_issuance_ok in H as [-> H]. eauto.
Qed.

Lemma get_by_id_ok id s i s' : get_issuance_by_id id s = (Ok (Some i), s') →
  s' = s ∧ ∃ r, r ∈ issuances s ∧ ir_issuance_id r = id ∧ decodes r i.
Proof.
  unfold get_issuance_by_id. intros H%guard_ok. apply find_issuance_ok in H as (-> & r & Hf & Hd). split; [done|].
  apply List.find_some in Hf as [Hin Hp]. exists r. split_and!; [by apply list_elem_of_In|by bool_prop|done].
Qed.

(** * The writes *)

Definition key_ok (k : IssuanceKey) : Prop :=
  mk_key (k_evidence_key k) (k_decision_origin k) (k_window_start k) (k_window_end k) (k_settings_sha256 k) = Ok k.

(** A checkpoint never goes back before an earlier one of its epoch. *)
Definition not_behind (ek : string) (n : Z) (s : store) : Prop :=
  ∀ c, last (filter (λ c, bool_decide (cr_evidence_key c = ek)) (checkpoints s)) = Some c → cr_last_outcome_seq c ≤ n.

(** How an operation may change the file: it marks the process, or commits one transaction. *)
Inductive change (s s' : store) : Prop :=
| ch_mark : same_tables s s' → change s s'
| ch_issuance id k key bundle text models now :
    key_ok key → key_sha256 key = Ok k → issuance_id_for (store_id s) key = Ok id → stored_models text = Ok models →
    insert_issuance id k key bundle text now s = (Ok (), s') → change s s'
| ch_outcome r i model status data now :
    r ∈ issuances s → decodes r i → model ∈ i_models i → status ∈ OUTCOME_STATUSES → ir_window_end r * 1000 ≤ now →
    insert_outcome i model status data now s = (Ok (), s') → change s s'
| ch_observations series samples source :
    Forall (λ x, valid_sample x = true) samples →
    s' = (foldl (record_one series source) ({| new := 0; duplicate := 0; corrected := 0 |}, s) samples).2 → change s s'
| ch_checkpoint ek data last_seq now j :
    loads data = Ok j → not_behind ek last_seq s → insert_checkpoint ek data last_seq now s = (Ok (), s') → change s s'
| ch_compact h covered c : horizon s < h → compact_tx h covered s = (Ok c, s') → change s s'
| ch_reopen id keep obs quota cap : reopen id keep obs quota cap true s = Ok s' → change s s'.

Definition evolves : store → store → Prop := rtc change.

Lemma evolves_mark s s' : same_tables s s' → evolves s s'.
Proof. intros H. by apply rtc_once, ch_mark. Qed.

Lemma wp_reads {A} (m : SE store A) (Q : res A → store → Prop) s :
  reads m → (∀ r s', same_tables s s' → m s = (r, s') → Q r s') → wp m Q s.
Proof. intros Hm HQ. specialize (Hm s). unfold wp in *. destruct (m s) as [r s'] eqn:E. by apply HQ. Qed.

Lemma wp_guard {A} what (m : SE store A) s0 s : wp m (λ _ s', evolves s0 s') s → wp (_guard what m) (λ _ s', evolves s0 s') s.
Proof.
  unfold wp, _guard. destruct (m s) as [[a|e] s']; [done|]. intros H. destruct (unavailable e); [|done].
  eapply rtc_r; [exact H|]. apply ch_mark, same_fail.
Qed.

Lemma wp_tx {A} env (body : SE store A) s :
  (∀ r s', body s = (r, s') → match r with Ok _ => change s s' | Raise _ => same_tables s s' end) →
  wp (_tx env body) (λ r s', match r with Ok _ => change s s' ∧ body s = (r, s') | Raise _ => same_tables s s' end) s.
Proof.
  intros H. unfold wp, _tx. destruct (e_sql env); [apply same_refl|].
  destruct (body s) as [[a|e] s'] eqn:E; [by split; [apply (H _ _ eq_refl)|]|].
  destruct (H _ _ eq_refl) as (p & -> & Hp). cbn. by exists p.
Qed.

(** * Every operation evolves the file *)

Lemma sorted_models l : StronglySorted (λ a b, str_leb a b = true) (sort_by str_leb l).
Proof.
  apply (sort_by_sorted str_leb (λ _, True)); [intros; apply str_leb_total|intros; by eapply str_leb_trans|].
  by apply Forall_forall.
Qed.

Lemma remove_dups_id (l : list string) : NoDup l → remove_dups l = l.
Proof. induction 1; cbn; [done|]. case_decide; [done|]. by f_equal. Qed.

Lemma models_idem l e : _models l = Ok e → _models e = Ok e.
Proof.
  unfold _models. intros H. ok_inv H. bool_prop. subst e. set (e := sort_by str_leb (remove_dups l)) in *.
  assert (NoDup e) as Hnd by (unfold e; rewrite sort_by_perm; apply NoDup_remove_dups).
  assert (remove_dups e = e) as -> by (by apply remove_dups_id).
  rewrite (sort_by_id str_leb e) by apply sorted_models. rewrite Nat.eqb_refl.
  by rewrite H3, H1, (proj2 (Z.ltb_ge _ _) H2).
Qed.

Lemma stored_models_text l e t : _models l = Ok e → canonical_json (JArr (JStr <$> e)) = Ok t → stored_models t = Ok e.
Proof.
  intros Hm Ht. unfold stored_models.
  rewrite (loads_canonical_json (JArr (JStr <$> e)) t); [|apply dk_arr, Forall_forall; intros ? (? & -> & _)%list_elem_of_fmap; constructor|done].
  cbn [norm mbind res_bind].
  assert (norm <$> (JStr <$> e) = JStr <$> e) as -> by (rewrite <-list_fmap_compose; by apply list_fmap_ext).
  assert (mapM_res (λ v, match v with JStr m => Ok m | _ => Raise (StoreError "models must be names") end) (JStr <$> e) = Ok e) as ->.
  { clear. induction e as [|x e IH]; [done|]. cbn in *. by rewrite IH. }
  cbn. by eapply models_idem.
Qed.

(** A transaction after a prefix that only read. *)
Lemma evolves_tx {A B} env (body : SE store A) (k : A → SE store B) s0 s :
  same_tables s0 s →
  (∀ r s', body s = (r, s') → match r with Ok _ => change s s' | Raise _ => same_tables s s' end) →
  (∀ a, reads (k a)) →
  wp (_tx env body ≫= k) (λ _ s', evolves s0 s') s.
Proof.
  intros H0 Hb Hk. apply wp_bind. eapply wp_mono; [|by apply wp_tx]. intros [a|e] s1.
  - intros [Hc _]. eapply wp_mono; [|apply Hk]. intros ? s2 H2.
    eapply rtc_l; [apply ch_mark, H0|]. eapply rtc_l; [exact Hc|]. by apply evolves_mark.
  - intros H1. apply evolves_mark. by eapply same_trans.
Qed.

Lemma evolves_tx_last {A} env (body : SE store A) s0 s :
  same_tables s0 s →
  (∀ r s', body s = (r, s') → match r with Ok _ => change s s' | Raise _ => same_tables s s' end) →
  wp (_tx env body) (λ _ s', evolves s0 s') s.
Proof.
  intros H0 Hb. eapply wp_mono; [|by apply wp_tx]. intros [a|e] s1.
  - intros [Hc _]. eapply rtc_l; [apply ch_mark, H0|]. by apply rtc_once.
  - intros H1. apply evolves_mark. by eapply same_trans.
Qed.

(** Steps over a prefix that only reads, keeping the equation of what it returned. *)
Lemma wp_bind_reads {A B} (m : SE store A) (k : A → SE store B) s0 s :
  same_tables s0 s → reads m →
  (∀ a s1, m s = (Ok a, s1) → same_tables s0 s1 → wp (k a) (λ _ s', evolves s0 s') s1) →
  wp (m ≫= k) (λ _ s', evolves s0 s') s.
Proof.
  intros H0 Hm Hk. apply wp_bind, wp_reads; [done|]. intros [a|e] s1 H1 E.
  - apply Hk; [done|]. by eapply same_trans.
  - apply evolves_mark. by eapply same_trans.
Qed.

Lemma wp_reads_evolves {A} (m : SE store A) s0 s : same_tables s0 s → reads m → wp m (λ _ s', evolves s0 s') s.
Proof. intros H0 Hm. apply wp_reads; [done|]. intros ? s1 H1 ?. apply evolves_mark. by eapply same_trans. Qed.

Lemma wp_raise_evolves {A} (c : bool) (e : exn) (k : SE store A) s0 s :
  same_tables s0 s → (c = false → wp k (λ _ s', evolves s0 s') s) → wp (raise_if c with e ;; k) (λ _ s', evolves s0 s') s.
Proof. intros H0 Hk. apply wp_raise_if; [|done]. intros _. by apply evolves_mark. Qed.

(** Takes one reading step of an operation. *)
Ltac rstep :=
  match goal with
  | |- wp (_guard _ _) _ _ => apply wp_guard
  | |- wp (if _ then mthrow _ else _) _ _ => apply wp_raise_evolves; [by eauto using same_refl, same_trans|intros ?]
  | |- wp (mbind ?k ?m) _ _ =>
      apply (wp_bind_reads m k); [by eauto using same_refl, same_trans|solve [auto 3 with reads; reads]|intros ? ? ? ?]
  end.

Lemma same_horizon s s' : same_tables s s' → store_id s' = store_id s ∧ horizon s' = horizon s ∧ issuances s' = issuances s ∧
  outcomes s' = outcomes s ∧ observations s' = observations s ∧ corrections s' = corrections s ∧ checkpoints s' = checkpoints s ∧
  retention s' = retention s ∧ issuance_seq s' = issuance_seq s ∧ outcome_seq s' = outcome_seq s ∧
  checkpoint_seq s' = checkpoint_seq s ∧ retention_seconds s' = retention_seconds s.
Proof. intros (p & -> & _). done. Qed.

Lemma insert_issuance_result id k key bundle text now s r s' :
  insert_issuance id k key bundle text now s = (r, s') → match r with Ok _ => True | Raise _ => s' = s end.
Proof.
  unfold insert_issuance, mbind, se_bind, sget, sput, mthrow, se_throw. intros H. repeat case_match; by simplify_eq.
Qed.

Lemma wp_evolves_from {A} (m : SE store A) s0 s :
  same_tables s0 s → wp m (λ _ s', evolves s s') s → wp m (λ _ s', evolves s0 s') s.
Proof. intros H0. apply wp_mono. intros _ s' H. eapply rtc_l; [by apply ch_mark|done]. Qed.

Lemma commit_issuance_evolves env key payload models s :
  key_ok key → wp (commit_issuance env key payload models) (λ _ s', evolves s s') s.
Proof.
  intros Hkey. unfold commit_issuance. do 7 rstep. lift_inv.
  match goal with E : sget _ = _ |- _ => injection E as <- <- end.
  destruct a4 as [i|]; [apply wp_reads_evolves; [done|reads]|].
  do 4 rstep. lift_inv. eapply evolves_tx; [done| |intros; reads].
  intros r s' Hi. pose proof (insert_issuance_result _ _ _ _ _ _ _ _ _ Hi) as Hr.
  destruct r as [[]|e]; [|subst; apply same_refl].
  match goal with E : issuance_id_for _ _ = Ok _ |- _ => rename E into Hid end.
  eapply ch_issuance; [exact Hkey|eassumption| |by eapply stored_models_text|exact Hi].
  match goal with |- issuance_id_for (store_id ?x) _ = _ => replace (store_id x) with (store_id s) end; [done|].
  symmetry. eapply same_horizon. eauto using same_trans.
Qed.

Lemma get_or_issue_evolves env key build models s :
  key_ok key → wp (get_or_issue env key build models) (λ _ s', evolves s s') s.
Proof.
  intros Hkey. unfold get_or_issue. do 3 rstep.
  match goal with |- wp (match ?o with _ => _ end) _ _ => destruct o as [i|] end; [apply wp_reads_evolves; [done|reads]|].
  do 4 rstep. eapply wp_evolves_from; [eassumption|]. by apply commit_issuance_evolves.
Qed.

Lemma insert_outcome_result i model status data now s r s' :
  insert_outcome i model status data now s = (r, s') → match r with Ok _ => True | Raise _ => s' = s end.
Proof.
  unfold insert_outcome, mbind, se_bind, sget, sput, mthrow, se_throw. intros H. repeat case_match; by simplify_eq.
Qed.

Lemma commit_outcome_evolves env id model status payload s :
  wp (commit_outcome env id model status payload) (λ _ s', evolves s s') s.
Proof.
  unfold commit_outcome. do 6 rstep. bool_prop.
  match goal with E : sget _ = _ |- _ => injection E as <- <- end.
  match goal with |- wp (match ?o with _ => _ end) _ _ => destruct o end; [apply wp_reads_evolves; [done|reads]|].
  rstep. match goal with |- wp (match ?o with _ => _ end) _ _ => destruct o as [iss|] end; [|by apply evolves_mark].
  match goal with E : get_issuance_by_id _ _ = _ |- _ => apply get_by_id_ok in E as (-> & row & Hrow & _ & Hd) end.
  do 3 rstep. bool_prop. eapply evolves_tx; [done| |intros; reads].
  intros r s' Hi. pose proof (insert_outcome_result _ _ _ _ _ _ _ _ Hi) as Hr.
  destruct r as [[]|e]; [|subst; apply same_refl].
  destruct (decodes_window_end _ _ Hd) as [Hwe _].
  eapply ch_outcome; [|exact Hd|done|eassumption| |exact Hi].
  - match goal with E : _check_quota _ _ _ = _ |- _ => injection E as _ <- end. done.
  - rewrite <-Hwe. done.
Qed.

Lemma record_observations_evolves env series samples source s :
  wp (record_observations env series samples source) (λ _ s', evolves s s') s.
Proof.
  unfold record_observations. do 5 rstep. bool_prop.
  eapply evolves_tx_last; [done|]. intros r s' Hb.
  destruct (foldl _ _ samples) as [n s1'] eqn:E. injection Hb as <- <-.
  eapply (ch_observations _ _ series samples source); [|by rewrite E].
  apply Forall_forall. intros x Hx. match goal with F : forallb _ _ = true |- _ => rewrite forallb_forall in F; apply F end.
  by apply list_elem_of_In.
Qed.

Lemma latest_checkpoint_ok ek s o s' : latest_checkpoint ek s = (Ok o, s') → s' = s ∧
  match last (filter (λ c, bool_decide (cr_evidence_key c = ek)) (checkpoints s)) with
  | None => o = None
  | Some c => ∃ j, loads (cr_payload c) = Ok j ∧ sha256_hex (cr_payload c) = cr_payload_sha256 c ∧
      o = Some {| c_seq := cr_seq c; c_evidence_key := ek; c_last_outcome_seq := cr_last_outcome_seq c; c_state := j;
                  c_payload_sha256 := cr_payload_sha256 c; c_created_at_ms := cr_created_at_ms c |}
  end.
Proof.
  unfold latest_checkpoint. intros H%guard_ok. ok_inv H. match goal with E : sget _ = _ |- _ => injection E as <- <- end.
  destruct (last _) as [c|]; [|injection H as <- <-; done].
  ok_inv H. lift_inv. bool_prop. injection H as <- <-. split; [done|]. eauto.
Qed.

Lemma encode_loads payload cap data : _encode payload cap = Ok data → distinct_keys payload → loads data = Ok (norm payload).
Proof.
  unfold _encode. destruct payload; try discriminate. destruct (canonical_json _) eqn:E; [|discriminate]. intros H Hk.
  ok_inv H. subst. by apply loads_canonical_json.
Qed.

Lemma write_checkpoint_evolves env ek state n s :
  distinct_keys state → wp (write_checkpoint env ek state n) (λ _ s', evolves s s') s.
Proof.
  intros Hk. unfold write_checkpoint. do 4 rstep. lift_inv.
  match goal with E : _encode _ _ = Ok _ |- _ => pose proof (encode_loads _ _ _ E Hk) as Hj end.
  match goal with E : latest_checkpoint _ _ = _ |- _ => apply latest_checkpoint_ok in E as [-> Hl] end.
  match goal with E : _require_healthy _ = _ |- _ => injection E as _ <- end.
  match goal with |- context [mbind ?f (_check_quota env ?q)] =>
    assert (not_behind ek n s → wp (mbind f (_check_quota env q)) (λ _ s', evolves s s') s) as Hw end.
  { intros Hnb. rstep. match goal with E : _check_quota _ _ _ = _ |- _ => injection E as _ <- end.
    eapply evolves_tx; [done| |intros; reads]. intros r s' Hi.
    assert (r = Ok ()) as -> by (unfold insert_checkpoint, mbind, se_bind, sget, sput in Hi; by injection Hi as <- _).
    by eapply (ch_checkpoint _ _ ek). }
  destruct (last _) as [c|] eqn:El.
  - destruct Hl as (j & _ & _ & ->). rstep. bool_prop. cbn [c_last_outcome_seq] in *.
    destruct (_ && _); [by apply evolves_mark|]. apply Hw. intros c'. rewrite El. by intros [= <-].
  - subst. apply Hw. intros c'. by rewrite El.
Qed.

Lemma compact_tx_raise h covered s r s' :
  compact_tx h covered s = (r, s') → match r with Ok _ => True | Raise _ => same_tables s s' end.
Proof.
  intros E. refine (wp_run _ (λ r s', match r with Ok _ => True | Raise _ => same_tables s s' end) _ _ _ _ E). clear E r s'.
  unfold compact_tx. apply wp_bind, wp_get. apply wp_bind, wp_reads; [reads|]. intros [gone|e] s1 Hs _; [|done].
  apply wp_bind, wp_get. destruct (foldl _ _ gone) as [epochs kept]. apply wp_bind, wp_lift.
  destruct (foldM _ _ epochs) as [rt|e]; [|done]. apply wp_raise_if; [done|intros _].
  apply wp_raise_if; [done|intros _]. apply wp_bind, wp_put. done.
Qed.

Lemma compact_evolves env now_s s : wp (compact env now_s) (λ _ s', evolves s s') s.
Proof.
  unfold compact. do 3 rstep. match goal with E : sget _ = _ |- _ => injection E as <- <- end.
  match goal with E : _require_healthy _ = _ |- _ => injection E as _ <- end.
  destruct (Z.leb_spec (now_s - retention_seconds s) (horizon s)); [by apply evolves_mark|].
  rstep. eapply evolves_tx_last; [done|]. intros r s' Hc. pose proof (compact_tx_raise _ _ _ _ _ Hc).
  destruct r as [c|e]; [|done]. eapply ch_compact; [|exact Hc].
  match goal with E : same_tables s s1 |- _ => destruct (same_horizon _ _ E) as (_ & -> & _) end. done.
Qed.

(** The journal as a transition system: a public operation, whatever it meets and whatever it answers. *)
Inductive step (s s' : store) : Prop :=
| st_commit_issuance env key payload models r : key_ok key → commit_issuance env key payload models s = (r, s') → step s s'
| st_get_or_issue env key build models r : key_ok key → get_or_issue env key build models s = (r, s') → step s s'
| st_commit_outcome env id model status payload r : commit_outcome env id model status payload s = (r, s') → step s s'
| st_record env series samples source r : record_observations env series samples source s = (r, s') → step s s'
| st_checkpoint env ek state n r : distinct_keys state → write_checkpoint env ek state n s = (r, s') → step s s'
| st_compact env now_s r : compact env now_s s = (r, s') → step s s'
| st_read {A} (m : SE store A) r : reads m → m s = (r, s') → step s s'
| st_reopen id keep obs quota cap : reopen id keep obs quota cap true s = Ok s' → step s s'.

Lemma step_evolves s s' : step s s' → evolves s s'.
Proof.
  intros [env key payload models r Hk E|env key build models r Hk E|env id model status payload r E
         |env series samples source r E|env ek state n r Hk E|env now_s r E|A m r Hm E|id keep obs quota cap E].
  - exact (wp_run _ _ _ _ _ (commit_issuance_evolves env key payload models s Hk) E).
  - exact (wp_run _ _ _ _ _ (get_or_issue_evolves env key build models s Hk) E).
  - exact (wp_run _ _ _ _ _ (commit_outcome_evolves env id model status payload s) E).
  - exact (wp_run _ _ _ _ _ (record_observations_evolves env series samples source s) E).
  - exact (wp_run _ _ _ _ _ (write_checkpoint_evolves env ek state n s Hk) E).
  - exact (wp_run _ _ _ _ _ (compact_evolves env now_s s) E).
  - apply evolves_mark. exact (wp_run _ _ _ _ _ (Hm s) E).
  - apply rtc_once. by eapply ch_reopen.
Qed.

Lemma steps_evolve s s' : rtc step s s' → evolves s s'.
Proof. induction 1; [apply rtc_refl|]. etrans; [by apply step_evolves|done]. Qed.

(** * The invariant *)

Definition row_ok (s : store) (r : issuance_row) : Prop :=
  (∃ i, decodes r i ∧ key_sha256 (i_key i) = Ok (ir_key_sha256 r) ∧
        issuance_id_for (store_id s) (i_key i) = Ok (ir_issuance_id r)) ∧ ir_seq r ≤ issuance_seq s.

Definition outcome_ok (s : store) (o : Outcome) : Prop :=
  sha256_hex (o_payload_bytes o) = o_payload_sha256 o ∧ o_status o ∈ OUTCOME_STATUSES ∧ o_seq o ≤ outcome_seq s ∧
  ∃ r i, r ∈ issuances s ∧ decodes r i ∧ ir_issuance_id r = o_issuance_id o ∧ ir_evidence_key r = o_evidence_key o ∧
         ir_window_end r = o_window_end o ∧ o_model o ∈ i_models i ∧ o_window_end o * 1000 ≤ o_committed_at_ms o.

Definition observation_ok (o : observation_row) : Prop := (f0 ≤ᶠ ob_value o) = true ∧ is_finite (ob_value o) = true.

Definition checkpoint_ok (s : store) (c : checkpoint_row) : Prop :=
  cr_seq c ≤ checkpoint_seq s ∧ cr_schema_version c = SCHEMA_VERSION ∧
  sha256_hex (cr_payload c) = cr_payload_sha256 c ∧ ∃ j, loads (cr_payload c) = Ok j.

Record journal_ok (s : store) : Prop := {
  jo_rows : Forall (row_ok s) (issuances s);
  jo_seqs : StronglySorted Z.lt (ir_seq <$> issuances s);
  jo_ids : NoDup (ir_issuance_id <$> issuances s);
  jo_keys : NoDup (ir_key_sha256 <$> issuances s);
  jo_outs : Forall (outcome_ok s) (outcomes s);
  jo_out_seqs : StronglySorted Z.lt (o_seq <$> outcomes s);
  jo_out_one : NoDup ((λ o, (o_issuance_id o, o_model o)) <$> outcomes s);
  jo_obs : NoDup ((λ o, (ob_series o, ob_event_time o)) <$> observations s);
  jo_obs_ok : Forall observation_ok (observations s);
  jo_cps : Forall (checkpoint_ok s) (checkpoints s);
  jo_cp_seqs : StronglySorted Z.lt (cr_seq <$> checkpoints s);
}.

Lemma create_ok id keep obs quota cap s : create id keep obs quota cap = Ok s → journal_ok s.
Proof. unfold create. intros H. ok_inv H. subst. split; cbn; constructor. Qed.

Lemma ok_same s s' : same_tables s s' → journal_ok s → journal_ok s'.
Proof. intros (p & -> & _) []. by split. Qed.

Lemma ok_reopen id keep obs quota cap s s' : reopen id keep obs quota cap true s = Ok s' → journal_ok s → journal_ok s'.
Proof. unfold reopen. intros H. ok_inv H. subst. intros []. by split. Qed.

(** What a successful INSERT did. *)
Lemma insert_issuance_inv id k key bundle text now s s' :
  insert_issuance id k key bundle text now s = (Ok (), s') →
  (∀ r, r ∈ issuances s → ir_issuance_id r ≠ id ∧ ir_key_sha256 r ≠ k) ∧ horizon s ≤ k_window_end key ∧
  s' = set_issuances (issuances s ++
    [{| ir_seq := issuance_seq s + 1; ir_issuance_id := id; ir_key_sha256 := k; ir_evidence_key := k_evidence_key key;
        ir_decision_origin := k_decision_origin key; ir_window_start := k_window_start key;
        ir_window_end := k_window_end key; ir_settings_sha256 := k_settings_sha256 key; ir_bundle := bundle;
        ir_bundle_sha256 := sha256_hex bundle; ir_models := text; ir_committed_at_ms := now |}]) (issuance_seq s + 1) s.
Proof.
  unfold insert_issuance. intros H. ok_inv H. match goal with E : sget _ = _ |- _ => injection E as <- <- end.
  ok_inv H. injection H as <-. bool_prop. split_and!; [|done|done].
  intros r Hr. match goal with E : existsb _ _ = false |- _ => rewrite existsb_false in E; specialize (E r Hr) end.
  bool_prop. done.
Qed.

Lemma ok_issuance s s' id k key bundle text models now :
  key_ok key → key_sha256 key = Ok k → issuance_id_for (store_id s) key = Ok id → stored_models text = Ok models →
  insert_issuance id k key bundle text now s = (Ok (), s') → journal_ok s → journal_ok s'.
Proof.
  intros Hkey Hk Hid Hm H []. apply insert_issuance_inv in H as (Hnew & _ & ->).
  split; cbn [issuances outcomes observations checkpoints set_issuances]; try done.
  - apply Forall_app. split.
    + eapply Forall_impl; [exact jo_rows0|]. intros r [Hr ?]. split; [exact Hr|cbn; lia].
    + apply Forall_singleton. split; [|cbn; lia].
      exists {| i_seq := issuance_seq s + 1; i_issuance_id := id; i_key := key; i_bundle := bundle;
                i_bundle_sha256 := sha256_hex bundle; i_models := models; i_committed_at_ms := now |}.
      by split; [split|].
  - rewrite fmap_app. apply SS_snoc; [done|]. apply Forall_fmap. eapply Forall_impl; [exact jo_rows0|].
    intros r [_ ?]. cbn. lia.
  - rewrite fmap_app. apply NoDup_snoc; [done|]. intros (r & E & Hr)%list_elem_of_fmap. by destruct (Hnew r Hr).
  - rewrite fmap_app. apply NoDup_snoc; [done|]. intros (r & E & Hr)%list_elem_of_fmap. by destruct (Hnew r Hr).
  - eapply Forall_impl; [exact jo_outs0|]. intros o (? & ? & ? & r & i & Hr & ?). split_and!; try done.
    exists r, i. split; [|done]. cbn. apply elem_of_app. by left.
Qed.

Lemma insert_outcome_inv i model status data now s s' :
  insert_outcome i model status data now s = (Ok (), s') →
  (∀ o, o ∈ outcomes s → is_outcome_of (i_issuance_id i) model o = false) ∧
  s' = set_outcomes (outcomes s ++
    [{| o_seq := outcome_seq s + 1; o_issuance_id := i_issuance_id i; o_evidence_key := k_evidence_key (i_key i);
        o_window_end := k_window_end (i_key i); o_model := model; o_status := status; o_payload_bytes := data;
        o_payload_sha256 := sha256_hex data; o_committed_at_ms := now |}]) (outcome_seq s + 1) s.
Proof.
  unfold insert_outcome. intros H. ok_inv H. match goal with E : sget _ = _ |- _ => injection E as <- <- end.
  ok_inv H. injection H as <-. bool_prop. split; [|done]. by apply existsb_false.
Qed.

Lemma ok_outcome s s' r i model status data now :
  r ∈ issuances s → decodes r i → model ∈ i_models i → status ∈ OUTCOME_STATUSES → ir_window_end r * 1000 ≤ now →
  insert_outcome i model status data now s = (Ok (), s') → journal_ok s → journal_ok s'.
Proof.
  intros Hr Hd Hm Hst Hnow H []. apply insert_outcome_inv in H as (Hnew & ->). destruct (decodes_window_end _ _ Hd) as [Hwe Hek].
  split; cbn [issuances outcomes observations checkpoints set_outcomes]; try done.
  - apply Forall_app. split.
    + eapply Forall_impl; [exact jo_outs0|]. intros o (? & ? & ? & ?). split_and!; try done. cbn. lia.
    + apply Forall_singleton. split_and!; [done|done|cbn; lia|]. exists r, i. cbn.
      rewrite (de_id _ _ Hd), Hwe, Hek. by split_and!.
  - rewrite fmap_app. apply SS_snoc; [done|]. apply Forall_fmap. eapply Forall_impl; [exact jo_outs0|].
    intros o (_ & _ & ? & _). cbn. lia.
  - rewrite fmap_app. apply NoDup_snoc; [done|]. intros (o & E & Ho)%list_elem_of_fmap. injection E as E1 E2.
    specialize (Hnew o Ho). unfold is_outcome_of in Hnew. rewrite <-E1, <-E2, !bool_decide_true in Hnew by done. done.
Qed.

(** Recording a batch appends first receipts and corrections, and touches nothing else. *)
Lemma record_fold series source samples n s :
  Forall (λ x, valid_sample x = true) samples →
  NoDup ((λ o, (ob_series o, ob_event_time o)) <$> observations s) → Forall observation_ok (observations s) →
  ∃ l c, (foldl (record_one series source) (n, s) samples).2 = set_observations (observations s ++ l) (corrections s ++ c) s ∧
         NoDup ((λ o, (ob_series o, ob_event_time o)) <$> (observations s ++ l)) ∧
         Forall observation_ok (observations s ++ l).
Proof.
  revert n s. induction samples as [|[[ts v] at_ms] t IH]; intros n s Hv Hnd Hok.
  { exists [], []. cbn. rewrite !app_nil_r. split_and!; [by destruct s|done|done]. }
  apply Forall_cons in Hv as [Hx Hv]. cbn [foldl record_one].
  destruct (List.find (is_observation series ts) (observations s)) as [o|] eqn:E.
  - destruct (feq (ob_value o) v); [by apply IH|].
    match goal with |- context [foldl _ (?n', ?s') t] => destruct (IH n' s' Hv Hnd Hok) as (l & c & -> & ? & ?) end.
    cbn in *. exists l. eexists. split; [|done]. cbn. by rewrite <-app_assoc.
  - match goal with |- context [foldl _ (?n', ?s') t] => destruct (IH n' s' Hv) as (l & c & -> & H1 & H2) end.
    + cbn. rewrite fmap_app. apply NoDup_snoc; [done|]. intros (o & Eo & Ho)%list_elem_of_fmap. injection Eo as E1 E2.
      pose proof (proj1 (find_None _ _) E o Ho) as Hf. unfold is_observation in Hf.
      rewrite <-E1, <-E2, bool_decide_true, Z.eqb_refl in Hf by done. done.
    + cbn. apply Forall_app. split; [done|]. apply Forall_singleton. cbn in Hx. bool_prop. split; cbn; done.
    + cbn in *. rewrite <-app_assoc in *. cbn in *. exists ({| ob_series := series; ob_event_time := ts; ob_value := v;
        ob_received_ms := at_ms; ob_source_sha256 := source |} :: l), c. done.
Qed.

Lemma ok_observations s series samples source :
  Forall (λ x, valid_sample x = true) samples → journal_ok s →
  journal_ok (foldl (record_one series source) ({| new := 0; duplicate := 0; corrected := 0 |}, s) samples).2.
Proof.
  intros Hv []. destruct (record_fold series source samples {| new := 0; duplicate := 0; corrected := 0 |} s Hv jo_obs0 jo_obs_ok0)
    as (l & c & -> & ? & ?). by split.
Qed.

Lemma ok_checkpoint s s' ek data n now j :
  loads data = Ok j → insert_checkpoint ek data n now s = (Ok (), s') → journal_ok s → journal_ok s'.
Proof.
  intros Hj H []. unfold insert_checkpoint, mbind, se_bind, sget, sput in H. injection H as <-.
  split; cbn [issuances outcomes observations checkpoints set_checkpoints]; try done.
  - apply Forall_filter. apply Forall_app. split.
    + eapply Forall_impl; [exact jo_cps0|]. intros c (? & ?). split; [cbn; lia|done].
    + apply Forall_singleton. split; [cbn; lia|]. split_and!; eauto.
  - apply SS_fmap_filter. rewrite fmap_app. apply SS_snoc; [done|]. apply Forall_fmap. eapply Forall_impl; [exact jo_cps0|].
    intros c (? & _). cbn. lia.
Qed.

(** * Compaction *)

Lemma mapM_rows l s found s' : mapM_se _row_to_issuance l s = (Ok found, s') → s' = s ∧ Forall2 decodes l found.
Proof.
  revert found s s'. induction l as [|r t IH]; intros found s s' H; cbn in H; [injection H as <- <-; split; [done|constructor]|].
  ok_inv H. injection H as <- <-.
  match goal with E : _row_to_issuance _ _ = _ |- _ => apply row_decodes in E as [? ->] end.
  match goal with E : mapM_se _ _ _ = _ |- _ => apply IH in E as [-> ?] end. split; [done|by constructor].
Qed.

(** What the pass over the old issuances collected. *)
Definition gone_item (covered : list (string * Z)) (os : list Outcome) (gone : list Issuance) (it : Issuance * list Outcome) : Prop :=
  it.1 ∈ gone ∧ it.2 = filter (λ o, bool_decide (o_issuance_id o = i_issuance_id it.1)) os ∧ removable covered it.1 it.2 = true.

Lemma dset_items {V} (P : V → Prop) (k : string) (v : list V) d :
  Forall P (concat d.*2) → Forall P v → Forall P (concat (dset k v d).*2).
Proof.
  induction d as [|[k' v'] t IH]; cbn; intros Hd Hv; [by rewrite app_nil_r|].
  apply Forall_app in Hd as [? ?]. case_decide; cbn; apply Forall_app; auto.
Qed.

Lemma dget_items {V} (P : V → Prop) (k : string) d (v : list V) : Forall P (concat d.*2) → dget k d = Some v → Forall P v.
Proof.
  induction d as [|[k' v'] t IH]; cbn; [done|]. intros [? ?]%Forall_app. case_decide; [by intros [= <-]|auto].
Qed.

Lemma gather_gone_items covered os gone acc l :
  l ⊆ gone → Forall (gone_item covered os gone) (concat acc.1.*2) →
  Forall (gone_item covered os gone) (concat (foldl (gather_gone covered os) acc l).1.*2).
Proof.
  revert acc. induction l as [|i t IH]; intros [epochs kept] Hl Ha; cbn [foldl]; [done|].
  apply IH; [set_solver|]. unfold gather_gone. destruct (removable _ _ _) eqn:E; [|done]. cbn [fst] in *.
  apply dset_items; [done|]. apply Forall_app. split.
  - destruct (dget _ epochs) as [v|] eqn:Ev; [by eapply dget_items|constructor].
  - apply Forall_singleton. split_and!; [apply Hl; left|done|done].
Qed.

Lemma compact_tx_inv h covered s c s' : compact_tx h covered s = (Ok c, s') →
  ∃ (ids : list string) rt, s' = set_compacted h (filter (λ r, ir_issuance_id r ∉ ids) (issuances s))
                  (filter (λ o, o_issuance_id o ∉ ids) (outcomes s))
                  (filter (λ o, negb (ob_event_time o <? h - obs_extra s)) (observations s)) rt s ∧
    (∀ r, r ∈ issuances s → ir_issuance_id r ∈ ids → ir_window_end r < h) ∧
    (∀ id, id ∈ ids → ∃ r i, r ∈ issuances s ∧ decodes r i ∧ ir_issuance_id r = id ∧ ir_window_end r < h ∧
       removable covered i (filter (λ o, bool_decide (o_issuance_id o = id)) (outcomes s)) = true).
Proof.
  unfold compact_tx. intros H. ok_inv H.
  repeat match goal with E : sget _ = _ |- _ => injection E as <- <- end.
  match goal with E : mapM_se _ _ _ = _ |- _ => apply mapM_rows in E as [-> Hd] end.
  destruct (foldl _ _ _) as [epochs kept] eqn:Ef. ok_inv H. lift_inv.
  match goal with E : sput _ _ = _ |- _ => unfold sput in E; simplify_eq end. injection H as _ <-.
  eexists _, _. split; [reflexivity|]. split.
  - intros r Hr Hin. match goal with E : existsb _ (filter _ (issuances _)) = false |- _ => rewrite existsb_false in E; specialize (E r) end.
    bool_prop. match goal with E : _ → (h <=? _) = false |- _ => apply Z.leb_gt, E end. by apply list_elem_of_filter.
  - intros id (it & -> & Hit)%list_elem_of_fmap.
    match type of Hd with Forall2 _ _ ?g => pose proof (gather_gone_items covered (outcomes s) g ([], 0) g ltac:(done) ltac:(constructor)) as Hg end.
    rewrite Ef in Hg. rewrite Forall_forall in Hg. destruct (Hg it Hit) as (Hin & E & Hrm).
    apply list_elem_of_lookup in Hin as [n Hn]. destruct (Forall2_lookup_r _ _ _ _ _ Hd Hn) as (r & Hr & Hdec).
    apply list_elem_of_lookup_2, list_elem_of_filter in Hr as [Hlt Hr]. exists r, it.1.
    split_and!; [done|done|by rewrite (de_id _ _ Hdec)|by apply Is_true_true, Z.ltb_lt in Hlt|by rewrite <-E].
Qed.

Lemma ok_compact s s' h covered c : compact_tx h covered s = (Ok c, s') → journal_ok s → journal_ok s'.
Proof.
  intros H []. apply compact_tx_inv in H as (ids & rt & -> & _ & _).
  split; cbn [issuances outcomes observations checkpoints set_compacted]; try done;
    try (by apply SS_fmap_filter); try (by apply NoDup_fmap_filter); try (by apply Forall_filter).
  apply Forall_forall. intros o [Hn Ho]%list_elem_of_filter. rewrite Forall_forall in jo_outs0.
  destruct (jo_outs0 o Ho) as (? & ? & ? & r & i & Hr & Hd & Hid & ?). split_and!; try done.
  exists r, i. split; [|done]. cbn. apply list_elem_of_filter. by rewrite Hid.
Qed.

Lemma change_ok s s' : change s s' → journal_ok s → journal_ok s'.
Proof.
  intros []; [by apply ok_same|by eapply ok_issuance|by eapply ok_outcome|subst; by apply ok_observations
             |by eapply ok_checkpoint|by eapply ok_compact|by eapply ok_reopen].
Qed.

Lemma evolves_ok s s' : evolves s s' → journal_ok s → journal_ok s'.
Proof. induction 1; [done|]. intros. by eapply IHrtc, change_ok. Qed.

(** C6: Every file the journal's operations can reach from a new one is well formed, whatever failures they met on the
    way: rowids grow, issuance IDs and keys are unique and derive from the store and the key, every record matches its
    checksum, every outcome belongs to a committed issuance that expected its model, with at most one per issuance and
    model, and an event time of a series has one value. *)
Theorem journal_invariant id keep obs quota cap s0 s :
  create id keep obs quota cap = Ok s0 → rtc step s0 s → journal_ok s.
Proof. intros H0 Hs. eapply evolves_ok; [by apply steps_evolve|]. by eapply create_ok. Qed.

(** * A small journal

    One issuance, its outcome, an observation, a checkpoint, and compaction past the window. *)
Definition demo_env : env := {| e_usage := 0; e_now := 2000000; e_sql := None |}.
Definition demo_key : IssuanceKey :=
  {| k_evidence_key := zero64; k_decision_origin := 600; k_window_start := 600; k_window_end := 1200;
     k_settings_sha256 := zero64 |}.
Definition demo_payload : json := JObj [("point", JInt 1)].
Definition demo_fold (_ : json) (o : Outcome) : res json := Ok (JObj [("n", JInt (o_seq o))]).
Definition demo0 : store := or_default {| store_id := EmptyString; retention_seconds := 0; obs_extra := 0; quota_bytes := 0;
  max_bundle_bytes := 0; problem := None; horizon := 0; issuances := []; outcomes := []; observations := [];
  corrections := []; checkpoints := []; retention := []; issuance_seq := 0; outcome_seq := 0; checkpoint_seq := 0 |}
  (match create "demo" 86400 172800 1000000 65536 with Ok s => Some s | Raise _ => None end).
Definition demo1 : store := (commit_issuance demo_env demo_key demo_payload ["lstm"] demo0).2.
Definition demo_id : string := match issuance_id_for "demo" demo_key with Ok id => id | Raise _ => EmptyString end.
Definition demo2 : store := (commit_outcome demo_env demo_id "lstm" "scored" (JObj []) demo1).2.
Definition demo3 : store := (record_observations demo_env "rps" [(600, f0, 600000); (660, f0, 660000)] zero64 demo2).2.
Definition demo4 : store := (write_checkpoint demo_env zero64 (JObj [("n", JInt 1)]) 1 demo3).2.
Definition demo5 : store := (compact demo_env 90000 demo4).2.

Lemma list_one {A} (l : list A) : length l = 1%nat → ∃ x, l = [x].
Proof. destruct l as [|x [|]]; [done| |done]. by exists x. Qed.

Lemma forallb_one {A} (p : A → bool) x : forallb p [x] = true → p x = true.
Proof. cbn. by rewrite andb_true_r. Qed.

Lemma demo_key_ok : key_ok demo_key.
Proof. by vm_compute. Qed.
Lemma demo_created : create "demo" 86400 172800 1000000 65536 = Ok demo0.
Proof. done. Qed.
Lemma step_run {A} (m : SE store A) s : (∀ r s', m s = (r, s') → step s s') → step s (m s).2.
Proof. intros H. eapply H, surjective_pairing. Qed.
Lemma demo_step1 : step demo0 demo1.
Proof. apply step_run. intros r s'. apply st_commit_issuance, demo_key_ok. Qed.
Lemma demo_step2 : step demo1 demo2.
Proof. apply step_run. intros r s'. apply st_commit_outcome. Qed.
Lemma demo_step3 : step demo2 demo3.
Proof. apply step_run. intros r s'. apply st_record. Qed.
Lemma demo_step4 : step demo3 demo4.
Proof. apply step_run. intros r s'. apply st_checkpoint. by apply keys_distinct_ok. Qed.
Lemma demo_step5 : step demo4 demo5.
Proof. apply step_run. intros r s'. apply st_compact. Qed.
Lemma demo_ok s : evolves demo0 s → journal_ok s.
Proof. intros H. eapply evolves_ok; [done|]. eapply create_ok, demo_created. Qed.
Lemma demo_ok4 : journal_ok demo4.
Proof.
  apply demo_ok, steps_evolve. eapply rtc_l; [apply demo_step1|]. eapply rtc_l; [apply demo_step2|].
  eapply rtc_l; [apply demo_step3|]. apply rtc_once, demo_step4.
Qed.
Lemma demo_ok2 : journal_ok demo2.
Proof. apply demo_ok, steps_evolve. eapply rtc_l; [apply demo_step1|]. apply rtc_once, demo_step2. Qed.

(** The journal ends with the issuance and its outcome retired. *)
Example demo_counts : (length (issuances demo4), length (outcomes demo4), length (observations demo4)) = (1%nat, 1%nat, 2%nat)
  ∧ (length (issuances demo5), length (outcomes demo5), horizon demo5) = (0%nat, 0%nat, 3600).
Proof. by vm_compute. Qed.






Lemma journal_invariant_witness : create "demo" 86400 172800 1000000 65536 = Ok demo0 ∧ rtc step demo0 demo1 ∧ journal_ok demo1.
Proof.
  split; [apply demo_created|]. split; [apply rtc_once, demo_step1|].
  eapply (journal_invariant "demo" 86400 172800 1000000 65536 demo0); [apply demo_created|apply rtc_once, demo_step1].
Defined.

(** * Immutability *)

(** A later state keeps every row the horizon has not passed, adds only rows with new rowids at or above the horizon of
    their moment, and never lowers the horizon. *)
Record keeps (s s' : store) : Prop := {
  kp_horizon : horizon s ≤ horizon s';
  kp_rows : ∀ r, r ∈ issuances s → horizon s' ≤ ir_window_end r → r ∈ issuances s';
  kp_outs : ∀ o, o ∈ outcomes s → horizon s' ≤ o_window_end o → o ∈ outcomes s';
  kp_new : ∀ r, r ∈ issuances s' → r ∈ issuances s ∨ (issuance_seq s < ir_seq r ∧ horizon s ≤ ir_window_end r);
  kp_new_outs : ∀ o, o ∈ outcomes s' → o ∈ outcomes s ∨ outcome_seq s < o_seq o;
  kp_seq : issuance_seq s ≤ issuance_seq s';
  kp_out_seq : outcome_seq s ≤ outcome_seq s';
  kp_id : store_id s' = store_id s;
  kp_obs : ∀ o, o ∈ observations s → horizon s' - obs_extra s ≤ ob_event_time o → o ∈ observations s';
  kp_extra : obs_extra s' = obs_extra s;
}.

Lemma keeps_refl s : keeps s s.
Proof. by split; auto. Qed.

Lemma keeps_trans s1 s2 s3 : keeps s1 s2 → keeps s2 s3 → keeps s1 s3.
Proof.
  intros [] []. split; try lia; try congruence; intros.
  - eapply kp_rows1; [|done]. apply kp_rows0; [done|lia].
  - eapply kp_outs1; [|done]. apply kp_outs0; [done|lia].
  - destruct (kp_new1 r) as [Hr|[? ?]]; [done| |right; lia]. destruct (kp_new0 r Hr) as [?|[? ?]]; [by left|by right].
  - destruct (kp_new_outs1 o) as [Ho|?]; [done| |right; lia]. destruct (kp_new_outs0 o Ho); [by left|by right].
  - apply kp_obs1; [|congruence || by rewrite kp_extra0]. apply kp_obs0; [done|lia].
Qed.

Lemma change_keeps s s' : change s s' → journal_ok s → keeps s s'.
Proof.
  intros Hc Hok. destruct Hc as [(p & -> & _)|id k key bundle text models now Hkey Hk Hid Hm H|r i model status data now Hr Hd Hm Hst Hnow H
    |series samples source Hv ->|ek data n now j Hj Hnb H|h covered c Hh H|id keep obs quota cap H].
  - by split; auto.
  - apply insert_issuance_inv in H as (_ & Hh & ->).
    split; cbn [horizon issuances outcomes observations issuance_seq outcome_seq store_id obs_extra set_issuances]; try done; try lia.
    + intros r Hr _. apply elem_of_app. by left.
    + intros r [Hr|Hr%list_elem_of_singleton]%elem_of_app; [by left|]. right. subst. cbn. split; [lia|done].
    + intros o Ho. by left.
  - apply insert_outcome_inv in H as (_ & ->).
    split; cbn [horizon issuances outcomes observations issuance_seq outcome_seq store_id obs_extra set_outcomes]; try done; try lia; auto.
    + intros o Ho _. apply elem_of_app. by left.
    + intros o [Ho|Ho%list_elem_of_singleton]%elem_of_app; [by left|]. right. subst. cbn. lia.
  - destruct (record_fold series source samples {| new := 0; duplicate := 0; corrected := 0 |} s Hv (jo_obs _ Hok) (jo_obs_ok _ Hok))
      as (l & c & -> & _). split; cbn; auto; try lia. intros o Ho _. apply elem_of_app. by left.
  - unfold insert_checkpoint, mbind, se_bind, sget, sput in H. injection H as <-. by split; auto.
  - apply compact_tx_inv in H as (ids & rt & -> & Hold & Hids).
    split; cbn [horizon issuances outcomes observations issuance_seq outcome_seq store_id obs_extra set_compacted]; try done; try lia.
    + intros r Hr Hge. apply list_elem_of_filter. split; [|done]. intros Hin. specialize (Hold r Hr Hin). lia.
    + intros o Ho Hge. apply list_elem_of_filter. split; [|done]. intros Hin.
      destruct (Hids _ Hin) as (r & i & Hr & Hd & Hid & Hlt & _).
      pose proof (jo_outs _ Hok) as Houts. rewrite Forall_forall in Houts.
      destruct (Houts o Ho) as (_ & _ & _ & r' & i' & Hr' & _ & Hid' & _ & Hwe & _).
      assert (r = r') as -> by (eapply (NoDup_fmap_inj ir_issuance_id); [apply (jo_ids _ Hok)|done|done|congruence]). lia.
    + intros r [_ Hr]%list_elem_of_filter. by left.
    + intros o [_ Ho]%list_elem_of_filter. by left.
    + intros o Ho Hge. apply list_elem_of_filter. split; [|done]. apply Is_true_true, negb_true_iff, Z.ltb_ge. lia.
  - unfold reopen in H. ok_inv H. subst. by split; auto.
Qed.

Lemma evolves_keeps s s' : evolves s s' → journal_ok s → keeps s s'.
Proof.
  induction 1 as [|s s1 s' Hc _ IH]; intros Hok; [apply keeps_refl|].
  eapply keeps_trans; [by apply change_keeps|]. apply IH. by eapply change_ok.
Qed.

Lemma key_body_inj k1 k2 : norm (key_body k1) = norm (key_body k2) → k1 = k2.
Proof. destruct k1, k2. vm_compute. intros [=]. by subst. Qed.

Lemma key_sha256_inj k1 k2 h : key_sha256 k1 = Ok h → key_sha256 k2 = Ok h → k1 = k2 ∨ collides (key_body k1) (key_body k2).
Proof.
  intros E1 E2. destruct (hash_inj (key_body k1) (key_body k2) h) as [E|]; [by apply keys_distinct_ok..|done|done| |by right].
  left. by apply key_body_inj.
Qed.

(** A row that one change adds has a key no committed row has, and is not below the horizon. *)
Lemma change_new s s' r : change s s' → journal_ok s → r ∈ issuances s' →
  r ∈ issuances s ∨ (horizon s ≤ ir_window_end r ∧ ∀ r0, r0 ∈ issuances s → ir_key_sha256 r0 ≠ ir_key_sha256 r).
Proof.
  intros Hc Hok Hr. destruct Hc as [(p & -> & _)|id k key bundle text models now Hkey Hk Hid Hm H|r1 i model status data now _ _ _ _ _ H
    |series samples source Hv ->|ek data n now j Hj Hnb H|h covered c Hh H|id keep obs quota cap H]; try (by left).
  - apply insert_issuance_inv in H as (Hnew & Hh & ->). apply elem_of_app in Hr as [?|Hr%list_elem_of_singleton]; [by left|]. subst r.
    right. split; [done|]. intros r0 Hr0. apply (Hnew r0 Hr0).
  - apply insert_outcome_inv in H as (_ & ->). by left.
  - destruct (record_fold series source samples {| new := 0; duplicate := 0; corrected := 0 |} s Hv (jo_obs _ Hok) (jo_obs_ok _ Hok))
      as (l & c & E & _). rewrite E in Hr. by left.
  - unfold insert_checkpoint, mbind, se_bind, sget, sput in H. injection H as <-. by left.
  - apply compact_tx_inv in H as (ids & rt & -> & _). left. by apply list_elem_of_filter in Hr as [_ ?].
  - unfold reopen in H. ok_inv H. subst. by left.
Qed.

(** Two rows whose keys' texts differ and collide under SHA-256. *)
Definition key_clash (r1 r2 : issuance_row) : Prop :=
  ∃ i1 i2, decodes r1 i1 ∧ decodes r2 i2 ∧ collides (key_body (i_key i1)) (key_body (i_key i2)).

(** Two sound rows with one key speak of one window. *)
Lemma row_key_window s1 s2 r1 r2 : row_ok s1 r1 → row_ok s2 r2 → ir_key_sha256 r1 = ir_key_sha256 r2 →
  ir_window_end r1 = ir_window_end r2 ∨ key_clash r1 r2.
Proof.
  intros [(i1 & D1 & K1 & _) _] [(i2 & D2 & K2 & _) _] E. rewrite <-E in K2.
  destruct (key_sha256_inj _ _ _ K1 K2) as [Ek|]; [left|right; by exists i1, i2].
  rewrite <-(proj1 (decodes_window_end _ _ D1)), <-(proj1 (decodes_window_end _ _ D2)). by rewrite Ek.
Qed.

Lemma rows_ok s r : journal_ok s → r ∈ issuances s → row_ok s r.
Proof. intros Hok Hr. pose proof (jo_rows _ Hok) as H. rewrite Forall_forall in H. by apply H. Qed.

(** What was committed is never changed and never comes back different: in every later state of the file, an
    issuance whose window the retention horizon has not passed is still there, byte for byte; and any row with its key
    is that same row, even after retention has removed it (unless the two keys' texts differ and collide under SHA-256). *)
Theorem issuance_immutable s s' r :
  journal_ok s → rtc step s s' → r ∈ issuances s →
  (horizon s' ≤ ir_window_end r → r ∈ issuances s') ∧
  (∀ r', r' ∈ issuances s' → ir_key_sha256 r' = ir_key_sha256 r → r' = r ∨ key_clash r' r).
Proof.
  intros Hok Hs Hr. apply steps_evolve in Hs. split; [by apply (evolves_keeps _ _ Hs Hok)|].
  revert s' Hs. apply (rtc_ind_r (λ s', ∀ r', r' ∈ issuances s' → ir_key_sha256 r' = ir_key_sha256 r → r' = r ∨ key_clash r' r));
    [intros r' Hr' Hk|intros s1 s2 Hs Hc IH r' Hr' Hk].
  { left. by eapply (NoDup_fmap_inj ir_key_sha256); [apply (jo_keys _ Hok)| | |]. }
  pose proof (evolves_ok _ _ Hs Hok) as Hok1.
  destruct (change_new _ _ r' Hc Hok1 Hr') as [|[Hh Hnew]]; [by apply IH|].
  destruct (row_key_window s2 s r' r) as [E|]; [apply rows_ok; [by eapply change_ok|done]|by apply rows_ok|done| |by right].
  destruct (Hnew r); [|done]. apply (evolves_keeps _ _ Hs Hok); [done|lia].
Qed.

Lemma issuance_immutable_witness : ∃ r, issuances demo1 = [r] ∧ r ∈ issuances demo2.
Proof.
  assert (length (issuances demo1) = 1%nat) as Hl by (by vm_compute).
  destruct (list_one _ Hl) as [r E]. exists r. split; [exact E|].
  assert (forallb (λ r, horizon demo2 <=? ir_window_end r) (issuances demo1) = true) as H by (by vm_compute).
  apply (issuance_immutable demo1 demo2 r); [apply demo_ok, steps_evolve, rtc_once, demo_step1|apply rtc_once, demo_step2| |].
  - rewrite E. left.
  - rewrite E in H. apply forallb_one in H. cbv beta in H. by apply Z.leb_le.
Defined.






(** * Issuing is idempotent *)

Lemma find_by_key s r : journal_ok s → r ∈ issuances s →
  List.find (λ x, bool_decide (ir_key_sha256 x = ir_key_sha256 r)) (issuances s) = Some r.
Proof.
  intros Hok Hr. apply find_unique; [done|by apply bool_decide_true|].
  intros y Hy E. bool_prop. by eapply (NoDup_fmap_inj ir_key_sha256); [apply (jo_keys _ Hok)| | |].
Qed.

Lemma get_issuance_row s r i key : journal_ok s → r ∈ issuances s → decodes r i → key_sha256 key = Ok (ir_key_sha256 r) →
  get_issuance key s = (Ok (Some i), s).
Proof.
  intros Hok Hr Hd Hk. unfold get_issuance, _guard. rewrite Hk. unfold lift, mbind, se_bind.
  by rewrite (find_issuance_decodes _ s r i (find_by_key s r Hok Hr) Hd).
Qed.

Lemma tx_ok {A} env (body : SE store A) s a s' : _tx env body s = (Ok a, s') → body s = (Ok a, s').
Proof. unfold _tx. destruct (e_sql env); [discriminate|]. by destruct (body s) as [[?|?] ?]. Qed.

(** The issuance [i] is the committed row of [key] in [s], for the model set [models]. *)
Definition committed (s : store) (key : IssuanceKey) (models : list string) (i : Issuance) : Prop :=
  ∃ r, r ∈ issuances s ∧ decodes r i ∧ key_sha256 key = Ok (ir_key_sha256 r) ∧ _models models = Ok (i_models i).

Lemma found_committed s key k i models r :
  List.find (λ r, bool_decide (ir_key_sha256 r = k)) (issuances s) = Some r → key_sha256 key = Ok k → decodes r i →
  _models models = Ok (i_models i) → committed s key models i.
Proof.
  intros Hf Hk Hd Hm. apply List.find_some in Hf as [Hin Hp]. bool_prop. subst k. exists r.
  split_and!; [by apply list_elem_of_In|done..].
Qed.

Lemma commit_issuance_committed env key payload models s i b s' :
  commit_issuance env key payload models s = (Ok (i, b), s') → committed s' key models i.
Proof.
  unfold commit_issuance. intros H. ok_inv H. lift_inv. apply guard_ok in H. ok_inv H.
  match goal with E : get_issuance key _ = (Ok ?o, _) |- _ => apply get_issuance_ok in E as (k & Hk & -> & Hf); destruct o as [j|] end.
  - ok_inv H. injection H as <- <- <-. lift_inv. destruct Hf as (r & Hf & Hd).
    match goal with E : _same j _ _ = Ok _ |- _ => unfold _same in E; ok_inv E end. bool_prop. subst.
    by eapply found_committed.
  - ok_inv H. injection H as <- <- <-. lift_inv. simplify_eq.
    match goal with E : _tx _ _ _ = (Ok ?u, _) |- _ => apply tx_ok in E; destruct u end.
    match goal with E : insert_issuance _ _ _ _ _ _ _ = _ |- _ => apply insert_issuance_inv in E as (Hnew & _ & ->) end.
    match goal with E : get_issuance key (set_issuances _ _ _) = _ |- _ => apply get_issuance_ok in E as (k' & Hk' & -> & Hf') end.
    simplify_eq. match goal with E : of_option _ ?o = Ok _ |- _ => apply of_option_ok in E; subst o end.
    destruct Hf' as (r & Hf' & Hd). eapply found_committed; [done..|].
    apply List.find_some in Hf' as [Hin Hp]. bool_prop. apply list_elem_of_In in Hin. cbn [issuances set_issuances] in Hin.
    apply elem_of_app in Hin as [Hin|Hin%list_elem_of_singleton]; [destruct (Hnew r Hin) as [_ Hn]; congruence|]. subst r.
    pose proof (de_models _ _ Hd) as Hm. cbn in Hm. erewrite stored_models_text in Hm by done. congruence.
Qed.

Lemma get_or_issue_committed env key build models s i b s' :
  get_or_issue env key build models s = (Ok (i, b), s') → committed s' key models i.
Proof.
  unfold get_or_issue. intros H%guard_ok. ok_inv H.
  match goal with E : get_issuance key _ = (Ok ?o, _) |- _ => apply get_issuance_ok in E as (k & Hk & -> & Hf); destruct o as [j|] end.
  - ok_inv H. injection H as <- <- <-. lift_inv. bool_prop. destruct Hf as (r & Hf & Hd). subst.
    by eapply found_committed.
  - ok_inv H. by eapply commit_issuance_committed.
Qed.

(** Issuing is idempotent: once an issuance has been answered for a key, then as long as retention has not passed
    its window and the store is healthy, asking again, with any recomputation, in any later state and after any crash,
    answers the very same record as not created, and writes nothing. *)
Theorem issue_idempotent env key build models s i b s1 s2 env' build' :
  journal_ok s → key_ok key → get_or_issue env key build models s = (Ok (i, b), s1) → rtc step s1 s2 →
  problem s2 = None → horizon s2 ≤ k_window_end (i_key i) →
  get_or_issue env' key build' models s2 = (Ok (i, false), s2).
Proof.
  intros Hok Hkey H Hs Hp Hh.
  assert (journal_ok s1) as Hok1 by (eapply evolves_ok; [|exact Hok]; exact (wp_run _ _ _ _ _ (get_or_issue_evolves env key build models s Hkey) H)).
  destruct (get_or_issue_committed _ _ _ _ _ _ _ _ H) as (r & Hr & Hd & Hk & Hm).
  apply steps_evolve in Hs. pose proof (evolves_ok _ _ Hs Hok1) as Hok2.
  assert (r ∈ issuances s2) as Hr2.
  { apply (evolves_keeps _ _ Hs Hok1); [done|]. by rewrite <-(proj1 (decodes_window_end _ _ Hd)). }
  unfold get_or_issue, _guard, _require_healthy, lift, mbind, se_bind. rewrite Hp.
  rewrite (get_issuance_row s2 r i key Hok2 Hr2 Hd Hk). rewrite Hm. by rewrite bool_decide_true by done.
Qed.

Lemma issue_idempotent_witness : ∃ i s1, get_or_issue demo_env demo_key (λ _, Ok demo_payload) ["lstm"] demo0 = (Ok (i, true), s1)
  ∧ get_or_issue demo_env demo_key (λ _, Raise PyTypeError) ["lstm"] s1 = (Ok (i, false), s1).
Proof.
  assert (match get_or_issue demo_env demo_key (λ _, Ok demo_payload) ["lstm"] demo0 with
          | (Ok (i, b), s1) => b && bool_decide (problem s1 = None) && (horizon s1 <=? k_window_end (i_key i))
          | _ => false end = true) as H by (by vm_compute).
  destruct (get_or_issue _ _ _ _ demo0) as [[[i b]|e] s1] eqn:E; [|discriminate H]. bool_prop. destruct b; [|discriminate].
  exists i, s1. split; [reflexivity|].
  eapply (issue_idempotent demo_env demo_key _ ["lstm"] demo0 i true s1 s1); [|apply demo_key_ok|exact E|apply rtc_refl|assumption..].
  eapply create_ok, demo_created.
Defined.






(** * One terminal outcome *)

Lemma find_outcome s o : journal_ok s → o ∈ outcomes s →
  List.find (is_outcome_of (o_issuance_id o) (o_model o)) (outcomes s) = Some o.
Proof.
  intros Hok Ho. apply find_unique; [done|unfold is_outcome_of; by rewrite !bool_decide_true|].
  intros y Hy E. unfold is_outcome_of in E. bool_prop.
  eapply (NoDup_fmap_inj (λ o, (o_issuance_id o, o_model o))); [apply (jo_out_one _ Hok)|done|done|congruence].
Qed.

(** The terminal outcome of an issuance and model is final: while retention has not passed its window, every later
    attempt to commit one answers the committed record when the status and the bytes are the same, and is refused as a
    conflict otherwise; either way nothing is written. *)
Theorem outcome_terminal s s' o env status payload data :
  journal_ok s → rtc step s s' → o ∈ outcomes s → horizon s' ≤ o_window_end o → problem s' = None →
  status ∈ OUTCOME_STATUSES → _encode payload MAX_OUTCOME_BYTES = Ok data → o_model o ≠ EmptyString →
  commit_outcome env (o_issuance_id o) (o_model o) status payload s'
  = (if decide (o_status o = status ∧ o_payload_bytes o = data) then Ok (o, false)
     else Raise (IntegrityConflict "the outcome is already committed"), s').
Proof.
  intros Hok Hs Ho Hh Hp Hst Hd Hm. apply steps_evolve in Hs. pose proof (evolves_ok _ _ Hs Hok) as Hok'.
  assert (o ∈ outcomes s') as Ho' by (by apply (evolves_keeps _ _ Hs Hok)).
  pose proof (jo_outs _ Hok') as Houts. rewrite Forall_forall in Houts. destruct (Houts o Ho') as (Hsha & _).
  unfold commit_outcome. rewrite (bool_decide_true (status ∈ OUTCOME_STATUSES)), (bool_decide_false (o_model o = EmptyString)), Hd by done.
  unfold _guard, _require_healthy, lift, mbind, se_bind, sget. cbn [negb]. rewrite Hp, (find_outcome s' o Hok' Ho').
  unfold _row_to_outcome. rewrite (bool_decide_true (sha256_hex _ = _)) by done.
  case_decide as Hc; [destruct Hc; by rewrite !bool_decide_true by done|].
  destruct (decide (o_status o = status)) as [E1|E1]; [|by rewrite (bool_decide_false (o_status o = status)) by done].
  rewrite (bool_decide_true (o_status o = status)), (bool_decide_false (o_payload_bytes o = data)) by naive_solver. done.
Qed.

Lemma outcome_terminal_witness : ∃ o, outcomes demo2 = [o] ∧
  (commit_outcome demo_env (o_issuance_id o) (o_model o) "unscorable" (JObj []) demo2).1
    = Raise (IntegrityConflict "the outcome is already committed").
Proof.
  assert (length (outcomes demo2) = 1%nat) as Hl by (by vm_compute).
  destruct (list_one _ Hl) as [o E]. exists o. split; [exact E|].
  assert (forallb (λ o, bool_decide (o_status o = "scored" ∧ o_model o = "lstm") && (horizon demo2 <=? o_window_end o))
            (outcomes demo2) = true) as H by (by vm_compute).
  rewrite E in H. apply forallb_one in H. cbv beta in H.
  apply andb_true_iff in H as [H1 Hh]. apply bool_decide_eq_true in H1 as [Hs Hm]. apply Z.leb_le in Hh.
  assert (problem demo2 = None) as Hp by (by vm_compute).
  assert (_encode (JObj []) MAX_OUTCOME_BYTES = Ok "{}") as He by (by vm_compute).
  assert (o_model o ≠ EmptyString) as Hne by (by rewrite Hm).
  assert (o ∈ outcomes demo2) as Ho by (rewrite E; left).
  assert ("unscorable" ∈ OUTCOME_STATUSES) as Hst by list_member.
  refine (eq_trans (f_equal fst (outcome_terminal demo2 demo2 o demo_env "unscorable" (JObj []) "{}" demo_ok2 (rtc_refl _ _)
    Ho Hh Hp Hst He Hne)) _).
  rewrite decide_False; [done|]. intros [H1 _]. rewrite Hs in H1. discriminate H1.
Defined.






(** * First receipts *)

(** The first receipt of an event time is what the journal keeps: later receipts of the same event time, equal or
    not, never replace the value it was first recorded with, for as long as observations of that age are retained. *)
Theorem observation_first s s' o :
  journal_ok s → rtc step s s' → o ∈ observations s → horizon s' - obs_extra s ≤ ob_event_time o →
  List.find (is_observation (ob_series o) (ob_event_time o)) (observations s') = Some o.
Proof.
  intros Hok Hs Ho Hh. apply steps_evolve in Hs. pose proof (evolves_ok _ _ Hs Hok) as Hok'.
  apply find_unique; [by apply (evolves_keeps _ _ Hs Hok)|unfold is_observation; by rewrite bool_decide_true, Z.eqb_refl|].
  intros y Hy E. unfold is_observation in E. bool_prop.
  eapply (NoDup_fmap_inj (λ o, (ob_series o, ob_event_time o))); [apply (jo_obs _ Hok')|done| |congruence].
  by apply (evolves_keeps _ _ Hs Hok).
Qed.

Lemma observation_first_witness : ∃ o l, observations demo3 = o :: l ∧
  List.find (is_observation (ob_series o) (ob_event_time o)) (observations demo4) = Some o.
Proof.
  assert (match observations demo3 with o :: _ => horizon demo4 - obs_extra demo3 <=? ob_event_time o | [] => false end = true)
    as H by (by vm_compute).
  destruct (observations demo3) as [|o l] eqn:E; [discriminate H|]. exists o, l. split; [reflexivity|]. apply Z.leb_le in H.
  apply (observation_first demo3 demo4 o); [|apply rtc_once, demo_step4|rewrite E; left|assumption].
  apply demo_ok, steps_evolve. eapply rtc_l; [apply demo_step1|]. eapply rtc_l; [apply demo_step2|]. apply rtc_once, demo_step3.
Defined.






(** * Recovery *)

Lemma mapM_se_cons {A B} (f : A → SE store B) x t : mapM_se f (x :: t) = (y ← f x; ys ← mapM_se f t; mret (y :: ys)).
Proof. done. Qed.

Lemma outcomes_after_ok s ek n : journal_ok s →
  outcomes_after ek n s = (Ok (filter (λ o, bool_decide (o_evidence_key o = ek) && (n <? o_seq o)) (outcomes s)), s).
Proof.
  intros Hok. unfold outcomes_after, _guard, mbind, se_bind, sget.
  assert (∀ l, Forall (outcome_ok s) l → mapM_se _row_to_outcome l s = (Ok l, s)) as Hm.
  { induction 1 as [|o l (Hsha & _) _ IH]; [done|]. rewrite mapM_se_cons. unfold mbind, se_bind at 1, _row_to_outcome at 1.
    rewrite bool_decide_true by done. unfold se_bind. by rewrite IH. }
  rewrite Hm; [done|]. apply Forall_filter, Hok.
Qed.

Definition cover (ek : string) (s : store) : Z :=
  match last (filter (λ c, bool_decide (cr_evidence_key c = ek)) (checkpoints s)) with
  | Some c => cr_last_outcome_seq c | None => 0 end.

Lemma latest_checkpoint_total s ek : journal_ok s → ∃ o, latest_checkpoint ek s = (Ok o, s) ∧
  match o with Some c => c_last_outcome_seq c = cover ek s | None => cover ek s = 0 end.
Proof.
  intros Hok. unfold latest_checkpoint, cover, _guard, mbind, se_bind, sget.
  destruct (last _) as [c|] eqn:El; [|by eexists].
  assert (checkpoint_ok s c) as (_ & Hv & Hsha & j & Hj).
  { apply last_Some_elem_of, list_elem_of_filter in El as [_ Hin]. pose proof (jo_cps _ Hok) as H. rewrite Forall_forall in H. by apply H. }
  rewrite Hv, Hj, bool_decide_true by done. cbn. by eexists.
Qed.

(** The state component of the recovery loop. *)
Lemma recover_fold (f : json → Outcome → res json) st n k os :
  (λ r, r.1.1) <$> foldM (λ '(state, _, applied) o, state' ← f state o; Ok (state', o_seq o, applied + 1)) (st, n, k) os
  = foldM f st os.
Proof.
  revert st n k. induction os as [|o t IH]; intros st n k; [done|]. cbn. destruct (f st o) as [st'|e]; [|done]. apply IH.
Qed.

Lemma recover_run s ek f init : journal_ok s →
  ∃ o, latest_checkpoint ek s = (Ok o, s) ∧
  (λ r, r.1.1) <$> (recover ek f init s).1
  = foldM f match o with Some c => c_state c | None => init end
      (filter (λ o, bool_decide (o_evidence_key o = ek) && (cover ek s <? o_seq o)) (outcomes s)).
Proof.
  intros Hok. destruct (latest_checkpoint_total s ek Hok) as (o & Ho & Hc). exists o. split; [done|].
  unfold recover, mbind, se_bind. rewrite Ho.
  destruct o as [c|]; [rewrite Hc|rewrite <-Hc]; rewrite (outcomes_after_ok s) by done; unfold lift; cbn [fst]; apply recover_fold.
Qed.

(** Recovery is exact: when the latest checkpoint of an epoch holds the fold of the outcomes up to its sequence
    number, the recovered state is the fold of all the epoch's outcomes, each applied once and in commit order, as if
    the service had never restarted. *)
Theorem recover_exact s ek f init c :
  journal_ok s → latest_checkpoint ek s = (Ok (Some c), s) →
  foldM f init (filter (λ o, bool_decide (o_evidence_key o = ek) && (o_seq o <=? c_last_outcome_seq c)) (outcomes s))
    = Ok (c_state c) →
  (λ r, r.1.1) <$> (recover ek f init s).1 = foldM f init (filter (λ o, bool_decide (o_evidence_key o = ek)) (outcomes s)).
Proof.
  intros Hok Hl Hc. destruct (recover_run s ek f init Hok) as (o & Ho & ->).
  destruct (latest_checkpoint_total s ek Hok) as (o' & Ho' & Hcov). rewrite Hl in Ho, Ho'. simplify_eq.
  set (p := λ o, bool_decide (o_evidence_key o = ek)). set (n := c_last_outcome_seq c) in *.
  pose proof (filter_and p (λ o, o_seq o <=? n) (outcomes s)) as E1.
  pose proof (filter_and p (λ o, n <? o_seq o) (outcomes s)) as E2.
  rewrite <-Hcov. transitivity (foldM f (c_state c) (filter (λ o, n <? o_seq o) (filter (λ o, p o) (outcomes s)))).
  { exact (f_equal (foldM f (c_state c)) E2). }
  transitivity (foldM f init (filter (λ o, p o) (outcomes s))); [|done].
  rewrite (SS_cut o_seq n (filter (λ o, p o) (outcomes s))) at 2 by apply SS_fmap_filter, Hok.
  rewrite foldM_app. pose proof (eq_trans (eq_sym (f_equal (foldM f init) E1)) Hc) as ->. done.
Qed.

Lemma recover_exact_witness :
  (λ r, r.1.1) <$> (recover zero64 demo_fold (JObj []) demo4).1 = Ok (JObj [("n", JInt 1)]).
Proof.
  destruct (latest_checkpoint_total demo4 zero64 demo_ok4) as (o & E & _).
  assert (option_map c_last_outcome_seq <$> (latest_checkpoint zero64 demo4).1 = Ok (Some 1)) as Hn by (by vm_compute).
  assert (option_map c_state <$> (latest_checkpoint zero64 demo4).1 = Ok (Some (JObj [("n", JInt 1)]))) as Hc by (by vm_compute).
  rewrite E in Hn, Hc. destruct o as [c|]; [|discriminate Hn]. cbn in Hn, Hc. injection Hn as Hn. injection Hc as Hc.
  rewrite (recover_exact demo4 zero64 demo_fold (JObj []) c); [by vm_compute|apply demo_ok4|exact E|].
  rewrite Hc, Hn. by vm_compute.
Defined.






(** * Recovery after compaction *)

Lemma mapM_se_ok {A B} (f : A → SE store B) (g : A → B) s l :
  (∀ x, f x s = (Ok (g x), s)) → mapM_se f l s = (Ok (g <$> l), s).
Proof.
  intros Hf. induction l as [|x t IH]; [done|]. rewrite mapM_se_cons. unfold mbind, se_bind. by rewrite Hf, IH.
Qed.

Lemma epoch_cover_ok h s : journal_ok s → epoch_cover h s =
  (Ok ((λ ek, (ek, cover ek s)) <$> remove_dups (ir_evidence_key <$> filter (λ r, ir_window_end r <? h) (issuances s))), s).
Proof.
  intros Hok. unfold epoch_cover. apply mapM_se_ok. intros ek. unfold mbind, se_bind.
  destruct (latest_checkpoint_total s ek Hok) as (o & -> & Ho). destruct o as [c|]; by rewrite Ho.
Qed.

Lemma dget_keyed {V} (g : string → V) k l : k ∈ l → dget k ((λ x, (x, g x)) <$> l) = Some (g k).
Proof.
  induction l as [|x t IH]; [by intros ?%elem_of_nil|]. cbn. intros [->|H]%elem_of_cons; [by rewrite decide_True|].
  case_decide; [by subst|auto].
Qed.

(** Compaction removes only outcomes their epoch's checkpoint covers. *)
Lemma compact_covered h s c s' : journal_ok s →
  compact_tx h ((λ ek, (ek, cover ek s)) <$> remove_dups (ir_evidence_key <$> filter (λ r, ir_window_end r <? h) (issuances s))) s
    = (Ok c, s') →
  checkpoints s' = checkpoints s ∧ ∃ ids : list string, outcomes s' = filter (λ o, o_issuance_id o ∉ ids) (outcomes s) ∧
  (∀ o, o ∈ outcomes s → o_issuance_id o ∈ ids → o_seq o ≤ cover (o_evidence_key o) s).
Proof.
  intros Hok H. apply compact_tx_inv in H as (ids & rt & -> & _ & Hids). split; [done|]. exists ids. split; [done|].
  intros o Ho Hin. destruct (Hids _ Hin) as (r & i & Hr & Hd & Hid & Hlt & Hrm). apply andb_true_iff in Hrm as [_ Hrm].
  rewrite forallb_forall in Hrm. specialize (Hrm o). rewrite <-list_elem_of_In, list_elem_of_filter in Hrm.
  specialize (Hrm ltac:(split; [by apply Is_true_true, bool_decide_true|done])).
  rewrite (proj2 (decodes_window_end _ _ Hd)), dget_keyed in Hrm.
  2:{ apply elem_of_remove_dups, list_elem_of_fmap. exists r. split; [done|]. apply list_elem_of_filter.
      split; [by apply Is_true_true, Z.ltb_lt|done]. }
  cbn in Hrm. apply Z.leb_le in Hrm. pose proof (jo_outs _ Hok) as Houts. rewrite Forall_forall in Houts.
  destruct (Houts o Ho) as (_ & _ & _ & r' & i' & Hr' & _ & Hid' & <- & _).
  assert (r' = r) as -> by (eapply (NoDup_fmap_inj ir_issuance_id); [apply (jo_ids _ Hok)|done|done|congruence]). done.
Qed.

(** Recovery as a function of the checkpoint and the outcomes it reads. *)
Lemma recover_value s ek f init o : journal_ok s → latest_checkpoint ek s = (Ok o, s) →
  (recover ek f init s).1 =
  let '(state, last) := match o with Some c => (c_state c, c_last_outcome_seq c) | None => (init, 0) end in
  foldM (λ '(state, _, applied) o, state' ← f state o; Ok (state', o_seq o, applied + 1)) (state, last, 0)
    (filter (λ o, bool_decide (o_evidence_key o = ek) && (last <? o_seq o)) (outcomes s)).
Proof.
  intros Hok Ho. unfold recover, mbind, se_bind. rewrite Ho. destruct o as [c|]; by rewrite (outcomes_after_ok s) by done.
Qed.

Lemma recover_eq s s' ek f init : journal_ok s → journal_ok s' → checkpoints s' = checkpoints s →
  filter (λ o, bool_decide (o_evidence_key o = ek) && (cover ek s <? o_seq o)) (outcomes s')
  = filter (λ o, bool_decide (o_evidence_key o = ek) && (cover ek s <? o_seq o)) (outcomes s) →
  (recover ek f init s').1 = (recover ek f init s).1.
Proof.
  intros Hok Hok' Hc Hf. destruct (latest_checkpoint_total s ek Hok) as (o & Ho & Hcov).
  assert (latest_checkpoint ek s' = (Ok o, s')) as Ho'.
  { unfold latest_checkpoint, _guard, mbind, se_bind, sget in *. rewrite Hc.
    destruct (last _) as [c|]; [|by injection Ho as <-]. unfold lift, mthrow, se_throw in *.
    destruct (_ || _); [done|]. destruct (loads _); [by injection Ho as <-|done]. }
  rewrite (recover_value _ _ _ _ _ Hok Ho), (recover_value _ _ _ _ _ Hok' Ho').
  destruct o as [c|]; rewrite <-Hcov in Hf || rewrite Hcov in Hf; by rewrite Hf.
Qed.

(** C19: Retention never changes what recovery gives: compaction, whatever it meets, leaves the recovered state of every
    epoch, its last sequence number and the number of outcomes folded exactly as they were. *)
Theorem recover_compact env now_s s r s' ek f init :
  journal_ok s → compact env now_s s = (r, s') → (recover ek f init s').1 = (recover ek f init s).1.
Proof.
  intros Hok H. assert (evolves s s') as Hev by exact (wp_run _ _ _ _ _ (compact_evolves env now_s s) H).
  pose proof (evolves_ok _ _ Hev Hok) as Hok'.
  assert (same_tables s s' ∨ ∃ h c, compact_tx h ((λ ek, (ek, cover ek s)) <$> remove_dups (ir_evidence_key <$>
            filter (λ r, ir_window_end r <? h) (issuances s))) s = (Ok c, s')) as [(p & -> & _)|(h & c & Hc)].
  3:{ destruct (compact_covered _ _ _ _ Hok Hc) as (Hcp & ids & Ho & Hcov). apply recover_eq; [done..|]. rewrite Ho.
      clear -Hcov. induction (outcomes s) as [|o t IH]; [done|]. 
      rewrite filter_cons. destruct (decide (o_issuance_id o ∉ ids)) as [|Hin].
      - rewrite !filter_cons, IH; [done|]. intros; apply Hcov; [by right|done].
      - rewrite (filter_cons _ o t), decide_False, IH; [done|intros; apply Hcov; [by right|done]|].
        apply dec_stable in Hin. specialize (Hcov o ltac:(left) Hin). intros [E ?%Z.ltb_lt]%Is_true_true%andb_true_iff.
        bool_prop. subst. lia. }
  2:{ by apply recover_eq. }
  unfold compact, _guard, mbind, se_bind, _require_healthy, sget in H.
  destruct (problem s); [injection H as <- <-; left; apply same_fail|].
  destruct (_ <=? _); [injection H as <- <-; left; apply same_refl|].
  rewrite (epoch_cover_ok _ s Hok) in H. 
  match type of H with context [_tx env ?b s] => destruct (_tx env b s) as [[c|e] s1] eqn:E end.
  - injection H as <- <-. right. eexists _, c. by apply tx_ok in E.
  - left. assert (same_tables s s1).
    { unfold _tx in E. destruct (e_sql env); [injection E as _ <-; apply same_refl|].
      destruct (compact_tx _ _ s) as [[c|e'] s2] eqn:E2; [discriminate|]. injection E as _ <-.
      apply compact_tx_raise in E2 as (p & -> & Hp). by exists p. }
    injection H as _ <-. destruct (unavailable e); [by eapply same_trans, same_fail|done].
Qed.

Lemma recover_compact_witness : (recover zero64 demo_fold (JObj []) demo5).1 = Ok (JObj [("n", JInt 1)], 1, 0).
Proof.
  unfold demo5. destruct (compact demo_env 90000 demo4) as [r s'] eqn:E. cbn [snd].
  rewrite (recover_compact demo_env 90000 demo4 r s' zero64 demo_fold (JObj []) demo_ok4 E). by vm_compute.
Defined.






