(* ===== verification/Calibration.v ===== *)
(** [forecasting/calibration.py]: the calibrated upper bound for the maximum over an issued window. The state of one
    epoch, model and recipe is a record with the dict's fields; scores are floats, the working level is an integer in
    units of 1e-8, so ranks and level updates are exact. *)
From Stdlib Require Import SpecFloat.
From S2P Require Import Prelude Float64 Sha256 Json JsonRoundtrip Identity Timestamps Contracts Maturation Store.

Definition STATE_SCHEMA : string := "window-calibration/v1".
Definition E8 : Z := 100000000.
Definition BPS : Z := 10000.

Record CalibrationPolicy := {
  p_lead_seconds : Z; p_nominal_bps : Z; p_eta_bps : Z; p_min_bps : Z; p_max_bps : Z; p_min_windows : Z;
  p_max_scores : Z; p_retention_seconds : Z;
}.

(** [__post_init__]. *)
Definition policy_ok (p : CalibrationPolicy) : bool :=
  (0 <? p_min_bps p) && (p_min_bps p <=? p_nominal_bps p) && (p_nominal_bps p <=? p_max_bps p) && (p_max_bps p <? BPS)
  && (0 <? p_lead_seconds p) && (1 <=? p_min_windows p) && (p_min_windows p <=? p_max_scores p)
  && (0 <=? p_eta_bps p) && (p_eta_bps p <=? BPS).

Definition mk_policy (p : CalibrationPolicy) : res CalibrationPolicy :=
  raise_if negb (policy_ok p) with PyValueError "inconsistent calibration policy" ;; Ok p.

Definition from_settings (settings : ForecastSettings) (lead_seconds : Z) : res CalibrationPolicy :=
  let c := calibration settings in
  mk_policy {| p_lead_seconds := lead_seconds; p_nominal_bps := miscoverage_bps (risk settings); p_eta_bps := eta_bps c;
               p_min_bps := min_miscoverage_bps c; p_max_bps := max_miscoverage_bps c; p_min_windows := min_windows c;
               p_max_scores := max_scores c; p_retention_seconds := retention_days c * 86400 |}.

Definition nominal_ratio (p : CalibrationPolicy) : f64 := idiv (p_nominal_bps p) BPS.

Definition rank (n a_e8 : Z) : Z := - (- (n + 1) * (E8 - a_e8) / E8).

Definition in_cohort (decision_origin lead_seconds : Z) : bool := decision_origin mod lead_seconds =? 0.

Definition pinball_rps (y upper miscoverage : f64) : f64 :=
  let tau := f1 ⊖ miscoverage in
  if upper ≤ᶠ y then tau ⊗ (y ⊖ upper) else (f1 ⊖ tau) ⊗ (upper ⊖ y).

(** * The state *)

Record all_counts := { al_scored : Z; al_unscorable : Z; al_bounded : Z; al_covered : Z; al_abs_error_sum_rps : f64 }.
Record gate_counts := { ga_scored : Z; ga_unscorable : Z; ga_bounded : Z; ga_covered : Z; ga_pinball_sum_rps : f64 }.

Record cal_state := {
  s_epoch : string; s_model : string; s_recipe : string; a_e8 : Z; scores : list (Z * f64); last_seq : Z;
  newest_window_end : option Z; all_ : all_counts; gate : gate_counts; level_updates : Z; at_bound : Z;
}.

Definition initial (policy : CalibrationPolicy) (epoch model recipe : string) : cal_state := {|
  s_epoch := epoch; s_model := model; s_recipe := recipe; a_e8 := p_nominal_bps policy * BPS; scores := [];
  last_seq := 0; newest_window_end := None;
  all_ := {| al_scored := 0; al_unscorable := 0; al_bounded := 0; al_covered := 0; al_abs_error_sum_rps := f0 |};
  gate := {| ga_scored := 0; ga_unscorable := 0; ga_bounded := 0; ga_covered := 0; ga_pinball_sum_rps := f0 |};
  level_updates := 0; at_bound := 0 |}.

Record CalibrationRecord := {
  r_seq : Z; r_epoch : string; r_model : string; r_recipe : json; r_issuance_id : string; r_decision_origin : Z;
  r_window_end : Z; r_base_rps : f64; r_upper_rps : option f64; r_status : string; r_y_rps : option f64;
}.

(** * From the journal *)

(** A dict, for the operations a dict allows. *)
Definition as_dict (v : json) : res (list (string * json)) := match v with JObj o => Ok o | _ => Raise PyTypeError end.

Definition py_len (v : json) : res Z :=
  match v with
  | JArr l => Ok (Z.of_nat (length l)) | JObj o => Ok (Z.of_nat (length o)) | JStr s => Ok (Z.of_nat (String.length s))
  | _ => Raise PyTypeError
  end.

(** [list(range(lo, hi, dt))]: empty for a negative step here ([lo < hi] fails to be decreasing), refused for zero. *)
Definition py_range (lo hi : Z) (dt : json) : res (list Z) :=
  match dt with
  | JInt d => if d =? 0 then Raise (PyValueError "range() arg 3 must not be zero")
              else if d <? 0 then Ok ((λ k, lo + Z.of_nat k * d) <$> seq 0 (Z.to_nat (ceil_div (lo - hi) (- d))))
              else Ok (range lo hi d)
  | JBool true => Ok (range lo hi 1)
  | JBool false => Raise (PyValueError "range() arg 3 must not be zero")
  | _ => Raise PyTypeError
  end.

(** [except (ValueError, KeyError, TypeError)] around [candidate]. *)
Definition candidate_or_refuse (b : list (string * json)) (model : string) : res (list (string * json)) :=
  match candidate b model with
  | Raise (PyValueError _ | PyKeyError | PyTypeError) => Raise (CalibrationError "no candidate")
  | r => r
  end.

Definition from_journal (issuance : Issuance) (outcome : Outcome) : res CalibrationRecord :=
  jb ← i_payload issuance;
  jp ← o_payload outcome;
  let key := i_key issuance in
  let origin := k_decision_origin key in
  raise_if negb (bool_decide (o_issuance_id outcome = i_issuance_id issuance))
           || negb (bool_decide (o_evidence_key outcome = k_evidence_key key))
           || negb (o_window_end outcome =? k_window_end key)
    with CalibrationError "the outcome does not belong to this issuance" ;;
  targets ← getitem "target_timestamps" jb;
  dt ← getitem "sample_interval_seconds" jb;
  b_origin ← getitem "decision_origin" jb;
  raise_if negb (py_eq b_origin (JInt origin))
    with CalibrationError "the issuance's targets are not exactly its window's grid" ;;
  dtz ← (match dt with JInt d => Ok d | JBool b => Ok (if b then 1 else 0) | _ => Raise PyTypeError end);
  grid ← py_range (origin + dtz) (k_window_end key + 1) dt;
  raise_if negb (py_eq targets (JArr (JInt <$> grid)))
    with CalibrationError "the issuance's targets are not exactly its window's grid" ;;
  raise_if negb (bool_decide (o_model outcome ∈ i_models issuance))
    with CalibrationError "the issuance expected no outcome for model" ;;
  b ← as_dict jb;
  c ← candidate_or_refuse b (o_model outcome);
  point ← getitem "point_rps" (JObj c);
  n ← py_len point;
  let count := Z.of_nat (length grid) in
  raise_if negb (n =? count) with CalibrationError "the candidate's trajectory does not cover the issued targets" ;;
  p ← as_dict jp;
  text ← canonical_json targets;
  raise_if negb (py_eq (oget "targets" p) (JInt count)) || negb (py_eq (oget "targets_sha256" p) (JStr (sha256_hex text)))
    with CalibrationError "the outcome was not matured on the issued target grid" ;;
  base ← getitem "base_window_max_rps" (JObj c);
  upper ← getitem "upper_window_max_rps" (JObj c);
  let scored := bool_decide (o_status outcome = "scored") in
  _ ← (if scored
       then pb ← getitem "base_window_max_rps" jp; pu ← getitem "upper_window_max_rps" jp;
            raise_if negb (py_eq pb base) || negb (py_eq pu upper)
              with CalibrationError "the outcome was not scored against the bound that was issued" ;; Ok ()
       else Ok ());
  recipe ← getitem "recipe" (JObj c);
  fb ← rate_of base;
  fu ← opt_rate_of upper;
  fy ← (if scored then y ← getitem "y_window_max_rps" jp; Some <$> rate_of y else Ok None);
  Ok {| r_seq := o_seq outcome; r_epoch := k_evidence_key key; r_model := o_model outcome; r_recipe := recipe;
        r_issuance_id := i_issuance_id issuance; r_decision_origin := origin; r_window_end := k_window_end key;
        r_base_rps := fb; r_upper_rps := fu; r_status := o_status outcome; r_y_rps := fy |}.

(** * The bound *)

Definition buffered_scores (state : cal_state) (policy : CalibrationPolicy) (now_s : Z) : list f64 :=
  last_n (p_max_scores policy)
    (filter (λ x, (now_s - p_retention_seconds policy <? x.1) && (x.1 <=? now_s)) (scores state)).*2.

(** The details of a bound. *)
Record bound_info := {
  bi_n : Z; bi_rank : Z; bi_working_miscoverage : f64; bi_unavailable : option string; bi_quantile_rps : option f64;
}.

Definition upper_bound (state : cal_state) (policy : CalibrationPolicy) (base_rps : f64) (now_s : Z)
    : res (option f64 * bound_info) :=
  raise_if negb (is_finite base_rps) || (base_rps <ᶠ f0)
    with CalibrationError "the point maximum must be a finite, non-negative rate" ;;
  let sorted := sort_by fle (buffered_scores state policy now_s) in
  let n := Z.of_nat (length sorted) in
  let k := rank n (a_e8 state) in
  let info why q := {| bi_n := n; bi_rank := k; bi_working_miscoverage := idiv (a_e8 state) E8;
                       bi_unavailable := why; bi_quantile_rps := q |} in
  if n <? p_min_windows policy then Ok (None, info (Some "CalibrationInsufficient") None)
  else if n <? k then Ok (None, info (Some "RankOverflow") None)
  else q ← py_nth sorted (k - 1); Ok (Some (fmax f0 (base_rps ⊕ q)), info None (Some q)).

(** * Applying a record *)

Definition score_order (x y : Z * f64) : bool := x.1 <=? y.1.

(** [newest = max(window_end, state["newest_window_end"] or window_end)] *)
Definition newest_end (state : cal_state) (window_end : Z) : Z :=
  Z.max window_end (match newest_window_end state with Some n => if n =? 0 then window_end else n | None => window_end end).

Definition note_score (state : cal_state) (policy : CalibrationPolicy) (window_end : Z) (e : f64) : list (Z * f64) :=
  last_n (p_max_scores policy)
    (filter (λ x, newest_end state window_end - p_retention_seconds policy <? x.1)
            (sort_by score_order (scores state ++ [(window_end, e)]))).

(** The level after a bounded gate window, before clipping. *)
Definition moved_level (state : cal_state) (policy : CalibrationPolicy) (miss : Z) : Z :=
  a_e8 state + p_eta_bps policy * (p_nominal_bps policy - miss * BPS).

Definition b2z (b : bool) : Z := if b then 1 else 0.

Definition apply (state : cal_state) (record : CalibrationRecord) (policy : CalibrationPolicy) : res cal_state :=
  raise_if negb (bool_decide (r_epoch record = s_epoch state))
    with CalibrationError "the record belongs to another calibration epoch" ;;
  raise_if negb (bool_decide (r_model record = s_model state)) || negb (py_eq (r_recipe record) (JStr (s_recipe state)))
    with CalibrationError "the record belongs to another model or recipe" ;;
  if r_seq record <=? last_seq state then Ok state else
  raise_if negb (bool_decide (r_status record ∈ OUTCOME_STATUSES)) with CalibrationError "unknown outcome status" ;;
  let cohort := in_cohort (r_decision_origin record) (p_lead_seconds policy) in
  let al := all_ state in
  let ga := gate state in
  if bool_decide (r_status record = "unscorable") then
    Ok {| s_epoch := s_epoch state; s_model := s_model state; s_recipe := s_recipe state; a_e8 := a_e8 state;
          scores := scores state; last_seq := r_seq record; newest_window_end := newest_window_end state;
          all_ := {| al_scored := al_scored al; al_unscorable := al_unscorable al + 1; al_bounded := al_bounded al;
                     al_covered := al_covered al; al_abs_error_sum_rps := al_abs_error_sum_rps al |};
          gate := {| ga_scored := ga_scored ga; ga_unscorable := ga_unscorable ga + b2z cohort;
                     ga_bounded := ga_bounded ga; ga_covered := ga_covered ga;
                     ga_pinball_sum_rps := ga_pinball_sum_rps ga |};
          level_updates := level_updates state; at_bound := at_bound state |}
  else
  let b := r_base_rps record in
  let u := r_upper_rps record in
  match r_y_rps record with
  | None => Raise (CalibrationError "a scored record carries a finite Y")
  | Some y =>
  raise_if negb (is_finite y) with CalibrationError "a scored record carries a finite Y" ;;
  let bounded := bool_decide (is_Some u) in
  let covered := match u with Some u => y ≤ᶠ u | None => false end in
  let al' := {| al_scored := al_scored al + 1; al_unscorable := al_unscorable al;
                al_bounded := al_bounded al + b2z bounded; al_covered := al_covered al + b2z covered;
                al_abs_error_sum_rps := al_abs_error_sum_rps al ⊕ fabs (y ⊖ b) |} in
  if negb cohort then
    Ok {| s_epoch := s_epoch state; s_model := s_model state; s_recipe := s_recipe state; a_e8 := a_e8 state;
          scores := scores state; last_seq := r_seq record; newest_window_end := newest_window_end state;
          all_ := al'; gate := ga; level_updates := level_updates state; at_bound := at_bound state |}
  else
  let scores' := note_score state policy (r_window_end record) (y ⊖ b) in
  let newest := newest_end state (r_window_end record) in
  match u with
  | None =>
    Ok {| s_epoch := s_epoch state; s_model := s_model state; s_recipe := s_recipe state; a_e8 := a_e8 state;
          scores := scores'; last_seq := r_seq record; newest_window_end := Some newest; all_ := al';
          gate := {| ga_scored := ga_scored ga + 1; ga_unscorable := ga_unscorable ga; ga_bounded := ga_bounded ga;
                     ga_covered := ga_covered ga; ga_pinball_sum_rps := ga_pinball_sum_rps ga |};
          level_updates := level_updates state; at_bound := at_bound state |}
  | Some u =>
    let miss := b2z (u <ᶠ y) in
    let a := moved_level state policy miss in
    let lo := p_min_bps policy * BPS in
    let hi := p_max_bps policy * BPS in
    Ok {| s_epoch := s_epoch state; s_model := s_model state; s_recipe := s_recipe state;
          a_e8 := Z.min hi (Z.max lo a);
          scores := scores'; last_seq := r_seq record; newest_window_end := Some newest; all_ := al';
          gate := {| ga_scored := ga_scored ga + 1; ga_unscorable := ga_unscorable ga;
                     ga_bounded := ga_bounded ga + 1; ga_covered := ga_covered ga + (1 - miss);
                     ga_pinball_sum_rps := ga_pinball_sum_rps ga ⊕ pinball_rps y u (nominal_ratio policy) |};
          level_updates := level_updates state + 1; at_bound := at_bound state + b2z ((a <=? lo) || (hi <=? a)) |}
  end
  end.

(** [coverage]: (covered, bounded, ratio). *)
Definition coverage (state : cal_state) (cohort : string) : res (Z * Z * option f64) :=
  let answer c b := Ok (c, b, if b =? 0 then None else Some (idiv c b)) in
  if bool_decide (cohort = "gate") then answer (ga_covered (gate state)) (ga_bounded (gate state))
  else if bool_decide (cohort = "all") then answer (al_covered (all_ state)) (al_bounded (all_ state))
  else Raise PyKeyError.

(** * Policies *)

Lemma from_settings_ok s lead p : from_settings s lead = Ok p → policy_ok p = true.
Proof. unfold from_settings, mk_policy. intros H. ok_inv H. by bool_prop; subst. Qed.

(** What [policy_ok] says, in arithmetic. *)
Record policy_wf (p : CalibrationPolicy) : Prop := {
  pw_min : 0 < p_min_bps p; pw_nominal : p_min_bps p ≤ p_nominal_bps p ≤ p_max_bps p; pw_max : p_max_bps p < BPS;
  pw_lead : 0 < p_lead_seconds p; pw_windows : 1 ≤ p_min_windows p ≤ p_max_scores p; pw_eta : 0 ≤ p_eta_bps p ≤ BPS;
}.

Lemma policy_wf_ok p : policy_ok p = true → policy_wf p.
Proof. unfold policy_ok. intros H. bool_prop. split; lia. Qed.

(** * The invariant *)

Record counts_ok (s : cal_state) : Prop := {
  co_gate : 0 ≤ ga_covered (gate s) ≤ ga_bounded (gate s) ∧ ga_bounded (gate s) ≤ ga_scored (gate s);
  co_all : 0 ≤ al_covered (all_ s) ≤ al_bounded (all_ s) ∧ al_bounded (all_ s) ≤ al_scored (all_ s);
  co_sub : ga_covered (gate s) ≤ al_covered (all_ s) ∧ ga_bounded (gate s) ≤ al_bounded (all_ s)
           ∧ ga_scored (gate s) ≤ al_scored (all_ s) ∧ 0 ≤ ga_unscorable (gate s) ≤ al_unscorable (all_ s);
  co_updates : level_updates s = ga_bounded (gate s) ∧ 0 ≤ at_bound s ≤ level_updates s;
}.

Record state_ok (p : CalibrationPolicy) (s : cal_state) : Prop := {
  st_level : p_min_bps p * BPS ≤ a_e8 s ≤ p_max_bps p * BPS;
  st_sorted : StronglySorted Z.le (scores s).*1;
  st_size : Z.of_nat (length (scores s)) ≤ p_max_scores p;
  st_ends : match newest_window_end s with
            | Some n => 0 < n ∧ Forall (λ x, n - p_retention_seconds p < x.1 ≤ n) (scores s)
            | None => scores s = []
            end;
  st_scores : Forall (λ x, is_nan x.2 = false) (scores s);
  st_counts : counts_ok s;
}.

(** A record as the journal gives it: a window of positive times, a finite base, a bound that is a number. *)
Record record_ok (r : CalibrationRecord) : Prop := {
  rk_end : 0 < r_window_end r;
  rk_base : is_finite (r_base_rps r) = true;
  rk_upper : ∀ u, r_upper_rps r = Some u → is_nan u = false;
}.

Lemma initial_ok p epoch model recipe : policy_wf p → state_ok p (initial p epoch model recipe).
Proof. intros []. split; [cbn; unfold BPS; lia|constructor|cbn; lia|done|constructor|split; cbn; lia]. Qed.

Lemma last_n_fmap {A B} (f : A → B) n l : f <$> last_n n l = last_n n (f <$> l).
Proof. unfold last_n. rewrite length_fmap. destruct (n =? 0), (n <? 0); by rewrite ?fmap_drop. Qed.

Lemma score_order_sorted l : StronglySorted Z.le (sort_by score_order l).*1.
Proof.
  apply SS_fmap. assert (StronglySorted (λ a b, score_order a b = true) (sort_by score_order l)) as H.
  { apply (sort_by_sorted score_order (λ _, True)); [| |by apply Forall_forall]; unfold score_order.
    - intros x y _ _. rewrite !Z.leb_le. lia.
    - intros x y z _ _ _. rewrite !Z.leb_le. lia. }
  induction H as [|x t _ IH Hx]; constructor; [done|]. eapply Forall_impl; [exact Hx|]. intros y. unfold score_order. by rewrite Z.leb_le.
Qed.

Lemma elem_of_note_score s p we e x : x ∈ note_score s p we e →
  (x ∈ scores s ∨ x = (we, e)) ∧ newest_end s we - p_retention_seconds p < x.1.
Proof.
  intros [Hf Hx]%elem_of_last_n%list_elem_of_filter. apply Is_true_true, Z.ltb_lt in Hf. split; [|done].
  rewrite elem_of_sort_by, elem_of_app, list_elem_of_singleton in Hx. done.
Qed.

Lemma note_score_sorted s p we e : StronglySorted Z.le (note_score s p we e).*1.
Proof.
  unfold note_score. rewrite last_n_fmap. eapply SS_suffix; [apply last_n_suffix|]. apply SS_fmap_filter, score_order_sorted.
Qed.

Lemma newest_end_ok p s we : state_ok p s → 0 < we →
  we ≤ newest_end s we ∧ ∀ n, newest_window_end s = Some n → n ≤ newest_end s we.
Proof.
  intros Hs Hw. unfold newest_end. pose proof (st_ends _ _ Hs) as He. destruct (newest_window_end s) as [n|]; [|split; [lia|done]].
  destruct He as [Hn _]. rewrite (proj2 (Z.eqb_neq n 0)) by lia. split; [lia|]. intros ? [= <-]. lia.
Qed.

(** * Applying a record keeps the invariant *)

(** The three outcomes of a record that is applied. *)
Lemma apply_cases s r p s' : apply s r p = Ok s' →
  r_epoch r = s_epoch s ∧ r_model r = s_model s ∧ py_eq (r_recipe r) (JStr (s_recipe s)) = true ∧
  (r_seq r ≤ last_seq s ∧ s' = s ∨
   last_seq s < r_seq r ∧ last_seq s' = r_seq r ∧ s_epoch s' = s_epoch s ∧ s_model s' = s_model s ∧ s_recipe s' = s_recipe s).
Proof.
  unfold apply. intros H. ok_inv H. bool_prop. split_and!; [done..|].
  destruct (Z.leb_spec (r_seq r) (last_seq s)); [left; by injection H as <-|right].
  ok_inv H. bool_prop. case_bool_decide; [by injection H as <-|].
  destruct (r_y_rps r) as [y|]; [|discriminate H]. ok_inv H. destruct (in_cohort _ _); cbn [negb] in H; [|by injection H as <-].
  destruct (r_upper_rps r); by injection H as <-.
Qed.

Lemma apply_ok p s r s' : policy_wf p → record_ok r → state_ok p s → apply s r p = Ok s' → state_ok p s'.
Proof.
  intros [] [] Hs. pose proof (newest_end_ok p s (r_window_end r) Hs rk_end0) as [Hn1 Hn2].
  unfold apply. intros H. ok_inv H. destruct (r_seq r <=? last_seq s); [by injection H as <-|].
  destruct Hs as [Hl Hso Hsz He Hsc [[] [] (? & ? & ? & ?) []]].
  ok_inv H. case_bool_decide; [injection H as <-; split; try done; split; cbn; unfold b2z; try done; try (destruct (in_cohort _ _); lia)|].
  destruct (r_y_rps r) as [y|]; [|discriminate H]. ok_inv H. bool_prop.
  set (we := r_window_end r) in *. set (e := y ⊖ r_base_rps r) in *.
  assert (is_nan e = false) as Hnan by (by apply fsub_not_nan).
  assert (Z.of_nat (length (note_score s p we e)) ≤ p_max_scores p) as Hsize.
  { pose proof (last_n_length (p_max_scores p) (filter (λ x, newest_end s we - p_retention_seconds p <? x.1)
      (sort_by score_order (scores s ++ [(we, e)])))) as Hln. unfold note_score. lia. }
  assert (Forall (λ x, newest_end s we - p_retention_seconds p < x.1 ≤ newest_end s we) (note_score s p we e)) as Hends.
  { apply Forall_forall. intros x [Hx ?]%elem_of_note_score. split; [done|]. destruct Hx as [Hx| ->]; [|done].
    destruct (newest_window_end s) as [n|]; [|rewrite He in Hx; by apply elem_of_nil in Hx].
    destruct He as [_ He]. rewrite Forall_forall in He. specialize (He x Hx). specialize (Hn2 n eq_refl). lia. }
  assert (Forall (λ x, is_nan x.2 = false) (note_score s p we e)) as Hnans.
  { apply Forall_forall. intros x [[Hx| ->] _]%elem_of_note_score; [|done]. rewrite Forall_forall in Hsc. by apply Hsc. }
  pose proof (note_score_sorted s p we e) as Hsorted.
  destruct (in_cohort _ _); cbn [negb] in H.
  2:{ injection H as <-. split; try done. split; cbn; try done; destruct (r_upper_rps r) as [u|]; cbn; try destruct (y ≤ᶠ u); cbn; lia. }
  destruct (r_upper_rps r) as [u|]; injection H as <-.
  - pose proof (flt_not_le u y (rk_upper0 u eq_refl) ltac:(by apply finite_not_nan)) as Hf.
    split; cbn [a_e8 scores newest_window_end]; try done; [unfold BPS; lia|split; [lia|done]|].
    split; cbn; rewrite ?Hf; unfold b2z; destruct (y ≤ᶠ u); cbn; repeat case_match; lia.
  - split; cbn [a_e8 scores newest_window_end]; try done; [split; [lia|done]|]. split; cbn; lia.
Qed.

(** Folding a journal's records. *)
Definition apply_all (p : CalibrationPolicy) (s : cal_state) (rs : list CalibrationRecord) : res cal_state :=
  foldM (λ s r, apply s r p) s rs.

Lemma apply_all_ok p rs s0 s : policy_wf p → Forall record_ok rs → state_ok p s0 → apply_all p s0 rs = Ok s → state_ok p s.
Proof.
  intros Hp Hrs. revert s0. unfold apply_all. induction Hrs as [|r t Hr _ IH]; intros s0 H0 H; cbn in H; [by injection H as <-|].
  ok_inv H. eapply IH; [|exact H]. by eapply apply_ok.
Qed.

(** C32: Whatever the records, in whatever order, with replays: from a new state, the working level stays within the
    policy's bounds, the buffer is sorted by window end, holds at most [max_scores] scores, all of them numbers and all
    within the retention before the newest window, and the counters agree: covered windows are bounded, bounded ones are
    scored, every gate window is counted among all windows, and the level was updated once per bounded gate window. *)
Theorem calibration_invariant p epoch model recipe rs s :
  policy_ok p = true → Forall record_ok rs → apply_all p (initial p epoch model recipe) rs = Ok s → state_ok p s.
Proof. intros Hp%policy_wf_ok Hrs. apply apply_all_ok; [done..|]. by apply initial_ok. Qed.

(** * Exactly once *)

Lemma apply_all_seq p rs s s' : apply_all p s rs = Ok s' →
  last_seq s ≤ last_seq s' ∧ s_epoch s' = s_epoch s ∧ s_model s' = s_model s ∧ s_recipe s' = s_recipe s ∧
  Forall (λ r, r_seq r ≤ last_seq s' ∧ r_epoch r = s_epoch s ∧ r_model r = s_model s ∧
               py_eq (r_recipe r) (JStr (s_recipe s)) = true) rs.
Proof.
  revert s. induction rs as [|r t IH]; intros s H; cbn in H; [injection H as <-; split_and!; [lia|done..|constructor]|].
  ok_inv H. apply IH in H as (Hl & He & Hm & Hr & Hf).
  match goal with E : apply s r p = Ok _ |- _ => apply apply_cases in E as (E1 & E2 & E3 & [[? ->]|(? & ? & E4 & E5 & E6)]) end.
  - split_and!; [lia|done..|]. constructor; [split_and!; [lia|done..]|done].
  - rewrite E4, E5, E6 in *. split_and!; [lia|done..|]. constructor; [split_and!; [lia|done..]|done].
Qed.

Lemma apply_seen p s r : r_seq r ≤ last_seq s → r_epoch r = s_epoch s → r_model r = s_model s →
  py_eq (r_recipe r) (JStr (s_recipe s)) = true → apply s r p = Ok s.
Proof.
  intros Hs He Hm Hr. unfold apply. rewrite !bool_decide_true, Hr by done. cbn. by rewrite (proj2 (Z.leb_le _ _) Hs).
Qed.

(** Exactly once: after any fold, replaying any of the records already folded, in any order and any number of times,
    leaves the state exactly as it was: a replayed or retried outcome never updates the level or the buffer twice. *)
Theorem apply_exactly_once p s rs s' replay :
  apply_all p s rs = Ok s' → replay ⊆ rs → apply_all p s' replay = Ok s'.
Proof.
  intros H Hr. apply apply_all_seq in H as (_ & He & Hm & Hc & Hf). rewrite Forall_forall in Hf.
  unfold apply_all. induction replay as [|r t IH]; [done|]. cbn.
  destruct (Hf r (Hr r ltac:(left))) as (? & ? & ? & ?).
  rewrite apply_seen by congruence. apply IH. intros x Hx. apply Hr. by right.
Qed.

(** * The level *)

Lemma statuses_cases st : st ∈ OUTCOME_STATUSES → st = "scored" ∨ st = "unscorable".
Proof. intros [->|[->|[]%elem_of_nil]%elem_of_cons]%elem_of_cons; auto. Qed.

(** The working level moves only when a window with a bound that was issued matures in the cohort, by the adaptive
    step of its miss or cover, clipped to the policy's bounds: a miss never raises it, a covered window never lowers it,
    and an unscorable window, a window issued without a bound or one outside the cohort leaves it alone. *)
Theorem level_moves p s r s' :
  policy_ok p = true → state_ok p s → apply s r p = Ok s' →
  match r_upper_rps r, r_y_rps r with
  | Some u, Some y =>
      if bool_decide (r_status r = "scored") && in_cohort (r_decision_origin r) (p_lead_seconds p)
         && (last_seq s <? r_seq r)
      then a_e8 s' = Z.min (p_max_bps p * BPS) (Z.max (p_min_bps p * BPS) (moved_level s p (b2z (u <ᶠ y)))) ∧
           (if u <ᶠ y then a_e8 s' ≤ a_e8 s else a_e8 s ≤ a_e8 s')
      else a_e8 s' = a_e8 s
  | _, _ => a_e8 s' = a_e8 s
  end.
Proof.
  intros Hp%policy_wf_ok Hs H. destruct Hp. destruct Hs as [Hl _ _ _ _ _].
  unfold apply in H. ok_inv H. rewrite Z.leb_antisym in H. destruct (last_seq s <? r_seq r); cbn [negb] in H.
  2:{ injection H as <-. rewrite andb_false_r. by repeat case_match. }
  ok_inv H. bool_prop. case_bool_decide as Hu.
  { injection H as <-. rewrite Hu. cbn. by repeat case_match. }
  destruct (r_y_rps r) as [y|]; [|discriminate H]. ok_inv H.
  rewrite bool_decide_true by (match goal with E : _ ∈ OUTCOME_STATUSES |- _ => apply statuses_cases in E as [|]; [done|contradiction] end).
  destruct (in_cohort _ _); cbn [negb andb] in *.
  2:{ injection H as <-. by destruct (r_upper_rps r). }
  destruct (r_upper_rps r) as [u|]; injection H as <-; [|done]. cbn [a_e8]. split; [done|].
  unfold moved_level, b2z, BPS in *. destruct (u <ᶠ y); nia.
Qed.

(** * The bound *)

Lemma buffered_sub s p now e : e ∈ buffered_scores s p now → ∃ x, x ∈ scores s ∧ x.2 = e ∧
  now - p_retention_seconds p < x.1 ≤ now.
Proof.
  unfold buffered_scores. intros (x & -> & Hx)%elem_of_last_n%list_elem_of_fmap.
  apply list_elem_of_filter in Hx as [Hf Hx]. apply Is_true_true in Hf. bool_prop. eauto.
Qed.

(** Sorting numbers: at every index, what is left of it is not above and what is right of it is not below. *)
Lemma sorted_scores l : Forall (λ e, is_nan e = false) l → StronglySorted (λ a b, fle a b = true) (sort_by fle l).
Proof.
  apply (sort_by_sorted fle (λ e, is_nan e = false)); [apply fle_total|intros x y z _ _ _; apply fle_trans].
Qed.

Lemma SS_split {A} (R : A → A → Prop) l i x : StronglySorted R l → l !! i = Some x →
  Forall (λ y, R y x) (take i l) ∧ Forall (R x) (drop (S i) l).
Proof.
  intros Hs. revert i. induction Hs as [|y t Hs IH Hy]; intros i Hi; [done|]. destruct i as [|i]; cbn in *.
  - injection Hi as <-. split; [constructor|by rewrite drop_0].
  - destruct (IH i Hi) as [H1 H2]. split; [|done]. constructor; [|done]. rewrite Forall_forall in Hy. apply Hy.
    by eapply list_elem_of_lookup_2.
Qed.

Lemma rank_spec n a : E8 * (rank n a - 1) < (n + 1) * (E8 - a) ≤ E8 * rank n a.
Proof.
  unfold rank. change (- (- (n + 1) * (E8 - a) / E8)) with (- ((- (n + 1) * (E8 - a)) / E8)).
  replace (- (n + 1) * (E8 - a)) with (- ((n + 1) * (E8 - a))) by lia.
  apply (ceil_div_spec ((n + 1) * (E8 - a)) E8). done.
Qed.

(** [k <= n] exactly when the level can be met by [n] scores. *)
Lemma rank_fits n a : rank n a ≤ n ↔ E8 ≤ (n + 1) * a.
Proof. pose proof (rank_spec n a). unfold E8 in *. split; nia. Qed.

Lemma rank_pos n a : 0 ≤ n → a < E8 → 1 ≤ rank n a.
Proof. intros. pose proof (rank_spec n a). unfold E8 in *. nia. Qed.


(** The settings make the rank feasible. With a policy made from settings the contract accepts, whatever level the
    updates have reached, a bound is issued exactly when the buffer holds [min_windows] usable scores: the rank never
    overflows, so a calibrated forecaster is never silently left without a bound. *)
Theorem bound_available settings lead p s base now u info :
  settings_ok settings → from_settings settings lead = Ok p → state_ok p s → upper_bound s p base now = Ok (u, info) →
  (is_Some u ↔ p_min_windows p ≤ Z.of_nat (length (buffered_scores s p now))) ∧ bi_unavailable info ≠ Some "RankOverflow".
Proof.
  intros Hset Hp Hs H. pose proof (policy_wf_ok _ (from_settings_ok _ _ _ Hp)) as Hw.
  assert (E8 ≤ (p_min_windows p + 1) * a_e8 s) as Hfit.
  { pose proof (so_feasible _ Hset) as Hf. unfold _check_feasible in Hf. ok_inv Hf. bool_prop.
    unfold from_settings, mk_policy in Hp. ok_inv Hp. subst p. cbn in *.
    pose proof (st_level _ _ Hs) as [Hl _]. cbn in Hl. unfold BPS in Hl.
    match goal with E : _rank _ _ ≤ _ |- _ => unfold _rank in E; rename E into Hr end.
    pose proof (pw_windows _ Hw) as [Hmin _]. cbn in Hmin. change Contracts.BPS with 10000 in Hr.
    set (m := min_windows (calibration settings)) in *. set (b := min_miscoverage_bps (calibration settings)) in *.
    pose proof (Z.mul_div_le (- (m + 1) * (10000 - b)) 10000 ltac:(done)).
    assert (10000 ≤ (m + 1) * b) by lia. unfold E8. nia. }
  set (n := Z.of_nat (length (buffered_scores s p now))) in *. destruct Hw.
  unfold upper_bound in H. ok_inv H. rewrite (sort_by_length fle) in H. fold n in H.
  destruct (Z.ltb_spec n (p_min_windows p)) as [Hn|Hn].
  { injection H as <- <-. split; [|done]. split; [by intros []|lia]. }
  destruct (Z.ltb_spec n (rank n (a_e8 s))) as [Hk|Hk].
  { assert (rank n (a_e8 s) ≤ n); [|lia]. apply rank_fits.
    pose proof (st_level _ _ Hs). unfold BPS in *. nia. }
  apply bind_ok in H as (q & _ & H). injection H as <- <-. split; [|done]. split; [lia|eauto].
Qed.

(** * A small epoch

    Windows of ten minutes; each has base 10 and the bound 15 once issued with one, and comes true at 12, 13, ... *)
Definition demo_settings : ForecastSettings := default_settings.
Definition demo_policy : CalibrationPolicy := {|
  p_lead_seconds := 600; p_nominal_bps := 1000; p_eta_bps := 50; p_min_bps := 100; p_max_bps := 2500; p_min_windows := 128;
  p_max_scores := 512; p_retention_seconds := 604800 |}.
Definition demo_record (k : Z) (u : option f64) (y : Z) : CalibrationRecord := {|
  r_seq := k; r_epoch := "epoch"; r_model := "lstm"; r_recipe := JStr "r1"; r_issuance_id := "iss"; r_decision_origin := 600 * k;
  r_window_end := 600 * k + 600; r_base_rps := f64_of_Z 10; r_upper_rps := u; r_status := "scored";
  r_y_rps := Some (f64_of_Z y) |}.
Definition demo_cold : list CalibrationRecord := (λ k, demo_record (Z.of_nat k) None (11 + Z.of_nat k mod 7)) <$> seq 1 128.
Definition demo_miss : CalibrationRecord := demo_record 129 (Some (f64_of_Z 15)) 17.
Definition demo_start : cal_state := initial demo_policy "epoch" "lstm" "r1".
Definition run_demo (rs : list CalibrationRecord) : cal_state :=
  match apply_all demo_policy demo_start rs with Ok s => s | Raise _ => demo_start end.

Lemma demo_record_ok k u y : 0 ≤ k → (∀ x, u = Some x → is_nan x = false) → record_ok (demo_record k u y).
Proof. intros. by split; [cbn; lia|..]. Qed.
Lemma demo_cold_ok : Forall record_ok demo_cold.
Proof. apply Forall_fmap, Forall_forall. intros k _. by apply demo_record_ok; [lia|]. Qed.
Lemma demo_cold_run : apply_all demo_policy demo_start demo_cold = Ok (run_demo demo_cold).
Proof.
  assert (is_ok (apply_all demo_policy demo_start demo_cold) = true) as H by (by vm_compute).
  unfold run_demo. by destruct (apply_all _ _ _).
Qed.
#[local] Opaque run_demo.

Lemma demo_cold_state : state_ok demo_policy (run_demo demo_cold).
Proof. eapply apply_all_ok; [by apply policy_wf_ok|apply demo_cold_ok| |apply demo_cold_run]. apply initial_ok. by apply policy_wf_ok. Qed.

Lemma calibration_invariant_witness : state_ok demo_policy (run_demo demo_cold).
Proof.
  apply (calibration_invariant demo_policy "epoch" "lstm" "r1" demo_cold (run_demo demo_cold));
    [reflexivity|apply demo_cold_ok|apply demo_cold_run].
Defined.

Lemma apply_exactly_once_witness : apply_all demo_policy (run_demo demo_cold) (take 5 demo_cold) = Ok (run_demo demo_cold).
Proof.
  apply (apply_exactly_once demo_policy demo_start demo_cold); [apply demo_cold_run|].
  intros x Hx. apply list_elem_of_lookup in Hx as [i Hx]. apply lookup_take_Some in Hx as [Hx _]. by eapply list_elem_of_lookup_2.
Defined.

(** A miss of the issued bound lowers the level from 10 % by 50 bps of 90 %. *)
Lemma level_moves_witness : ∃ s', apply (run_demo demo_cold) demo_miss demo_policy = Ok s' ∧
  a_e8 s' = 9550000 ∧ a_e8 s' ≤ a_e8 (run_demo demo_cold).
Proof.
  assert (is_ok (apply (run_demo demo_cold) demo_miss demo_policy) = true) as H by (by vm_compute).
  destruct (apply (run_demo demo_cold) demo_miss demo_policy) as [s'|e] eqn:E; [|discriminate H]. exists s'. split; [reflexivity|].
  assert (last_seq (run_demo demo_cold) = 128) as Hl by (by vm_compute).
  pose proof (level_moves demo_policy (run_demo demo_cold) demo_miss s' eq_refl demo_cold_state E) as Hm.
  rewrite Hl in Hm. destruct Hm as [H1 H2]. split; [rewrite H1; by vm_compute|exact H2].
Defined.


Lemma bound_available_witness : ∃ u info, upper_bound (run_demo demo_cold) demo_policy (f64_of_Z 10) 80000 = Ok (u, info) ∧ is_Some u.
Proof.
  assert (is_ok (upper_bound (run_demo demo_cold) demo_policy (f64_of_Z 10) 80000) = true) as H by (by vm_compute).
  assert ((p_min_windows demo_policy <=? Z.of_nat (length (buffered_scores (run_demo demo_cold) demo_policy 80000))) = true)
    as Hn by (by vm_compute). apply Z.leb_le in Hn.
  destruct (upper_bound _ _ _ _) as [[u info]|e] eqn:E; [|discriminate H]. exists u, info. split; [reflexivity|].
  apply (bound_available demo_settings 600 demo_policy (run_demo demo_cold) (f64_of_Z 10) 80000 u info);
    [apply default_settings_ok|reflexivity|apply demo_cold_state|exact E|exact Hn].
Defined.

(** * From the journal *)

Lemma getitem_ok k v x : getitem k v = Ok x → ∃ o, v = JObj o ∧ dget k o = Some x.
Proof. destruct v; try discriminate. cbn. intros H%of_option_ok. eauto. Qed.

Lemma as_dict_ok v o : as_dict v = Ok o → v = JObj o.
Proof. destruct v; try discriminate. cbn. by intros [= ->]. Qed.

(** A calibration record is what was issued and what came true, never a re-computation: it exists only for an outcome
    of that very issuance and a model the issuance expected, matured on the issuance's own grid of targets; its base and
    bound are those of the model's candidate in the committed bundle, its [Y] that of the outcome's payload, and for a
    scored outcome the payload's base and bound equal the candidate's. *)
Theorem from_journal_sound i o r : from_journal i o = Ok r →
  r_seq r = o_seq o ∧ r_epoch r = k_evidence_key (i_key i) ∧ r_model r = o_model o ∧ r_issuance_id r = i_issuance_id i ∧
  r_decision_origin r = k_decision_origin (i_key i) ∧ r_window_end r = k_window_end (i_key i) ∧ r_status r = o_status o ∧
  o_issuance_id o = i_issuance_id i ∧ o_evidence_key o = k_evidence_key (i_key i) ∧ o_window_end o = k_window_end (i_key i) ∧
  o_model o ∈ i_models i ∧
  ∃ b p c targets grid base upper,
    i_payload i = Ok (JObj b) ∧ o_payload o = Ok (JObj p) ∧ candidate b (o_model o) = Ok c ∧
    dget "target_timestamps" b = Some targets ∧ py_eq targets (JArr (JInt <$> grid)) = true ∧
    py_eq (oget "targets" p) (JInt (Z.of_nat (length grid))) = true ∧
    dget "base_window_max_rps" c = Some base ∧ rate_of base = Ok (r_base_rps r) ∧
    dget "upper_window_max_rps" c = Some upper ∧ opt_rate_of upper = Ok (r_upper_rps r) ∧ dget "recipe" c = Some (r_recipe r) ∧
    (o_status o = "scored" → ∃ y pb pu, dget "y_window_max_rps" p = Some y ∧ Some <$> rate_of y = Ok (r_y_rps r) ∧
       dget "base_window_max_rps" p = Some pb ∧ py_eq pb base = true ∧
       dget "upper_window_max_rps" p = Some pu ∧ py_eq pu upper = true) ∧
    (o_status o ≠ "scored" → r_y_rps r = None).
Proof.
  unfold from_journal. intros H. ok_inv H. bool_prop. subst r. cbn.
  repeat match goal with
  | E : as_dict _ = Ok _ |- _ => apply as_dict_ok in E; subst
  | E : getitem _ (JObj _) = Ok _ |- _ => cbn in E; apply of_option_ok in E
  end.
  match goal with E : candidate_or_refuse ?b ?m = Ok ?c |- _ =>
    assert (candidate b m = Ok c) by (unfold candidate_or_refuse in E; destruct (candidate b m) as [|[]]; congruence) end.
  split_and!; try done. do 7 eexists. split_and!; try eassumption.
  - intros Hst. rewrite bool_decide_true in * by done.
    match goal with E : (_ ← getitem "base_window_max_rps" _; _) = Ok _ |- _ => ok_inv E end. bool_prop.
    match goal with E : (_ ← getitem "y_window_max_rps" _; _) = Ok _ |- _ => apply bind_ok in E as (? & ? & E) end.
    repeat match goal with E : getitem _ (JObj _) = Ok _ |- _ => cbn in E; apply of_option_ok in E end.
    do 3 eexists. split_and!; try eassumption.
  - intros Hst. rewrite bool_decide_false in * by done. congruence.
Qed.

Definition demo_text (j : json) : string := match canonical_json j with Ok t => t | Raise _ => EmptyString end.
Definition demo_grid : list Z := [1200; 1800].
Definition demo_issuance : Issuance := {|
  i_seq := 1; i_issuance_id := "iss-1";
  i_key := {| k_evidence_key := zero64; k_decision_origin := 600; k_window_start := 600; k_window_end := 1800;
              k_settings_sha256 := zero64 |};
  i_bundle := demo_text (JObj [("decision_origin", JInt 600); ("sample_interval_seconds", JInt 600);
    ("target_timestamps", JArr (JInt <$> demo_grid));
    ("candidates", JObj [("lstm", JObj [("recipe", JStr "r1"); ("point_rps", JArr [JInt 9; JInt 10]);
      ("base_window_max_rps", JInt 10); ("upper_window_max_rps", JNull)])])]);
  i_bundle_sha256 := zero64; i_models := ["lstm"]; i_committed_at_ms := 0 |}.
Definition demo_outcome_row (targets : Z) : Outcome := {|
  o_seq := 7; o_issuance_id := "iss-1"; o_evidence_key := zero64; o_window_end := 1800; o_model := "lstm";
  o_status := "scored";
  o_payload_bytes := demo_text (JObj [("targets", JInt targets);
    ("targets_sha256", JStr (sha256_hex (demo_text (JArr (JInt <$> demo_grid)))));
    ("y_window_max_rps", JInt 12); ("base_window_max_rps", JInt 10); ("upper_window_max_rps", JNull)]);
  o_payload_sha256 := zero64; o_committed_at_ms := 0 |}.

Example demo_other_grid : from_journal demo_issuance (demo_outcome_row 3)
  = Raise (CalibrationError "the outcome was not matured on the issued target grid").
Proof. by vm_compute. Qed.

Lemma from_journal_witness : ∃ r, from_journal demo_issuance (demo_outcome_row 2) = Ok r ∧ r_epoch r = zero64 ∧ r_window_end r = 1800.
Proof.
  assert (is_ok (from_journal demo_issuance (demo_outcome_row 2)) = true) as H by (by vm_compute).
  destruct (from_journal _ _) as [r|e] eqn:E; [|discriminate H]. exists r. split; [reflexivity|].
  destruct (from_journal_sound _ _ _ E) as (_ & He & _ & _ & _ & Hw & _). split; [exact He|exact Hw].
Defined.
