(* ===== verification/Trust.v ===== *)
(** [forecasting/trust.py]: evidence ledgers, gates with hysteresis, paired challenger evidence, selection and the verdict.
    The keys of a ledger's dicts are the hours and window ends whose decimal text the code stores; a bucket keeps its
    fields by name, integers and floats apart, in dict order (a float sum over the buckets depends on it). *)
From Stdlib Require Import SpecFloat.
From S2P Require Import Prelude Float64 Json Contracts Maturation Store Calibration.

Definition LEDGER_SCHEMA : string := "evidence-ledger/v2".
Definition HOUR : Z := 3600.
Definition DAY : Z := 86400.
Definition FALLBACK_ORDER : list string := ["lstm"; "statistical"; "seasonal_naive"].
Definition NAIVE : string := "seasonal_naive".
Definition MODES : list string := ["prospective"; "replay"].
Definition REASON_ORDER : list string :=
  ["IdentityMismatch"; "StateUnavailable"; "DataUnavailable"; "HistoryInsufficient"; "CalibrationInsufficient";
   "ShadowInsufficient"; "CoverageLow"; "LeadInsufficient"; "ReplayGateMissing"; "Ready"].
Definition REQUIRED_HISTORY_SECONDS : list (string * Z) := [("seasonal_naive", DAY); ("statistical", 7 * DAY)].

(** [_FIELDS], the integer ones and [_FLOATS]. *)
Definition _INTS : list string :=
  ["iss"; "g_iss"; "sc"; "un"; "g_sc"; "g_un"; "a_bd"; "a_cv"; "g_bd"; "g_cv"; "n_step"; "r_iss"; "r_sc"; "r_un"; "r_bd";
   "r_cv"].
Definition _FLOATS : list string := ["pin"; "abs"; "bias"; "st0"; "st1"; "st2"].

(** * Evidence records *)

Record EvidenceRecord := {
  cal : CalibrationRecord; mode : string; committed_at_ms : Z; step_abs_errors : option (f64 * f64 * f64);
}.

Definition as_list (v : json) : res (list json) := match v with JArr l => Ok l | _ => Raise PyTypeError end.

(** [abs(pts[i] - ys[i])] *)
Definition step_error (pts ys : list json) (i : Z) : res f64 :=
  p ← py_nth pts i; y ← py_nth ys i; fp ← rate_of p; fy ← rate_of y; Ok (fabs (fp ⊖ fy)).

Definition evidence_from_journal (issuance : Issuance) (outcome : Outcome) : res EvidenceRecord :=
  rec ← from_journal issuance outcome;
  jb ← i_payload issuance; b ← as_dict jb;
  jp ← o_payload outcome; p ← as_dict jp;
  md ← (match oget "evidence_mode" b with
        | JStr m => if bool_decide (m ∈ MODES) then Ok m else Raise (TrustError "the issuance does not declare its evidence mode")
        | _ => Raise (TrustError "the issuance does not declare its evidence mode") end);
  steps ← (if bool_decide (o_status outcome = "scored") then
             c ← candidate b (o_model outcome);
             jpts ← getitem "point_rps" (JObj c); pts ← as_list jpts;
             jys ← getitem "values" (JObj p); ys ← as_list jys;
             raise_if negb (length pts =? length ys)%nat
               with TrustError "the outcome's values do not match the issued trajectory" ;;
             let n := Z.of_nat (length ys) in
             e0 ← step_error pts ys 0; e1 ← step_error pts ys (n / 2); e2 ← step_error pts ys (n - 1);
             Ok (Some (e0, e1, e2))
           else Ok None);
  Ok {| cal := rec; mode := md; committed_at_ms := o_committed_at_ms outcome; step_abs_errors := steps |}.

(** * Ledgers *)

Record bucket := { ints : list (string * Z); floats : list (string * f64) }.

Definition new_bucket : bucket := {| ints := (λ f, (f, 0)) <$> _INTS; floats := (λ f, (f, f0)) <$> _FLOATS |}.
Definition bint (f : string) (b : bucket) : Z := or_default 0 (dget f (ints b)).
Definition bfloat (f : string) (b : bucket) : f64 := or_default f0 (dget f (floats b)).
Definition bump (f : string) (n : Z) (b : bucket) : bucket :=
  {| ints := dset f (bint f b + n) (ints b); floats := floats b |}.
Definition fbump (f : string) (x : f64) (b : bucket) : bucket :=
  {| ints := ints b; floats := dset f (bfloat f b ⊕ x) (floats b) |}.

Record totals := {
  t_issued : Z; t_covered : Z; t_missed : Z; t_unscorable : Z; t_prospective_gate_bounded : Z; t_replay_gate_bounded : Z;
}.

Record ledger := {
  l_epoch : string; l_model : string; l_recipe : string; interval_s : Z; buckets : list (Z * bucket);
  pending : list (Z * Z); recent : list Z; consecutive_misses : Z; first_prospective_s : option Z;
  first_issue_s : option Z; last_prospective_outcome_s : option Z; last_outcome_seq : Z; last_issuance_seq : Z;
  newest_s : option Z; l_totals : totals;
}.

Definition new_ledger (epoch model recipe : string) (interval : Z) : ledger := {|
  l_epoch := epoch; l_model := model; l_recipe := recipe; interval_s := interval; buckets := []; pending := [];
  recent := []; consecutive_misses := 0; first_prospective_s := None; first_issue_s := None;
  last_prospective_outcome_s := None; last_outcome_seq := 0; last_issuance_seq := 0; newest_s := None;
  l_totals := {| t_issued := 0; t_covered := 0; t_missed := 0; t_unscorable := 0; t_prospective_gate_bounded := 0;
                 t_replay_gate_bounded := 0 |} |}.

(** The bucket of a time, new when the hour has none yet. *)
Definition _bucket (l : ledger) (t : Z) : bucket := or_default new_bucket (dget (t / HOUR) (buckets l)).

Definition set_buckets (bs : list (Z * bucket)) (l : ledger) : ledger := {|
  l_epoch := l_epoch l; l_model := l_model l; l_recipe := l_recipe l; interval_s := interval_s l; buckets := bs;
  pending := pending l; recent := recent l; consecutive_misses := consecutive_misses l;
  first_prospective_s := first_prospective_s l; first_issue_s := first_issue_s l;
  last_prospective_outcome_s := last_prospective_outcome_s l; last_outcome_seq := last_outcome_seq l;
  last_issuance_seq := last_issuance_seq l; newest_s := newest_s l; l_totals := l_totals l |}.
Definition set_pending (ps : list (Z * Z)) (l : ledger) : ledger := {|
  l_epoch := l_epoch l; l_model := l_model l; l_recipe := l_recipe l; interval_s := interval_s l; buckets := buckets l;
  pending := ps; recent := recent l; consecutive_misses := consecutive_misses l;
  first_prospective_s := first_prospective_s l; first_issue_s := first_issue_s l;
  last_prospective_outcome_s := last_prospective_outcome_s l; last_outcome_seq := last_outcome_seq l;
  last_issuance_seq := last_issuance_seq l; newest_s := newest_s l; l_totals := l_totals l |}.
Definition set_totals (t : totals) (l : ledger) : ledger := {|
  l_epoch := l_epoch l; l_model := l_model l; l_recipe := l_recipe l; interval_s := interval_s l; buckets := buckets l;
  pending := pending l; recent := recent l; consecutive_misses := consecutive_misses l;
  first_prospective_s := first_prospective_s l; first_issue_s := first_issue_s l;
  last_prospective_outcome_s := last_prospective_outcome_s l; last_outcome_seq := last_outcome_seq l;
  last_issuance_seq := last_issuance_seq l; newest_s := newest_s l; l_totals := t |}.
Definition set_seqs (out iss : Z) (l : ledger) : ledger := {|
  l_epoch := l_epoch l; l_model := l_model l; l_recipe := l_recipe l; interval_s := interval_s l; buckets := buckets l;
  pending := pending l; recent := recent l; consecutive_misses := consecutive_misses l;
  first_prospective_s := first_prospective_s l; first_issue_s := first_issue_s l;
  last_prospective_outcome_s := last_prospective_outcome_s l; last_outcome_seq := out; last_issuance_seq := iss;
  newest_s := newest_s l; l_totals := l_totals l |}.
Definition set_firsts (fp fi : option Z) (l : ledger) : ledger := {|
  l_epoch := l_epoch l; l_model := l_model l; l_recipe := l_recipe l; interval_s := interval_s l; buckets := buckets l;
  pending := pending l; recent := recent l; consecutive_misses := consecutive_misses l; first_prospective_s := fp;
  first_issue_s := fi; last_prospective_outcome_s := last_prospective_outcome_s l;
  last_outcome_seq := last_outcome_seq l; last_issuance_seq := last_issuance_seq l; newest_s := newest_s l;
  l_totals := l_totals l |}.
Definition set_recent (rc : list Z) (misses : Z) (last : option Z) (l : ledger) : ledger := {|
  l_epoch := l_epoch l; l_model := l_model l; l_recipe := l_recipe l; interval_s := interval_s l; buckets := buckets l;
  pending := pending l; recent := rc; consecutive_misses := misses; first_prospective_s := first_prospective_s l;
  first_issue_s := first_issue_s l; last_prospective_outcome_s := last; last_outcome_seq := last_outcome_seq l;
  last_issuance_seq := last_issuance_seq l; newest_s := newest_s l; l_totals := l_totals l |}.
Definition set_newest (n : option Z) (l : ledger) : ledger := {|
  l_epoch := l_epoch l; l_model := l_model l; l_recipe := l_recipe l; interval_s := interval_s l; buckets := buckets l;
  pending := pending l; recent := recent l; consecutive_misses := consecutive_misses l;
  first_prospective_s := first_prospective_s l; first_issue_s := first_issue_s l;
  last_prospective_outcome_s := last_prospective_outcome_s l; last_outcome_seq := last_outcome_seq l;
  last_issuance_seq := last_issuance_seq l; newest_s := n; l_totals := l_totals l |}.

(** [b = _bucket(s, t); b[...] += ...] *)
Definition in_bucket (t : Z) (f : bucket → bucket) (l : ledger) : ledger :=
  set_buckets (dset (t / HOUR) (f (_bucket l t)) (buckets l)) l.

(** [x or d] for an optional integer. *)
Definition or_int (x : option Z) (d : Z) : Z := match x with Some n => if n =? 0 then d else n | None => d end.

Definition _prune (now_s retention_s : Z) (l : ledger) : ledger :=
  let newest := Z.max now_s (or_int (newest_s l) now_s) in
  let floor := (newest - retention_s) / HOUR in
  set_pending (filter (λ p, newest - DAY <? p.1) (pending l))
    (set_buckets (filter (λ p, floor <? p.1) (buckets l)) (set_newest (Some newest) l)).

Definition same_identity (l : ledger) (epoch model : string) (recipe : json) : bool :=
  bool_decide (epoch = l_epoch l) && bool_decide (model = l_model l) && py_eq recipe (JStr (l_recipe l)).

Definition note_issuance (l : ledger) (seq : Z) (epoch model : string) (recipe : json)
    (origin window_end deadline_s lead_s : Z) (md : string) (bounded : bool) (retention_s : Z) : res ledger :=
  raise_if negb (same_identity l epoch model recipe)
    with TrustError "the evidence belongs to another epoch, model or recipe" ;;
  if seq <=? last_issuance_seq l then Ok l else
  raise_if negb (bool_decide (md ∈ MODES)) with TrustError "unknown evidence mode" ;;
  let s := set_seqs (last_outcome_seq l) seq l in
  Ok (_prune origin retention_s
    (if bool_decide (md = "replay") then in_bucket origin (bump "r_iss" 1) s
     else
       let s1 := in_bucket origin (λ b, bump "g_iss" (b2z (in_cohort origin lead_s)) (bump "iss" 1 b)) s in
       let t := l_totals s1 in
       let s2 := set_totals {| t_issued := t_issued t + 1; t_covered := t_covered t; t_missed := t_missed t;
                               t_unscorable := t_unscorable t; t_prospective_gate_bounded := t_prospective_gate_bounded t;
                               t_replay_gate_bounded := t_replay_gate_bounded t |} s1 in
       let s3 := set_pending (dset window_end deadline_s (pending s2)) s2 in
       set_firsts (match first_prospective_s s3 with None => if bounded then Some origin else None | p => p end)
                  (match first_issue_s s3 with None => Some origin | p => p end) s3)).

(** The sums of step errors. *)
Definition add_steps (e : option (f64 * f64 * f64)) (b : bucket) : bucket :=
  match e with
  | Some (e0, e1, e2) => fbump "st2" e2 (fbump "st1" e1 (fbump "st0" e0 (bump "n_step" 1 b)))
  | None => b
  end.

(** A scored prospective outcome, on its bucket. *)
Definition score_bucket (c : CalibrationRecord) (steps : option (f64 * f64 * f64)) (y nominal : f64) (isgate : bool)
    (b : bucket) : bucket :=
  let base := r_base_rps c in
  let b1 := fbump "bias" (base ⊖ y) (fbump "abs" (fabs (y ⊖ base)) (bump "g_sc" (b2z isgate) (bump "sc" 1 b))) in
  let b2 := add_steps steps b1 in
  match r_upper_rps c with
  | None => b2
  | Some u =>
      let covered := b2z (y ≤ᶠ u) in
      let b3 := bump "a_cv" covered (bump "a_bd" 1 b2) in
      if isgate then fbump "pin" (pinball_rps y u nominal) (bump "g_cv" covered (bump "g_bd" 1 b3)) else b3
  end.

Definition note_outcome (l : ledger) (r : EvidenceRecord) (lead_s : Z) (nominal : f64) (recent_n retention_s : Z)
    : res ledger :=
  let c := cal r in
  raise_if negb (same_identity l (r_epoch c) (r_model c) (r_recipe c))
    with TrustError "the evidence belongs to another epoch, model or recipe" ;;
  if r_seq c <=? last_outcome_seq l then Ok l else
  let we := r_window_end c in
  let s := set_pending (ddel we (pending l)) (set_seqs (r_seq c) (last_issuance_seq l) l) in
  let isgate := in_cohort (r_decision_origin c) lead_s in
  let t := l_totals s in
  let bounded := bool_decide (is_Some (r_upper_rps c)) in
  let done_ := _prune we retention_s in
  if negb (bool_decide (r_status c = "scored")) then
    if bool_decide (mode r = "replay") then Ok (done_ (in_bucket we (bump "r_un" 1) s)) else
    Ok (done_ (set_totals {| t_issued := t_issued t; t_covered := t_covered t; t_missed := t_missed t;
                             t_unscorable := t_unscorable t + 1; t_prospective_gate_bounded := t_prospective_gate_bounded t;
                             t_replay_gate_bounded := t_replay_gate_bounded t |}
               (in_bucket we (λ b, bump "g_un" (b2z isgate) (bump "un" 1 b)) s)))
  else
  y ← of_option PyTypeError (r_y_rps c);
  let covered := match r_upper_rps c with Some u => y ≤ᶠ u | None => false end in
  if bool_decide (mode r = "replay") then
    let s1 := in_bucket we (bump "r_sc" 1) s in
    if isgate && bounded then
      Ok (done_ (set_totals {| t_issued := t_issued t; t_covered := t_covered t; t_missed := t_missed t;
                               t_unscorable := t_unscorable t; t_prospective_gate_bounded := t_prospective_gate_bounded t;
                               t_replay_gate_bounded := t_replay_gate_bounded t + 1 |}
                 (in_bucket we (λ b, bump "r_cv" (b2z covered) (bump "r_bd" 1 b)) s1)))
    else Ok (done_ s1)
  else
  let s1 := in_bucket we (score_bucket c (step_abs_errors r) y nominal isgate) s in
  let t1 := {| t_issued := t_issued t; t_covered := t_covered t + b2z (bounded && covered);
               t_missed := t_missed t + b2z (bounded && negb covered); t_unscorable := t_unscorable t;
               t_prospective_gate_bounded := t_prospective_gate_bounded t + b2z (bounded && isgate);
               t_replay_gate_bounded := t_replay_gate_bounded t |} in
  let s2 := set_totals t1 s1 in
  Ok (done_ (if bounded && isgate
             then set_recent (last_n recent_n (recent s2 ++ [b2z covered]))
                             (if covered then 0 else consecutive_misses s2 + 1) (Some we) s2
             else s2)).

(** * Trailing windows *)

(** The hour buckets of a trailing window: from the first whole hour at or after [now - seconds] to the hour of [now]. *)
Definition _hours (now_s seconds : Z) : Z * Z := (- (- (now_s - seconds) / HOUR), now_s / HOUR).

Definition in_hours (now_s seconds k : Z) : bool := let '(lo, hi) := _hours now_s seconds in (lo <=? k) && (k <=? hi).

(** [for f in _FIELDS: out[f] += v[f]] *)
Definition add_bucket (out v : bucket) : bucket := {|
  ints := (λ f, (f, bint f out + bint f v)) <$> _INTS; floats := (λ f, (f, bfloat f out ⊕ bfloat f v)) <$> _FLOATS |}.

Definition window_sums (l : ledger) (now_s seconds : Z) : bucket :=
  foldl add_bucket new_bucket (filter (λ p, in_hours now_s seconds p.1) (buckets l)).*2.

Definition overdue (l : ledger) (now_s seconds : Z) : Z :=
  Z.of_nat (length (filter (λ p, in_hours now_s seconds (p.1 / HOUR) && (p.2 <=? now_s)) (pending l))).

Definition expected_opportunities (l : ledger) (now_s seconds : Z) : Z :=
  match first_issue_s l with
  | None => 0
  | Some first =>
      let dt := interval_s l in
      let '(lo, _) := _hours now_s seconds in
      let start := ceil_div (Z.max (lo * HOUR) first) dt * dt in
      let end_ := now_s / dt * dt in
      if start <=? end_ then (end_ - start) / dt + 1 else 0
  end.

Definition _ratio (num den : Z) : option f64 := if den =? 0 then None else Some (idiv num den).

Record availability_info := { av_outcomes : option f64; av_predictions : option f64; av_overdue : Z }.

Definition availability (l : ledger) (now_s seconds : Z) : availability_info :=
  let w := window_sums l now_s seconds in
  let late := overdue l now_s seconds in
  let expected := expected_opportunities l now_s seconds in
  {| av_outcomes := _ratio (bint "sc" w) (bint "sc" w + bint "un" w + late);
     av_predictions := _ratio (Z.min (bint "iss" w) expected) expected; av_overdue := late |}.

Definition daily_gate_coverage (l : ledger) (now_s seconds : Z) : list (Z * (Z * Z)) :=
  sort_by (λ a b, a.1 <=? b.1)
    (foldl (λ days '(k, v), let d := k * HOUR / DAY in
                            let '(bd, cv) := or_default (0, 0) (dget d days) in
                            dset d (bd + bint "g_bd" v, cv + bint "g_cv" v) days)
           [] (filter (λ p, in_hours now_s seconds p.1) (buckets l))).

(** * Paired challenger evidence *)

Record pair_bucket := { pb_n : Z; pb_chal : f64; pb_base : f64; pb_first : Z; pb_last : Z }.

Record pair_state := {
  ps_epoch : string; ps_challenger : string; ps_baseline : string; ps_recipes : list (string * string);
  ps_pending : list (Z * (string * f64 * string)); ps_buckets : list (Z * pair_bucket); ps_last_seq : Z;
}.

Definition new_pairs (epoch challenger challenger_recipe baseline_recipe baseline : string) : pair_state := {|
  ps_epoch := epoch; ps_challenger := challenger; ps_baseline := baseline;
  ps_recipes := dset baseline baseline_recipe [(challenger, challenger_recipe)]; ps_pending := []; ps_buckets := [];
  ps_last_seq := 0 |}.

(** The record meets its pending partner, or waits for it. *)
Definition pair_up (s : pair_state) (c : CalibrationRecord) (loss : f64)
    : list (Z * (string * f64 * string)) * list (Z * pair_bucket) :=
  let we := r_window_end c in
  let rest := ddel we (ps_pending s) in
  let wait := (dset we (r_model c, loss, r_issuance_id c) rest, ps_buckets s) in
  match dget we (ps_pending s) with
  | None => wait
  | Some (m, other, iss) =>
      if bool_decide (m = r_model c) || negb (bool_decide (iss = r_issuance_id c)) then wait else
      let '(chal, base) := if bool_decide (r_model c = ps_challenger s) then (loss, other) else (other, loss) in
      let b := or_default {| pb_n := 0; pb_chal := f0; pb_base := f0; pb_first := we; pb_last := we |}
                          (dget (we / HOUR) (ps_buckets s)) in
      (rest, dset (we / HOUR) {| pb_n := pb_n b + 1; pb_chal := pb_chal b ⊕ chal; pb_base := pb_base b ⊕ base;
                                 pb_first := Z.min (pb_first b) we; pb_last := Z.max (pb_last b) we |} (ps_buckets s))
  end.

Definition note_pair (p : pair_state) (r : EvidenceRecord) (lead_s : Z) (nominal : f64) (retention_s : Z) : res pair_state :=
  let c := cal r in
  match dget (r_model c) (ps_recipes p) with
  | None => Ok p
  | Some recipe =>
  if negb (bool_decide (r_epoch c = ps_epoch p)) || (r_seq c <=? ps_last_seq p) then Ok p else
  raise_if negb (py_eq (r_recipe c) (JStr recipe)) with TrustError "the paired evidence belongs to another recipe" ;;
  let seen pend bks := {| ps_epoch := ps_epoch p; ps_challenger := ps_challenger p; ps_baseline := ps_baseline p;
                          ps_recipes := ps_recipes p; ps_pending := pend; ps_buckets := bks; ps_last_seq := r_seq c |} in
  match r_upper_rps c with
  | Some u =>
      if bool_decide (mode r = "prospective") && bool_decide (r_status c = "scored")
         && in_cohort (r_decision_origin c) lead_s
      then y ← of_option PyTypeError (r_y_rps c);
           let '(pend, bks) := pair_up p c (pinball_rps y u nominal) in
           let we := r_window_end c in
           Ok (seen (filter (λ x, we - DAY <? x.1) pend) (filter (λ x, (we - retention_s) / HOUR <? x.1) bks))
      else Ok (seen (ps_pending p) (ps_buckets p))
  | None => Ok (seen (ps_pending p) (ps_buckets p))
  end
  end.

Record pair_totals := { pt_n : Z; pt_chal : f64; pt_base : f64; pt_first : option Z; pt_last : option Z }.

Definition pair_sums (p : pair_state) (now_s seconds : Z) : pair_totals :=
  foldl (λ out v, {| pt_n := pt_n out + pb_n v; pt_chal := pt_chal out ⊕ pb_chal v; pt_base := pt_base out ⊕ pb_base v;
                     pt_first := Some (match pt_first out with None => pb_first v | Some f => Z.min f (pb_first v) end);
                     pt_last := Some (match pt_last out with None => pb_last v | Some f => Z.max f (pb_last v) end) |})
    {| pt_n := 0; pt_chal := f0; pt_base := f0; pt_first := None; pt_last := None |}
    (filter (λ x, in_hours now_s seconds x.1) (ps_buckets p)).*2.

Definition pt_span (t : pair_totals) : Z :=
  match pt_first t, pt_last t with Some f, Some l => if pt_n t =? 0 then 0 else l - f | _, _ => 0 end.

(** * Evaluation *)

Record CandidateInputs := {
  ci_model : string; ci_ledger : ledger; bound_available : bool; calibration_windows : Z; min_calibration_windows : Z;
  ci_history_seconds : Z; required_history_seconds : Z; data_fresh : bool; fit_age_seconds : option Z;
}.
Definition ci_recipe (ci : CandidateInputs) : string := l_recipe (ci_ledger ci).

Record Global := {
  now_s : Z; lead_seconds : Z; nominal_miscoverage : f64; identity_ok : bool; store_healthy : bool;
  replay_suite_passed : bool; startup_budget_valid : bool;
}.

Record CandidateVerdict := {
  v_model : string; v_recipe : string; v_gates : list (string * bool); v_reason : string; v_phase : string;
  v_trusted : bool; v_coverage_gate : option f64; v_coverage_all : option f64; v_availability : option f64;
  v_prediction_availability : option f64; v_overdue : Z; v_prospective_gate_bounds : Z; v_replay_gate_bounds : Z;
  v_eta_seconds : option Z;
}.

Record Verdict := {
  selected : option string; phase : string; reason : string; prediction_ready : bool;
  candidates : list (string * CandidateVerdict); promoted : list (string * bool);
}.

Record hysteresis := {
  h_epoch : string; h_recipe : string; trusted : bool; ever_trusted : bool; demoted_at_s : option Z;
  bounds_at_demotion : Z; gates_ok_since_s : option Z;
}.

Definition new_hysteresis (recipe epoch : string) : hysteresis := {|
  h_epoch := epoch; h_recipe := recipe; trusted := false; ever_trusted := false; demoted_at_s := None;
  bounds_at_demotion := 0; gates_ok_since_s := None |}.

Record selection := {
  sel_epoch : option string; sel_selected : option string; sel_recipe : option string; sel_since_s : option Z;
  sel_switches : Z; sel_entry_since : list (string * Z);
}.

Definition new_selection (epoch : option string) : selection := {|
  sel_epoch := epoch; sel_selected := None; sel_recipe := None; sel_since_s := None; sel_switches := 0;
  sel_entry_since := [] |}.

(** What the gates report besides the gates. *)
Record gate_info := {
  gi_coverage_gate : option f64; gi_coverage_all : option f64; gi_availability : availability_info; gi_prospective : Z;
  gi_replay : Z; gi_eta : option Z;
}.

Definition threshold (g : Global) (t : TrustSettings) : f64 :=
  (f1 ⊖ nominal_miscoverage g) ⊖ idiv (coverage_tolerance_bps t) 10000.

(** [v is not None and v >= floor] *)
Definition at_least (floor : f64) (v : option f64) : bool := match v with Some x => floor ≤ᶠ x | None => false end.

Definition candidate_gates (ci : CandidateInputs) (g : Global) (t : TrustSettings) : list (string * bool) * gate_info :=
  let led := ci_ledger ci in
  let now := now_s g in
  let thr := threshold g t in
  let w7 := window_sums led now (7 * DAY) in
  let av := availability led now DAY in
  let cov_gate := _ratio (bint "g_cv" w7) (bint "g_bd" w7) in
  let cov_all := _ratio (bint "a_cv" w7) (bint "a_bd" w7) in
  let first := first_prospective_s led in
  let shadow_ok := match first with
                   | Some f => (min_shadow_hours t * HOUR <=? now - f) && (min_prospective_windows t <=? bint "g_bd" w7)
                   | None => false
                   end in
  let worst_ok := forallb (λ '(_, (bd, cv)), (bd <? worst_day_min_outcomes t) || (thr ≤ᶠ idiv cv bd))
                          (daily_gate_coverage led now (7 * DAY)) in
  let rc := recent led in
  let n := Z.of_nat (length rc) in
  let acute_ok := (consecutive_misses led <? acute_consecutive_misses t)
                  && ((n <? acute_recent_windows t) || (thr ≤ᶠ idiv (sumZ rc) n)) in
  let fresh_fit := match fit_age_seconds ci with None => true | Some a => a <=? max_fit_age_hours t * HOUR end in
  let floor := idiv (min_availability_bps t) 10000 in
  let coverage_ok := at_least thr cov_gate && worst_ok && acute_ok in
  let gates :=
    [("identity", identity_ok g); ("state", store_healthy g); ("data", data_fresh ci && fresh_fit);
     ("history", required_history_seconds ci <=? ci_history_seconds ci); ("calibration", bound_available ci);
     ("prospective", shadow_ok); ("coverage", coverage_ok);
     ("availability", at_least floor (av_outcomes av) && at_least floor (av_predictions av))] in
  let missing := Z.max (Z.max (min_calibration_windows ci - calibration_windows ci)
                              (min_prospective_windows t - bint "g_bd" w7)) 0 in
  let shadow_left := min_shadow_hours t * HOUR - match first with Some f => now - f | None => 0 end in
  let eta := Z.max (Z.max (missing * lead_seconds g) shadow_left) 0 in
  (gates,
   {| gi_coverage_gate := cov_gate; gi_coverage_all := cov_all; gi_availability := av; gi_prospective := bint "g_bd" w7;
      gi_replay := bint "r_bd" w7;
      gi_eta := if negb coverage_ok && (min_prospective_windows t <=? bint "g_bd" w7) then None else Some eta |}).

Definition _GATE_REASON : list (string * string) :=
  [("identity", "IdentityMismatch"); ("state", "StateUnavailable"); ("data", "DataUnavailable");
   ("history", "HistoryInsufficient"); ("calibration", "CalibrationInsufficient"); ("prospective", "ShadowInsufficient");
   ("coverage", "CoverageLow"); ("availability", "DataUnavailable")].

Definition step (h0 : hysteresis) (gates_ok : bool) (l : ledger) (now : Z) (t : TrustSettings) : hysteresis :=
  let same := bool_decide (h_epoch h0 = l_epoch l) && bool_decide (h_recipe h0 = l_recipe l) in
  let h := if same then h0 else new_hysteresis (l_recipe l) (l_epoch l) in
  let bounds := t_prospective_gate_bounded (l_totals l) in
  let set tr ever dem bd since := {| h_epoch := h_epoch h; h_recipe := h_recipe h; trusted := tr; ever_trusted := ever;
                                     demoted_at_s := dem; bounds_at_demotion := bd; gates_ok_since_s := since |} in
  if trusted h then
    if gates_ok then h else set false (ever_trusted h) (Some now) bounds None
  else if negb gates_ok then set false (ever_trusted h) (demoted_at_s h) (bounds_at_demotion h) None
  else
    let since := match gates_ok_since_s h with None => now | Some s => s end in
    if negb (ever_trusted h) then set true true (demoted_at_s h) (bounds_at_demotion h) (Some since) else
    let held := (repromotion_hours t * HOUR <=? now - since)
                && match demoted_at_s h with Some d => d <? now | None => false end in
    set (held && (repromotion_windows t <=? bounds - bounds_at_demotion h)) (ever_trusted h) (demoted_at_s h)
        (bounds_at_demotion h) (Some since).

(** The policy simulator's costs of a challenger: (challenger, naive) by name. *)
Definition cost_table : Type := list (string * (f64 * f64)).

Definition _paired_ok (pairs : option pair_state) (now : Z) (t : TrustSettings) (costs : option cost_table)
    (loss_ratio_bps : Z) : bool :=
  match pairs, costs with
  | Some pairs, Some costs =>
      let ps := pair_sums pairs now (7 * DAY) in
      let n := f64_of_Z (pt_n ps) in
      negb (pt_n ps <? challenger_min_pairs t) && negb (pt_span ps <? challenger_min_hours t * HOUR)
      && negb (pt_base ps ≤ᶠ f0)
      && negb ((idiv loss_ratio_bps 10000 ⊗ pt_base ps) ⊘ n <ᶠ pt_chal ps ⊘ n)
      && forallb (λ name, match dget name costs with
                          | None => false
                          | Some (chal, base) =>
                              is_finite chal && is_finite base
                              && negb (idiv (challenger_cost_ratio_bps t) 10000 ⊗ base <ᶠ chal)
                          end) ["shortage"; "replica_time"]
  | _, _ => false
  end.

Definition challenger_promoted (pairs : option pair_state) (now : Z) (t : TrustSettings) (costs : option cost_table) : bool :=
  _paired_ok pairs now t costs (challenger_loss_ratio_bps t).
Definition challenger_retained (pairs : option pair_state) (now : Z) (t : TrustSettings) (costs : option cost_table) : bool :=
  _paired_ok pairs now t costs (challenger_exit_loss_ratio_bps t).

Definition entry_key (m recipe : string) : string := m +:+ ":" +:+ recipe.

Definition naive_trusted (verdicts : list (string * CandidateVerdict)) : bool :=
  match dget NAIVE verdicts with Some v => v_trusted v | None => false end.

(** The entry tests, and since when each has held. *)
Definition entry_step (naive_ok : bool) (pairs : list (string * pair_state)) (costs : list (string * cost_table)) (now : Z)
    (t : TrustSettings) (acc : list (string * Z) * list (string * bool)) (mv : string * CandidateVerdict)
    : list (string * Z) * list (string * bool) :=
  let '(since, entry) := acc in let '(m, v) := mv in
  if bool_decide (m = NAIVE) then acc else
  let ok := naive_ok && challenger_promoted (dget m pairs) now t (dget m costs) in
  let key := entry_key m (v_recipe v) in
  (if ok then (if dhas key since then since else dset key now since) else ddel key since, dset m ok entry).

(** The first of the fallback order that may be selected. *)
Fixpoint choose (verdicts : list (string * CandidateVerdict)) (naive_ok : bool) (current : option string)
    (since : list (string * Z)) (now : Z) (t : TrustSettings) (order : list string) : option string :=
  match order with
  | [] => None
  | m :: rest =>
      let next := choose verdicts naive_ok current since now t rest in
      match dget m verdicts with
      | None => next
      | Some v =>
          if negb (v_trusted v) then next
          else if bool_decide (m = NAIVE) then Some m
          else let held := match dget (entry_key m (v_recipe v)) since with
                           | Some s => repromotion_hours t * HOUR <=? now - s | None => false end in
               if (bool_decide (Some m = current) && naive_ok) || held then Some m else next
      end
  end.

Definition select (sel : selection) (verdicts : list (string * CandidateVerdict)) (pairs : list (string * pair_state))
    (costs : list (string * cost_table)) (now : Z) (t : TrustSettings) : selection * list (string * bool) :=
  let naive_ok := naive_trusted verdicts in
  let '(since, entry) := foldl (entry_step naive_ok pairs costs now t) (sel_entry_since sel, []) verdicts in
  let current :=
    match sel_selected sel with
    | None => None
    | Some c =>
        let safe := match dget c verdicts with
                    | Some v => v_trusted v && bool_decide (Some (v_recipe v) = sel_recipe sel)
                                && (bool_decide (c = NAIVE) || naive_ok)
                    | None => false
                    end in
        let kept := bool_decide (c = NAIVE) || challenger_retained (dget c pairs) now t (dget c costs) in
        if safe && kept then Some c else None
    end in
  let target := choose verdicts naive_ok current since now t FALLBACK_ORDER in
  ((if bool_decide (target = sel_selected sel)
    then {| sel_epoch := sel_epoch sel; sel_selected := sel_selected sel; sel_recipe := sel_recipe sel;
            sel_since_s := sel_since_s sel; sel_switches := sel_switches sel; sel_entry_since := since |}
    else {| sel_epoch := sel_epoch sel; sel_selected := target;
            sel_recipe := match target with Some m => v_recipe <$> dget m verdicts | None => None end;
            sel_since_s := Some now; sel_switches := sel_switches sel + 1; sel_entry_since := since |}), entry).

(** [next((r for gname, r in _GATE_REASON if not gates[gname]), "Ready")] *)
Definition first_reason (gates : list (string * bool)) : string :=
  match List.find (λ gr, negb (or_default false (dget gr.1 gates))) _GATE_REASON with
  | Some (_, r) => r | None => "Ready" end.

Definition all_hold (gates : list (string * bool)) : bool := forallb snd gates.

Definition verdict_phase (h : hysteresis) (gates : list (string * bool)) : string :=
  if trusted h then "Trusted"
  else if ever_trusted h then "Degraded"
  else if negb (or_default false (dget "history" gates)) then "Collecting"
  else if negb (or_default false (dget "calibration" gates)) then "Calibrating"
  else "Shadow".

(** One candidate: its hysteresis step and its verdict. *)
Definition judge (hyst : list (string * hysteresis)) (epoch : string) (g : Global) (t : TrustSettings)
    (model : string) (ci : CandidateInputs) : hysteresis * CandidateVerdict :=
  let '(gates, info) := candidate_gates ci g t in
  let h := step (or_default (new_hysteresis (ci_recipe ci) epoch) (dget model hyst)) (all_hold gates) (ci_ledger ci)
                (now_s g) t in
  let r := first_reason gates in
  (h, {| v_model := model; v_recipe := ci_recipe ci; v_gates := gates;
         v_reason := if bool_decide (r = "Ready") && negb (trusted h) then "ShadowInsufficient" else r;
         v_phase := verdict_phase h gates; v_trusted := trusted h; v_coverage_gate := gi_coverage_gate info;
         v_coverage_all := gi_coverage_all info; v_availability := av_outcomes (gi_availability info);
         v_prediction_availability := av_predictions (gi_availability info);
         v_overdue := av_overdue (gi_availability info); v_prospective_gate_bounds := gi_prospective info;
         v_replay_gate_bounds := gi_replay info; v_eta_seconds := if trusted h then None else gi_eta info |}).

Fixpoint index_of (x : string) (l : list string) : Z :=
  match l with [] => 0 | y :: t => if decide (x = y) then 0 else 1 + index_of x t end.

(** [max(ordered, key=lambda v: REASON_ORDER.index(v.reason))]: the first of the greatest. *)
Definition furthest (l : list CandidateVerdict) : option CandidateVerdict :=
  foldl (λ best v, match best with
                   | None => Some v
                   | Some b => if index_of (v_reason b) REASON_ORDER <? index_of (v_reason v) REASON_ORDER then Some v else best
                   end) None l.

(** The state kept between evaluations: hysteresis by model, and the selection under [SELECTION]. *)
Record trust_state := { ts_hyst : list (string * hysteresis); ts_selection : option selection }.

(** The paired evidence must be that of these candidates. *)
Definition pairs_match (epoch : string) (by_model : list (string * CandidateInputs)) (mp : string * pair_state) : bool :=
  let '(m, p) := mp in
  match dget m by_model with
  | None => true
  | Some ci =>
      bool_decide (m = NAIVE) ||
      (bool_decide (ps_epoch p = epoch) && bool_decide (ps_challenger p = m) && bool_decide (ps_baseline p = NAIVE)
       && bool_decide (dget m (ps_recipes p) = Some (ci_recipe ci))
       && bool_decide (dget NAIVE (ps_recipes p) = (ci_recipe <$> dget NAIVE by_model)))
  end.

Definition ready_reason (g : Global) : string :=
  if negb (replay_suite_passed g) then "ReplayGateMissing"
  else if negb (startup_budget_valid g) then "LeadInsufficient" else "Ready".

Definition evaluate (cands : list CandidateInputs) (st : trust_state) (g : Global) (t : TrustSettings)
    (pairs : list (string * pair_state)) (costs : list (string * cost_table)) : res (Verdict * trust_state) :=
  let by_model := foldl (λ d c, dset (ci_model c) c d) [] cands in
  raise_if existsb (λ m, negb (bool_decide (m ∈ FALLBACK_ORDER))) by_model.*1 with TrustError "unknown candidates" ;;
  let epochs := (λ c, l_epoch (ci_ledger c)) <$> cands in
  let epoch := head epochs in
  raise_if existsb (λ e, negb (bool_decide (Some e = epoch))) epochs
           || existsb (λ c, negb (bool_decide (l_model (ci_ledger c) = ci_model c))) cands
    with TrustError "the candidates' evidence belongs to different epochs or models" ;;
  let ep := or_default EmptyString epoch in
  raise_if existsb (λ mp, negb (pairs_match ep by_model mp)) pairs
    with TrustError "the paired evidence belongs to another epoch, model or recipe" ;;
  let judged := (λ mc, (mc.1, judge (ts_hyst st) ep g t mc.1 mc.2)) <$> by_model in
  let new_h := (λ x, (x.1, x.2.1)) <$> judged in
  let verdicts := (λ x, (x.1, x.2.2)) <$> judged in
  let prior := match ts_selection st with
               | Some p => if bool_decide (sel_epoch p = epoch) then p else new_selection epoch
               | None => new_selection epoch
               end in
  let '(sel, entry) := select prior verdicts pairs costs (now_s g) t in
  let st' := {| ts_hyst := new_h; ts_selection := Some sel |} in
  match sel_selected sel with
  | None =>
      let best := furthest (omap (λ m, dget m verdicts) FALLBACK_ORDER) in
      let '(rs, ph) := match best with
                       | None => ("HistoryInsufficient", "Collecting")
                       | Some b => if v_trusted b then ("ShadowInsufficient", "Shadow") else (v_reason b, v_phase b)
                       end in
      Ok ({| selected := None; phase := ph; reason := rs; prediction_ready := false; candidates := verdicts;
             promoted := entry |}, st')
  | Some m =>
      let rr := ready_reason g in
      Ok ({| selected := Some m; phase := "Trusted"; reason := rr; prediction_ready := bool_decide (rr = "Ready");
             candidates := verdicts; promoted := entry |}, st')
  end.
