(* ===== verification/TrustSafety.v ===== *)
(** What the trust rules of [forecasting/trust.py] (modelled in [Trust.v]) guarantee: a selected candidate holds every gate
    at that very evaluation, and so does the naive it beat; demotion is immediate and re-promotion waits; a trusted naive
    is always selected; evidence is counted once; replay evidence authorises nothing. *)
From Stdlib Require Import SpecFloat.
From S2P Require Import Prelude Float64 Json Contracts Maturation Store Calibration Trust.

(** * The hysteresis step *)

(** A candidate is trusted after an evaluation only if its gates held in it. *)
Lemma step_trusted h ok l now t : trusted (step h ok l now t) = true → ok = true.
Proof.
  unfold step. destruct ok; [done|]. cbn [negb]. case_match; [|done]. by case_match.
Qed.

Lemma step_demotes h l now t : trusted (step h false l now t) = false.
Proof. destruct (trusted (step h false l now t)) eqn:E; [by apply step_trusted in E|done]. Qed.

(** * Selection *)

Lemma entry_key_inj m m' r r' : m ∈ FALLBACK_ORDER → m' ∈ FALLBACK_ORDER → m ≠ m' → entry_key m r ≠ entry_key m' r'.
Proof.
  unfold FALLBACK_ORDER. rewrite !elem_of_cons. intros Hm Hm' Hne E.
  destruct Hm as [->|[->|[->|[]%elem_of_nil]]], Hm' as [->|[->|[->|[]%elem_of_nil]]]; try done; discriminate E.
Qed.

Section entry.
Context (naive_ok : bool) (pairs : list (string * pair_state)) (costs : list (string * cost_table)) (now : Z)
  (t : TrustSettings).

Definition entry_ok (m : string) : bool := naive_ok && challenger_promoted (dget m pairs) now t (dget m costs).

Lemma entry_frame vs acc m r :
  Forall (λ x, x.1 ∈ FALLBACK_ORDER) vs → m ∈ FALLBACK_ORDER → m ∉ vs.*1 →
  dget (entry_key m r) (foldl (entry_step naive_ok pairs costs now t) acc vs).1 = dget (entry_key m r) acc.1.
Proof.
  revert acc. induction vs as [|[m' v] vs IH]; intros [since entry] Hvs Hm Hn; [done|].
  apply Forall_cons in Hvs as [Hm' Hvs]. cbn in Hn. apply not_elem_of_cons in Hn as [Hne Hn].
  cbn [foldl]. rewrite IH by done. unfold entry_step. case_bool_decide; [done|]. cbn [fst].
  pose proof (entry_key_inj m m' r (v_recipe v) Hm Hm' Hne) as Hk.
  destruct (naive_ok && _); [destruct (dhas _ _); [done|by rewrite dget_dset_ne]|by rewrite dget_ddel, decide_False].
Qed.

(** After the tests an entry is kept only for a challenger whose test holds now, and it says since when. *)
Lemma entry_since vs acc m v s :
  Forall (λ x, x.1 ∈ FALLBACK_ORDER) vs → NoDup vs.*1 → dget m vs = Some v → m ≠ NAIVE →
  dget (entry_key m (v_recipe v)) (foldl (entry_step naive_ok pairs costs now t) acc vs).1 = Some s →
  entry_ok m = true ∧ s = or_default now (dget (entry_key m (v_recipe v)) acc.1).
Proof.
  revert acc. induction vs as [|[m' v'] vs IH]; intros [since entry] Hvs Hnd Hm Hne H; [done|].
  apply Forall_cons in Hvs as [Hm' Hvs]. cbn in Hnd. apply NoDup_cons in Hnd as [Hn Hnd]. cbn [dget] in Hm.
  cbn [foldl] in H. case_decide as E.
  - injection Hm as ->. subst m'. rewrite entry_frame in H by done. unfold entry_step in H.
    rewrite bool_decide_false in H by done. unfold entry_ok. cbn [fst] in *. destruct (naive_ok && _); [split; [done|]|].
    + unfold dhas in H. case_bool_decide as Hs; [by rewrite H|].
      rewrite dget_dset_eq in H. injection H as <-. by rewrite (proj2 (eq_None_not_Some _) Hs).
    + by rewrite dget_ddel, decide_True in H.
  - apply dget_elem_of in Hm as Hin. assert (m ∈ FALLBACK_ORDER) as HmF.
    { rewrite Forall_forall in Hvs. by apply (Hvs _ Hin). }
    destruct (IH _ Hvs Hnd Hm Hne H) as [H1 ->]. split; [done|]. f_equal.
    exact (entry_frame [(m', v')] (since, entry) m (v_recipe v) ltac:(by constructor) HmF ltac:(cbn; rewrite list_elem_of_singleton; congruence)).
Qed.
End entry.

Lemma choose_Some verdicts naive_ok current since now t order m :
  choose verdicts naive_ok current since now t order = Some m → m ∈ order ∧ ∃ v, dget m verdicts = Some v ∧ v_trusted v = true ∧
  (m = NAIVE ∨ (Some m = current ∧ naive_ok = true) ∨
   ∃ s, dget (entry_key m (v_recipe v)) since = Some s ∧ repromotion_hours t * HOUR ≤ now - s).
Proof.
  induction order as [|x rest IH]; [done|]. cbn.
  assert (∀ P : Prop, (m ∈ rest ∧ P) → m ∈ x :: rest ∧ P) as Hr by (intros ? [? ?]; split; [by right|done]).
  destruct (dget x verdicts) as [v|] eqn:Ev; [|intros H; by apply Hr, IH].
  destruct (v_trusted v) eqn:Et; cbn [negb]; [|intros H; by apply Hr, IH].
  case_bool_decide as En; [intros [= <-]; split; [left|]; eauto|].
  match goal with |- context [if ?b then _ else _] => destruct b eqn:Eh end; [|intros H; by apply Hr, IH].
  intros [= <-]. split; [left|]. exists v. split_and!; [done|done|]. right.
  apply orb_true_iff in Eh as [Eh|Eh]; [left; by bool_prop|right].
  destruct (dget _ since) as [s|]; [|done]. exists s. by bool_prop.
Qed.

Lemma choose_naive verdicts naive_ok current since now t order v :
  NAIVE ∈ order → dget NAIVE verdicts = Some v → v_trusted v = true →
  is_Some (choose verdicts naive_ok current since now t order).
Proof.
  intros Hin Hv Ht. induction order as [|x rest IH]; [by apply elem_of_nil in Hin|]. cbn.
  destruct (decide (x = NAIVE)) as [->|Hne].
  - rewrite Hv, Ht. cbn. rewrite bool_decide_true by done. eauto.
  - apply elem_of_cons in Hin as [?|Hin]; [congruence|]. specialize (IH Hin).
    destruct (dget x verdicts) as [v'|]; [|done]. destruct (negb _); [done|]. case_bool_decide; [eauto|].
    by destruct (_ || _); [eauto|].
Qed.

Lemma select_Some sel verdicts pairs costs now t m :
  Forall (λ x, x.1 ∈ FALLBACK_ORDER) verdicts → NoDup verdicts.*1 →
  sel_selected (select sel verdicts pairs costs now t).1 = Some m →
  m ∈ FALLBACK_ORDER ∧ ∃ v, dget m verdicts = Some v ∧ v_trusted v = true ∧
  (m ≠ NAIVE → naive_trusted verdicts = true) ∧
  (m ≠ NAIVE → sel_selected sel ≠ Some m →
   challenger_promoted (dget m pairs) now t (dget m costs) = true ∧
   repromotion_hours t * HOUR ≤ now - or_default now (dget (entry_key m (v_recipe v)) (sel_entry_since sel))).
Proof.
  intros Hv Hnd H. unfold select in H.
  destruct (foldl _ _ verdicts) as [since entry] eqn:Ef. cbn [fst] in H.
  match type of H with context [choose _ _ ?c _ _ _ _] => set (current := c) in *; assert (∀ x, current = Some x → sel_selected sel = Some x) as Hc end.
  { intros x. unfold current. destruct (sel_selected sel) as [c|]; [|done]. destruct (_ && _); [|done]. done. }
  clearbody current. set (target := choose _ _ current since now t FALLBACK_ORDER) in *.
  assert (target = Some m) as Ht by (case_bool_decide as E; cbn in H; [by rewrite E|done]).
  apply choose_Some in Ht as (Hm & v & Ev & Et & Hcase). split; [done|]. exists v.
  assert (m ≠ NAIVE → (∃ s, dget (entry_key m (v_recipe v)) since = Some s ∧ repromotion_hours t * HOUR ≤ now - s) →
    naive_trusted verdicts = true ∧ challenger_promoted (dget m pairs) now t (dget m costs) = true ∧
    repromotion_hours t * HOUR ≤ now - or_default now (dget (entry_key m (v_recipe v)) (sel_entry_since sel))) as Hheld.
  { intros Hne (s & Hs & Hle).
    pose proof (entry_since (naive_trusted verdicts) pairs costs now t verdicts (sel_entry_since sel, []) m v s Hv Hnd Ev Hne) as He.
    rewrite Ef in He. destruct (He Hs) as [Hok ->]. unfold entry_ok in Hok. apply andb_true_iff in Hok as [? ?]. done. }
  split_and!; [done|done|..].
  - intros Hne. destruct Hcase as [|[[_ ?]|Hs]]; [done|done|]. by apply Hheld.
  - intros Hne Hns. destruct Hcase as [|[[Hcm _]|Hs]]; [done|by destruct Hns; apply Hc|]. by apply Hheld.
Qed.

Lemma select_naive sel verdicts pairs costs now t :
  naive_trusted verdicts = true → is_Some (sel_selected (select sel verdicts pairs costs now t).1).
Proof.
  unfold naive_trusted. intros H. destruct (dget NAIVE verdicts) as [v|] eqn:Ev; [|done]. unfold select.
  destruct (foldl _ _ verdicts) as [since entry]. cbn [fst].
  match goal with |- context [choose ?a ?b ?c ?d ?e ?f ?g] =>
    pose proof (choose_naive a b c d e f g v ltac:(unfold FALLBACK_ORDER; list_member) Ev H) as Hs end.
  case_bool_decide as E; cbn; [by rewrite <-E|done].
Qed.

(** * An evaluation *)

Lemma dget_map {A B} (g : string → A → B) k (d : list (string * A)) :
  dget k ((λ x, (x.1, g x.1 x.2)) <$> d) = g k <$> dget k d.
Proof. induction d as [|[k' v] d IH]; [done|]. cbn. case_decide; [by subst|done]. Qed.

Lemma by_model_ok cands d : NoDup d.*1 →
  let d' := foldl (λ d c, dset (ci_model c) c d) d cands in
  NoDup d'.*1 ∧ ∀ m ci, dget m d' = Some ci → dget m d = Some ci ∨ (ci ∈ cands ∧ ci_model ci = m).
Proof.
  revert d. induction cands as [|c cands IH]; intros d Hd; cbn; [by auto|].
  destruct (IH (dset (ci_model c) c d) ltac:(by apply dset_NoDup)) as [H1 H2]. split; [done|].
  intros m ci Hm. destruct (H2 m ci Hm) as [H|[? ?]]; [|right; split; [by right|done]].
  rewrite dget_dset in H. case_decide; [injection H as <-; right; split; [left|done]|by left].
Qed.

(** The verdict of a candidate is its judgement at this evaluation. *)
Definition judged_as (cands : list CandidateInputs) (st : trust_state) (g : Global) (t : TrustSettings) (m : string)
    (cv : CandidateVerdict) : Prop :=
  ∃ ci ep, ci ∈ cands ∧ ci_model ci = m ∧ cv = (judge (ts_hyst st) ep g t m ci).2.

Lemma evaluate_unfold cands st g t pairs costs v st' : evaluate cands st g t pairs costs = Ok (v, st') →
  ∃ prior, Forall (λ x, x.1 ∈ FALLBACK_ORDER) (candidates v) ∧ NoDup (candidates v).*1 ∧
  (∀ m cv, dget m (candidates v) = Some cv → judged_as cands st g t m cv) ∧
  (ts_selection st = Some prior ∨ sel_selected prior = None ∧ sel_entry_since prior = []) ∧
  selected v = sel_selected (select prior (candidates v) pairs costs (now_s g) t).1 ∧
  ts_selection st' = Some (select prior (candidates v) pairs costs (now_s g) t).1 ∧
  prediction_ready v = bool_decide (is_Some (selected v)) && bool_decide (ready_reason g = "Ready").
Proof.
  unfold evaluate. intros H. ok_inv H. rewrite existsb_false in H0.
  destruct (by_model_ok cands [] ltac:(constructor)) as [Hnd Hin].
  set (by_model := foldl _ [] cands) in *. set (ep := or_default EmptyString (head _)) in *.
  match type of H with context [select ?p ?vs _ _ _ _] => set (prior := p) in *; set (verdicts := vs) in * end.
  assert (verdicts = (λ x, (x.1, (judge (ts_hyst st) ep g t x.1 x.2).2)) <$> by_model) as Hvs
    by (unfold verdicts; by rewrite <-list_fmap_compose).
  assert (verdicts.*1 = by_model.*1) as Hkeys by (rewrite Hvs, <-list_fmap_compose; done).
  destruct (select prior verdicts pairs costs (now_s g) t) as [sel entry] eqn:Es. exists prior.
  assert (candidates v = verdicts ∧ selected v = sel_selected sel ∧ ts_selection st' = Some sel ∧
          prediction_ready v = bool_decide (is_Some (selected v)) && bool_decide (ready_reason g = "Ready")) as (-> & -> & -> & ->).
  { destruct (sel_selected sel); [|destruct (furthest _) as [b|]; [destruct (v_trusted b)|]]; injection H as <- <-; by split_and!. }
  rewrite Es. split_and!; try done.
  - apply Forall_forall. intros [m cv] Hx. assert (m ∈ by_model.*1) as Hm by (rewrite <-Hkeys; by apply (list_elem_of_fmap_2 fst _ (m, cv))).
    specialize (H0 m Hm). by bool_prop.
  - by rewrite Hkeys.
  - intros m cv Hm. rewrite Hvs in Hm. rewrite (dget_map (λ m ci, (judge (ts_hyst st) ep g t m ci).2)) in Hm.
    destruct (dget m by_model) as [ci|] eqn:E; [|done]. injection Hm as <-. destruct (Hin m ci E) as [?|[? ?]]; [done|].
    exists ci, ep. done.
  - unfold prior. destruct (ts_selection st) as [p|]; [destruct (bool_decide _); [by left|by right]|by right].
Qed.

(** A trusted verdict holds every gate now. *)
Lemma judged_trusted cands st g t m cv : judged_as cands st g t m cv → v_trusted cv = true →
  all_hold (v_gates cv) = true ∧ identity_ok g = true ∧ store_healthy g = true ∧
  ∃ ci, ci ∈ cands ∧ ci_model ci = m ∧ v_gates cv = (candidate_gates ci g t).1 ∧ bound_available ci = true ∧ data_fresh ci = true.
Proof.
  intros (ci & ep & Hin & Hm & ->) Ht. unfold judge in *. destruct (candidate_gates ci g t) as [gates info] eqn:Eg.
  cbn [snd v_trusted v_gates] in *. apply step_trusted in Ht. split; [done|].
  assert (gates = (candidate_gates ci g t).1) as E by by rewrite Eg.
  rewrite E in Ht. unfold candidate_gates, all_hold in Ht. cbn [fst forallb snd] in Ht. bool_prop.
  split_and!; [done|done|]. exists ci. by rewrite Eg.
Qed.

(** C5: Nothing untrusted is ever selected. Whatever the state and the evidence, a candidate the evaluation selects holds
    every gate at that very evaluation, with a valid identity, a healthy journal, fresh data and a bound available now;
    and a challenger is selected only while the naive it stands in for holds every gate too. *)
Theorem selected_is_trusted cands st g t pairs costs v st' m :
  evaluate cands st g t pairs costs = Ok (v, st') → selected v = Some m →
  m ∈ FALLBACK_ORDER ∧ identity_ok g = true ∧ store_healthy g = true ∧
  (∃ cv ci, dget m (candidates v) = Some cv ∧ all_hold (v_gates cv) = true ∧ v_trusted cv = true ∧
     ci ∈ cands ∧ ci_model ci = m ∧ v_gates cv = (candidate_gates ci g t).1 ∧ bound_available ci = true ∧ data_fresh ci = true) ∧
  (m ≠ NAIVE → ∃ nv, dget NAIVE (candidates v) = Some nv ∧ all_hold (v_gates nv) = true ∧ v_trusted nv = true).
Proof.
  intros (prior & Hf & Hnd & Hj & _ & Hs & _ & _)%evaluate_unfold Hsel. rewrite Hsel in Hs.
  destruct (select_Some _ _ _ _ _ _ _ Hf Hnd (eq_sym Hs)) as (Hm & cv & Ecv & Et & Hn & _).
  destruct (judged_trusted _ _ _ _ _ _ (Hj _ _ Ecv) Et) as (Hg & Hi & Hst & ci & ?).
  split_and!; [done..| |]; [by exists cv, ci; split_and!; try apply H|].
  intros Hne. specialize (Hn Hne). unfold naive_trusted in Hn. destruct (dget NAIVE (candidates v)) as [nv|] eqn:En; [|done].
  exists nv. destruct (judged_trusted _ _ _ _ _ _ (Hj _ _ En) Hn) as (? & _). done.
Qed.

(** Ready means ready: the verdict is ready to activate exactly when a candidate is selected, the versioned replay
    suite has passed and the startup budget is valid; it is never ready with nothing selected. *)
Theorem ready_iff cands st g t pairs costs v st' :
  evaluate cands st g t pairs costs = Ok (v, st') →
  prediction_ready v = true ↔ is_Some (selected v) ∧ replay_suite_passed g = true ∧ startup_budget_valid g = true.
Proof.
  intros (prior & _ & _ & _ & _ & _ & _ & ->)%evaluate_unfold. unfold ready_reason.
  rewrite andb_true_iff, !bool_decide_eq_true. destruct (replay_suite_passed g), (startup_budget_valid g); cbn; naive_solver.
Qed.

(** A trusted naive is never left on the shelf: whenever the daily naive is trusted in an evaluation, something is
    selected, so a failing or unproven challenger can only fall back, never block prediction. *)
Theorem trusted_naive_selected cands st g t pairs costs v st' nv :
  evaluate cands st g t pairs costs = Ok (v, st') → dget NAIVE (candidates v) = Some nv → v_trusted nv = true →
  is_Some (selected v).
Proof.
  intros (prior & _ & _ & _ & _ & -> & _)%evaluate_unfold En Ht. apply select_naive. unfold naive_trusted. by rewrite En.
Qed.

(** A challenger enters only by sustained superiority: when an evaluation newly selects a model other than the naive,
    its paired entry test holds now and has held in every evaluation since at least [repromotion_hours] ago (the time the
    selection state kept, or now). *)
Theorem challenger_entry cands st g t pairs costs v st' m :
  evaluate cands st g t pairs costs = Ok (v, st') → selected v = Some m → m ≠ NAIVE →
  (∀ sel, ts_selection st = Some sel → sel_selected sel ≠ Some m) →
  challenger_promoted (dget m pairs) (now_s g) t (dget m costs) = true ∧
  ∃ cv s, dget m (candidates v) = Some cv ∧ repromotion_hours t * HOUR ≤ now_s g - s ∧
  (s = now_s g ∨ ∃ sel, ts_selection st = Some sel ∧ dget (entry_key m (v_recipe cv)) (sel_entry_since sel) = Some s).
Proof.
  intros (prior & Hf & Hnd & Hj & Hp & Hs & _ & _)%evaluate_unfold Hsel Hne Hold. rewrite Hsel in Hs.
  destruct (select_Some _ _ _ _ _ _ _ Hf Hnd (eq_sym Hs)) as (Hm & cv & Ecv & Et & _ & Hpr).
  destruct Hpr as [H1 H2]; [done|by destruct Hp as [Hp|[-> _]]; [apply Hold|]|].
  split; [done|]. exists cv. eexists. split_and!; [done|exact H2|].
  destruct (dget (entry_key m (v_recipe cv)) (sel_entry_since prior)) as [s|] eqn:Es; cbn; [right|by left].
  exists prior. destruct Hp as [Hp|[_ Hn]]; [done|by rewrite Hn in Es].
Qed.

(** * Demotion and re-promotion *)

(** One evaluation of a candidate, as its hysteresis sees it. *)
Record event := { ev_ok : bool; ev_ledger : ledger; ev_now : Z }.

Definition run_step (t : TrustSettings) (h : hysteresis) (e : event) : hysteresis :=
  step h (ev_ok e) (ev_ledger e) (ev_now e) t.
Definition run (t : TrustSettings) (h : hysteresis) (evs : list event) : hysteresis := foldl (run_step t) h evs.

Definition same_epoch (h : hysteresis) (e : event) : Prop :=
  l_epoch (ev_ledger e) = h_epoch h ∧ l_recipe (ev_ledger e) = h_recipe h.

(** The gates held at every event of a suffix that began at [s]. *)
Definition held_since (evs : list event) (s : Z) : Prop :=
  ∃ pre e0 suf, evs = pre ++ e0 :: suf ∧ ev_now e0 = s ∧ Forall (λ e, ev_ok e = true) (e0 :: suf).

Lemma held_snoc evs s e : held_since evs s → ev_ok e = true → held_since (evs ++ [e]) s.
Proof.
  intros (pre & e0 & suf & -> & Hs & Hf) He. exists pre, e0, (suf ++ [e]). split_and!; [by rewrite <-app_assoc|done|].
  rewrite app_comm_cons. apply Forall_app. split; [done|by constructor].
Qed.

Lemma held_new evs e : ev_ok e = true → held_since (evs ++ [e]) (ev_now e).
Proof. intros He. exists evs, e, []. split_and!; [done|done|by constructor]. Qed.

(** The state of a candidate demoted at [d] with [bd] bounds, after events in which it was not re-promoted. *)
Record demoted (h0 h : hysteresis) (d bd : Z) (evs : list event) : Prop := {
  dm_epoch : h_epoch h = h_epoch h0; dm_recipe : h_recipe h = h_recipe h0;
  dm_trusted : trusted h = false; dm_ever : ever_trusted h = true; dm_at : demoted_at_s h = Some d;
  dm_bounds : bounds_at_demotion h = bd; dm_since : ∀ s, gates_ok_since_s h = Some s → held_since evs s;
}.

Lemma demoted_step t h0 h d bd evs e : demoted h0 h d bd evs → same_epoch h0 e →
  let h' := run_step t h e in
  (trusted h' = false → demoted h0 h' d bd (evs ++ [e])) ∧
  (trusted h' = true → ev_ok e = true ∧ d < ev_now e ∧
     repromotion_windows t ≤ t_prospective_gate_bounded (l_totals (ev_ledger e)) - bd ∧
     ∃ s, held_since (evs ++ [e]) s ∧ repromotion_hours t * HOUR ≤ ev_now e - s).
Proof.
  intros [] [He Hr] h'. unfold h', run_step, step. rewrite He, Hr, dm_epoch0, dm_recipe0, !bool_decide_true by done.
  cbn [andb]. rewrite dm_trusted0. destruct (ev_ok e) eqn:Eok; cbn [negb].
  2:{ split; [|done]. intros _. by split. }
  rewrite dm_ever0, dm_at0, dm_bounds0. cbn [negb].
  assert (∀ s, match gates_ok_since_s h with Some s => s | None => ev_now e end = s → held_since (evs ++ [e]) s) as Hs.
  { intros s <-. destruct (gates_ok_since_s h) as [s|]; [by apply held_snoc; [apply dm_since0|]|by apply held_new]. }
  split; cbn [trusted].
  - intros Htr. split; try done. cbn [gates_ok_since_s]. intros s [= E]. by apply Hs.
  - intros Htr. bool_prop. split_and!; [done|lia|lia|]. eexists. split; [by apply Hs|]. lia.
Qed.


(** * Exactly once *)

Definition note_all (lead_s : Z) (nominal : f64) (recent_n retention_s : Z) (l : ledger) (rs : list EvidenceRecord) : res ledger :=
  foldM (λ l r, note_outcome l r lead_s nominal recent_n retention_s) l rs.

Definition is_ours (l : ledger) (r : EvidenceRecord) : bool :=
  same_identity l (r_epoch (cal r)) (r_model (cal r)) (r_recipe (cal r)).

Lemma note_outcome_identity l r lead nominal rn ret l' : note_outcome l r lead nominal rn ret = Ok l' →
  is_ours l r = true ∧ l_epoch l' = l_epoch l ∧ l_model l' = l_model l ∧ l_recipe l' = l_recipe l ∧
  last_outcome_seq l' = Z.max (last_outcome_seq l) (r_seq (cal r)).
Proof.
  unfold note_outcome, is_ours. intros H. ok_inv H. bool_prop. split; [done|].
  destruct (Z.leb_spec (r_seq (cal r)) (last_outcome_seq l)).
  { injection H as <-. split_and!; [done..|lia]. }
  assert (last_outcome_seq l' = r_seq (cal r) ∧ l_epoch l' = l_epoch l ∧ l_model l' = l_model l ∧ l_recipe l' = l_recipe l) as (-> & ? & ? & ?);
    [|split_and!; [done..|lia]].
  destruct (negb _); [by destruct (bool_decide _); injection H as <-|]. ok_inv H.
  repeat match type of H with context [if ?b then _ else _] => destruct b end; injection H as <-; done.
Qed.

Lemma note_all_identity lead nominal rn ret l rs l' : note_all lead nominal rn ret l rs = Ok l' →
  l_epoch l' = l_epoch l ∧ l_model l' = l_model l ∧ l_recipe l' = l_recipe l ∧ last_outcome_seq l ≤ last_outcome_seq l' ∧
  Forall (λ r, is_ours l r = true ∧ r_seq (cal r) ≤ last_outcome_seq l') rs.
Proof.
  unfold note_all. revert l. induction rs as [|r rs IH]; intros l H; cbn in H; [injection H as <-; by split_and!; [..|lia|]|].
  ok_inv H. apply IH in H as (E1 & E2 & E3 & Hle & Hf).
  match goal with E : note_outcome _ _ _ _ _ _ = Ok _ |- _ => apply note_outcome_identity in E as (Hi & F1 & F2 & F3 & F4) end.
  split_and!; [congruence..|lia|]. constructor; [split; [done|lia]|]. eapply Forall_impl; [exact Hf|].
  intros r1 [Hx ?]. split; [|done]. unfold is_ours, same_identity in *. by rewrite F1, F2, F3 in Hx.
Qed.

(** Evidence is counted once: after any fold of matured outcomes, noting any of them again, in any order and any
    number of times, leaves the ledger exactly as it was; and a record of another epoch, model or recipe is refused. *)
Theorem outcome_counted_once lead nominal rn ret l rs l' replay :
  note_all lead nominal rn ret l rs = Ok l' →
  (replay ⊆ rs → note_all lead nominal rn ret l' replay = Ok l') ∧
  (∀ r, is_ours l r = false →
     note_outcome l' r lead nominal rn ret = Raise (TrustError "the evidence belongs to another epoch, model or recipe")).
Proof.
  intros (E1 & E2 & E3 & _ & Hf)%note_all_identity. split.
  - intros Hr. rewrite Forall_forall in Hf. unfold note_all. induction replay as [|r replay IH]; [done|]. cbn.
    destruct (Hf r (Hr r ltac:(left))) as [Hi Hs].
    assert (note_outcome l' r lead nominal rn ret = Ok l') as ->; [|apply IH; intros x Hx; apply Hr; by right].
    unfold note_outcome. unfold is_ours, same_identity in *. rewrite E1, E2, E3, Hi. cbn.
    by rewrite (proj2 (Z.leb_le _ _) Hs).
  - intros r Hr. unfold note_outcome. unfold is_ours, same_identity in *. by rewrite E1, E2, E3, Hr.
Qed.

(** * Replay evidence *)

(** The integer sums of a trailing window. *)
Lemma add_bucket_int f out v : f ∈ _INTS → bint f (add_bucket out v) = bint f out + bint f v.
Proof.
  intros Hf. unfold bint at 1, add_bucket, ints at 1. cbn [ints].
  induction _INTS as [|x t IH]; [by apply elem_of_nil in Hf|]. cbn. case_decide as E; [by subst|].
  apply IH. apply elem_of_cons in Hf as [?|?]; [congruence|done].
Qed.

Lemma window_int l now s f : f ∈ _INTS →
  bint f (window_sums l now s) = sumZ ((λ p, bint f p.2) <$> filter (λ p, in_hours now s p.1) (buckets l)).
Proof.
  intros Hf. unfold window_sums.
  assert (∀ d b, bint f (foldl add_bucket b d.*2) = bint f b + sumZ ((λ p : Z * bucket, bint f p.2) <$> d)) as H.
  { induction d as [|[k v] d IH]; intros b; [cbn; lia|]. rewrite !fmap_cons. cbn [foldl snd].
    rewrite IH, add_bucket_int by done. rewrite sumZ_cons. lia. }
  rewrite H. assert (bint f new_bucket = 0) as ->; [|lia].
  unfold bint, new_bucket. cbn [ints]. clear H. induction _INTS as [|x t IH]; [done|]. cbn. case_decide; [done|].
  apply IH. apply elem_of_cons in Hf as [?|?]; [congruence|done].
Qed.

(** The fields the gates read; none of them counts replay evidence. *)
Definition GATE_FIELDS : list string := ["iss"; "sc"; "un"; "a_bd"; "a_cv"; "g_bd"; "g_cv"].

Lemma gate_field_int f : f ∈ GATE_FIELDS → f ∈ _INTS.
Proof. unfold GATE_FIELDS, _INTS. rewrite !elem_of_cons. naive_solver. Qed.

Lemma bump_other f k n b : f ≠ k → bint f (bump k n b) = bint f b.
Proof. intros. unfold bint, bump. cbn [ints]. by rewrite dget_dset_ne. Qed.

(** Two dicts of buckets that agree on what the gates read: the same buckets with the same counts, up to one more bucket
    at the end in which they are all zero. *)
Inductive agree : list (Z * bucket) → list (Z * bucket) → Prop :=
| agree_nil : agree [] []
| agree_zero k b : (∀ f, f ∈ GATE_FIELDS → bint f b = 0) → agree [] [(k, b)]
| agree_cons k b b' d d' : (∀ f, f ∈ GATE_FIELDS → bint f b' = bint f b) → agree d d' → agree ((k, b) :: d) ((k, b') :: d').

Lemma agree_refl d : agree d d.
Proof. induction d as [|[k b] d IH]; by constructor. Qed.

Lemma agree_filter (P : Z → bool) d d' : agree d d' → agree (filter (λ p, P p.1) d) (filter (λ p, P p.1) d').
Proof.
  induction 1 as [|k b Hb|k b b' d d' Hb _ IH]; [constructor|..]; rewrite ?filter_cons, ?filter_nil; cbn [fst];
    case_decide; try by constructor. done.
Qed.

Lemma agree_dset k (g : bucket → bucket) d : (∀ f b, f ∈ GATE_FIELDS → bint f (g b) = bint f b) →
  agree d (dset k (g (or_default new_bucket (dget k d))) d).
Proof.
  intros Hg. induction d as [|[k' b] d IH]; cbn.
  - constructor. intros f Hf. rewrite Hg by done. unfold GATE_FIELDS in Hf. rewrite !elem_of_cons in Hf.
    destruct Hf as [->|[->|[->|[->|[->|[->|[->|[]%elem_of_nil]]]]]]]; done.
  - case_decide; constructor; [intros; by apply Hg|apply agree_refl|done|done].
Qed.

Lemma agree_sum f d d' : f ∈ GATE_FIELDS → agree d d' →
  sumZ ((λ p, bint f p.2) <$> d') = sumZ ((λ p : Z * bucket, bint f p.2) <$> d).
Proof.
  intros Hf. induction 1 as [|k b Hb|k b b' d d' Hb _ IH]; rewrite ?fmap_cons, ?sumZ_cons; cbn [snd];
    [done|cbn; rewrite Hb by done; lia|by rewrite Hb, IH].
Qed.

(** What [daily_gate_coverage] folds. *)
Definition add_day (days : list (Z * (Z * Z))) (p : Z * bucket) : list (Z * (Z * Z)) :=
  let '(k, v) := p in let d := k * HOUR / DAY in
  let '(bd, cv) := or_default (0, 0) (dget d days) in dset d (bd + bint "g_bd" v, cv + bint "g_cv" v) days.

Lemma dset_same {V} k (v : V) (d : list (Z * V)) : dget k d = Some v → dset k v d = d.
Proof. induction d as [|[k' v'] d IH]; cbn; [done|]. case_decide; [intros [= ->]; by subst|intros; by rewrite IH]. Qed.

Lemma agree_days (φ : Z * (Z * Z) → bool) d d' days : (∀ k, φ (k, (0, 0)) = true) → agree d d' →
  forallb φ (foldl add_day days d') = forallb φ (foldl add_day days d).
Proof.
  intros Hφ H. revert days. induction H as [|k b Hb|k b b' d d' Hb _ IH]; intros days; [done| |].
  - cbn. rewrite !Hb by (unfold GATE_FIELDS; list_member). set (x := k * HOUR / DAY).
    destruct (dget x days) as [[bd cv]|] eqn:E; cbn.
    + rewrite !Z.add_0_r. by rewrite dset_same.
    + rewrite dset_fresh by by apply dget_None. rewrite forallb_app. cbn. by rewrite Hφ, andb_true_r.
  - cbn [foldl]. rewrite IH. f_equal. f_equal. cbn. by rewrite !Hb by (unfold GATE_FIELDS; list_member).
Qed.

Lemma forallb_perm {A} (φ : A → bool) l l' : l ≡ₚ l' → forallb φ l = forallb φ l'.
Proof. induction 1; cbn; [done|congruence|destruct (φ x), (φ y); done|congruence]. Qed.

(** Two ledgers whose gates cannot differ. *)
Record same_evidence (l l' : ledger) : Prop := {
  se_epoch : l_epoch l' = l_epoch l; se_recipe : l_recipe l' = l_recipe l; se_interval : interval_s l' = interval_s l;
  se_buckets : agree (buckets l) (buckets l'); se_pending : pending l' = pending l; se_recent : recent l' = recent l;
  se_misses : consecutive_misses l' = consecutive_misses l; se_first : first_prospective_s l' = first_prospective_s l;
  se_issue : first_issue_s l' = first_issue_s l;
  se_bounds : t_prospective_gate_bounded (l_totals l') = t_prospective_gate_bounded (l_totals l);
}.

Definition with_ledger (ci : CandidateInputs) (l : ledger) : CandidateInputs := {|
  ci_model := ci_model ci; ci_ledger := l; bound_available := bound_available ci;
  calibration_windows := calibration_windows ci; min_calibration_windows := min_calibration_windows ci;
  ci_history_seconds := ci_history_seconds ci; required_history_seconds := required_history_seconds ci;
  data_fresh := data_fresh ci; fit_age_seconds := fit_age_seconds ci |}.

Lemma same_window l l' now s f : same_evidence l l' → f ∈ GATE_FIELDS →
  bint f (window_sums l' now s) = bint f (window_sums l now s).
Proof.
  intros H Hf. rewrite !window_int by by apply gate_field_int. apply agree_sum; [done|].
  apply (agree_filter (in_hours now s)), H.
Qed.

Lemma same_gates l l' ci g t : same_evidence l l' → 1 ≤ worst_day_min_outcomes t →
  (candidate_gates (with_ledger ci l') g t).1 = (candidate_gates (with_ledger ci l) g t).1.
Proof.
  intros H Hw. unfold candidate_gates. cbn [fst ci_ledger with_ledger].
  assert (availability l' (now_s g) DAY = availability l (now_s g) DAY) as ->.
  { unfold availability, overdue, expected_opportunities.
    rewrite !(same_window l l') by (done || unfold GATE_FIELDS; list_member).
    by rewrite (se_pending _ _ H), (se_issue _ _ H), (se_interval _ _ H). }
  rewrite !(same_window l l') by (done || unfold GATE_FIELDS; list_member).
  rewrite (se_first _ _ H), (se_recent _ _ H), (se_misses _ _ H).
  assert (∀ φ : Z * (Z * Z) → bool, (∀ k, φ (k, (0, 0)) = true) →
    forallb φ (daily_gate_coverage l' (now_s g) (7 * DAY)) = forallb φ (daily_gate_coverage l (now_s g) (7 * DAY))) as Hd.
  { intros φ Hφ. unfold daily_gate_coverage. rewrite !(forallb_perm φ _ _ (sort_by_perm _ _)).
    apply (agree_days φ _ _ [] Hφ), (agree_filter (in_hours (now_s g) (7 * DAY))), H. }
  rewrite Hd; [done|]. intros k. by rewrite (proj2 (Z.ltb_lt 0 _)) by lia.
Qed.

Lemma same_judge hyst ep g t m l l' ci : same_evidence l l' → 1 ≤ worst_day_min_outcomes t →
  let j := judge hyst ep g t m (with_ledger ci l) in
  let j' := judge hyst ep g t m (with_ledger ci l') in
  j'.1 = j.1 ∧ v_gates j'.2 = v_gates j.2 ∧ v_trusted j'.2 = v_trusted j.2 ∧ v_reason j'.2 = v_reason j.2 ∧
  v_phase j'.2 = v_phase j.2.
Proof.
  intros H Hw j j'. pose proof (same_gates l l' ci g t H Hw) as Hg. unfold j, j', judge.
  destruct (candidate_gates (with_ledger ci l) g t) as [gates info], (candidate_gates (with_ledger ci l') g t) as [gates' info'].
  cbn [fst] in Hg. subst gates'. cbn [fst snd v_gates v_trusted v_reason v_phase]. unfold ci_recipe. cbn [ci_ledger with_ledger].
  rewrite (se_recipe _ _ H).
  assert (∀ h ok, step h ok l' (now_s g) t = step h ok l (now_s g) t) as ->; [|done].
  intros h ok. unfold step. by rewrite (se_epoch _ _ H), (se_recipe _ _ H), (se_bounds _ _ H).
Qed.

(** * The ledger's invariant *)

Record ledger_ok (ret : Z) (l : ledger) : Prop := {
  lk_keys : NoDup (buckets l).*1;
  lk_newest : match newest_s l with
              | None => buckets l = [] ∧ pending l = []
              | Some n => 0 < n ∧ Forall (λ p, (n - ret) / HOUR < p.1 ≤ n / HOUR) (buckets l)
                          ∧ Forall (λ p, n - DAY < p.1) (pending l)
              end;
}.

Lemma hour_mono a b : a ≤ b → a / HOUR ≤ b / HOUR.
Proof. intros. apply Z.div_le_mono; [done|lia]. Qed.

(** Pruning after a bucket of time [t] restores the invariant. *)
Lemma prune_ok ret l l0 t : 0 < t → 0 ≤ ret → ledger_ok ret l → newest_s l0 = newest_s l →
  (buckets l0).*1 ⊆ t / HOUR :: (buckets l).*1 → NoDup (buckets l0).*1 → ledger_ok ret (_prune t ret l0).
Proof.
  intros Ht Hret [Hk Hn] En Hsub Hnd. unfold _prune. rewrite En.
  set (n := Z.max t (or_int (newest_s l) t)).
  assert (t ≤ n) as Htn by lia.
  split; cbn [buckets newest_s set_pending set_buckets set_newest pending]; [by apply NoDup_fmap_filter|].
  split_and!; [lia| |].
  - apply Forall_forall. intros p [Hf Hp]%list_elem_of_filter. apply Is_true_true, Z.ltb_lt in Hf. split; [done|].
    assert (p.1 ∈ t / HOUR :: (buckets l).*1) as Hin by (apply Hsub; by apply list_elem_of_fmap_2).
    apply elem_of_cons in Hin as [->|Hin]; [by apply hour_mono|].
    destruct (newest_s l) as [m|] eqn:Em; [|destruct Hn as [Hb _]; rewrite Hb in Hin; by apply elem_of_nil in Hin].
    destruct Hn as (Hm & Hb & _). rewrite Forall_forall in Hb. apply list_elem_of_fmap in Hin as (q & -> & Hq).
    specialize (Hb q Hq). assert (n = Z.max t m) as En2 by (unfold n, or_int; by rewrite (proj2 (Z.eqb_neq m 0)) by lia).
    pose proof (hour_mono m n ltac:(lia)). lia.
  - apply Forall_forall. intros p [Hf _]%list_elem_of_filter. by apply Is_true_true, Z.ltb_lt in Hf.
Qed.

Lemma in_bucket_keys t f l : (buckets (in_bucket t f l)).*1 ⊆ t / HOUR :: (buckets l).*1
  ∧ (NoDup (buckets l).*1 → NoDup (buckets (in_bucket t f l)).*1) ∧ newest_s (in_bucket t f l) = newest_s l.
Proof.
  unfold in_bucket. cbn [buckets set_buckets newest_s]. split_and!; [|by intros; apply dset_NoDup|done].
  rewrite dset_keys. case_decide; intros x Hx; [by right|].
  apply elem_of_app in Hx as [Hx|Hx%list_elem_of_singleton]; [by right|subst; left].
Qed.

(** A ledger changed in one hour and in fields that are not buckets. *)
Definition touches (t : Z) (l l0 : ledger) : Prop :=
  (buckets l0).*1 ⊆ t / HOUR :: (buckets l).*1 ∧ (NoDup (buckets l).*1 → NoDup (buckets l0).*1) ∧ newest_s l0 = newest_s l.

Lemma touches_in_bucket t f l l0 : touches t l l0 → touches t l (in_bucket t f l0).
Proof.
  intros (H1 & H2 & H3). destruct (in_bucket_keys t f l0) as (G1 & G2 & G3). split_and!; [|auto|congruence].
  intros x Hx. apply G1, elem_of_cons in Hx as [->|Hx]; [left|by apply H1].
Qed.

Lemma touches_prune ret t l l0 : 0 < t → 0 ≤ ret → ledger_ok ret l → touches t l l0 → ledger_ok ret (_prune t ret l0).
Proof. intros ? ? Hl (H1 & H2 & H3). eapply prune_ok; eauto. apply H2, Hl. Qed.

Lemma touches_refl t l l0 : buckets l0 = buckets l → newest_s l0 = newest_s l → touches t l l0.
Proof. intros E ?. unfold touches. rewrite E. split_and!; [by intros x Hx; right|done|done]. Qed.

Lemma touches_ext t l l0 l1 : touches t l l0 → buckets l1 = buckets l0 → newest_s l1 = newest_s l0 → touches t l l1.
Proof. intros (H1 & H2 & H3) E1 E2. unfold touches. by rewrite E1, E2. Qed.

(** Every ledger an outcome leads to is the pruning of one changed in the window end's hour. *)
Lemma note_outcome_shape l r lead nominal rn ret l' : note_outcome l r lead nominal rn ret = Ok l' →
  l' = l ∨ ∃ l0, l' = _prune (r_window_end (cal r)) ret l0 ∧ touches (r_window_end (cal r)) l l0.
Proof.
  intros H. unfold note_outcome in H. ok_inv H. destruct (_ <=? _); [left; by injection H as <-|right].
  set (s0 := set_pending _ _) in *. set (t := r_window_end (cal r)) in *.
  assert (touches t l s0) as Hs0 by by apply touches_refl.
  destruct (negb (bool_decide (r_status (cal r) = "scored"))); [destruct (bool_decide (mode r = "replay")); injection H as <-; eexists; (split; [reflexivity|])|].
  - by apply touches_in_bucket.
  - eapply touches_ext; [by apply (touches_in_bucket t (λ b, bump "g_un" (b2z (in_cohort (r_decision_origin (cal r)) lead)) (bump "un" 1 b)))|done..].
  - ok_inv H. destruct (bool_decide (mode r = "replay")).
    + destruct (_ && _); injection H as <-; eexists; (split; [reflexivity|]); [|by apply touches_in_bucket].
      eapply touches_ext; [apply touches_in_bucket, touches_in_bucket, Hs0|done..].
    + injection H as <-. eexists. split; [reflexivity|].
      match goal with |- touches t l (if ?b then _ else _) => destruct b end;
        (eapply touches_ext; [apply touches_in_bucket, Hs0|done..]).
Qed.

Lemma note_issuance_shape l seq ep m rc origin we dl lead md bd ret l' :
  note_issuance l seq ep m rc origin we dl lead md bd ret = Ok l' →
  l' = l ∨ ∃ l0, l' = _prune origin ret l0 ∧ touches origin l l0.
Proof.
  intros H. unfold note_issuance in H. ok_inv H. destruct (_ <=? _); [left; by injection H as <-|right].
  ok_inv H. subst l'. eexists. split; [reflexivity|]. destruct (bool_decide (md = "replay")).
  - by apply touches_in_bucket, touches_refl.
  - eapply touches_ext; [apply touches_in_bucket; by apply (touches_refl _ l (set_seqs (last_outcome_seq l) seq l))|done..].
Qed.

(** What a ledger is fed: issuances and matured outcomes, in any order. *)
Inductive evidence :=
| ev_issued (seq : Z) (epoch model : string) (recipe : json) (origin window_end deadline_s lead_s : Z) (md : string) (bounded : bool)
| ev_matured (r : EvidenceRecord) (lead_s : Z) (nominal : f64) (recent_n : Z).

Definition note (ret : Z) (l : ledger) (e : evidence) : res ledger :=
  match e with
  | ev_issued seq ep m rc origin we dl lead md bd => note_issuance l seq ep m rc origin we dl lead md bd ret
  | ev_matured r lead nominal rn => note_outcome l r lead nominal rn ret
  end.

Definition ev_time (e : evidence) : Z :=
  match e with ev_issued _ _ _ _ origin _ _ _ _ _ => origin | ev_matured r _ _ _ => r_window_end (cal r) end.

Lemma note_ok ret l e l' : 0 ≤ ret → 0 < ev_time e → ledger_ok ret l → note ret l e = Ok l' → ledger_ok ret l'.
Proof.
  intros Hret Ht Hl H. assert (l' = l ∨ ∃ l0, l' = _prune (ev_time e) ret l0 ∧ touches (ev_time e) l l0) as [->|(l0 & -> & H0)].
  - destruct e; cbn in *; [by eapply note_issuance_shape|by eapply note_outcome_shape].
  - done.
  - by eapply touches_prune.
Qed.

Lemma NoDup_interval (l : list Z) a b : NoDup l → Forall (λ x, a < x ≤ b) l → Z.of_nat (length l) ≤ Z.max 0 (b - a).
Proof.
  intros Hnd Hf. assert (l ⊆ seqZ (a + 1) (b - a)) as Hs.
  { intros x Hx. rewrite Forall_forall in Hf. specialize (Hf x Hx). apply elem_of_seqZ. lia. }
  pose proof (submseteq_length _ _ (NoDup_submseteq l _ Hnd Hs)) as Hl. rewrite length_seqZ in Hl. lia.
Qed.

Lemma fold_ok ret l0 evs l :
  0 ≤ ret → Forall (λ e, 0 < ev_time e) evs → ledger_ok ret l0 → foldM (note ret) l0 evs = Ok l → ledger_ok ret l.
Proof.
  intros Hret Hf. revert l0. induction Hf as [|e evs He _ IH]; intros l0 H0 H; cbn in H; [by injection H as <-|].
  ok_inv H. eapply IH; [|exact H]. by eapply note_ok.
Qed.

Lemma new_ledger_ok ret epoch model recipe dt : ledger_ok ret (new_ledger epoch model recipe dt).
Proof. by split; [constructor|]. Qed.

(** C37: The ledger is bounded: fed any issuances and outcomes, in any order and with replays, a ledger has one bucket per
    hour, all within the retention before the newest time it has seen, so at most one more than the hours of the retention;
    and it remembers pending issuances of the last day only. *)
Theorem ledger_bounded ret epoch model recipe dt evs l :
  0 ≤ ret → Forall (λ e, 0 < ev_time e) evs → foldM (note ret) (new_ledger epoch model recipe dt) evs = Ok l →
  ledger_ok ret l ∧ Z.of_nat (length (buckets l)) ≤ ret / HOUR + 1.
Proof.
  intros Hret Hf H. assert (ledger_ok ret l) as Hl by (eapply fold_ok; [..|exact H]; auto using new_ledger_ok).
  split; [done|]. destruct Hl as [Hk Hn]. destruct (newest_s l) as [n|]; [|destruct Hn as [-> _]; cbn; pose proof (Z.div_pos ret HOUR Hret eq_refl); lia].
  destruct Hn as (_ & Hb & _).
  assert (Forall (λ k, (n - ret) / HOUR < k ≤ n / HOUR) (buckets l).*1) as Hk2 by by apply Forall_fmap.
  pose proof (NoDup_interval _ _ _ Hk Hk2) as Hlen. rewrite length_fmap in Hlen.
  pose proof (Z.div_pos ret HOUR Hret eq_refl).
  assert (n / HOUR ≤ (n - ret) / HOUR + ret / HOUR + 1); [|lia].
  unfold HOUR. pose proof (Z.div_mod (n - ret) 3600 ltac:(done)). pose proof (Z.div_mod ret 3600 ltac:(done)).
  pose proof (Z.div_mod n 3600 ltac:(done)). pose proof (Z.mod_pos_bound (n - ret) 3600 eq_refl).
  pose proof (Z.mod_pos_bound ret 3600 eq_refl). pose proof (Z.mod_pos_bound n 3600 eq_refl). lia.
Qed.

Lemma filter_all {A} (p : A → bool) l : Forall (λ x, p x = true) l → filter (λ x, p x) l = l.
Proof. induction 1 as [|x t Hx _ IH]; [done|]. by rewrite filter_bool_cons, Hx, IH. Qed.

(** Pruning at a time not after the newest keeps an invariant ledger's buckets, up to the one just touched. *)
Lemma prune_agree ret l t f l0 n : ledger_ok ret l → newest_s l = Some n → t ≤ n → newest_s l0 = Some n →
  buckets l0 = dset (t / HOUR) (f (_bucket l t)) (buckets l) → (∀ k b, k ∈ GATE_FIELDS → bint k (f b) = bint k b) →
  agree (buckets l) (buckets (_prune t ret l0)).
Proof.
  intros [Hk Hn] En Ht En0 Hb Hf. rewrite En in Hn. destruct Hn as (Hn & Hbs & _). unfold _prune. rewrite En0. cbn [buckets set_pending set_buckets].
  assert (Z.max t (or_int (Some n) t) = n) as -> by (unfold or_int; rewrite (proj2 (Z.eqb_neq n 0)) by lia; lia).
  assert (filter (λ p, (n - ret) / HOUR <? p.1) (buckets l) = buckets l) as Hall.
  { apply (filter_all (λ p : Z * bucket, (n - ret) / HOUR <? p.1)). eapply Forall_impl; [exact Hbs|]. intros p [Hp _]. by apply Z.ltb_lt. }
  rewrite Hb. rewrite <-Hall at 1. apply (agree_filter (λ k, (n - ret) / HOUR <? k)). by apply agree_dset.
Qed.

Lemma prune_pending ret l t l0 n : ledger_ok ret l → newest_s l = Some n → t ≤ n → newest_s l0 = Some n →
  pending l0 = pending l → pending (_prune t ret l0) = pending l.
Proof.
  intros [_ Hn] En Ht En0 Hp. rewrite En in Hn. destruct Hn as (Hn & _ & Hps). unfold _prune. rewrite En0. cbn [pending set_pending].
  assert (Z.max t (or_int (Some n) t) = n) as -> by (unfold or_int; rewrite (proj2 (Z.eqb_neq n 0)) by lia; lia).
  rewrite Hp. apply (filter_all (λ p : Z * Z, n - DAY <? p.1)). eapply Forall_impl; [exact Hps|]. intros p Hx. by apply Z.ltb_lt.
Qed.

Lemma ddel_none {V} k (d : list (Z * V)) : dget k d = None → ddel k d = d.
Proof.
  induction d as [|[k' v] d IH]; [done|]. intros Hd. cbn in Hd. case_decide; [done|]. unfold ddel in *. rewrite filter_cons.
  rewrite decide_True by (cbn; congruence). by rewrite IH.
Qed.

Lemma dset_dset {V} k (v w : V) (d : list (Z * V)) : dset k v (dset k w d) = dset k v d.
Proof.
  induction d as [|[k' x] d IH]; cbn; [by rewrite decide_True|]. case_decide as E; cbn; [by rewrite decide_True|].
  by rewrite decide_False, IH.
Qed.

Lemma in_bucket_twice t f g l : in_bucket t g (in_bucket t f l) = set_buckets (dset (t / HOUR) (g (f (_bucket l t))) (buckets l)) l.
Proof. unfold in_bucket, _bucket. cbn [buckets set_buckets]. rewrite dget_dset_eq, dset_dset. done. Qed.

(** What a replay outcome does to a ledger that has seen later times. *)
Lemma replay_same_evidence l r lead nominal rn ret l' n :
  ledger_ok ret l → newest_s l = Some n → r_window_end (cal r) ≤ n → mode r = "replay" →
  dget (r_window_end (cal r)) (pending l) = None → note_outcome l r lead nominal rn ret = Ok l' → same_evidence l l'.
Proof.
  intros Hl En Ht Hm Hp H. unfold note_outcome in H. ok_inv H. destruct (_ <=? _); [by injection H as <-; split; try apply agree_refl|].
  rewrite Hm, (bool_decide_true ("replay" = "replay")) in H by done. set (t := r_window_end (cal r)) in *. rewrite (ddel_none _ _ Hp) in H.
  set (s0 := set_pending _ _) in *.
  assert (∃ f T, l' = _prune t ret (set_totals T (set_buckets (dset (t / HOUR) (f (_bucket l t)) (buckets l)) s0)) ∧
            t_prospective_gate_bounded T = t_prospective_gate_bounded (l_totals l) ∧
            ∀ k b, k ∈ GATE_FIELDS → bint k (f b) = bint k b) as (f & T & -> & HT & Hf).
  { assert (∀ k x, k ∈ GATE_FIELDS → x ∈ ["r_sc"; "r_un"; "r_bd"; "r_cv"] → k ≠ x) as Hne.
    { unfold GATE_FIELDS. intros k x Hk Hx ->.
      repeat (apply elem_of_cons in Hx as [->|Hx]; [repeat (apply elem_of_cons in Hk as [Hk|Hk]; [discriminate Hk|]);
        by apply elem_of_nil in Hk|]). by apply elem_of_nil in Hx. }
    destruct (negb (bool_decide (r_status (cal r) = "scored"))).
    - injection H as <-. exists (bump "r_un" 1), (l_totals l). split_and!; [done|done|].
      intros k b Hk. apply bump_other, Hne; [done|list_member].
    - ok_inv H. destruct (_ && _); injection H as <-.
      + eexists (λ b, bump "r_cv" _ (bump "r_bd" 1 (bump "r_sc" 1 b))), _. rewrite in_bucket_twice. split_and!; [reflexivity|done|].
        intros k b Hk. rewrite !bump_other by (apply Hne; [done|list_member]). done.
      + exists (bump "r_sc" 1), (l_totals l). split_and!; [done|done|]. intros k b Hk. apply bump_other, Hne; [done|list_member]. }
  split; try done.
  - by eapply (prune_agree ret l t f _ n).
  - by eapply (prune_pending ret l t _ n).
Qed.

(** Hindsight cannot authorise a write. Noting a replay outcome of a window no prospective issuance is waiting for, in
    a ledger that has already seen that time, changes no gate of the candidate, nor its hysteresis, its trust, its phase
    or its reason, in any later evaluation. *)
Theorem replay_authorises_nothing l r lead nominal rn ret l' n hyst ep g t m ci :
  ledger_ok ret l → newest_s l = Some n → r_window_end (cal r) ≤ n → mode r = "replay" →
  dget (r_window_end (cal r)) (pending l) = None → note_outcome l r lead nominal rn ret = Ok l' →
  1 ≤ worst_day_min_outcomes t →
  let j := judge hyst ep g t m (with_ledger ci l) in
  let j' := judge hyst ep g t m (with_ledger ci l') in
  j'.1 = j.1 ∧ v_gates j'.2 = v_gates j.2 ∧ v_trusted j'.2 = v_trusted j.2 ∧ v_reason j'.2 = v_reason j.2 ∧
  v_phase j'.2 = v_phase j.2.
Proof. intros. apply same_judge; [|done]. by eapply replay_same_evidence. Qed.

(** * Opportunities *)

(** The expected opportunities are exactly the origins of the grid: the multiples of the interval from the first
    issuance (or the first whole hour of the window, whichever is later) up to now. *)
Theorem expected_opportunities_count l now s first :
  0 < interval_s l → first_issue_s l = Some first →
  let lo := Z.max ((_hours now s).1 * HOUR) first in
  expected_opportunities l now s
  = Z.of_nat (length (filter (λ x, x mod interval_s l = 0) (seqZ lo (now + 1 - lo)))).
Proof.
  intros Hdt Hf lo. unfold expected_opportunities. rewrite Hf. unfold _hours in *. cbn [fst] in lo. fold lo.
  set (dt := interval_s l) in *. set (a := ceil_div lo dt). set (b := now / dt).
  pose proof (ceil_div_spec lo dt Hdt) as Ha. fold a in Ha.
  pose proof (Z.div_mod now dt ltac:(lia)) as Hb. pose proof (Z.mod_pos_bound now dt Hdt) as Hb'. fold b in Hb.
  assert (filter (λ x, x mod dt = 0) (seqZ lo (now + 1 - lo)) ≡ₚ (λ k, k * dt) <$> seqZ a (b + 1 - a)) as ->.
  { apply NoDup_Permutation.
    - apply NoDup_filter, NoDup_seqZ.
    - apply NoDup_fmap_2; [intros ??; nia|apply NoDup_seqZ].
    - intros x. rewrite list_elem_of_filter, elem_of_seqZ, list_elem_of_fmap. split.
      + intros [Hx ?]. apply Z.mod_divide in Hx as [k ->]; [|lia]. exists k. split; [done|]. rewrite elem_of_seqZ. nia.
      + intros (k & -> & Hk%elem_of_seqZ). split; [apply Z.mod_mul; lia|nia]. }
  rewrite length_fmap, length_seqZ.
  replace (b * dt - a * dt) with ((b - a) * dt) by lia. rewrite Z.div_mul by lia.
  destruct (Z.leb_spec (a * dt) (b * dt)); [assert (a ≤ b) by nia|assert (b < a) by nia]; lia.
Qed.

(** * A small autoscaler

    Windows and steps of one hour: two issuances, the first one matured and covered; the daily naive and a statistical
    challenger with the same evidence. *)
Definition demo_trust : TrustSettings := {|
  min_shadow_hours := 1; min_prospective_windows := 1; coverage_tolerance_bps := 0; worst_day_min_outcomes := 1;
  min_availability_bps := 9000; acute_consecutive_misses := 3; acute_recent_windows := 4; repromotion_hours := 1;
  repromotion_windows := 1; challenger_min_pairs := 1; challenger_min_hours := 1; challenger_loss_ratio_bps := 9000;
  challenger_exit_loss_ratio_bps := 10000; challenger_cost_ratio_bps := 10000; max_fit_age_hours := 24 |}.
Definition nominal10 : f64 := idiv 1000 10000.

Definition demo_matured (md model recipe : string) (seq we y : Z) : EvidenceRecord := {|
  cal := {| r_seq := seq; r_epoch := "epoch"; r_model := model; r_recipe := JStr recipe; r_issuance_id := "iss";
            r_decision_origin := we - 3600; r_window_end := we; r_base_rps := f64_of_Z 10;
            r_upper_rps := Some (f64_of_Z 15); r_status := "scored"; r_y_rps := Some (f64_of_Z y) |};
  mode := md; committed_at_ms := 0; step_abs_errors := None |}.
Definition demo_issued (model recipe : string) (seq origin : Z) : evidence :=
  ev_issued seq "epoch" model (JStr recipe) origin (origin + 3600) (origin + 4000) 3600 "prospective" true.
Definition demo_events (model recipe : string) : list evidence :=
  [demo_issued model recipe 1 360000; demo_issued model recipe 2 363600;
   ev_matured (demo_matured "prospective" model recipe 1 363600 12) 3600 nominal10 4].
Definition demo_ledger (model recipe : string) : ledger :=
  match foldM (note (7 * DAY)) (new_ledger "epoch" model recipe 3600) (demo_events model recipe) with
  | Ok l => l | Raise _ => new_ledger "epoch" model recipe 3600 end.
Definition demo_candidate (model recipe : string) : CandidateInputs := {|
  ci_model := model; ci_ledger := demo_ledger model recipe; bound_available := true; calibration_windows := 128;
  min_calibration_windows := 128; ci_history_seconds := 8 * DAY; required_history_seconds := DAY; data_fresh := true;
  fit_age_seconds := None |}.
Definition demo_cands : list CandidateInputs := [demo_candidate NAIVE "rn"; demo_candidate "statistical" "rs"].
Definition demo_global : Global := {|
  now_s := 364000; lead_seconds := 3600; nominal_miscoverage := nominal10; identity_ok := true; store_healthy := true;
  replay_suite_passed := true; startup_budget_valid := true |}.
Definition demo_pairs : list (string * pair_state) := [("statistical", {|
  ps_epoch := "epoch"; ps_challenger := "statistical"; ps_baseline := NAIVE; ps_recipes := [("statistical", "rs"); (NAIVE, "rn")];
  ps_pending := []; ps_buckets := [(101, {| pb_n := 2; pb_chal := f64_of_Z 1; pb_base := f64_of_Z 2; pb_first := 360000; pb_last := 363600 |})];
  ps_last_seq := 9 |})].
Definition demo_costs : list (string * cost_table) :=
  [("statistical", [("shortage", (f64_of_Z 1, f64_of_Z 1)); ("replica_time", (f64_of_Z 1, f64_of_Z 1))])].
(** The naive is selected, and the challenger has qualified for [age] seconds. *)
Definition demo_prior (age : Z) : trust_state := {| ts_hyst := [];
  ts_selection := Some {| sel_epoch := Some "epoch"; sel_selected := Some NAIVE; sel_recipe := Some "rn"; sel_since_s := Some 0;
                          sel_switches := 1; sel_entry_since := [("statistical:rs", 364000 - age)] |} |}.
#[local] Abbreviation demo_evaluate age := (evaluate demo_cands (demo_prior age) demo_global demo_trust demo_pairs demo_costs).

Example demo_selected : (λ r, (selected r.1, prediction_ready r.1)) <$> demo_evaluate 3600 = Ok (Some "statistical", true)
  ∧ (λ r, selected r.1) <$> demo_evaluate 3599 = Ok (Some NAIVE).
Proof. by vm_compute. Qed.

(** The naive's recipe changes while it is selected: the selection stays and keeps naming the recipe it no longer has. *)
Example stale_recipe :
  (λ r, (selected r.1, sel_recipe <$> ts_selection r.2))
    <$> evaluate [demo_candidate NAIVE "rn2"] (demo_prior 0) demo_global demo_trust [] []
  = Ok (Some NAIVE, Some (Some "rn")).
Proof. by vm_compute. Qed.

(** The first whole hour of the seven-day window at an hour-aligned [now] is pruned by evidence of that very moment. *)
Example hour_dropped :
  let l := foldM (note (7 * DAY)) (new_ledger "epoch" NAIVE "rn" 3600) [demo_issued NAIVE "rn" 1 360000; demo_issued NAIVE "rn" 2 (360000 + 7 * DAY)] in
  in_hours (360000 + 7 * DAY) (7 * DAY) 100 = true ∧
  (λ l, bint "iss" (window_sums l (360000 + 7 * DAY) (7 * DAY))) <$> l = Ok 1.
Proof. by vm_compute. Qed.

(** A candidate demoted a second ago stays out while it is evaluated; one evaluation without it (its forecast was not
    available) forgets the demotion, and the next trusts it at once. *)
Definition demo_demotion : trust_state := {| ts_hyst := [("statistical", {|
  h_epoch := "epoch"; h_recipe := "rs"; trusted := false; ever_trusted := true; demoted_at_s := Some (now_s demo_global - 1);
  bounds_at_demotion := 0; gates_ok_since_s := None |})]; ts_selection := None |}.
Definition statistical_trusted (r : Verdict * trust_state) : option bool := v_trusted <$> dget "statistical" (candidates r.1).
Example hysteresis_forgotten :
  statistical_trusted <$> evaluate demo_cands demo_demotion demo_global demo_trust demo_pairs demo_costs = Ok (Some false)
  ∧ (r ← evaluate [demo_candidate NAIVE "rn"] demo_demotion demo_global demo_trust demo_pairs demo_costs;
     statistical_trusted <$> evaluate demo_cands r.2 demo_global demo_trust demo_pairs demo_costs) = Ok (Some true).
Proof. by vm_compute. Qed.

(** What the evaluation says, as facts about its result. *)
Definition demo_facts (age : Z) (p : Verdict → bool) : Prop := ∃ v st, demo_evaluate age = Ok (v, st) ∧ p v = true.
Lemma demo_fact age p : match demo_evaluate age with Ok (v, _) => p v | Raise _ => false end = true → demo_facts age p.
Proof. unfold demo_facts. destruct (demo_evaluate age) as [[v st]|]; [eauto|done]. Qed.

Lemma demo_3600 : demo_facts 3600 (λ v, bool_decide (selected v = Some "statistical") && prediction_ready v).
Proof. apply demo_fact. by vm_compute. Qed.
Lemma demo_0 : demo_facts 0 (λ v, match dget NAIVE (candidates v) with Some nv => v_trusted nv | None => false end).
Proof. apply demo_fact. by vm_compute. Qed.

Lemma selected_is_trusted_witness : ∃ v st, demo_evaluate 3600 = Ok (v, st) ∧ selected v = Some "statistical" ∧
  ∃ nv, dget NAIVE (candidates v) = Some nv ∧ v_trusted nv = true.
Proof.
  destruct demo_3600 as (v & st & E & H). apply andb_true_iff in H as [Hs _]. apply bool_decide_eq_true in Hs.
  exists v, st. split; [exact E|]. split; [exact Hs|].
  destruct (selected_is_trusted demo_cands (demo_prior 3600) demo_global demo_trust demo_pairs demo_costs v st "statistical" E Hs)
    as (_ & _ & _ & _ & Hn).
  destruct (Hn ltac:(discriminate)) as (nv & H1 & _ & H2). exists nv. split; [exact H1|exact H2].
Defined.

Lemma ready_iff_witness : ∃ v st, demo_evaluate 3600 = Ok (v, st) ∧ is_Some (selected v).
Proof.
  destruct demo_3600 as (v & st & E & H). apply andb_true_iff in H as [_ Hp]. exists v, st. split; [exact E|].
  exact (proj1 (proj1 (ready_iff demo_cands (demo_prior 3600) demo_global demo_trust demo_pairs demo_costs v st E) Hp)).
Defined.

Lemma trusted_naive_selected_witness : ∃ v st, demo_evaluate 0 = Ok (v, st) ∧ is_Some (selected v).
Proof.
  destruct demo_0 as (v & st & E & H). exists v, st. split; [exact E|]. destruct (dget NAIVE (candidates v)) as [nv|] eqn:En; [|discriminate H].
  exact (trusted_naive_selected demo_cands (demo_prior 0) demo_global demo_trust demo_pairs demo_costs v st nv E En H).
Defined.

Lemma challenger_entry_witness :
  challenger_promoted (dget "statistical" demo_pairs) 364000 demo_trust (dget "statistical" demo_costs) = true.
Proof.
  destruct demo_3600 as (v & st & E & H). apply andb_true_iff in H as [Hs _]. apply bool_decide_eq_true in Hs.
  refine (proj1 (challenger_entry demo_cands (demo_prior 3600) demo_global demo_trust demo_pairs demo_costs v st "statistical" E Hs _ _));
    [discriminate|]. intros sel [= <-]. discriminate.
Defined.

Definition demo_demoted : hysteresis := {|
  h_epoch := "epoch"; h_recipe := "rn"; trusted := false; ever_trusted := true; demoted_at_s := Some 1000;
  bounds_at_demotion := 0; gates_ok_since_s := None |}.
Definition demo_event (ok : bool) (now : Z) : event := {| ev_ok := ok; ev_ledger := demo_ledger NAIVE "rn"; ev_now := now |}.


Lemma outcome_counted_once_witness : ∃ l, note_all 3600 nominal10 4 (7 * DAY) (new_ledger "epoch" NAIVE "rn" 3600)
    [demo_matured "prospective" NAIVE "rn" 1 363600 12] = Ok l ∧
  note_all 3600 nominal10 4 (7 * DAY) l [demo_matured "prospective" NAIVE "rn" 1 363600 12] = Ok l.
Proof.
  destruct (note_all 3600 nominal10 4 (7 * DAY) (new_ledger "epoch" NAIVE "rn" 3600) [demo_matured "prospective" NAIVE "rn" 1 363600 12])
    as [l|e] eqn:E; [|by vm_compute in E]. exists l. split; [reflexivity|].
  apply (outcome_counted_once _ _ _ _ _ _ _ _ E). intros x Hx. exact Hx.
Defined.

Lemma demo_ledger_run : foldM (note (7 * DAY)) (new_ledger "epoch" NAIVE "rn" 3600) (demo_events NAIVE "rn") = Ok (demo_ledger NAIVE "rn").
Proof. by vm_compute. Qed.

Lemma ledger_bounded_witness : Z.of_nat (length (buckets (demo_ledger NAIVE "rn"))) ≤ 7 * DAY / HOUR + 1.
Proof.
  refine (proj2 (ledger_bounded (7 * DAY) "epoch" NAIVE "rn" 3600 (demo_events NAIVE "rn") _ _ _ demo_ledger_run)); [done|].
  repeat constructor.
Defined.

Lemma replay_authorises_nothing_witness : ∃ l', note_outcome (demo_ledger NAIVE "rn") (demo_matured "replay" NAIVE "rn" 7 358800 99) 3600 nominal10 4 (7 * DAY) = Ok l' ∧
  v_trusted (judge [] "epoch" demo_global demo_trust NAIVE (with_ledger (demo_candidate NAIVE "rn") l')).2 = true.
Proof.
  destruct (note_outcome (demo_ledger NAIVE "rn") (demo_matured "replay" NAIVE "rn" 7 358800 99) 3600 nominal10 4 (7 * DAY)) as [l'|e] eqn:E;
    [|by vm_compute in E]. exists l'. split; [reflexivity|].
  assert (ledger_ok (7 * DAY) (demo_ledger NAIVE "rn")) as Hl
    by (eapply fold_ok; [| |apply new_ledger_ok|apply demo_ledger_run]; [done|repeat constructor]).
  destruct (replay_authorises_nothing (demo_ledger NAIVE "rn") (demo_matured "replay" NAIVE "rn" 7 358800 99) 3600 nominal10 4 (7 * DAY) l' 363600
    [] "epoch" demo_global demo_trust NAIVE (demo_candidate NAIVE "rn")) as (_ & _ & Ht & _);
    [exact Hl|by vm_compute|done|done|by vm_compute|exact E|done|]. rewrite Ht. by vm_compute.
Defined.

Lemma expected_opportunities_count_witness : expected_opportunities (demo_ledger NAIVE "rn") 364000 DAY = 2.
Proof.
  rewrite (expected_opportunities_count (demo_ledger NAIVE "rn") 364000 DAY 360000); [by vm_compute|by vm_compute|by vm_compute].
Defined.
