(* ===== verification/History.v ===== *)
(** [forecasting/history.py]: the strict request-rate history. The transport ([data.bounded_http]), the monotonic clock
    and the receipt clock are arguments, computations over a state [W] of the outside world; everything the module does
    with what they answer is modelled: the watermark, the chunk plan, the byte and time budgets, the answer's checks and
    the grid that is filled. *)
From Stdlib Require Import SpecFloat Ascii.
From S2P Require Import Prelude Float64 Sha256 Json Numbers Identity Contracts.

Definition DEFAULT_SETTLEMENT_S : Z := 120.
Definition DEADLINE_S : f64 := f64_of_Z 20.
Definition MAX_CHUNK_BYTES : Z := Z.shiftl 8 20.
Definition MAX_TOTAL_BYTES : Z := Z.shiftl 32 20.
Definition MAX_POINTS_PER_CHUNK : Z := 10080.

(** * Wall time, watermark and chunks *)

(** A wall time: a naive or an aware [datetime] (with its [timestamp()] in UTC), or a number. *)
Inductive wall := WNaive | WAware (timestamp : f64) | WNumber (v : json).

Definition _epoch_s (now : wall) : res f64 :=
  match now with
  | WNaive => Raise (PyValueError "naive datetime")
  | WAware t => Ok t
  | WNumber v =>
      match number v with
      | Some n =>
          ok ← isfinite n;
          raise_if negb ok with PyValueError "unusable wall time" ;;
          Ok match n with inl z => f64_of_Z z | inr x => x end
      | None => Raise (PyValueError "unusable wall time")
      end
  end.

(** [math.floor] of a NaN is a [ValueError], of an infinity an [OverflowError]. *)
Definition floor_int (x : f64) : res Z :=
  match ffloor x with
  | Some z => Ok z
  | None => Raise (if is_nan x then PyValueError "cannot convert float NaN to integer" else PyOverflowError)
  end.

Definition watermark (now : wall) (interval_s settlement_s : Z) : res Z :=
  t ← _epoch_s now;
  raise_if negb (is_finite (f64_of_Z settlement_s)) with PyOverflowError ;;
  raise_if interval_s =? 0 with ZeroDivisionError ;;
  q ← floor_int ((t ⊖ f64_of_Z settlement_s) ⊘ f64_of_Z interval_s);
  Ok (q * interval_s).

(** The loop of [plan_chunks]: [s] grows by at least one per turn (the interval is positive), so the number of seconds
    from [s] to [end], plus one, is enough fuel ([plan_fuel]). *)
Fixpoint plan_loop (fuel : nat) (s end_ interval_s max_points : Z) : list (Z * Z) :=
  match fuel with
  | O => []
  | S n =>
      if s <=? end_ then
        let e := Z.min end_ (s + (max_points - 1) * interval_s) in
        (s, e) :: plan_loop n (e + interval_s) end_ interval_s max_points
      else []
  end.

Definition plan_chunks (start end_ interval_s max_points : Z) : res (list (Z * Z)) :=
  raise_if interval_s =? 0 with ZeroDivisionError ;;
  raise_if negb ((end_ - start) mod interval_s =? 0) || (end_ <? start) || (max_points <? 1)
    with PyValueError "chunk plan needs grid-aligned bounds and a positive chunk size" ;;
  Ok (plan_loop (Z.to_nat (end_ - start + 1)) start end_ interval_s max_points).

(** * [RpsGrid] *)

Record RpsGrid := {
  query_sha256 : string; interval_seconds : Z; start : Z; end_ : Z;
  values : list (option f64); received_at_ms : list (option Z);
  read_completed_ms : Z; response_sha256 : string; chunks : Z;
}.

Definition timestamps (g : RpsGrid) : list Z :=
  (λ i : nat, start g + Z.of_nat i * interval_seconds g) <$> seq 0 (length (values g)).

Definition observed_count (g : RpsGrid) : Z := sumZ ((λ v : option f64, if v is Some _ then 1 else 0) <$> values g).

Definition missing_count (g : RpsGrid) : Z := Z.of_nat (length (values g)) - observed_count g.

Definition observed_fraction (g : RpsGrid) : f64 :=
  match values g with [] => f0 | _ => idiv (observed_count g) (Z.of_nat (length (values g))) end.

(** [for i in range(len(values) - 1, -1, -1)] *)
Fixpoint latest_loop (g : RpsGrid) (n : nat) : option Z :=
  match n with
  | O => None
  | S i => match values g !! i with
           | Some (Some _) => Some (start g + Z.of_nat i * interval_seconds g)
           | _ => latest_loop g i
           end
  end.

Definition latest_observed (g : RpsGrid) : option Z := latest_loop g (length (values g)).

Definition is_fresh (g : RpsGrid) (now : wall) (settlement_s : Z) : res bool :=
  match latest_observed g with
  | None => Ok false
  | Some latest =>
      t ← _epoch_s now;
      Ok (t ⊖ f64_of_Z latest ≤ᶠ f64_of_Z (settlement_s + 2 * interval_seconds g))
  end.

(** * One answer *)

Definition raw_rate (raw : json) : res f64 :=
  match raw with
  | JStr s => of_option (HistoryRefused "non-numeric sample") (py_float (String.list_ascii_of_string s))
  | JInt z => raise_if negb (is_finite (f64_of_Z z)) with PyOverflowError ;; Ok (f64_of_Z z)
  | JFloat x => Ok x
  | _ => Raise (HistoryRefused "non-numeric sample")
  end.

Definition sample_time (ts : json) : res Z :=
  match number ts with
  | None => Raise (HistoryRefused "malformed sample timestamp")
  | Some n =>
      ok ← isfinite n;
      raise_if negb ok with HistoryRefused "malformed sample timestamp" ;;
      of_option (HistoryRefused "malformed sample timestamp") match n with inl z => Some z | inr x => f64_to_int x end
  end.

Definition one_sample (lo hi interval_s : Z) (last : option Z) (sample : json) : res (Z * f64) :=
  match sample with
  | JArr [t; raw] =>
      ts ← sample_time t;
      raise_if negb (ts mod interval_s =? 0) with HistoryRefused "sample is off the grid" ;;
      raise_if negb ((lo <=? ts) && (ts <=? hi)) with HistoryRefused "sample is outside its chunk" ;;
      raise_if match last with Some l => ts <=? l | None => false end
        with HistoryRefused "duplicate or unordered sample" ;;
      rps ← raw_rate raw;
      raise_if negb (is_finite rps) || (rps <ᶠ f0) with HistoryRefused "sample is not a finite, non-negative rate" ;;
      Ok (ts, rps)
  | _ => Raise (HistoryRefused "malformed sample")
  end.

Fixpoint parse_samples (lo hi interval_s : Z) (last : option Z) (l : list json) : res (list (Z * f64)) :=
  match l with
  | [] => Ok []
  | sample :: t =>
      s ← one_sample lo hi interval_s last sample;
      r ← parse_samples lo hi interval_s (Some s.1) t;
      Ok (s :: r)
  end.

Definition get_or_null (k : string) (v : json) : json := or_default JNull (get k v).

Definition _parse_chunk (doc : json) (lo hi interval_s : Z) : res (list (Z * f64)) :=
  raise_if negb (py_eq (get_or_null "status" doc) (JStr "success")) with HistoryRefused "history query status" ;;
  raise_if truthy (get_or_null "isPartial" doc) with HistoryRefused "partial history answer" ;;
  let data := get_or_null "data" doc in
  raise_if negb (py_eq (get_or_null "resultType" data) (JStr "matrix")) with HistoryRefused "the answer is not a matrix" ;;
  match get_or_null "result" data with
  | JArr [] => Ok []
  | JArr [series] =>
      match get_or_null "values" series with
      | JArr samples => parse_samples lo hi interval_s None samples
      | _ => Raise (HistoryRefused "series without values")
      end
  | _ => Raise (HistoryRefused "want at most one series")
  end.

(** * The bounded read *)

(** What one exchange of [data.bounded_http] gives: a status and a complete body, or one of its two failures. *)
Inductive exchange :=
| Answer (status : Z) (body : string)
| BodyTooLarge
| TransportFailure.

(** [urllib.parse.urlencode] of string pairs, and [base_url.rstrip("/")]. *)
Definition hex_upper (n : nat) : ascii := ascii_of_nat (if (n <? 10)%nat then 48 + n else 55 + n)%nat.

Definition quote_plus (s : string) : string :=
  String.string_of_list_ascii (concat ((λ c,
    if lower_alnum (lower c) || is_char 95 c || is_char 46 c || is_char 45 c || is_char 126 c then [c]
    else if is_char 32 c then ["+"%char]
    else let n := nat_of_ascii c in ["%"%char; hex_upper (n / 16); hex_upper (n mod 16)])
    <$> String.list_ascii_of_string (utf8 s))).

Fixpoint urlencode (l : list (string * string)) : string :=
  match l with
  | [] => EmptyString
  | (k, v) :: t => quote_plus k +:+ "=" +:+ quote_plus v +:+ match t with [] => EmptyString | _ => "&" +:+ urlencode t end
  end.

Definition rstrip_slash (s : string) : string :=
  String.string_of_list_ascii (rev (span (is_char 47) (rev (String.list_ascii_of_string s))).2).

Definition text_of_Z (z : Z) : string := String.string_of_list_ascii (str_of_Z z).

Definition range_url (base_url query : string) (cstart cend interval_s : Z) : string :=
  rstrip_slash base_url +:+ "/api/v1/query_range?"
  +:+ urlencode [("query", query); ("start", text_of_Z cstart); ("end", text_of_Z cend);
                 ("step", text_of_Z interval_s +:+ "s"); ("deny_partial_response", "1")].

(** [n.to_bytes(8, "big")] *)
Definition big_endian8 (n : Z) : string :=
  foldr (λ i s, String (ascii_of_nat (Z.to_nat (Z.land (Z.shiftr n (8 * i)) 255))) s) EmptyString [7; 6; 5; 4; 3; 2; 1; 0].

Definition body_len (body : string) : Z := Z.of_nat (String.length body).

Definition framed (body : string) : string := big_endian8 (body_len body) +:+ body.

(** [json.loads(body)]: the bytes are UTF-8 text. Text beyond Latin-1, a byte order mark and UTF-16 or UTF-32 bodies are
    outside the model and refused here. *)
Fixpoint utf8_decode (l : list ascii) : option (list ascii) :=
  match l with
  | [] => Some []
  | c :: t =>
      let n := nat_of_ascii c in
      if (n <? 128)%nat then r ← utf8_decode t; Some (c :: r)
      else match t with
           | d :: t' =>
               let m := nat_of_ascii d in
               if ((194 <=? n) && (n <=? 195) && (128 <=? m) && (m <=? 191))%nat
               then r ← utf8_decode t'; Some (ascii_of_nat ((n - 192) * 64 + (m - 128)) :: r)
               else None
           | [] => None
           end
  end.

Definition loads_body (body : string) : res json :=
  match utf8_decode (String.list_ascii_of_string body) with
  | Some l => loads (String.string_of_list_ascii l)
  | None => Raise not_json
  end.

(** The local variables of the loop: [values], [received], what the digest was updated with, [used] and [last]. *)
Record progress := {
  p_values : list (option f64); p_received : list (option Z); p_hashed : string; p_used : Z; p_last : option Z;
}.

(** [l[i] = x]: a negative index counts from the end, beyond either end is an [IndexError]. *)
Definition py_assign {A} (l : list A) (i : Z) (x : A) : res (list A) :=
  let n := Z.of_nat (length l) in
  let j := if i <? 0 then i + n else i in
  raise_if (j <? 0) || (n <=? j) with PyIndexError ;; Ok (<[Z.to_nat j := x]> l).

Definition place (start_ interval_s at_ms : Z) (p : progress) (s : Z * f64) : res progress :=
  let '(ts, rps) := s in
  raise_if match p_last p with Some l => ts <=? l | None => false end
    with HistoryRefused "duplicate or unordered sample" ;;
  let i := (ts - start_) / interval_s in
  v ← py_assign (p_values p) i (Some rps);
  r ← py_assign (p_received p) i (Some at_ms);
  Ok {| p_values := v; p_received := r; p_hashed := p_hashed p; p_used := p_used p; p_last := Some ts |}.

(** What the loop does with a complete body: the total budget, the digest, the parse, the placement. *)
Definition absorb (start_ interval_s max_total : Z) (p : progress) (c : Z * Z) (body : string) (at_ms : Z) : res progress :=
  let used := p_used p + body_len body in
  raise_if max_total <? used with HistoryRefused "history exceeds its total byte budget" ;;
  let p := {| p_values := p_values p; p_received := p_received p; p_hashed := p_hashed p +:+ framed body;
              p_used := used; p_last := p_last p |} in
  doc ← match loads_body body with
        | Ok d => Ok d
        | Raise (PyValueError _) => Raise (HistoryRefused "history answer is not JSON")
        | Raise e => Raise e
        end;
  samples ← _parse_chunk doc c.1 c.2 interval_s;
  foldM (place start_ interval_s at_ms) p samples.

Section read.
Context {W : Type} (fetch : string → f64 → Z → SE W exchange) (monotonic : SE W f64) (receipt_ms : SE W Z).
Context (base_url query : string) (interval_s : Z) (deadline_s : f64) (max_chunk max_total : Z).

Definition read_chunk (start_ : Z) (t0 : f64) (p : progress) (c : Z * Z) : SE W progress :=
  now ← monotonic;
  let left := deadline_s ⊖ (now ⊖ t0) in
  raise_if left ≤ᶠ f0 with HistoryUnavailable "history read exceeded its deadline" ;;
  let budget := Z.min max_chunk (max_total - p_used p) in
  raise_if budget <=? 0 with HistoryRefused "history exceeds its total byte budget" ;;
  reply ← fetch (range_url base_url query c.1 c.2 interval_s) left budget;
  match reply with
  | BodyTooLarge => mthrow (HistoryRefused "history chunk exceeds its byte budget")
  | TransportFailure => mthrow (HistoryUnavailable "history query failed")
  | Answer status body =>
      at_ms ← receipt_ms;
      raise_if (500 <=? status) || bool_decide (status ∈ [401; 403; 429])
        with HistoryUnavailable "metrics backend answered" ;;
      raise_if negb (status =? 200) with HistoryRefused "metrics backend refused the query" ;;
      lift (absorb start_ interval_s max_total p c body at_ms)
  end.

Fixpoint read_chunks (start_ : Z) (t0 : f64) (p : progress) (plan : list (Z * Z)) : SE W progress :=
  match plan with
  | [] => mret p
  | c :: t => p' ← read_chunk start_ t0 p c; read_chunks start_ t0 p' t
  end.
End read.

Section read_history.
Context {W : Type} (fetch : string → f64 → Z → SE W exchange) (monotonic : SE W f64) (receipt_ms : SE W Z).

Definition read_rps_history (base_url : string) (signal : ResolvedSignal) (now : wall) (interval_s history_seconds
    settlement_s : Z) (deadline_s : f64) (max_chunk_bytes max_total_bytes max_points_per_chunk : Z) : SE W RpsGrid :=
  raise_if negb (bool_decide (rs_contract signal = CONTRACT)) || bool_decide (rs_query signal = EmptyString)
    with PyValueError "history needs a resolved signal under the requests-per-second/v1 contract" ;;
  raise_if negb (bool_decide (sha256_hex (utf8 (rs_query signal)) = rs_sha256 signal))
    with PyValueError "the signal's query does not match its hash" ;;
  raise_if negb (bool_decide (interval_s ∈ ALLOWED_INTERVALS)) with PyValueError "interval is not allowed" ;;
  raise_if (history_seconds <? interval_s) || negb (history_seconds mod interval_s =? 0)
           || (MAX_HISTORY_DAYS * 86400 <? history_seconds) with PyValueError "history must be a multiple of the interval" ;;
  raise_if settlement_s <? 0 with PyValueError "settlement must be a non-negative integer" ;;
  fin ← lift (watermark now interval_s settlement_s);
  let start_ := fin - history_seconds + interval_s in
  plan ← lift (plan_chunks start_ fin interval_s max_points_per_chunk);
  let n := Z.to_nat (history_seconds / interval_s) in
  t0 ← monotonic;
  p ← read_chunks fetch monotonic receipt_ms base_url (rs_query signal) interval_s deadline_s max_chunk_bytes
        max_total_bytes start_ t0
        {| p_values := replicate n None; p_received := replicate n None; p_hashed := EmptyString; p_used := 0;
           p_last := None |} plan;
  t ← monotonic;
  raise_if deadline_s <ᶠ t ⊖ t0 with HistoryUnavailable "history read exceeded its deadline" ;;
  done_ms ← receipt_ms;
  mret {| query_sha256 := rs_sha256 signal; interval_seconds := interval_s; start := start_; end_ := fin;
          values := p_values p; received_at_ms := p_received p; read_completed_ms := done_ms;
          response_sha256 := sha256_hex (p_hashed p); chunks := Z.of_nat (length plan) |}.
End read_history.

(** * The chunk plan *)

(** The grid points of an aligned, inclusive interval. *)
Definition grid (lo hi dt : Z) : list Z := range lo (hi + 1) dt.

Lemma grid_seq lo k dt : 0 < dt → 0 ≤ k →
  grid lo (lo + k * dt) dt = (λ j : nat, lo + Z.of_nat j * dt) <$> seq 0 (Z.to_nat (k + 1)).
Proof.
  intros Hdt Hk. unfold grid, range. do 3 f_equal.
  pose proof (ceil_div_spec (lo + k * dt + 1 - lo) dt Hdt). nia.
Qed.

Lemma grid_app lo j k dt : 0 < dt → 0 ≤ j → 0 ≤ k →
  grid lo (lo + j * dt) dt ++ grid (lo + (j + 1) * dt) (lo + (j + 1) * dt + k * dt) dt = grid lo (lo + (j + 1 + k) * dt) dt.
Proof.
  intros Hdt Hj Hk. rewrite !grid_seq by lia.
  replace (Z.to_nat (j + 1 + k + 1)) with (Z.to_nat (j + 1) + Z.to_nat (k + 1))%nat by lia.
  rewrite seq_app, fmap_app. f_equal. rewrite (Nat.add_comm 0), <-fmap_add_seq, <-list_fmap_compose.
  apply list_fmap_ext. intros i x _. cbn. lia.
Qed.

Lemma plan_step n s k dt m : 0 < dt → 1 ≤ m → 0 ≤ k →
  plan_loop (S n) s (s + k * dt) dt m =
    if k <? m then (s, s + k * dt) :: plan_loop n (s + k * dt + dt) (s + k * dt) dt m
    else (s, s + (m - 1) * dt) :: plan_loop n (s + (m - 1) * dt + dt) (s + k * dt) dt m.
Proof.
  intros. cbn [plan_loop]. rewrite (proj2 (Z.leb_le _ _)) by nia. destruct (Z.ltb_spec k m).
  - by rewrite Z.min_l by nia.
  - by rewrite Z.min_r by nia.
Qed.

Lemma plan_done n s e dt m : e < s → plan_loop n s e dt m = [].
Proof. intros. destruct n; [done|]. cbn [plan_loop]. by rewrite (proj2 (Z.leb_gt _ _)) by done. Qed.

Lemma plan_loop_spec fuel s k dt m : 0 < dt → 1 ≤ m → 0 ≤ k → k * dt < Z.of_nat fuel →
  let plan := plan_loop fuel s (s + k * dt) dt m in
  concat ((λ c, grid c.1 c.2 dt) <$> plan) = grid s (s + k * dt) dt
  ∧ Forall (λ c, s ≤ c.1 ∧ c.2 ≤ s + k * dt ∧ (dt | c.1 - s) ∧ ∃ j, 0 ≤ j < m ∧ c.2 = c.1 + j * dt) plan
  ∧ Z.of_nat (length plan) = ceil_div (k + 1) m
  ∧ ∀ fuel', (fuel ≤ fuel')%nat → plan_loop fuel' s (s + k * dt) dt m = plan.
Proof.
  intros Hdt Hm. revert s k. induction fuel as [|n IH]; intros s k Hk Hf; [nia|]. cbn zeta.
  rewrite plan_step by lia. destruct (Z.ltb_spec k m) as [Hkm|Hkm].
  - rewrite plan_done by lia. cbn. rewrite app_nil_r. split_and!; [done| | |].
    + constructor; [|constructor]. cbn. split_and!; [lia|lia|exists 0; lia|]. exists k. lia.
    + pose proof (ceil_div_spec (k + 1) m). nia.
    + intros [|n'] Hn'; [lia|]. rewrite plan_step by lia. rewrite (proj2 (Z.ltb_lt _ _)) by done.
      by rewrite plan_done by lia.
  - assert (s + k * dt = s + (m - 1) * dt + dt + (k - m) * dt) as E by lia. rewrite E.
    destruct (IH (s + (m - 1) * dt + dt) (k - m)) as (Hc & Hall & Hlen & Hfuel); [lia|nia|].
    cbn zeta in Hc, Hall, Hlen, Hfuel. split_and!.
    + cbn [fmap list_fmap concat fst snd]. rewrite Hc.
      replace (s + (m - 1) * dt + dt) with (s + (m - 1 + 1) * dt) by lia. rewrite grid_app by lia. f_equal. lia.
    + constructor; [cbn; split_and!; [lia|nia|exists 0; lia|]; exists (m - 1); lia|].
      eapply Forall_impl; [exact Hall|]. cbn. intros [a b] (H1 & H2 & [x Hx] & Hj). cbn in *.
      split_and!; [nia|lia|exists (x + m); lia|done].
    + cbn [length]. rewrite Nat2Z.inj_succ, Hlen. pose proof (ceil_div_spec (k - m + 1) m).
      pose proof (ceil_div_spec (k + 1) m). nia.
    + intros [|n'] Hn'; [lia|]. rewrite <-E at 1. rewrite plan_step by lia. rewrite (proj2 (Z.ltb_ge _ _)) by done.
      rewrite E. by rewrite Hfuel by lia.
Qed.

(** The chunk plan of an aligned interval always exists and its loop ends (more fuel changes nothing): the chunks'
    grid points, in order, are exactly the interval's grid points, each chunk has between one and [max_points] of them,
    and there are as few chunks as that bound allows. *)
Theorem chunk_plan_exact start_ fin dt m :
  0 < dt → start_ ≤ fin → (dt | fin - start_) → 1 ≤ m →
  ∃ plan, plan_chunks start_ fin dt m = Ok plan
  ∧ concat ((λ c, grid c.1 c.2 dt) <$> plan) = grid start_ fin dt
  ∧ Forall (λ c, 1 ≤ Z.of_nat (length (grid c.1 c.2 dt)) ≤ m) plan
  ∧ Z.of_nat (length plan) = ceil_div ((fin - start_) / dt + 1) m
  ∧ ∀ fuel, (Z.to_nat (fin - start_ + 1) ≤ fuel)%nat → plan_loop fuel start_ fin dt m = plan.
Proof.
  intros Hdt Hle [k Hk] Hm. assert (fin = start_ + k * dt) as -> by lia.
  destruct (plan_loop_spec (Z.to_nat (start_ + k * dt - start_ + 1)) start_ k dt m) as (Hc & Hall & Hlen & Hfuel);
    [lia|lia|nia|nia|].
  exists (plan_loop (Z.to_nat (start_ + k * dt - start_ + 1)) start_ (start_ + k * dt) dt m). split_and!; [|done| | |done].
  - unfold plan_chunks. rewrite (proj2 (Z.eqb_neq _ _)) by lia.
    rewrite (proj2 (Z.eqb_eq ((start_ + k * dt - start_) mod dt) 0)) by (apply mod0_divide; [lia|exists k; lia]).
    rewrite (proj2 (Z.ltb_ge _ _)) by lia. by rewrite (proj2 (Z.ltb_ge m 1)) by lia.
  - eapply Forall_impl; [exact Hall|]. cbn. intros [a b] (_ & _ & _ & j & Hj & E). cbn in *. subst b.
    rewrite grid_seq by lia. rewrite length_fmap, length_seq. lia.
  - cbn zeta in Hlen. rewrite Hlen. f_equal. replace (start_ + k * dt - start_) with (k * dt) by lia.
    by rewrite Z.div_mul by lia.
Qed.

Lemma chunk_plan_exact_witness :
  plan_chunks 600 4200 600 3 = Ok [(600, 1800); (2400, 3600); (4200, 4200)]
  ∧ ∃ plan, plan_chunks 600 4200 600 3 = Ok plan ∧ concat ((λ c, grid c.1 c.2 600) <$> plan) = grid 600 4200 600.
Proof.
  split; [reflexivity|].
  destruct (chunk_plan_exact 600 4200 600 3 ltac:(lia) ltac:(lia) ltac:(exists 6; reflexivity) ltac:(lia))
    as (plan & H & Hc & _). exists plan. exact (conj H Hc).
Defined.

(** * A read history *)

(** A sample a chunk may hold, and a placed one with its receipt time. *)
Definition sample_ok (lo hi dt : Z) (s : Z * f64) : Prop :=
  lo ≤ s.1 ≤ hi ∧ s.1 mod dt = 0 ∧ is_finite s.2 = true ∧ fle f0 s.2 = true.

Abbreviation placed := (Z * f64 * Z)%type.

Definition placed_at (l : list placed) (t : Z) : option placed := List.find (λ s, s.1.1 =? t) l.

Lemma raw_nonneg x : is_finite x = true → flt x f0 = false → fle f0 x = true.
Proof.
  intros Hf Hx. rewrite flt_not_le in Hx by (done || by apply finite_not_nan). by apply negb_false_iff in Hx.
Qed.

Lemma one_sample_ok lo hi dt last j s : one_sample lo hi dt last j = Ok s → sample_ok lo hi dt s.
Proof.
  unfold one_sample. destruct j as [| | | | |[|t [|raw [|]]]|]; try discriminate. intros H. ok_inv H. subst. bool_prop.
  split_and!; cbn; [lia|lia|done|done|]. by apply raw_nonneg.
Qed.

Lemma parse_samples_ok lo hi dt last l r : parse_samples lo hi dt last l = Ok r → Forall (sample_ok lo hi dt) r.
Proof.
  revert last r. induction l as [|j t IH]; intros last r H; cbn in H; [injection H as <-; constructor|].
  ok_inv H. subst. constructor; [by eapply one_sample_ok|by eapply IH].
Qed.

Lemma parse_chunk_ok doc lo hi dt r : _parse_chunk doc lo hi dt = Ok r → Forall (sample_ok lo hi dt) r.
Proof.
  unfold _parse_chunk. intros H. ok_inv H.
  destruct (get_or_null "result" _) as [| | | | |[|series [|]]|]; try discriminate H; [injection H as <-; constructor|].
  destruct (get_or_null "values" series); try discriminate H. by eapply parse_samples_ok.
Qed.

(** The grid after the samples [l] were placed: each slot holds the sample of its time, if there is one. *)
Record filled (start_ dt : Z) (n : nat) (l : list placed) (p : progress) : Prop := {
  fi_values : p_values p = (λ i : nat, (λ s, s.1.2) <$> placed_at l (start_ + Z.of_nat i * dt)) <$> seq 0 n;
  fi_received : p_received p = (λ i : nat, snd <$> placed_at l (start_ + Z.of_nat i * dt)) <$> seq 0 n;
  fi_sorted : StronglySorted Z.lt ((λ s, s.1.1) <$> l);
  fi_last : Forall (λ s, ∃ t, p_last p = Some t ∧ s.1.1 ≤ t) l;
}.

Lemma placed_at_snoc l s t : placed_at (l ++ [s]) t =
  match placed_at l t with Some x => Some x | None => if s.1.1 =? t then Some s else None end.
Proof. unfold placed_at. induction l as [|x l IH]; cbn; [done|]. by destruct (x.1.1 =? t). Qed.

Lemma insert_fmap_seq {A} (f g : nat → A) n i x : (i < n)%nat → g i = x → (∀ j, j ≠ i → g j = f j) →
  <[i := x]> (f <$> seq 0 n) = g <$> seq 0 n.
Proof.
  intros Hi Hg Ho. apply list_eq. intros j. destruct (decide (j = i)) as [->|Hne].
  - rewrite list_lookup_insert_eq by (by rewrite length_fmap, length_seq).
    rewrite list_lookup_fmap, lookup_seq_lt by done. cbn. by rewrite Hg.
  - rewrite list_lookup_insert_ne by done. rewrite !list_lookup_fmap. destruct (decide (j < n)%nat).
    + rewrite lookup_seq_lt by done. cbn. by rewrite Ho.
    + rewrite lookup_seq_ge by lia. done.
Qed.

Lemma py_assign_fmap_seq {A} (f g : nat → A) n i x r : py_assign (f <$> seq 0 n) i x = Ok r → 0 ≤ i →
  g (Z.to_nat i) = x → (∀ j, j ≠ Z.to_nat i → g j = f j) → r = g <$> seq 0 n.
Proof.
  unfold py_assign. intros H Hi Hg Ho. rewrite (proj2 (Z.ltb_ge i 0) Hi) in H. ok_inv H.
  rewrite length_fmap, length_seq in *. bool_prop. subst r. by apply insert_fmap_seq; [lia|..].
Qed.

Lemma place_ok start_ dt n l p at_ms s p' : 0 < dt → (dt | s.1 - start_) → start_ ≤ s.1 →
  filled start_ dt n l p → place start_ dt at_ms p s = Ok p' →
  filled start_ dt n (l ++ [(s, at_ms)]) p' ∧ p_hashed p' = p_hashed p ∧ p_used p' = p_used p.
Proof.
  destruct s as [ts rps]. cbn [fst]. intros Hdt [k Hk] Hs [Hv Hr Hsort Hlast] H. unfold place in H. ok_inv H. subst p'. cbn.
  assert ((ts - start_) / dt = k) as E by (rewrite Hk; by rewrite Z.div_mul by lia). rewrite E in *.
  assert (Forall (λ s : placed, s.1.1 < ts) l) as Hnew.
  { eapply Forall_impl; [exact Hlast|]. intros y (t & Ht & Hle). rewrite Ht in *. bool_prop. lia. }
  assert (placed_at l ts = None) as Hnone.
  { apply find_None. intros y Hy. rewrite Forall_forall in Hnew. specialize (Hnew y Hy). cbn in Hnew |- *. apply Z.eqb_neq. lia. }
  assert (∀ j : nat, j = Z.to_nat k → start_ + Z.of_nat j * dt = ts) as Hj by (intros; subst; nia).
  assert (∀ j : nat, j ≠ Z.to_nat k → (ts =? start_ + Z.of_nat j * dt) = false) as Hj'.
  { intros j Hne. apply Z.eqb_neq. intros Et. apply Hne. nia. }
  split; [|done]. split; cbn.
  - rewrite Hv in *. eapply (py_assign_fmap_seq _ _ n); [done|nia| |]; cbn.
    + rewrite placed_at_snoc. rewrite Hj by done. rewrite Hnone. cbn. by rewrite Z.eqb_refl.
    + intros j Hne. rewrite placed_at_snoc. cbn. rewrite Hj' by done. by destruct (placed_at l (start_ + Z.of_nat j * dt)).
  - rewrite Hr in *. eapply (py_assign_fmap_seq _ _ n); [done|nia| |]; cbn.
    + rewrite placed_at_snoc. rewrite Hj by done. rewrite Hnone. cbn. by rewrite Z.eqb_refl.
    + intros j Hne. rewrite placed_at_snoc. cbn. rewrite Hj' by done. by destruct (placed_at l (start_ + Z.of_nat j * dt)).
  - rewrite fmap_app. apply SS_snoc; [done|]. apply Forall_fmap. eapply Forall_impl; [exact Hnew|]. by cbn.
  - apply Forall_app. split; [|repeat constructor; cbn; eauto with lia].
    eapply Forall_impl; [exact Hnew|]. cbn. eauto with lia.
Qed.

Lemma place_all_ok start_ dt n l p at_ms samples p' : 0 < dt →
  Forall (λ s, (dt | s.1 - start_) ∧ start_ ≤ s.1) samples →
  filled start_ dt n l p → foldM (place start_ dt at_ms) p samples = Ok p' →
  filled start_ dt n (l ++ ((λ s, (s, at_ms)) <$> samples)) p' ∧ p_hashed p' = p_hashed p ∧ p_used p' = p_used p.
Proof.
  intros Hdt. revert l p. induction samples as [|s t IH]; intros l p Hf Hp H; cbn in H.
  - injection H as <-. by rewrite app_nil_r.
  - apply Forall_cons in Hf as [[Hs1 Hs2] Hf]. ok_inv H.
    destruct (place_ok _ _ _ _ _ _ _ _ Hdt Hs1 Hs2 Hp ltac:(eassumption)) as (Hp1 & Hh & Hu).
    destruct (IH _ _ Hf Hp1 H) as (Hp' & Hh' & Hu'). rewrite <-app_assoc in Hp'. split_and!; [exact Hp'|congruence|congruence].
Qed.

(** One answered exchange of the plan: the chunk, its body and its receipt time. *)
Abbreviation answered := (Z * Z * (string * Z))%type.

Definition absorb_all (start_ dt max_total : Z) (p : progress) (l : list answered) : res progress :=
  foldM (λ p a, absorb start_ dt max_total p a.1 a.2.1 a.2.2) p l.

Lemma read_chunk_ok {W} (fetch : string → f64 → Z → SE W exchange) mono rcpt url query dt deadline maxc maxt start_ t0 p c w p' w' :
  read_chunk fetch mono rcpt url query dt deadline maxc maxt start_ t0 p c w = (Ok p', w') →
  ∃ body at_ms, absorb start_ dt maxt p c body at_ms = Ok p'.
Proof.
  unfold read_chunk. intros H. ok_inv H. case_match; [|discriminate H|discriminate H]. ok_inv H. eauto.
Qed.

Lemma read_chunks_ok {W} (fetch : string → f64 → Z → SE W exchange) mono rcpt url query dt deadline maxc maxt start_ t0 plan p w p' w' :
  read_chunks fetch mono rcpt url query dt deadline maxc maxt start_ t0 p plan w = (Ok p', w') →
  ∃ l : list answered, l.*1 = plan ∧ absorb_all start_ dt maxt p l = Ok p'.
Proof.
  revert p w. induction plan as [|c t IH]; intros p w H; cbn in H.
  - injection H as -> _. by exists [].
  - ok_inv H. destruct (read_chunk_ok _ _ _ _ _ _ _ _ _ _ _ _ _ _ _ _ ltac:(eassumption)) as (body & at_ms & Ha).
    destruct (IH _ _ H) as (l & <- & Hl). exists ((c, (body, at_ms)) :: l). split; [done|]. cbn. by rewrite Ha.
Qed.

(** The samples one answer holds, each with the answer's receipt time. *)
Definition samples_of (dt : Z) (a : answered) : list placed :=
  match doc ← loads_body a.2.1; _parse_chunk doc a.1.1 a.1.2 dt with
  | Ok l => (λ s, (s, a.2.2)) <$> l
  | Raise _ => []
  end.

Definition parses (dt : Z) (a : answered) : Prop :=
  ∃ doc l, loads_body a.2.1 = Ok doc ∧ _parse_chunk doc a.1.1 a.1.2 dt = Ok l.

Fixpoint hashed (l : list answered) : string :=
  match l with [] => EmptyString | a :: t => framed a.2.1 +:+ hashed t end.

Lemma string_app_nil (s : string) : s +:+ EmptyString = s.
Proof. induction s as [|c s IH]; [done|]. exact (f_equal (String c) IH). Qed.
Lemma string_app_assoc (a b c : string) : (a +:+ b) +:+ c = a +:+ (b +:+ c).
Proof. induction a as [|x a IH]; [done|]. exact (f_equal (String x) IH). Qed.

Lemma absorb_ok start_ dt maxt n l p c body at_ms p' : 0 < dt → (dt | start_) → start_ ≤ c.1 →
  filled start_ dt n l p → absorb start_ dt maxt p c body at_ms = Ok p' →
  filled start_ dt n (l ++ samples_of dt (c, (body, at_ms))) p'
  ∧ p_hashed p' = p_hashed p +:+ framed body ∧ p_used p' = p_used p + body_len body ∧ p_used p' ≤ maxt
  ∧ parses dt (c, (body, at_ms)) ∧ Forall (λ s, sample_ok c.1 c.2 dt s.1) (samples_of dt (c, (body, at_ms))).
Proof.
  intros Hdt Hd Hc Hp H. unfold absorb in H. ok_inv H. bool_prop. unfold samples_of, parses. cbn [fst snd].
  destruct (loads_body body) as [doc|[]]; try discriminate.
  match goal with E : Ok _ = Ok _ |- _ => injection E as -> end.
  match goal with E : _parse_chunk _ _ _ _ = Ok ?s |- _ => rename s into samples; rename E into Hparse end.
  pose proof (parse_chunk_ok _ _ _ _ _ Hparse) as Hall.
  eapply (place_all_ok start_ dt n l) in H as (Hp' & Hh & Hu); [|done| |destruct Hp; by split].
  - change (mbind _ (Ok ?d)) with (_parse_chunk d c.1 c.2 dt) in *. cbn. rewrite Hparse. rewrite Hh, Hu. cbn.
    split_and!; [exact Hp'|done|done|lia|eauto|]. by apply Forall_fmap.
  - eapply Forall_impl; [exact Hall|]. intros s (Hb & Hm & _). split; [|lia].
    apply Z.divide_sub_r; [by apply mod0_divide|done].
Qed.

Lemma absorb_all_ok start_ dt maxt n al : 0 < dt → (dt | start_) → Forall (λ a : answered, start_ ≤ a.1.1) al →
  ∀ l p p', filled start_ dt n l p → absorb_all start_ dt maxt p al = Ok p' →
  filled start_ dt n (l ++ concat (samples_of dt <$> al)) p'
  ∧ p_hashed p' = p_hashed p +:+ hashed al ∧ p_used p' = p_used p + sumZ ((λ a, body_len a.2.1) <$> al)
  ∧ (al ≠ [] → p_used p' ≤ maxt) ∧ Forall (parses dt) al
  ∧ Forall (λ a, Forall (λ s, sample_ok a.1.1 a.1.2 dt s.1) (samples_of dt a)) al.
Proof.
  intros Hdt Hd. induction al as [|[c [body at_ms]] t IH]; intros Hf l p p' Hp H; cbn in H.
  - injection H as <-. cbn. rewrite app_nil_r, string_app_nil. split_and!; [done|done|lia|done|constructor|constructor].
  - apply Forall_cons in Hf as [Hc Hf]. ok_inv H.
    destruct (absorb_ok _ _ _ n l _ _ _ _ _ Hdt Hd Hc Hp ltac:(eassumption)) as (Hp1 & Hh1 & Hu1 & Hm1 & Hs1 & Ha1).
    destruct (IH Hf _ _ _ Hp1 H) as (Hp2 & Hh2 & Hu2 & Hm2 & Hs2 & Ha2).
    cbn [fmap list_fmap concat hashed snd fst sumZ foldr]. rewrite app_assoc, <-string_app_assoc, <-Hh1.
    split_and!; [exact Hp2|exact Hh2| | |by constructor|by constructor].
    + rewrite Hu2, Hu1. unfold sumZ. lia.
    + intros _. destruct t as [|a t]; [|by apply Hm2]. injection H as <-. exact Hm1.
Qed.

Lemma plan_chunks_inv s e dt m plan : 0 < dt → plan_chunks s e dt m = Ok plan →
  s ≤ e ∧ (dt | e - s) ∧ 1 ≤ m ∧ plan ≠ [] ∧ Forall (λ c, s ≤ c.1 ∧ c.2 ≤ e) plan.
Proof.
  intros Hdt H. unfold plan_chunks in H. ok_inv H. bool_prop.
  match goal with E : (e - s) mod dt = 0 |- _ => apply mod0_divide in E as [k Hk]; [|done] end.
  assert (e = s + k * dt) as -> by lia.
  destruct (plan_loop_spec (Z.to_nat (s + k * dt - s + 1)) s k dt m) as (_ & Hall & Hlen & _); [lia|lia|nia|nia|].
  cbn zeta in *. rewrite H in *. split_and!; [lia|exists k; lia|lia| |].
  - intros ->. cbn in Hlen. pose proof (ceil_div_spec (k + 1) m). nia.
  - eapply Forall_impl; [exact Hall|]. cbn. tauto.
Qed.

Lemma filled_start start_ dt n :
  filled start_ dt n [] {| p_values := replicate n None; p_received := replicate n None; p_hashed := EmptyString;
                           p_used := 0; p_last := None |}.
Proof.
  split; cbn; [| |constructor|constructor];
    (induction n as [|n IH] using nat_ind; [done|]; rewrite replicate_S_end, IH, seq_S, fmap_app; done).
Qed.

Record read_of (now : wall) (signal : ResolvedSignal) (dt span settle maxt maxp : Z) (g : RpsGrid)
    (al : list answered) (samples : list placed) : Prop := {
  rd_watermark : watermark now dt settle = Ok (end_ g);
  rd_span : (dt | end_ g) ∧ end_ g - start g = span - dt;
  rd_plan : plan_chunks (start g) (end_ g) dt maxp = Ok al.*1;
  rd_parsed : Forall (parses dt) al;
  rd_samples : samples = concat (samples_of dt <$> al);
  rd_sorted : StronglySorted Z.lt ((λ s, s.1.1) <$> samples);
  rd_ok : Forall (λ s, sample_ok (start g) (end_ g) dt s.1) samples;
  rd_values : values g = (λ t, (λ s, s.1.2) <$> placed_at samples t) <$> grid (start g) (end_ g) dt;
  rd_received : received_at_ms g = (λ t, snd <$> placed_at samples t) <$> grid (start g) (end_ g) dt;
  rd_digest : response_sha256 g = sha256_hex (hashed al);
  rd_budget : sumZ ((λ a, body_len a.2.1) <$> al) ≤ maxt;
  rd_signal : query_sha256 g = rs_sha256 signal ∧ sha256_hex (utf8 (rs_query signal)) = query_sha256 g;
}.


(** A history of two chunks: the first answer has a gap, the second series is empty. *)
Definition q (s : string) : string := String.string_of_list_ascii ((λ c, if is_char 39 c then dquote else c) <$> String.list_ascii_of_string s).
Definition demo_body1 : string :=
  q "{'status':'success','data':{'resultType':'matrix','result':[{'metric':{},'values':[[600,'1.5'],[1800,2]]}]}}".
Definition demo_body2 : string := q "{'status':'success','data':{'resultType':'matrix','result':[]}}".

(** The outside world of the demonstration: the answers still to come, and one clock that ticks by one. *)
Definition demo_fetch (_ : string) (_ : f64) (_ : Z) : SE (list string * Z) exchange :=
  λ w, match w.1 with b :: t => (Ok (Answer 200 b), (t, w.2)) | [] => (Ok TransportFailure, w) end.
Definition demo_mono : SE (list string * Z) f64 := λ w, (Ok (f64_of_Z w.2), (w.1, w.2 + 1)).
Definition demo_receipt : SE (list string * Z) Z := λ w, (Ok w.2, (w.1, w.2 + 1)).
Definition demo_read : SE (list string * Z) RpsGrid :=
  read_rps_history demo_fetch demo_mono demo_receipt "http://vm/" demo_signal (WNumber (JInt 2600)) 600 2400 120
    DEADLINE_S MAX_CHUNK_BYTES MAX_TOTAL_BYTES 3.
Definition demo_grid : RpsGrid := Eval vm_compute in
  match demo_read ([demo_body1; demo_body2], 0) with
  | (Ok g, _) => g
  | _ => {| query_sha256 := EmptyString; interval_seconds := 0; start := 0; end_ := 0; values := [];
            received_at_ms := []; read_completed_ms := 0; response_sha256 := EmptyString; chunks := 0 |}
  end.

Lemma demo_read_eq : demo_read ([demo_body1; demo_body2], 0) = (Ok demo_grid, ([], 7)).
Proof. vm_compute. reflexivity. Qed.


(** An integer beyond the floats, as a timestamp or as a value, escapes as an [OverflowError]: neither the finiteness
    test nor the conversion of [_parse_chunk] turns it into [HistoryRefused]. *)
Example huge_integer_escapes :
  one_sample 600 600 600 None (JArr [JInt (10 ^ 400); JInt 1]) = Raise PyOverflowError
  ∧ one_sample 600 600 600 None (JArr [JInt 600; JInt (10 ^ 400)]) = Raise PyOverflowError.
Proof. vm_compute. done. Qed.

(** [latest_observed] is the newest grid point with a value. *)
Lemma latest_loop_spec g n t : 0 < interval_seconds g → (n ≤ length (values g))%nat →
  latest_loop g n = Some t ↔
  ∃ i : nat, (i < n)%nat ∧ t = start g + Z.of_nat i * interval_seconds g ∧ (∃ v, values g !! i = Some (Some v))
  ∧ ∀ j, (i < j < n)%nat → values g !! j = Some None.
Proof.
  intros Hdt. induction n as [|n IH]; intros Hn; cbn [latest_loop]; [split; [done|intros (? & ? & _); lia]|].
  destruct (lookup_lt_is_Some_2 (values g) n) as [[v|] Hv]; [lia|..]; rewrite Hv.
  - split; [intros [= <-]; exists n; split_and!; [lia|done|eauto|intros; lia]|].
    intros (i & Hi & -> & _ & Ho). destruct (decide (i = n)) as [->|]; [done|]. specialize (Ho n). rewrite Hv in Ho.
    discriminate Ho. lia.
  - rewrite IH by lia. split; intros (i & Hi & -> & [v Hiv] & Ho); exists i.
    + split_and!; [lia|done|eauto|]. intros j Hj. destruct (decide (j = n)) as [->|]; [done|]. apply Ho. lia.
    + destruct (decide (i = n)) as [->|]; [congruence|]. split_and!; [lia|done|eauto|]. intros j Hj. apply Ho. lia.
Qed.
