(* ===== verification/Metrics.v ===== *)
(** [forecasting/metrics.py]: the samples of one model, the immutable per-autoscaler snapshots, and the bounded collector
    over them. The [prometheus_client] families are the lists of label values and values they are given; help texts are
    left out. The collector's lock makes each operation one step on its registry. *)
From stdpp Require Import relations.
From S2P Require Import Prelude Float64 Json Contracts Calibration Trust.

Definition PREFIX : string := "predictive_autoscaler_forecast_".
Definition BASE_LABELS : list string := ["namespace"; "autoscaler"; "model"].
Definition FIT_FAILURE_REASONS : list string := ["history"; "numeric"; "timeout"; "resource"; "storage"].
Definition HORIZONS : list string := ["first"; "middle"; "last"].
Definition COHORTS : list string := ["all"; "gate"].
Definition OUTCOME_RESULTS : list string := ["covered"; "missed"; "unscorable"].
Definition MAX_AUTOSCALERS : Z := 8.
Definition MAX_SERIES_PER_AUTOSCALER : Z := 256.

(** Name suffix, type, extra label. *)
Definition METRICS : list (string * (string * option string)) :=
  [("issued_total", ("counter", None)); ("outcomes_total", ("counter", Some "result"));
   ("scored_windows", ("gauge", Some "cohort")); ("window_coverage_ratio", ("gauge", Some "cohort"));
   ("outcome_availability_ratio", ("gauge", None)); ("window_mae_rps", ("gauge", None));
   ("window_bias_rps", ("gauge", None)); ("window_pinball_loss_rps", ("gauge", None));
   ("step_mae_rps", ("gauge", Some "horizon")); ("nominal_coverage_ratio", ("gauge", None));
   ("working_miscoverage_ratio", ("gauge", None)); ("history_seconds", ("gauge", None));
   ("calibration_windows", ("gauge", None)); ("evidence_age_seconds", ("gauge", None)); ("trusted", ("gauge", None));
   ("upper_window_rps", ("gauge", None)); ("base_window_rps", ("gauge", None));
   ("fit_failures_total", ("counter", Some "reason"))].

Definition _EXTRA : list (string * list string) :=
  [("result", OUTCOME_RESULTS); ("cohort", COHORTS); ("horizon", HORIZONS); ("reason", FIT_FAILURE_REASONS)].

(** (suffix, extra label values, value) *)
Abbreviation Sample := (string * list string * f64)%type.

(** * The samples of one model *)

Definition when {A} (c : bool) (l : list A) : list A := if c then l else [].
Definition fdivZ (x : f64) (n : Z) : f64 := x ⊘ f64_of_Z n.

Definition total_of (t : totals) (r : string) : Z :=
  if bool_decide (r = "covered") then t_covered t else if bool_decide (r = "missed") then t_missed t else t_unscorable t.

(** [w7], [w["..."]] over the trailing seven days. *)
Definition cohort_samples (cohort : string) (bd cv : Z) : list Sample :=
  ("scored_windows", [cohort], f64_of_Z bd) ::
  when (negb (bd =? 0)) [("window_coverage_ratio", [cohort], idiv cv bd)].

Definition model_samples (led : ledger) (calibration : option cal_state) (nominal_miscoverage : f64) (trusted : bool)
    (history_seconds now_s : Z) (latest : option (list (string * option f64))) (fit_failures : option (list (string * Z)))
    : list Sample :=
  let tot := l_totals led in
  let w7 := window_sums led now_s (7 * DAY) in
  let avail := av_outcomes (availability led now_s DAY) in
  [("issued_total", [], f64_of_Z (t_issued tot))]
  ++ ((λ r, ("outcomes_total", [r], f64_of_Z (total_of tot r))) <$> OUTCOME_RESULTS)
  ++ cohort_samples "all" (bint "a_bd" w7) (bint "a_cv" w7) ++ cohort_samples "gate" (bint "g_bd" w7) (bint "g_cv" w7)
  ++ match avail with Some a => [("outcome_availability_ratio", [], a)] | None => [] end
  ++ when (negb (bint "sc" w7 =? 0))
       [("window_mae_rps", [], fdivZ (bfloat "abs" w7) (bint "sc" w7));
        ("window_bias_rps", [], fdivZ (bfloat "bias" w7) (bint "sc" w7))]
  ++ when (negb (bint "g_bd" w7 =? 0)) [("window_pinball_loss_rps", [], fdivZ (bfloat "pin" w7) (bint "g_bd" w7))]
  ++ when (negb (bint "n_step" w7 =? 0))
       (zip_with (λ h f, ("step_mae_rps", [h], fdivZ (bfloat f w7) (bint "n_step" w7))) HORIZONS ["st0"; "st1"; "st2"])
  ++ [("nominal_coverage_ratio", [], f1 ⊖ nominal_miscoverage)]
  ++ match calibration with
     | Some c => [("working_miscoverage_ratio", [], idiv (a_e8 c) E8);
                  ("calibration_windows", [], f64_of_Z (Z.of_nat (length (scores c))))]
     | None => []
     end
  ++ [("history_seconds", [], f64_of_Z history_seconds)]
  ++ match last_prospective_outcome_s led with
     | Some t => [("evidence_age_seconds", [], f64_of_Z (now_s - t))]
     | None => []
     end
  ++ [("trusted", [], if trusted then f1 else f0)]
  ++ concat ((λ key, match or_default None (dget key (or_default [] latest)) with
                     | Some v => [(key, [], v)] | None => [] end) <$> ["upper_window_rps"; "base_window_rps"])
  ++ ((λ r, ("fit_failures_total", [r], f64_of_Z (or_default 0 (dget r (or_default [] fit_failures)))))
      <$> FIT_FAILURE_REASONS).

(** * Snapshots and the collector *)

(** [models] is a dict: its keys are distinct. *)
Record Snapshot := { uid : string; models : list (string * list Sample) }.

Definition series (s : Snapshot) : Z := sumZ ((λ m, Z.of_nat (length m.2)) <$> models s).

Abbreviation registry := (list ((string * string) * Snapshot)).

Record ForecastMetrics := { max_autoscalers : Z; max_series : Z; _snaps : registry }.

Definition with_snaps (fm : ForecastMetrics) (s : registry) : ForecastMetrics :=
  {| max_autoscalers := max_autoscalers fm; max_series := max_series fm; _snaps := s |}.

(** [not extra], [extra[0] not in _EXTRA[label]] *)
Definition labels_refused (label : option string) (extra : list string) : bool :=
  match label, extra with
  | None, [] => false
  | None, _ :: _ | Some _, [] => true
  | Some l, [x] => negb (bool_decide (x ∈ or_default [] (dget l _EXTRA)))
  | Some _, _ :: _ :: _ => true
  end.

Definition check_sample (s : Sample) : res unit :=
  m ← of_option PyKeyError (dget s.1.1 METRICS);
  raise_if labels_refused m.2 s.1.2 with PyValueError "label values are outside the fixed enum" ;; Ok ().

Definition check_models (ms : list (string * list Sample)) : res unit :=
  foldM (λ _ m, raise_if negb (bool_decide (m.1 ∈ MODEL_FAMILIES)) with PyValueError "model is not in the fixed enum" ;;
                foldM (λ _ s, check_sample s) () m.2) () ms.

Definition update (fm : ForecastMetrics) (namespace autoscaler : string) (snapshot : Snapshot) : res ForecastMetrics :=
  _ ← check_models (models snapshot);
  raise_if max_series fm <? series snapshot with CardinalityExceeded "series for one autoscaler" ;;
  let key := (namespace, autoscaler) in
  raise_if negb (dhas key (_snaps fm)) && (max_autoscalers fm <=? Z.of_nat (length (_snaps fm)))
    with RegistryFull "autoscalers are already registered" ;;
  Ok (with_snaps fm (dset key snapshot (_snaps fm))).

Definition reserve (fm : ForecastMetrics) (namespace autoscaler : string) : res ForecastMetrics :=
  let key := (namespace, autoscaler) in
  if dhas key (_snaps fm) then Ok fm
  else raise_if max_autoscalers fm <=? Z.of_nat (length (_snaps fm)) with RegistryFull "autoscalers are already registered" ;;
       Ok (with_snaps fm (dset key {| uid := EmptyString; models := [] |} (_snaps fm))).

Definition remove (fm : ForecastMetrics) (namespace autoscaler : string) : ForecastMetrics :=
  with_snaps fm (ddel (namespace, autoscaler) (_snaps fm)).

Definition pair_leb (a b : string * string) : bool :=
  if bool_decide (a.1 = b.1) then str_leb a.2 b.2 else str_leb a.1 b.1.

Definition registered (fm : ForecastMetrics) : list (string * string) := sort_by pair_leb (_snaps fm).*1.

(** A metric family: its type, exported name and label names, and the label values and value of each series. *)
Record family := { fam_kind : string; fam_name : string; fam_labels : list string; fam_series : list (list string * f64) }.

(** [suffix[: -len("_total")]] *)
Definition cut_total (s : string) : string := String.substring 0 (String.length s - 6) s.

Definition new_family (suffix : string) (m : string * option string) : family := {|
  fam_kind := m.1; fam_name := PREFIX +:+ (if bool_decide (m.1 = "counter") then cut_total suffix else suffix);
  fam_labels := BASE_LABELS ++ match m.2 with Some l => [l] | None => [] end; fam_series := [] |}.

Definition add_metric (f : family) (labels : list string) (value : f64) : family := {|
  fam_kind := fam_kind f; fam_name := fam_name f; fam_labels := fam_labels f;
  fam_series := fam_series f ++ [(labels, value)] |}.

Definition put_sample (ns name model : string) (fams : list (string * family)) (s : Sample) : res (list (string * family)) :=
  f ← of_option PyKeyError (dget s.1.1 fams);
  Ok (dset s.1.1 (add_metric f (ns :: name :: model :: s.1.2) s.2) fams).

Definition collect (fm : ForecastMetrics) : res (list family) :=
  fams ← foldM (λ fams p, foldM (λ fams m, foldM (put_sample p.1.1 p.1.2 m.1) fams m.2) fams
                                (sort_by (λ a b, str_leb a.1 b.1) (models p.2)))
               ((λ m, (m.1, new_family m.1 m.2)) <$> METRICS)
               (sort_by (λ a b, pair_leb a.1 b.1) (_snaps fm));
  Ok fams.*2.

(** * The exported families are the snapshots' samples *)

Abbreviation exported := (string * (list string * f64))%type.

(** Every sample of the registry with its labels, autoscalers and models in sorted order. *)
Definition all_series (fm : ForecastMetrics) : list exported :=
  concat ((λ p : (string * string) * Snapshot,
    concat ((λ m : string * list Sample, (λ s : Sample, (s.1.1, (p.1.1 :: p.1.2 :: m.1 :: s.1.2, s.2))) <$> m.2)
            <$> sort_by (λ a b, str_leb a.1 b.1) (models p.2)))
    <$> sort_by (λ a b, pair_leb a.1 b.1) (_snaps fm)).

Definition of_suffix (k : string) (l : list exported) : list (list string * f64) := (filter (λ x, x.1 = k) l).*2.

Definition filled_family (l : list exported) (m : string * (string * option string)) : string * family :=
  (m.1, let f := new_family m.1 m.2 in
        {| fam_kind := fam_kind f; fam_name := fam_name f; fam_labels := fam_labels f; fam_series := of_suffix m.1 l |}).

Definition put (fams : list (string * family)) (x : exported) : res (list (string * family)) :=
  f ← of_option PyKeyError (dget x.1 fams); Ok (dset x.1 (add_metric f x.2.1 x.2.2) fams).

Lemma dget_fmap {A B} (g : string * A → B) k l : dget k ((λ m, (m.1, g m)) <$> l) = (λ v, g (k, v)) <$> dget k l.
Proof. induction l as [|[k' v] t IH]; cbn; [done|]. by case_decide; [subst|]. Qed.

Lemma dset_fmap {A B} (g h : string * A → B) k v l : NoDup l.*1 → dget k l = Some v →
  (∀ m, m.1 ≠ k → h m = g m) → dset k (h (k, v)) ((λ m, (m.1, g m)) <$> l) = (λ m, (m.1, h m)) <$> l.
Proof.
  intros Hd Hk Hh. induction l as [|[k' v'] t IH]; [done|]. cbn in Hk, Hd |- *. apply NoDup_cons in Hd as [Hn Hd].
  case_decide as E.
  - injection Hk as ->. subst k'. f_equal. apply list_fmap_ext. intros i [k2 v2] Hm. cbn. rewrite Hh; [done|]. cbn. intros ->.
    apply Hn. apply list_elem_of_fmap. exists (k, v2). split; [done|]. by eapply list_elem_of_lookup_2.
  - rewrite IH by done. by rewrite Hh.
Qed.

Lemma of_suffix_snoc k l x : of_suffix k (l ++ [x]) = of_suffix k l ++ (if decide (x.1 = k) then [x.2] else []).
Proof. unfold of_suffix. rewrite filter_app, fmap_app, filter_cons. by case_decide. Qed.

Lemma put_filled l x : x.1 ∈ METRICS.*1 → put (filled_family l <$> METRICS) x = Ok (filled_family (l ++ [x]) <$> METRICS).
Proof.
  intros Hx. destruct (dget x.1 METRICS) as [m|] eqn:E; [|by apply dget_None in E].
  pose (g l m := (filled_family l m).2). unfold put. change (filled_family ?l) with (λ m, (m.1, g l m)).
  rewrite dget_fmap, E. cbn [of_option fmap option_fmap option_map mbind res_bind]. f_equal.
  rewrite <-(dset_fmap (g l) (g (l ++ [x])) x.1 m).
  - f_equal. unfold g, filled_family, add_metric. cbn. rewrite of_suffix_snoc, decide_True by done. by destruct x as [? []].
  - apply (bool_decide_unpack _). by vm_compute.
  - done.
  - intros m' Hm'. unfold g, filled_family. cbn. rewrite of_suffix_snoc, decide_False by congruence. by rewrite app_nil_r.
Qed.

Lemma put_all l l0 : Forall (λ x, x.1 ∈ METRICS.*1) l →
  foldM put (filled_family l0 <$> METRICS) l = Ok (filled_family (l0 ++ l) <$> METRICS).
Proof.
  intros H. revert l0. induction H as [|x t Hx _ IH]; intros l0; [by rewrite app_nil_r|].
  change (foldM put ?s (x :: t)) with (s' ← put s x; foldM put s' t). rewrite put_filled by done.
  cbn [mbind res_bind]. rewrite IH. by rewrite <-app_assoc.
Qed.

Lemma collect_eq fm : collect fm = (fams ← foldM put (filled_family [] <$> METRICS) (all_series fm); Ok fams.*2).
Proof.
  unfold collect, all_series. rewrite foldM_concat. f_equal. apply foldM_ext. intros fams p.
  rewrite foldM_concat. apply foldM_ext. intros fams' m. by rewrite foldM_fmap.
Qed.

(** * Admission *)

Record snapshot_ok (fm : ForecastMetrics) (s : Snapshot) : Prop := {
  so_models : check_models (models s) = Ok ();
  so_series : series s ≤ max_series fm;
}.

Record metrics_ok (fm : ForecastMetrics) : Prop := {
  mo_keys : NoDup (_snaps fm).*1;
  mo_count : Z.of_nat (length (_snaps fm)) ≤ max_autoscalers fm;
  mo_snaps : Forall (λ p, snapshot_ok fm p.2) (_snaps fm);
}.

Definition metrics_new (max_autoscalers max_series : Z) : ForecastMetrics :=
  {| max_autoscalers := max_autoscalers; max_series := max_series; _snaps := [] |}.

Inductive metrics_step (fm : ForecastMetrics) : ForecastMetrics → Prop :=
| StepUpdate ns name snap fm' : update fm ns name snap = Ok fm' → metrics_step fm fm'
| StepReserve ns name fm' : reserve fm ns name = Ok fm' → metrics_step fm fm'
| StepRemove ns name : metrics_step fm (remove fm ns name).

Lemma check_models_ok ms : check_models ms = Ok () ↔
  Forall (λ m, m.1 ∈ MODEL_FAMILIES ∧ Forall (λ s, check_sample s = Ok ()) m.2) ms.
Proof.
  unfold check_models. rewrite foldM_check. apply Forall_iff. intros m. rewrite raise_if_ok, foldM_check.
  by rewrite negb_false_iff, bool_decide_eq_true.
Qed.

Lemma length_dset {V} k (v : V) (d : list ((string * string) * V)) :
  Z.of_nat (length (dset k v d)) = Z.of_nat (length d) + (if dhas k d then 0 else 1).
Proof.
  rewrite <-(length_fmap fst (dset k v d)), dset_keys. unfold dhas. destruct (dget k d) eqn:E.
  - rewrite decide_True; [rewrite bool_decide_eq_true_2 by done; rewrite length_fmap; lia|].
    apply dget_elem_of in E. apply list_elem_of_fmap. by exists (k, v0).
  - rewrite decide_False by by apply dget_None. rewrite bool_decide_eq_false_2 by (by intros [? ?]).
    rewrite length_app, length_fmap. cbn. lia.
Qed.

Lemma snaps_Forall_dset fm k s d : Forall (λ p : (string * string) * Snapshot, snapshot_ok fm p.2) d → snapshot_ok fm s →
  Forall (λ p, snapshot_ok fm p.2) (dset k s d).
Proof.
  rewrite !Forall_forall. intros Hd Hs [k' s'] Hin. apply elem_of_dset in Hin as [[_ ->]|Hin]; [done|exact (Hd _ Hin)].
Qed.

Lemma with_snaps_ok fm s : snapshot_ok fm s → ∀ d, snapshot_ok (with_snaps fm d) s.
Proof. intros [? ?] d. by split. Qed.

Lemma insert_ok fm k s : metrics_ok fm → snapshot_ok fm s →
  negb (dhas k (_snaps fm)) && (max_autoscalers fm <=? Z.of_nat (length (_snaps fm))) = false →
  metrics_ok (with_snaps fm (dset k s (_snaps fm))).
Proof.
  intros [Hk Hc Hs] Hsnap Hg. split; cbn.
  - by apply dset_NoDup.
  - rewrite length_dset. destruct (dhas k (_snaps fm)); [lia|]. bool_prop. cbn in Hg. bool_prop. lia.
  - apply snaps_Forall_dset; [|by apply with_snaps_ok]. eapply Forall_impl; [exact Hs|]. intros. by apply with_snaps_ok.
Qed.

Lemma metrics_step_ok fm fm' : 0 ≤ max_series fm → metrics_ok fm → metrics_step fm fm' →
  metrics_ok fm' ∧ max_autoscalers fm' = max_autoscalers fm ∧ max_series fm' = max_series fm.
Proof.
  intros H0 Hok [ns name snap fm1 H|ns name fm1 H|ns name]; [| |split; [|done]].
  - unfold update in H. ok_inv H. subst fm1. bool_prop. split; [|done]. apply insert_ok; [done| |done].
    split; [|lia]. by destruct x.
  - unfold reserve in H. destruct (dhas _ _) eqn:Hh; [by injection H as <-|]. ok_inv H. subst fm1. split; [|done].
    apply insert_ok; [done|by split|]. rewrite Hh. done.
  - destruct Hok as [Hk Hc Hs]. unfold remove, with_snaps, ddel. split; cbn; [by apply filter_keys_NoDup| |].
    + pose proof (length_filter (λ p : (string * string) * Snapshot, p.1 ≠ (ns, name)) (_snaps fm)). lia.
    + apply Forall_filter. eapply Forall_impl; [exact Hs|]. intros. by apply with_snaps_ok.
Qed.

(** A sample of the enum: its suffix names a metric, and its labels fill that metric's label names. *)
Definition arity_ok (x : exported) : Prop :=
  ∃ m, dget x.1 METRICS = Some m ∧ length x.2.1 = length (fam_labels (new_family x.1 m)).

Lemma check_sample_arity ns name model s : check_sample s = Ok () → arity_ok (s.1.1, (ns :: name :: model :: s.1.2, s.2)).
Proof.
  unfold check_sample. intros H. ok_inv H. match goal with E : of_option _ _ = Ok _ |- _ => apply of_option_ok in E end.
  exists x. split; [done|]. cbn. destruct x as [k [l|]], s as [[suffix extra] v]; cbn in *.
  - by destruct extra as [|? [|]].
  - by destruct extra.
Qed.

Lemma all_series_ok fm : metrics_ok fm → Forall arity_ok (all_series fm).
Proof.
  intros [_ _ Hs]. unfold all_series. apply Forall_concat, Forall_fmap. rewrite Forall_forall in Hs |- *.
  intros [k s] Hp. apply elem_of_sort_by in Hp. destruct (Hs _ Hp) as [Hm _]. apply check_models_ok in Hm. cbn in Hm.
  apply Forall_concat, Forall_fmap. rewrite Forall_forall in Hm |- *. intros m Hin. apply elem_of_sort_by in Hin.
  destruct (Hm m Hin) as [_ Hall]. apply Forall_fmap. eapply Forall_impl; [exact Hall|]. intros. by apply check_sample_arity.
Qed.

Lemma length_concat_fmap {A B} (f : A → list B) l :
  Z.of_nat (length (concat (f <$> l))) = sumZ ((λ x, Z.of_nat (length (f x))) <$> l).
Proof. induction l as [|x t IH]; cbn; [done|]. rewrite length_app, Nat2Z.inj_add, IH. done. Qed.

Lemma sumZ_perm l l' : l ≡ₚ l' → sumZ l = sumZ l'.
Proof. unfold sumZ. induction 1; cbn; lia. Qed.

Lemma sumZ_le {A} (f : A → Z) b l : Forall (λ x, f x ≤ b) l → sumZ (f <$> l) ≤ Z.of_nat (length l) * b.
Proof. unfold sumZ. induction 1; cbn [fmap list_fmap foldr length]; lia. Qed.

Lemma length_all_series fm : metrics_ok fm → Z.of_nat (length (all_series fm)) ≤ Z.of_nat (length (_snaps fm)) * max_series fm.
Proof.
  intros [_ _ Hs]. unfold all_series. rewrite length_concat_fmap.
  rewrite <-(sort_by_length (λ a b : (string * string) * Snapshot, pair_leb a.1 b.1)).
  apply sumZ_le. rewrite Forall_forall in Hs |- *. intros p Hp. apply elem_of_sort_by in Hp. destruct (Hs p Hp) as [_ Hle].
  rewrite length_concat_fmap. etrans; [|exact Hle]. unfold series. apply Z.eq_le_incl, sumZ_perm.
  rewrite sort_by_perm. apply reflexive_eq, list_fmap_ext. intros. by rewrite length_fmap.
Qed.

(** C38: Whatever sequence of [update], [reserve] and [remove] is applied to a new collector, at most [max_autoscalers] are
    registered and no snapshot has more than [max_series] series; [collect] always answers, with exactly the metrics of
    the fixed table in its order, each holding exactly the samples of its suffix in the current snapshots, every one with
    as many label values as the family has label names; so at most [max_autoscalers * max_series] series are exported. *)
Theorem metrics_bounded a s fm : 0 ≤ a → 0 ≤ s → rtc metrics_step (metrics_new a s) fm →
  metrics_ok fm ∧ max_autoscalers fm = a ∧ max_series fm = s
  ∧ ∃ fams, collect fm = Ok fams
    ∧ fams = (λ m, (filled_family (all_series fm) m).2) <$> METRICS
    ∧ Forall (λ f, Forall (λ x, length x.1 = length (fam_labels f)) (fam_series f)) fams
    ∧ Z.of_nat (length (all_series fm)) ≤ a * s.
Proof.
  intros Ha Hs Hr. assert (metrics_ok fm ∧ max_autoscalers fm = a ∧ max_series fm = s) as (Hok & Hma & Hms).
  { refine (rtc_ind_r (λ fm, metrics_ok fm ∧ max_autoscalers fm = a ∧ max_series fm = s) _ _ _ _ Hr).
    - by repeat split; try constructor.
    - intros y z _ Hz (? & ? & ?). apply metrics_step_ok in Hz as (? & ? & ?); [|lia|done]. split_and!; [done|congruence|congruence]. }
  split_and!; [done..|]. pose proof (all_series_ok fm Hok) as Har.
  exists ((λ m, (filled_family (all_series fm) m).2) <$> METRICS). split_and!; [|done| |].
  - rewrite collect_eq, put_all; [cbn [mbind res_bind]; by rewrite <-list_fmap_compose|].
    eapply Forall_impl; [exact Har|]. intros x (m & Hm & _). apply dget_elem_of in Hm.
    apply list_elem_of_fmap. by exists (x.1, m).
  - apply Forall_fmap, Forall_forall. intros [k m] Hm. cbn. unfold of_suffix. apply Forall_fmap, Forall_forall.
    intros x Hx. apply list_elem_of_filter in Hx as [<- Hx]. rewrite Forall_forall in Har.
    destruct (Har x Hx) as (m' & Hm' & Hl). cbn. apply elem_of_dget in Hm; [rewrite Hm in Hm'; injection Hm' as <-; exact Hl|].
    apply (bool_decide_unpack _). by vm_compute.
  - pose proof (length_all_series fm Hok). destruct Hok as [_ Hc _]. nia.
Qed.

(** * The service's own samples are always admitted *)

Definition label_key (s : Sample) : string * list string := (s.1.1, s.1.2).

Definition plain (k : string) : string * list string := (k, []).

(** Every series one model can have, in order. *)
Definition all_keys : list (string * list string) :=
  [plain "issued_total"] ++ ((λ r, ("outcomes_total", [r])) <$> OUTCOME_RESULTS)
  ++ [("scored_windows", ["all"]); ("window_coverage_ratio", ["all"])]
  ++ [("scored_windows", ["gate"]); ("window_coverage_ratio", ["gate"])]
  ++ [plain "outcome_availability_ratio"] ++ [plain "window_mae_rps"; plain "window_bias_rps"]
  ++ [plain "window_pinball_loss_rps"] ++ ((λ h, ("step_mae_rps", [h])) <$> HORIZONS) ++ [plain "nominal_coverage_ratio"]
  ++ [plain "working_miscoverage_ratio"; plain "calibration_windows"] ++ [plain "history_seconds"]
  ++ [plain "evidence_age_seconds"] ++ [plain "trusted"] ++ [plain "upper_window_rps"; plain "base_window_rps"]
  ++ ((λ r, ("fit_failures_total", [r])) <$> FIT_FAILURE_REASONS).

Definition key_ok (k : string * list string) : bool :=
  match dget k.1 METRICS with Some m => negb (labels_refused m.2 k.2) | None => false end.

Lemma check_sample_key s : check_sample s = Ok () ↔ key_ok (label_key s) = true.
Proof.
  destruct s as [[k e] v]. unfold check_sample, key_ok, label_key. cbn [fst snd]. destruct (dget k METRICS) as [m|]; cbn; [|done].
  by destruct (labels_refused m.2 e).
Qed.

Lemma when_sublist {A B} (f : A → B) c l k : f <$> l = k → f <$> when c l `sublist_of` k.
Proof. intros <-. destruct c; cbn; [done|apply sublist_nil_l]. Qed.

Lemma cohort_keys cohort bd cv :
  label_key <$> cohort_samples cohort bd cv `sublist_of` [("scored_windows", [cohort]); ("window_coverage_ratio", [cohort])].
Proof. unfold cohort_samples. cbn [fmap list_fmap]. apply sublist_skip. by apply when_sublist. Qed.

Lemma model_keys led cal nm tr hs now latest ff : label_key <$> model_samples led cal nm tr hs now latest ff `sublist_of` all_keys.
Proof.
  unfold model_samples, all_keys. rewrite !fmap_app.
  repeat (apply sublist_app; [first [done | apply cohort_keys | by apply when_sublist | by case_match; [|apply sublist_nil_l] | idtac]|]).
  - cbn [fmap list_fmap concat]. rewrite !fmap_app.
    apply (sublist_app _ [plain "upper_window_rps"] _ [plain "base_window_rps"]); [by case_match; [|apply sublist_nil_l]|].
    apply (sublist_app _ [plain "base_window_rps"] _ []); [by case_match; [|apply sublist_nil_l]|done].
  - done.
Qed.

Definition produced (l : list Sample) : Prop := ∃ led cal nm tr hs now latest ff, l = model_samples led cal nm tr hs now latest ff.

Lemma produced_ok l : produced l → Forall (λ s, check_sample s = Ok ()) l ∧ NoDup (label_key <$> l) ∧ (length l ≤ 28)%nat.
Proof.
  intros (led & cal & nm & tr & hs & now & latest & ff & ->). pose proof (model_keys led cal nm tr hs now latest ff) as Hsub.
  assert (Forall (λ k, key_ok k = true) all_keys) as Hall by (by repeat constructor).
  assert (NoDup all_keys) as Hnd by (apply (bool_decide_unpack _); by vm_compute).
  split_and!.
  - apply Forall_forall. intros s Hs. apply check_sample_key, (proj1 (Forall_forall _ _) Hall).
    eapply elem_of_sublist; [|exact Hsub]. apply list_elem_of_fmap. by exists s.
  - by eapply sublist_NoDup.
  - apply sublist_length in Hsub. rewrite length_fmap in Hsub. exact Hsub.
Qed.

(** The samples the service makes of any ledger, calibration state, clock, failure counts and latest bounds are of
    the fixed metrics with labels of the fixed enums, without two samples of one series; so a snapshot of such samples
    for any of the three model families is never refused as malformed nor for its cardinality (at most 84 series), only
    when the registry is full: [update] then stores it. *)
Theorem service_samples_admitted fm ns name s :
  NoDup (models s).*1 → Forall (λ m, m.1 ∈ MODEL_FAMILIES ∧ produced m.2) (models s) → 84 ≤ max_series fm →
  Forall (λ m, NoDup (label_key <$> m.2)) (models s) ∧
  update fm ns name s =
    (if negb (dhas (ns, name) (_snaps fm)) && (max_autoscalers fm <=? Z.of_nat (length (_snaps fm)))
     then Raise (RegistryFull "autoscalers are already registered")
     else Ok (with_snaps fm (dset (ns, name) s (_snaps fm)))).
Proof.
  intros Hnd Hms Hmax. split; [eapply Forall_impl; [exact Hms|]; intros m [_ Hp]; exact (proj1 (proj2 (produced_ok _ Hp)))|].
  unfold update. assert (check_models (models s) = Ok ()) as ->.
  { apply check_models_ok. eapply Forall_impl; [exact Hms|]. intros m [? Hp]. apply produced_ok in Hp. tauto. }
  assert (series s ≤ 84) as Hle.
  { unfold series. etrans; [apply (sumZ_le _ 28)|].
    - eapply Forall_impl; [exact Hms|]. intros m [_ Hp]. apply produced_ok in Hp. lia.
    - assert ((models s).*1 ⊆+ MODEL_FAMILIES) as Hsub.
      { apply NoDup_submseteq; [done|]. intros x Hx. apply list_elem_of_fmap in Hx as (m & -> & Hm).
        rewrite Forall_forall in Hms. by apply Hms. }
      apply submseteq_length in Hsub. rewrite length_fmap in Hsub. cbn in Hsub. lia. }
  cbn [mbind res_bind]. rewrite (proj2 (Z.ltb_ge _ _)) by lia. done.
Qed.

(** A collector for one autoscaler, asked for two. *)
Definition demo_ledger : ledger := new_ledger "epoch" "statistical" "e1-product/v1" 600.
Definition demo_samples : list Sample := model_samples demo_ledger None (idiv 1 10) false 604800 1000000 None None.
Definition demo_snapshot : Snapshot := {| uid := "pa-uid"; models := [("statistical", demo_samples)] |}.
Definition demo_metrics : ForecastMetrics :=
  with_snaps (metrics_new 1 256) [(("shop", "web"), demo_snapshot)].

Lemma demo_produced : produced demo_samples.
Proof. unfold produced, demo_samples. eauto 10. Qed.

Lemma service_samples_admitted_witness :
  update (metrics_new 1 256) "shop" "web" demo_snapshot = Ok demo_metrics
  ∧ update demo_metrics "shop" "api" demo_snapshot = Raise (RegistryFull "autoscalers are already registered").
Proof.
  assert (NoDup (models demo_snapshot).*1) as Hnd by apply NoDup_singleton.
  assert (Forall (λ m, m.1 ∈ MODEL_FAMILIES ∧ produced m.2) (models demo_snapshot)) as Hms.
  { constructor; [|constructor]. split; [list_member|exact demo_produced]. }
  split.
  - destruct (service_samples_admitted (metrics_new 1 256) "shop" "web" demo_snapshot Hnd Hms ltac:(cbn; lia)) as [_ H]. exact H.
  - destruct (service_samples_admitted demo_metrics "shop" "api" demo_snapshot Hnd Hms ltac:(cbn; lia)) as [_ H]. exact H.
Defined.

Lemma metrics_bounded_witness :
  registered demo_metrics = [("shop", "web")] ∧ metrics_ok demo_metrics
  ∧ ∃ fams, collect demo_metrics = Ok fams ∧ length fams = 18%nat.
Proof.
  assert (metrics_step (metrics_new 1 256) demo_metrics) as Hstep.
  { apply (StepUpdate _ "shop" "web" demo_snapshot). vm_compute. reflexivity. }
  destruct (metrics_bounded 1 256 demo_metrics ltac:(lia) ltac:(lia) (rtc_once _ _ Hstep)) as (Hok & _ & _ & fams & Hc & Hf & _).
  split; [reflexivity|]. split; [exact Hok|]. exists fams. split; [exact Hc|]. rewrite Hf, length_fmap. reflexivity.
Defined.
