(* ===== verification/Statistical.v ===== *)
(** [forecasting/statistical.py]: the statistical kernels on a series of binary64 values where a NaN is a missing
    observation: seasonal-naive, Holt-Winters and E1-product. The numerical routines of NumPy and SciPy the module calls
    ([mean], [nanmean], [cumsum], the pseudo-inverse line fit, [lstsq], [roots] and [minimize]) are the operations of a
    [NumLib] argument; elementwise arithmetic, slicing and everything Python does in order is written out. *)
From Stdlib Require Import SpecFloat Ascii.
From S2P Require Import Prelude Float64 Sha256 Json Identity History.

Definition DAY : Z := 86400.
Definition RECIPE_NAIVE : string := "seasonal-naive/daily/v1".
Definition RECIPE_E1 : string := "e1-product/v1".
Definition dec (m k : Z) : f64 := f64_of_dec false m k.
Definition HW_STARTS : list (f64 * f64 * f64) :=
  [(dec 3 (-1), dec 1 (-1), dec 1 (-1)); (dec 1 (-1), dec 1 (-2), dec 5 (-2)); (dec 6 (-1), dec 5 (-2), dec 3 (-1))].
Definition AR_MAX_ROOT : f64 := dec 999 (-3).

Definition no_history (msg : string) : exn := KernelUnavailable "history" msg.
Definition no_numeric (msg : string) : exn := KernelUnavailable "numeric" msg.

(** What [scipy.optimize.minimize] answers. *)
Record opt_result := { success : bool; fun_ : f64; x_ : f64 * f64 * f64 }.

(** The numerical routines of the libraries. [np_line_fit] is [pinv(exog).dot] on ten values, [np_max_root] the largest
    modulus of the roots of a polynomial, [minimize] L-BFGS-B from a start with the box [0, 1]^3. *)
Record NumLib := {
  np_mean : list f64 → f64;
  np_nanmean : list f64 → f64;
  np_cumsum : list f64 → list f64;
  np_line_fit : list f64 → f64 * f64;
  np_lstsq : list (list f64) → list f64 → list f64;
  np_max_root : list f64 → f64;
  minimize : (f64 * f64 * f64 → f64) → f64 * f64 * f64 → Z → opt_result;
}.

Record KernelSettings := {
  interval_seconds : Z; season_seconds : Z; profile_days : Z; profile_min_support : Z; ar_order : Z; ar_window_days : Z;
  ar_min_rows : Z; ar_min_span_seconds : Z; hw_min_days : Z; hw_max_days : Z; hw_weight : f64; min_history_days : Z;
  min_observed_fraction : f64; hw_maxiter : Z;
}.

Definition mk_settings (ks : KernelSettings) : res KernelSettings :=
  raise_if interval_seconds ks =? 0 with ZeroDivisionError ;;
  raise_if negb (season_seconds ks mod interval_seconds ks =? 0)
    with PyValueError "the season must be a whole number of grid intervals" ;; Ok ks.

Definition default_settings (interval : Z) : KernelSettings := {|
  interval_seconds := interval; season_seconds := DAY; profile_days := 7; profile_min_support := 3; ar_order := 3;
  ar_window_days := 7; ar_min_rows := 36; ar_min_span_seconds := 6 * 3600; hw_min_days := 2; hw_max_days := 14;
  hw_weight := dec 5 (-1); min_history_days := 7; min_observed_fraction := dec 95 (-2); hw_maxiter := 200 |}.

Definition season_slots (ks : KernelSettings) : Z := season_seconds ks / interval_seconds ks.

Definition canonical (ks : KernelSettings) : list (string * json) :=
  [("interval_seconds", JInt (interval_seconds ks)); ("season_seconds", JInt (season_seconds ks));
   ("profile_days", JInt (profile_days ks)); ("profile_min_support", JInt (profile_min_support ks));
   ("ar_order", JInt (ar_order ks)); ("ar_window_days", JInt (ar_window_days ks)); ("ar_min_rows", JInt (ar_min_rows ks));
   ("ar_min_span_seconds", JInt (ar_min_span_seconds ks)); ("hw_min_days", JInt (hw_min_days ks));
   ("hw_max_days", JInt (hw_max_days ks)); ("hw_weight", JFloat (hw_weight ks));
   ("min_history_days", JInt (min_history_days ks)); ("min_observed_fraction", JFloat (min_observed_fraction ks));
   ("hw_maxiter", JInt (hw_maxiter ks))].

(** * Series *)

Record Series := { start : Z; interval : Z; values : list f64 }.

Definition value_ok (v : f64) : bool :=
  match v with S754_infinity _ => false | S754_nan => true | _ => negb (v <ᶠ f0) end.

Definition mk_series (s : Series) : res Series :=
  raise_if negb (forallb value_ok (values s)) with PyValueError "a series holds non-negative finite values or NaN" ;; Ok s.

Definition from_points (points : list (Z * f64)) (interval start end_ : Z) : res Series :=
  raise_if interval =? 0 with ZeroDivisionError ;;
  raise_if (end_ - start) / interval + 1 <? 0 with PyValueError "negative dimensions are not allowed" ;;
  v ← foldM (λ v p, raise_if negb ((p.1 - start) mod interval =? 0) || negb ((start <=? p.1) && (p.1 <=? end_))
                      with PyValueError "point is off the grid or outside" ;;
                    py_assign v ((p.1 - start) / interval) p.2)
            (replicate (Z.to_nat ((end_ - start) / interval + 1)) S754_nan) points;
  mk_series {| start := start; interval := interval; values := v |}.

Definition from_grid (g : RpsGrid) : res Series :=
  mk_series {| start := History.start g; interval := History.interval_seconds g;
               values := or_default S754_nan <$> History.values g |}.

Definition end_ (s : Series) : Z := start s + (Z.of_nat (length (values s)) - 1) * interval s.

Definition index (s : Series) (t : Z) : res Z :=
  raise_if interval s =? 0 with ZeroDivisionError ;;
  raise_if negb ((t - start s) mod interval s =? 0) with PyValueError "off the grid" ;;
  Ok ((t - start s) / interval s).

(** [at]: a time off the grid or outside the series is missing. *)
Definition at_ (s : Series) (t : Z) : f64 :=
  let i := (t - start s) / interval s in
  if ((t - start s) mod interval s =? 0) && (0 <=? i) then or_default S754_nan (values s !! Z.to_nat i) else S754_nan.

Fixpoint last_finite (l : list f64) (i : Z) (best : option Z) : option Z :=
  match l with [] => best | x :: t => last_finite t (i + 1) (if is_finite x then Some i else best) end.

Definition latest_observed (s : Series) : option Z := (λ i, start s + i * interval s) <$> last_finite (values s) 0 None.

(** [l[a:b]]: negative bounds count from the end, bounds beyond an end are clamped to it. *)
Definition slice_bound (n i : Z) : Z := Z.min n (Z.max 0 (if i <? 0 then i + n else i)).
Definition py_slice {A} (l : list A) (a b : Z) : list A :=
  let n := Z.of_nat (length l) in
  let lo := slice_bound n a in let hi := slice_bound n b in take (Z.to_nat (hi - lo)) (drop (Z.to_nat lo) l).

(** The IEEE interchange bits of a float ([dtype "<f8"]), in little-endian bytes. *)
Definition sign_bit (s : bool) : Z := if s then 2 ^ 63 else 0.
Definition bits64 (x : f64) : Z :=
  match x with
  | S754_zero s => sign_bit s
  | S754_infinity s => sign_bit s + 2047 * 2 ^ 52
  | S754_nan => 4095 * 2 ^ 51
  | S754_finite s m e => sign_bit s + (if Zpos m <? 2 ^ 52 then Zpos m else (e + 1075) * 2 ^ 52 + (Zpos m - 2 ^ 52))
  end.

Definition little_endian8 (n : Z) : string :=
  foldr (λ i s, String (ascii_of_nat (Z.to_nat (Z.land (Z.shiftr n (8 * i)) 255))) s) EmptyString [0; 1; 2; 3; 4; 5; 6; 7].

Definition f8_bytes (l : list f64) : string := foldr (λ x s, little_endian8 (bits64 x) +:+ s) EmptyString l.

Definition digest (s : Series) (lo hi : Z) : res string :=
  a ← index s lo; b ← index s hi;
  Ok (sha256_hex ("series|" +:+ text_of_Z (interval s) +:+ "|" +:+ text_of_Z lo +:+ "|" +:+ text_of_Z hi +:+ "|"
                  +:+ f8_bytes (py_slice (values s) a (b + 1)))).

(** * Seasonal-naive *)

Definition seasonal_naive (series : Series) (input_end : Z) (targets : list Z) (ks : KernelSettings) : res (list f64) :=
  mapM_res (λ s, let lag := s - season_seconds ks in
                 let v := at_ series lag in
                 raise_if (input_end <? lag) || negb (is_finite v) with no_history "seasonal-naive lag is not available" ;;
                 Ok v) targets.

(** * Holt-Winters *)

(** Every [k]-th element of [l] from [p]. *)
Definition column (l : list f64) (m p : nat) (k : Z) : list f64 :=
  (λ r : nat, or_default S754_nan (l !! (r * m + p)%nat)) <$> seq 0 (Z.to_nat k).

Definition nth_nan (l : list f64) (i : Z) : f64 := if i <? 0 then S754_nan else or_default S754_nan (l !! Z.to_nat i).

Definition halves (l : list f64) : list f64 := zip_with (λ a b, (a ⊕ b) ⊘ f64_of_Z 2) l (drop 1 l) ++ [S754_nan].

Section kernels.
Context (np : NumLib).

(** [trend[i]] of the centred moving average over [m] values of [x], from the cumulative sums [c]. *)
Definition centred_trend (x : list f64) (m : Z) : list f64 :=
  let n := Z.of_nat (length x) in
  let c := f0 :: np_cumsum np x in
  let trend := (λ i : nat, let lo := Z.of_nat i - m / 2 in
                  if (0 <=? lo) && (lo + m <=? n) then (nth_nan c (lo + m) ⊖ nth_nan c lo) ⊘ f64_of_Z m else S754_nan)
               <$> seq 0 (length x) in
  if m mod 2 =? 0 then halves trend else trend.

Definition heuristic_init (y : list f64) (m : Z) : res (f64 * f64 * list f64) :=
  let n := Z.of_nat (length y) in
  raise_if n <? 2 * m with no_history "Holt-Winters needs at least two full seasonal cycles" ;;
  raise_if m =? 0 with ZeroDivisionError ;;
  let k := Z.max (Z.min 5 (n / m)) (ceil_div (10 + 2 * (m / 2)) m) in
  let x := take (Z.to_nat (m * k)) y in
  let trend := centred_trend x m in
  let detrended := zip_with fsub x trend in
  let raw := (λ p : nat, np_nanmean np (column detrended (Z.to_nat m) p k)) <$> seq 0 (Z.to_nat m) in
  let seasonal := (λ v, v ⊖ np_mean np raw) <$> raw in
  let level_input := take 10 (filter (λ v, is_finite v) trend) in
  raise_if negb (length level_input =? 10)%nat with PyValueError "shapes not aligned" ;;
  let coef := np_line_fit np level_input in
  Ok (coef.1, coef.2, seasonal).
End kernels.

(** The local variables of [hw_run]: the accumulated error, level, trend, the seasonal states and the position in them. *)
Record hw_vars := { v_sse : f64; v_level : f64; v_trend : f64; v_season : list f64; v_pos : nat }.

Definition hw_step (alpha beta gamma : f64) (w : hw_vars) (obs : f64) : hw_vars :=
  let sp := or_default S754_nan (v_season w !! v_pos w) in
  let err := obs ⊖ (v_level w ⊕ v_trend w ⊕ sp) in
  let l_new := alpha ⊗ (obs ⊖ sp) ⊕ (f1 ⊖ alpha) ⊗ (v_level w ⊕ v_trend w) in
  let b_new := beta ⊗ (l_new ⊖ v_level w) ⊕ (f1 ⊖ beta) ⊗ v_trend w in
  let s' := <[v_pos w := gamma ⊗ (obs ⊖ v_level w ⊖ v_trend w) ⊕ (f1 ⊖ gamma) ⊗ sp]> (v_season w) in
  {| v_sse := v_sse w ⊕ err ⊗ err; v_level := l_new; v_trend := b_new; v_season := s';
     v_pos := if (S (v_pos w) =? length (v_season w))%nat then 0%nat else S (v_pos w) |}.

(** [s[pos:] + s[:pos]] *)
Definition rolled (w : hw_vars) : list f64 := drop (v_pos w) (v_season w) ++ take (v_pos w) (v_season w).

(** (sse, level, trend, season_rolled), for a season that is not empty. *)
Definition hw_run (y : list f64) (alpha beta gamma level trend : f64) (season : list f64) : f64 * f64 * f64 * list f64 :=
  let w := foldl (hw_step alpha beta gamma)
             {| v_sse := f0; v_level := level; v_trend := trend; v_season := season; v_pos := 0 |} y in
  (v_sse w, v_level w, v_trend w, rolled w).

(** [np.clip(x, 0.0, 1.0)] of a scalar: a NaN stays a NaN. *)
Definition clip01 (x : f64) : f64 := if x <ᶠ f0 then f0 else if f1 <ᶠ x then f1 else x.

Definition _params (x : f64 * f64 * f64) : f64 * f64 * f64 :=
  let a := clip01 x.1.1 in (a, clip01 x.1.2 ⊗ a, clip01 x.2 ⊗ (f1 ⊖ a)).

Record HWState := {
  alpha : f64; beta : f64; gamma : f64; level : f64; trend : f64; season : list f64; sse : f64; n_train : Z;
  segment_start : Z;
}.

Section fits.
Context (np : NumLib).

(** One start of the optimizer; [best] is kept unless the new result converged with a smaller error. *)
Definition try_start (objective : f64 * f64 * f64 → f64) (maxiter : Z) (best : option opt_result) (s : f64 * f64 * f64)
    : option opt_result :=
  let '(a, b, g) := s in
  let r := minimize np objective (a, if f0 <ᶠ a then b ⊘ a else f0, g ⊘ (f1 ⊖ a)) maxiter in
  if negb (success r) || negb (is_finite (fun_ r)) then best
  else match best with
       | None => Some r
       | Some b => if fun_ r <ᶠ fun_ b then Some r else best
       end.

Definition fit_hw (y : list f64) (m segment_start maxiter : Z) : res HWState :=
  raise_if negb (forallb is_finite y) with no_history "Holt-Winters input must be complete" ;;
  '(level0, trend0, season0) ← heuristic_init np y m;
  let run (x : f64 * f64 * f64) := let '(al, be, ga) := _params x in hw_run y al be ga level0 trend0 season0 in
  let objective (x : f64 * f64 * f64) := (run x).1.1.1 in
  match foldl (try_start objective maxiter) None HW_STARTS with
  | None => Raise (no_numeric "the Holt-Winters optimizer did not converge from any start")
  | Some best =>
      let '(al, be, ga) := _params (x_ best) in
      let '(sse, level, trend, season) := run (x_ best) in
      raise_if negb (forallb is_finite (sse :: level :: trend :: season)) with no_numeric "Holt-Winters state is not finite" ;;
      Ok {| alpha := al; beta := be; gamma := ga; level := level; trend := trend; season := season; sse := sse;
            n_train := Z.of_nat (length y); segment_start := segment_start |}
  end.

(** * Profile and AR *)

Definition profile (series : Series) (t : Z) (ks : KernelSettings) : f64 :=
  let vals := filter (λ v, is_finite v)
                ((λ d, at_ series (t - d * season_seconds ks)) <$> range 1 (profile_days ks + 1) 1) in
  if profile_min_support ks <=? Z.of_nat (length vals) then np_mean np vals else S754_nan.

Definition residual (series : Series) (t : Z) (ks : KernelSettings) : f64 :=
  let y := at_ series t in let p := profile series t ks in
  if is_finite y && is_finite p then y ⊖ p else S754_nan.

Definition fneg (x : f64) : f64 := SFopp x.

(** [any(phi)]: a NaN is true. *)
Definition ar_roots_max (coef : list f64) : f64 :=
  let phi := drop 1 coef in
  if forallb (λ c, feq c f0) phi then f0 else np_max_root np (f1 :: (fneg <$> phi)).

(** One row per time whose residual and lags are all known. *)
Definition ar_row (series : Series) (ks : KernelSettings) (t : Z) : option (list f64 * f64 * Z) :=
  let r := residual series t ks in
  let lags := (λ k, residual series (t - k * interval_seconds ks) ks) <$> range 1 (ar_order ks + 1) 1 in
  if is_finite r && forallb is_finite lags then Some (f1 :: lags, r, t) else None.

Definition fit_ar (series : Series) (cutoff : Z) (ks : KernelSettings) : res (list f64 * Z) :=
  let p := ar_order ks in let dt := interval_seconds ks in
  raise_if dt =? 0 with PyValueError "range() arg 3 must not be zero" ;;
  let first := Z.max (start series + p * dt) (cutoff - ar_window_days ks * DAY + dt + p * dt) in
  let rows := omap (ar_row series ks) (range first (cutoff + 1) dt) in
  let times := snd <$> rows in
  few ← (if Z.of_nat (length rows) <? ar_min_rows ks then Ok true
         else a ← py_nth times (-1); b ← py_nth times 0; Ok (a - b <? ar_min_span_seconds ks) : res bool);
  raise_if (few : bool) with no_history "AR needs complete rows spanning its minimum" ;;
  let coef := np_lstsq np ((λ r, r.1.1) <$> rows) ((λ r, r.1.2) <$> rows) in
  raise_if negb (forallb is_finite coef) with no_numeric "AR coefficients are not finite" ;;
  raise_if negb (ar_roots_max coef <ᶠ AR_MAX_ROOT) with no_numeric "AR recursion is not stable" ;;
  Ok (coef, Z.of_nat (length rows)).

(** * E1-product *)

Record E1Fit := {
  cutoff : Z; e_interval : Z; hw : HWState; ar_coef : list f64; ar_rows : Z; input_lo : Z; input_sha256 : string;
  e_settings : list (string * json);
}.

(** The loop of [complete_segment_start]; [j] counts down, so it is its own measure. *)
Fixpoint segment_loop (values : list f64) (i max_slots : Z) (j : nat) : nat :=
  match j with
  | O => O
  | S j' => if (i - Z.of_nat j' <? max_slots) && is_finite (nth_nan values (Z.of_nat j')) then segment_loop values i max_slots j'
            else j
  end.

(** The callers' cutoff is on the grid, at or after the start and not beyond the end. *)
Definition complete_segment_start (series : Series) (cutoff max_slots : Z) : res Z :=
  i ← index series cutoff;
  v ← py_nth (values series) i;
  let j := segment_loop (values series) i max_slots (Z.to_nat i) in
  raise_if negb (is_finite v) with no_history "the fit cutoff itself was not observed" ;;
  Ok (start series + Z.of_nat j * interval series).

Definition fit_e1 (series : Series) (cutoff : Z) (ks : KernelSettings) : res E1Fit :=
  let dt := interval_seconds ks in let m := season_slots ks in
  raise_if dt =? 0 with ZeroDivisionError ;;
  raise_if negb (interval series =? dt) || negb (cutoff mod dt =? 0)
           || negb ((start series <=? cutoff) && (cutoff <=? end_ series))
    with no_history "the cutoff is not on the series' grid" ;;
  raise_if cutoff - start series + dt <? min_history_days ks * DAY with no_history "E1-product needs more days of history" ;;
  let w_lo := cutoff - ar_window_days ks * DAY + dt in
  a ← index series w_lo; b ← index series cutoff;
  let window := py_slice (values series) a (b + 1) in
  raise_if np_mean np ((λ v, if is_finite v then f1 else f0) <$> window) <ᶠ min_observed_fraction ks
    with no_history "too little of the fit window was observed" ;;
  seg_lo ← complete_segment_start series cutoff (hw_max_days ks * m);
  raise_if (cutoff - seg_lo) / dt + 1 <? hw_min_days ks * m with no_history "Holt-Winters needs a complete segment" ;;
  c ← index series seg_lo;
  h ← fit_hw (py_slice (values series) c (b + 1)) m seg_lo (hw_maxiter ks);
  '(coef, rows) ← fit_ar series cutoff ks;
  let lo := Z.max (start series) (Z.min seg_lo (w_lo - profile_days ks * DAY - ar_order ks * dt)) in
  sha ← digest series lo cutoff;
  Ok {| cutoff := cutoff; e_interval := dt; hw := h; ar_coef := coef; ar_rows := rows; input_lo := lo;
        input_sha256 := sha; e_settings := canonical ks |}.

Record E1Forecast := { f_hw : list f64; f_profile_ar : list f64; f_points : list f64 }.

(** [c[0] + sum(c[j + 1] * hist[j] for j in range(p))] *)
Definition ar_next (c hist : list f64) (p : Z) : res f64 :=
  c0 ← py_nth c 0;
  terms ← mapM_res (λ j, a ← py_nth c (j + 1); b ← py_nth hist j; Ok (a ⊗ b)) (range 0 p 1);
  Ok (c0 ⊕ py_sum terms).

(** [for k in range(1, max(steps) + 1)]: the values [ar[1], ar[2], ...]. *)
Fixpoint ar_path (n : nat) (c hist : list f64) (p : Z) : res (list f64) :=
  match n with
  | O => Ok []
  | S n' => x ← ar_next c hist p;
            r ← ar_path n' c (x :: removelast hist) p;
            Ok (x :: r)
  end.

Definition py_max (l : list Z) : res Z :=
  match l with [] => Raise (PyValueError "max() arg is an empty sequence") | x :: t => Ok (foldl Z.max x t) end.

Definition profile_ar_point (series : Series) (input_end : Z) (ks : KernelSettings) (ar : list f64) (s : Z) : res f64 :=
  let p := profile series s ks in
  raise_if negb (is_finite p) with no_history "the profile of a target lacks support" ;;
  x ← of_option PyKeyError (ar !! Z.to_nat ((s - input_end) / interval_seconds ks - 1));
  Ok (p ⊕ x).

Definition forecast_e1 (fit : E1Fit) (series : Series) (input_end : Z) (targets : list Z) (ks : KernelSettings)
    : res E1Forecast :=
  let dt := interval_seconds ks in let m := season_slots ks in
  raise_if dt =? 0 with ZeroDivisionError ;;
  raise_if negb (e_interval fit =? dt) || (input_end <? cutoff fit) || negb ((input_end - cutoff fit) mod dt =? 0)
    with no_history "the fit does not precede the input end on this grid" ;;
  raise_if existsb (λ s, (s <=? input_end) || negb ((s - input_end) mod dt =? 0)) targets
    with no_history "targets must lie on the grid after the input end" ;;
  raise_if existsb (λ s, season_seconds ks <? s - input_end) targets
    with no_history "targets must lie within one season of the input end" ;;
  let since := at_ series <$> range (cutoff fit + dt) (input_end + 1) dt in
  raise_if negb (forallb is_finite since) || negb (is_finite (at_ series input_end))
    with no_history "observations between the fit cutoff and the input end are missing" ;;
  let h := hw fit in
  let '(_, lv, tr, sn) := hw_run since (alpha h) (beta h) (gamma h) (level h) (trend h) (season h) in
  let steps := (λ s, (s - input_end) / dt) <$> targets in
  raise_if (m =? 0) && negb (length steps =? 0)%nat with ZeroDivisionError ;;
  hw_ ← mapM_res (λ k, x ← py_nth sn ((k - 1) mod m); Ok (lv ⊕ f64_of_Z k ⊗ tr ⊕ x)) steps;
  let hist := (λ k, residual series (input_end - k * dt) ks) <$> range 0 (ar_order ks) 1 in
  raise_if negb (forallb is_finite hist) with no_history "the recent AR lags are incomplete" ;;
  top ← py_max steps;
  ar ← ar_path (Z.to_nat top) (ar_coef fit) hist (ar_order ks);
  pa ← mapM_res (profile_ar_point series input_end ks ar) targets;
  let points := zip_with (λ a b, fmax f0 (hw_weight ks ⊗ a ⊕ (f1 ⊖ hw_weight ks) ⊗ b)) hw_ pa in
  raise_if negb (forallb is_finite (hw_ ++ pa ++ points)) with no_numeric "the E1-product forecast is not finite" ;;
  Ok {| f_hw := hw_; f_profile_ar := pa; f_points := points |}.

(** * Shadow candidates *)

Inductive candidate :=
| Naive (points : list f64)
| E1 (f : E1Forecast)
| Unavailable (recipe reason message : string).

(** [except KernelUnavailable as e] *)
Definition or_unavailable (recipe : string) (r : res candidate) : res candidate :=
  match r with
  | Raise (KernelUnavailable reason msg) => Ok (Unavailable recipe reason msg)
  | _ => r
  end.

Definition shadow_candidates (series : Series) (input_end : Z) (targets : list Z) (ks : KernelSettings)
    (fit : option E1Fit) : res (list (string * candidate)) :=
  a ← or_unavailable RECIPE_NAIVE (Naive <$> seasonal_naive series input_end targets ks);
  b ← match fit with
      | None => Ok (Unavailable RECIPE_E1 "history" "no compatible fit")
      | Some f => or_unavailable RECIPE_E1 (E1 <$> forecast_e1 f series input_end targets ks)
      end;
  Ok [("seasonal_naive", a); ("statistical", b)].
End fits.
