(* ===== verification/StatisticalFacts.v ===== *)
(** What the statistical kernels guarantee: no value after the cutoff or the input end is ever read, a kept Holt-Winters
    state advanced through new observations is the state of one run over all of them, the fitted segment is the longest
    complete one, and a forecast either gives a finite, non-negative point per target or fails closed by name. *)
From Stdlib Require Import SpecFloat.
From S2P Require Import Prelude Float64 Sha256 Json Identity History Statistical.

(** * No look-ahead *)

(** The number of slots up to a time. *)
Definition slots_to (s : Series) (t : Z) : nat := Z.to_nat ((t - start s) / interval s + 1).

Lemma bind_ext_ok {A B} (r : res A) (k k' : A → res B) : (∀ a, r = Ok a → k a = k' a) → (r ≫= k) = (r ≫= k').
Proof. intros H. destruct r; [by apply H|done]. Qed.

(** Two series with the same observations up to [t]. *)
Record agree (s1 s2 : Series) (t : Z) : Prop := {
  ag_start : start s1 = start s2;
  ag_interval : interval s1 = interval s2;
  ag_pos : 0 < interval s1;
  ag_values : take (slots_to s1 t) (values s1) = take (slots_to s1 t) (values s2);
}.

Lemma bind_ext {A B} (r : res A) (k k' : A → res B) : (∀ a, k a = k' a) → (r ≫= k) = (r ≫= k').
Proof. intros H. destruct r; [apply H|done]. Qed.

Section causal.
Context (np : NumLib) (s1 s2 : Series) (T : Z) (Hag : agree s1 s2 T).

Lemma agree_lookup (i : nat) : Z.of_nat i ≤ (T - start s1) / interval s1 → values s1 !! i = values s2 !! i.
Proof.
  intros Hi. destruct Hag as [_ _ _ Hv]. unfold slots_to in Hv.
  rewrite <-(lookup_take_lt (values s1) (Z.to_nat ((T - start s1) / interval s1 + 1)) i) by lia.
  rewrite Hv. by rewrite lookup_take_lt by lia.
Qed.

Lemma at_agree t : t ≤ T → at_ s1 t = at_ s2 t.
Proof.
  intros Ht. unfold at_. destruct Hag as [Hs Hi Hp _]. rewrite <-Hs, <-Hi.
  destruct ((t - start s1) mod interval s1 =? 0); [|done]. cbn.
  destruct (Z.leb_spec 0 ((t - start s1) / interval s1)); [|done].
  rewrite agree_lookup; [done|]. rewrite Z2Nat.id by done. apply Z.div_le_mono; lia.
Qed.

Lemma profile_agree t ks : 0 < season_seconds ks → t ≤ T + season_seconds ks → profile np s1 t ks = profile np s2 t ks.
Proof.
  intros Hk Ht. unfold profile. assert (((λ d, at_ s1 (t - d * season_seconds ks)) <$> range 1 (profile_days ks + 1) 1)
    = ((λ d, at_ s2 (t - d * season_seconds ks)) <$> range 1 (profile_days ks + 1) 1)) as ->; [|done].
  apply list_fmap_ext. intros i d Hd. apply at_agree. apply list_elem_of_lookup_2, elem_of_range in Hd; [|lia]. nia.
Qed.

Lemma residual_agree t ks : 0 < season_seconds ks → t ≤ T → residual np s1 t ks = residual np s2 t ks.
Proof. intros Hk Ht. unfold residual. rewrite at_agree by done. rewrite profile_agree by lia. done. Qed.

Lemma naive_agree targets ks : seasonal_naive s1 T targets ks = seasonal_naive s2 T targets ks.
Proof.
  unfold seasonal_naive. induction targets as [|s t IH]; [done|]. cbn [mapM_res]. rewrite IH.
  destruct (Z.ltb_spec T (s - season_seconds ks)); [done|]. by rewrite at_agree by done.
Qed.

Lemma fmap_agree (f g : Z → f64) lo hi dt : 0 < dt → (∀ t, lo ≤ t < hi → f t = g t) → f <$> range lo hi dt = g <$> range lo hi dt.
Proof.
  intros Hdt H. apply list_fmap_ext. intros i t Ht. apply H. apply list_elem_of_lookup_2, elem_of_range in Ht; [tauto|done].
Qed.

Lemma forecast_agree fit targets ks : 0 < season_seconds ks → 0 < interval_seconds ks →
  forecast_e1 np fit s1 T targets ks = forecast_e1 np fit s2 T targets ks.
Proof.
  intros Hk Hdt. unfold forecast_e1. do 3 (case_match; [done|]).
  destruct (existsb (λ s, season_seconds ks <? s - T) targets) eqn:Hfar; [done|].
  rewrite existsb_false in Hfar. rewrite (at_agree T) by done.
  rewrite (fmap_agree (at_ s1) (at_ s2)) by (done || (intros; apply at_agree; lia)).
  rewrite (fmap_agree (λ k, residual np s1 (T - k * interval_seconds ks) ks) (λ k, residual np s2 (T - k * interval_seconds ks) ks))
    by (done || (intros; apply residual_agree; nia)).
  case_match; [done|]. destruct (hw_run _ _ _ _ _ _ _) as [[[? lv] tr] sn]. case_match; [done|].
  apply bind_ext. intros hw_. case_match; [done|]. apply bind_ext. intros top. apply bind_ext. intros ar.
  rewrite (mapM_res_ext (profile_ar_point np s1 T ks ar) (profile_ar_point np s2 T ks ar)); [done|].
  intros u Hu. unfold profile_ar_point. rewrite profile_agree; [done|done|]. specialize (Hfar u Hu). bool_prop. lia.
Qed.

(** The slots of a slice that ends at or before the horizon. *)
Lemma slice_take (l : list f64) a b : 0 ≤ a ≤ b → b ≤ Z.of_nat (length l) →
  py_slice l a b = drop (Z.to_nat a) (take (Z.to_nat b) l).
Proof.
  intros Ha Hb. unfold py_slice, slice_bound. rewrite (proj2 (Z.ltb_ge a 0)), (proj2 (Z.ltb_ge b 0)) by lia.
  rewrite !Z.max_r, !Z.min_r by lia. rewrite take_drop_commute. do 2 f_equal. lia.
Qed.

Lemma slots_fit s : start s = start s1 → interval s = interval s1 → T ≤ end_ s →
  (T - start s1) / interval s1 + 1 ≤ Z.of_nat (length (values s)).
Proof.
  intros Es Ei Hend. destruct Hag as [_ _ Hp _]. unfold end_ in Hend. rewrite Es, Ei in Hend.
  pose proof (Z.div_mod (T - start s1) (interval s1)). pose proof (Z.mod_pos_bound (T - start s1) (interval s1)). nia.
Qed.

Lemma slice_agree a b : 0 ≤ a ≤ b → b ≤ (T - start s1) / interval s1 + 1 → T ≤ end_ s1 → T ≤ end_ s2 →
  py_slice (values s1) a b = py_slice (values s2) a b.
Proof.
  intros Ha Hb H1 H2. destruct Hag as [Hs Hi Hp Hv].
  rewrite !slice_take by (done || (etrans; [exact Hb|]; by apply slots_fit)).
  replace (take (Z.to_nat b) (values s1)) with (take (Z.to_nat b) (take (slots_to s1 T) (values s1)))
    by (rewrite take_take; f_equal; unfold slots_to; lia).
  rewrite Hv, take_take. do 2 f_equal. unfold slots_to. lia.
Qed.

Lemma index_agree t : index s1 t = index s2 t.
Proof. unfold index. destruct Hag as [-> -> _ _]. done. Qed.

Lemma index_ok s t i : 0 < interval s → index s t = Ok i → t = start s + i * interval s ∧ i = (t - start s) / interval s.
Proof.
  intros Hp H. unfold index in H. ok_inv H. bool_prop. split; [|done]. subst i.
  pose proof (Z.div_mod (t - start s) (interval s)). lia.
Qed.

Lemma segment_loop_agree i m (j : nat) : Z.of_nat j ≤ (T - start s1) / interval s1 + 1 →
  segment_loop (values s1) i m j = segment_loop (values s2) i m j.
Proof.
  induction j as [|j IH]; intros Hj; [done|]. cbn [segment_loop].
  assert (nth_nan (values s1) (Z.of_nat j) = nth_nan (values s2) (Z.of_nat j)) as ->.
  { unfold nth_nan. destruct (Z.of_nat j <? 0); [done|]. rewrite Nat2Z.id, agree_lookup by lia. done. }
  rewrite IH by lia. done.
Qed.

Lemma segment_start_agree m : start s1 ≤ T → T ≤ end_ s1 → T ≤ end_ s2 →
  complete_segment_start s1 T m = complete_segment_start s2 T m.
Proof.
  intros H0 H1 H2. unfold complete_segment_start. rewrite <-index_agree. destruct (index s1 T) as [i|e] eqn:E; [|done].
  cbn [mbind res_bind]. destruct Hag as [Hs Hi Hp _]. apply index_ok in E as [ET Ei]; [|done].
  assert (py_nth (values s1) i = py_nth (values s2) i) as ->.
  { unfold py_nth. rewrite (proj2 (Z.ltb_ge i 0)) by nia. rewrite (proj2 (Z.ltb_ge i 0)) by nia. by rewrite agree_lookup by nia. }
  rewrite segment_loop_agree by nia. rewrite <-Hs, <-Hi. done.
Qed.

Lemma fit_ar_agree ks : 0 < season_seconds ks → 0 < interval_seconds ks → fit_ar np s1 T ks = fit_ar np s2 T ks.
Proof.
  intros Hk Hdt. unfold fit_ar. destruct Hag as [Hs Hi Hp _]. rewrite <-Hs.
  set (r := range _ _ _). assert (omap (ar_row np s1 ks) r = omap (ar_row np s2 ks) r) as ->; [|done].
  assert (∀ t, t ∈ r → t ≤ T) as Hr by (intros t Ht; apply elem_of_range in Ht; [lia|done]). clearbody r.
  induction r as [|t r IH]; [done|]. cbn [omap list_omap]. rewrite IH by (intros; apply Hr; by right).
  assert (ar_row np s1 ks t = ar_row np s2 ks t) as ->; [|done]. specialize (Hr t ltac:(left)).
  unfold ar_row. rewrite residual_agree by done.
  rewrite (fmap_agree (λ k, residual np s1 (t - k * interval_seconds ks) ks) (λ k, residual np s2 (t - k * interval_seconds ks) ks))
    by (lia || (intros; apply residual_agree; nia)). done.
Qed.

Lemma segment_loop_le l i m j : (segment_loop l i m j ≤ j)%nat.
Proof. induction j as [|j IH]; cbn [segment_loop]; [done|]. destruct (_ && _); lia. Qed.

Lemma segment_start_bounds s t m u : 0 < interval s → start s ≤ t → complete_segment_start s t m = Ok u → start s ≤ u ≤ t.
Proof.
  intros Hp Ht H. unfold complete_segment_start in H. ok_inv H.
  match goal with E : index s t = Ok ?i |- _ => apply index_ok in E as [ET _]; [|done]; pose proof (segment_loop_le (values s) i m (Z.to_nat i)) end.
  subst u. nia.
Qed.

Lemma digest_agree lo : start s1 ≤ lo ≤ T → T ≤ end_ s1 → T ≤ end_ s2 → digest s1 lo T = digest s2 lo T.
Proof.
  intros Hlo H1 H2. unfold digest. rewrite <-!index_agree. destruct (index s1 lo) as [a|] eqn:Ea; [|done]. cbn [mbind res_bind].
  destruct (index s1 T) as [b|] eqn:Eb; [|done]. cbn [mbind res_bind].
  assert (0 < interval s1) as Hp by apply Hag. apply index_ok in Ea as [Ea _], Eb as [Eb Eb2]; [|done..].
  rewrite (slice_agree a (b + 1)) by (done || nia). destruct Hag as [_ <- _ _]. done.
Qed.

Lemma fit_agree ks : 0 < season_seconds ks → 0 < interval_seconds ks → 0 ≤ ar_window_days ks ≤ min_history_days ks →
  T ≤ end_ s1 → T ≤ end_ s2 → fit_e1 np s1 T ks = fit_e1 np s2 T ks.
Proof.
  intros Hk Hdt Hw H1 H2. unfold fit_e1. assert (0 < interval s1) as Hp by apply Hag.
  pose proof (ag_start _ _ _ Hag) as Es. pose proof (ag_interval _ _ _ Hag) as Ei. rewrite <-Es, <-Ei.
  case_match; [done|]. rewrite (proj2 (Z.leb_le T (end_ s1)) H1), (proj2 (Z.leb_le T (end_ s2)) H2).
  case_match eqn:Hgrid; [done|]. case_match eqn:Hlong; [done|].
  apply orb_false_iff in Hgrid as [Hgrid Hs]. apply orb_false_iff in Hgrid as [Hi _]. bool_prop.
  rewrite <-!index_agree. destruct (index s1 (T - _ + _)) as [a|] eqn:Ea; [|done]. cbn [mbind res_bind].
  destruct (index s1 T) as [b|] eqn:Eb; [|done]. cbn [mbind res_bind].
  apply index_ok in Ea as [Ea _], Eb as [Eb Eb2]; [|done..]. unfold DAY in *.
  rewrite (slice_agree a (b + 1)) by (done || nia). case_match; [done|].
  rewrite segment_start_agree by done. apply bind_ext_ok. intros seg Hseg.
  rewrite <-segment_start_agree in Hseg by done. apply segment_start_bounds in Hseg; [|done..].
  case_match; [done|]. rewrite <-index_agree. apply bind_ext_ok. intros c Hc. apply index_ok in Hc as [Hc _]; [|done].
  rewrite (slice_agree c (b + 1)) by (done || nia). apply bind_ext. intros h. rewrite fit_ar_agree by done.
  apply bind_ext. intros [coef rows]. rewrite digest_agree; [done| |done|done]. lia.
Qed.
End causal.

(** C33: The kernels never look ahead. Two series with the same observations up to the fit cutoff have the same E1 fit at
    it (its input digest included), or fail in the same way; two series with the same observations up to the input end
    have the same forecasts of both families from it, whatever follows. *)
Theorem kernels_causal np s1 s2 t ks :
  agree s1 s2 t → 0 < season_seconds ks → 0 < interval_seconds ks → 0 ≤ ar_window_days ks ≤ min_history_days ks →
  (t ≤ end_ s1 → t ≤ end_ s2 → fit_e1 np s1 t ks = fit_e1 np s2 t ks)
  ∧ (∀ targets fit, shadow_candidates np s1 t targets ks fit = shadow_candidates np s2 t targets ks fit).
Proof.
  intros Hag Hk Hdt Hw. split; [intros; by apply (fit_agree _ s1 s2 t)|].
  intros targets fit. unfold shadow_candidates. rewrite (naive_agree s1 s2 t Hag). apply bind_ext. intros a.
  destruct fit as [f|]; [|done]. by rewrite (forecast_agree np s1 s2 t Hag).
Qed.

(** * A kept fit advanced through new observations *)

Definition hw_wf (w : hw_vars) : Prop := (v_pos w < length (v_season w))%nat.

Lemma hw_step_wf a b g w obs : hw_wf w → hw_wf (hw_step a b g w obs) ∧ length (v_season (hw_step a b g w obs)) = length (v_season w).
Proof.
  unfold hw_wf, hw_step. intros H. cbn [v_pos v_season]. rewrite length_insert. split; [|done].
  destruct (Nat.eqb_spec (S (v_pos w)) (length (v_season w))); lia.
Qed.

(** The seasonal states as the next observation sees them: its own first. *)
Lemma rolled_cons w : hw_wf w → ∃ sp rest, v_season w !! v_pos w = Some sp ∧ rolled w = sp :: rest.
Proof.
  intros H. destruct (lookup_lt_is_Some_2 (v_season w) (v_pos w) H) as [sp Hsp]. exists sp.
  unfold rolled. rewrite (drop_S _ sp) by done. cbn. eauto.
Qed.

Lemma rolled_step a b g w obs sp rest : hw_wf w → v_season w !! v_pos w = Some sp → rolled w = sp :: rest →
  rolled (hw_step a b g w obs) = rest ++ [g ⊗ (obs ⊖ v_level w ⊖ v_trend w) ⊕ (f1 ⊖ g) ⊗ sp].
Proof.
  intros H Hsp Hr. unfold rolled in Hr. rewrite (drop_S _ sp) in Hr by done. cbn in Hr. injection Hr as <-.
  unfold rolled, hw_step. cbn [v_season v_pos]. rewrite Hsp. cbn [or_default]. set (x := _ ⊕ (f1 ⊖ g) ⊗ sp).
  unfold hw_wf in H. destruct (Nat.eqb_spec (S (v_pos w)) (length (v_season w))) as [E|E].
  - rewrite drop_0, take_0, app_nil_r. rewrite drop_ge by lia. cbn.
    rewrite insert_take_drop by done. rewrite drop_ge by lia. done.
  - rewrite drop_insert_lt by lia. rewrite <-app_assoc. f_equal. erewrite take_S_r; [|by apply list_lookup_insert_eq].
    by rewrite take_insert_ge by lia.
Qed.

(** Two runs that differ only in where their season is cut. *)
Record hw_same (w w' : hw_vars) : Prop := {
  hs_level : v_level w = v_level w'; hs_trend : v_trend w = v_trend w'; hs_rolled : rolled w = rolled w';
  hs_wf : hw_wf w; hs_wf' : hw_wf w';
}.

Lemma hw_step_same a b g w w' obs : hw_same w w' → hw_same (hw_step a b g w obs) (hw_step a b g w' obs).
Proof.
  intros [Hl Ht Hr Hw Hw']. destruct (rolled_cons w Hw) as (sp & rest & Hsp & Hrw).
  destruct (rolled_cons w' Hw') as (sp' & rest' & Hsp' & Hrw'). rewrite Hrw, Hrw' in Hr. injection Hr as <- <-.
  split; [| |rewrite !(rolled_step _ _ _ _ _ sp rest) by done; by rewrite Hl, Ht|by apply hw_step_wf|by apply hw_step_wf];
    unfold hw_step; cbn; by rewrite Hsp, Hsp', Hl, Ht.
Qed.

Lemma hw_fold_same a b g y w w' : hw_same w w' → hw_same (foldl (hw_step a b g) w y) (foldl (hw_step a b g) w' y).
Proof. revert w w'. induction y as [|o y IH]; intros w w' H; [done|]. cbn. by apply IH, hw_step_same. Qed.

Lemma hw_fold_wf a b g y w : hw_wf w →
  hw_wf (foldl (hw_step a b g) w y) ∧ length (v_season (foldl (hw_step a b g) w y)) = length (v_season w).
Proof.
  revert w. induction y as [|o y IH]; intros w H; [done|]. cbn. destruct (hw_step_wf a b g w o H) as [H1 H2].
  destruct (IH _ H1) as [H3 H4]. split; [done|congruence].
Qed.

Lemma rolled_length w : hw_wf w → length (rolled w) = length (v_season w).
Proof. unfold rolled, hw_wf. intros. rewrite length_app, length_drop, length_take. lia. Qed.

Lemma hw_run_length y a b g l t s : s ≠ [] → length (hw_run y a b g l t s).2 = length s.
Proof.
  intros Hne. unfold hw_run. cbn [snd].
  set (w0 := {| v_sse := f0; v_level := l; v_trend := t; v_season := s; v_pos := 0 |}).
  assert (hw_wf w0) as H0 by (unfold hw_wf; cbn; destruct s; [done|cbn; lia]).
  destruct (hw_fold_wf a b g y w0 H0) as [H1 H2]. by rewrite rolled_length.
Qed.

(** Advancing a kept Holt-Winters state through new observations is exact: the level, the trend and the rolled
    seasonal states after a run over [y1] and then one over [y2] from its result are those of one run over [y1 ++ y2],
    for any parameters and any non-empty season. So a forecast from an old fit equals one whose fit had been run on to the
    input end with the same parameters. *)
Theorem hw_advance_exact alpha beta gamma level trend season y1 y2 :
  season ≠ [] →
  let '(_, l1, t1, s1) := hw_run y1 alpha beta gamma level trend season in
  let '(_, l2, t2, s2) := hw_run y2 alpha beta gamma l1 t1 s1 in
  let '(_, l, t, s) := hw_run (y1 ++ y2) alpha beta gamma level trend season in
  (l2, t2, s2) = (l, t, s) ∧ length s = length season.
Proof.
  intros Hne. unfold hw_run. rewrite foldl_app.
  set (w0 := {| v_sse := f0; v_level := level; v_trend := trend; v_season := season; v_pos := 0 |}).
  assert (hw_wf w0) as H0 by (unfold hw_wf; cbn; destruct season; [done|cbn; lia]).
  destruct (hw_fold_wf alpha beta gamma y1 w0 H0) as [H1 Hl1]. set (w1 := foldl _ w0 y1) in *.
  set (w1' := {| v_sse := f0; v_level := v_level w1; v_trend := v_trend w1; v_season := rolled w1; v_pos := 0 |}).
  assert (hw_same w1' w1) as Hs.
  { split; [done|done| | |done].
    - unfold rolled at 1. cbn [w1' v_pos v_season]. by rewrite drop_0, take_0, app_nil_r.
    - unfold hw_wf. cbn. rewrite rolled_length by done. unfold hw_wf in H1. lia. }
  destruct (hw_fold_same alpha beta gamma y2 _ _ Hs) as [-> -> -> _ H2]. split; [done|].
  destruct (hw_fold_wf alpha beta gamma y2 w1 H1) as [_ Hl2]. rewrite rolled_length by done. by rewrite Hl2, Hl1.
Qed.

(** * The fitted segment *)

Lemma segment_loop_spec l i m (j : nat) :
  let r := segment_loop l i m j in
  (r ≤ j)%nat ∧ (∀ n : nat, (r ≤ n < j)%nat → is_finite (nth_nan l (Z.of_nat n)) = true ∧ i - Z.of_nat n < m)
  ∧ (∀ n : nat, r = S n → is_finite (nth_nan l (Z.of_nat n)) = false ∨ m ≤ i - Z.of_nat n).
Proof.
  cbn zeta. induction j as [|j (IH1 & IH2 & IH3)]; cbn [segment_loop]; [split_and!; [lia|lia|done]|].
  destruct ((i - Z.of_nat j <? m) && is_finite (nth_nan l (Z.of_nat j))) eqn:E.
  - bool_prop. split_and!; [lia| |done]. intros n Hn. destruct (decide (n = j)) as [->|]; [split; [done|lia]|apply IH2; lia].
  - split_and!; [lia|intros n ?; lia|]. intros n [= <-]. apply andb_false_iff in E as [E|E]; [right|by left]. bool_prop. lia.
Qed.

Lemma nth_nan_at s (j : nat) : 0 < interval s → nth_nan (values s) (Z.of_nat j) = at_ s (start s + Z.of_nat j * interval s).
Proof.
  intros Hp. unfold nth_nan, at_. replace (start s + Z.of_nat j * interval s - start s) with (Z.of_nat j * interval s) by lia.
  rewrite Z.mod_mul, Z.div_mul, Nat2Z.id by lia. by rewrite (proj2 (Z.ltb_ge _ _)), (proj2 (Z.leb_le _ _)) by lia.
Qed.

(** The Holt-Winters segment is the longest complete run that ends at the cutoff, up to [max_slots]: every slot from
    its start to the cutoff was observed, there are between one and [max_slots] of them, and it starts there because the
    series does, the cap is reached or the slot before it is missing. *)
Theorem complete_segment_longest s cutoff m u :
  0 < interval s → start s ≤ cutoff → 1 ≤ m → complete_segment_start s cutoff m = Ok u →
  start s ≤ u ≤ cutoff ∧ (interval s | cutoff - u) ∧ (cutoff - u) / interval s + 1 ≤ m
  ∧ (∀ t, u ≤ t ≤ cutoff → (interval s | t - u) → is_finite (at_ s t) = true)
  ∧ (u = start s ∨ (cutoff - u) / interval s + 1 = m ∨ is_finite (at_ s (u - interval s)) = false).
Proof.
  intros Hp Hs Hm H. pose proof (segment_start_bounds _ _ _ _ Hp Hs H) as Hb. unfold complete_segment_start in H. ok_inv H.
  match goal with E : index s _ = Ok ?i |- _ => rename i into i0; apply index_ok in E as [Ec Ei]; [|done] end.
  match goal with E : py_nth _ _ = Ok ?v |- _ => rename v into vc; rename E into Hv end. bool_prop.
  assert (0 ≤ i0) as Hi by nia. unfold py_nth in Hv. rewrite (proj2 (Z.ltb_ge i0 0) Hi) in Hv.
  rewrite (proj2 (Z.ltb_ge i0 0) Hi) in Hv. apply of_option_ok in Hv.
  destruct (segment_loop_spec (values s) i0 m (Z.to_nat i0)) as (Hr1 & Hr2 & Hr3).
  set (r := segment_loop (values s) i0 m (Z.to_nat i0)) in *.
  assert (cutoff - u = (i0 - Z.of_nat r) * interval s) as E by lia. rewrite E, Z.div_mul by lia.
  split_and!; [lia|lia|by exists (i0 - Z.of_nat r)| | |].
  - destruct (decide (r = Z.to_nat i0)) as [Er|]; [lia|]. destruct (Hr2 r) as [_ ?]; lia.
  - intros t Ht [q Hq]. assert (t = start s + Z.of_nat (r + Z.to_nat q) * interval s) as -> by nia.
    rewrite <-nth_nan_at by done. destruct (decide (r + Z.to_nat q = Z.to_nat i0)%nat) as [->|]; [|apply Hr2; nia].
    unfold nth_nan. rewrite (proj2 (Z.ltb_ge _ _)), Nat2Z.id by lia. by rewrite Hv.
  - destruct r as [|n] eqn:Er; [left; lia|]. right. destruct (Hr3 n eq_refl) as [Hf|Hge].
    + right. rewrite nth_nan_at in Hf by done. rewrite <-Hf. do 2 f_equal. lia.
    + left. destruct (decide (S n = Z.to_nat i0)) as [|]; [lia|]. destruct (Hr2 (S n)) as [_ ?]; lia.
Qed.

(** * Forecasts *)

(** A kernel's only failure is [KernelUnavailable], with a bounded reason. *)
Definition bounded_failure (e : exn) : Prop :=
  ∃ reason msg, e = KernelUnavailable reason msg ∧ reason ∈ ["history"; "numeric"].
Definition closed {A} (r : res A) : Prop := match r with Ok _ => True | Raise e => bounded_failure e end.

Lemma closed_bind {A B} (r : res A) (k : A → res B) : closed r → (∀ a, r = Ok a → closed (k a)) → closed (r ≫= k).
Proof. destruct r; cbn; auto. Qed.
Lemma closed_raise_if {A} (c : bool) e (k : res A) : bounded_failure e → closed k → closed (raise_if c with e ;; k).
Proof. by destruct c. Qed.
Lemma no_history_bounded msg : bounded_failure (no_history msg).
Proof. exists "history", msg. split; [done|list_member]. Qed.
Lemma no_numeric_bounded msg : bounded_failure (no_numeric msg).
Proof. exists "numeric", msg. split; [done|list_member]. Qed.
#[local] Hint Resolve no_history_bounded no_numeric_bounded : py.

Lemma closed_mapM {A B} (f : A → res B) l : (∀ x, x ∈ l → closed (f x)) → closed (mapM_res f l).
Proof.
  induction l as [|x t IH]; intros H; [done|]. cbn [mapM_res]. apply closed_bind; [apply H; left|]. intros y _.
  apply closed_bind; [apply IH; intros; apply H; by right|done].
Qed.

Lemma closed_nth {A} (l : list A) i : 0 ≤ i < Z.of_nat (length l) → closed (py_nth l i).
Proof.
  intros Hi. destruct (lookup_lt_is_Some_2 l (Z.to_nat i)) as [x Hx]; [lia|]. by rewrite (py_nth_ok _ _ x) by (done || lia).
Qed.

(** The shape a fit has when its kernel settings are the forecast's. *)
Record fit_shape (ks : KernelSettings) (f : E1Fit) : Prop := {
  fs_season : length (season (hw f)) = Z.to_nat (season_slots ks);
  fs_coef : length (ar_coef f) = Z.to_nat (ar_order ks + 1);
}.

Lemma ar_next_closed c hist p : 0 ≤ p → length c = Z.to_nat (p + 1) → p ≤ Z.of_nat (length hist) → closed (ar_next c hist p).
Proof.
  intros Hp Hc Hh. unfold ar_next. apply closed_bind; [apply closed_nth; lia|]. intros c0 _.
  apply closed_bind; [|done]. apply closed_mapM. intros j Hj. apply elem_of_range in Hj; [|lia].
  apply closed_bind; [apply closed_nth; lia|]. intros a _. apply closed_bind; [apply closed_nth; lia|done].
Qed.

Lemma ar_path_closed n c hist p : 0 ≤ p → length c = Z.to_nat (p + 1) → p ≤ Z.of_nat (length hist) → closed (ar_path n c hist p).
Proof.
  intros Hp Hc. revert hist. induction n as [|n IH]; intros hist Hh; [done|]. cbn [ar_path].
  apply closed_bind; [by apply ar_next_closed|]. intros x _. apply closed_bind; [|done]. apply IH. cbn [length].
  destruct hist as [|y t] using rev_ind; [cbn in *; lia|]. rewrite removelast_last. rewrite length_app in Hh. cbn in Hh. lia.
Qed.

Lemma ar_path_length n c hist p l : ar_path n c hist p = Ok l → length l = n.
Proof.
  revert hist l. induction n as [|n IH]; intros hist l H; cbn in H; [by injection H as <-|]. ok_inv H. subst l. cbn.
  f_equal. by eapply IH.
Qed.

Lemma foldl_max_ge l x y : x ≤ y ∨ (∃ z, z ∈ l ∧ x ≤ z) → x ≤ foldl Z.max y l.
Proof.
  revert y. induction l as [|z l IH]; intros y H; cbn; [by destruct H as [|(? & ?%elem_of_nil & _)]|]. apply IH.
  destruct H as [|(w & Hw & ?)]; [lia|]. apply elem_of_cons in Hw as [->|Hw]; [lia|eauto].
Qed.

Section forecasts.
Context (np : NumLib) (ks : KernelSettings).
Context (Hdt : 0 < interval_seconds ks) (Hm : 0 < season_slots ks) (Hp : 0 ≤ ar_order ks).

Lemma forecast_closed f series input_end targets :
  fit_shape ks f → targets ≠ [] → closed (forecast_e1 np f series input_end targets ks).
Proof.
  intros [Hs Hc] Hne. unfold forecast_e1. rewrite (proj2 (Z.eqb_neq _ _)) by lia.
  apply closed_raise_if; [auto with py|]. destruct (existsb _ targets) eqn:Hgrid; [cbn; auto with py|].
  rewrite existsb_false in Hgrid. do 2 (apply closed_raise_if; [auto with py|]).
  pose proof (hw_run_length (at_ series <$> range (cutoff f + interval_seconds ks) (input_end + 1) (interval_seconds ks))
    (alpha (hw f)) (beta (hw f)) (gamma (hw f)) (level (hw f)) (trend (hw f)) (season (hw f))) as Hsn.
  destruct (hw_run _ _ _ _ _ _ _) as [[[? lv] tr] sn]. cbn [snd] in Hsn. rewrite Hs in Hsn.
  specialize (Hsn ltac:(intros E; rewrite E in Hs; cbn in Hs; lia)).
  rewrite (proj2 (Z.eqb_neq (season_slots ks) 0)) by lia. cbn [andb].
  apply closed_bind.
  { apply closed_mapM. intros k _. apply closed_bind; [|done]. apply closed_nth. rewrite Hsn.
    pose proof (Z.mod_pos_bound (k - 1) (season_slots ks)). lia. }
  intros hw_ _. apply closed_raise_if; [auto with py|]. apply closed_bind; [destruct targets; [done|exact I]|].
  intros top Htop. apply closed_bind.
  { apply ar_path_closed; [done|done|]. rewrite length_fmap, length_range.
    pose proof (ceil_div_spec (ar_order ks - 0) 1). lia. }
  intros ar Har. apply ar_path_length in Har. apply closed_bind.
  { apply closed_mapM. intros u Hin. unfold profile_ar_point. apply closed_raise_if; [auto with py|].
    specialize (Hgrid u Hin). bool_prop. apply mod0_divide in H0 as [q Hq]; [|done]. rewrite Hq, Z.div_mul by lia.
    apply closed_bind; [|done]. destruct (lookup_lt_is_Some_2 ar (Z.to_nat (q - 1))) as [x Hx]; [|by rewrite Hx].
    rewrite Har. assert (q ≤ top); [|nia].
    destruct targets as [|t0 tl]; [done|]. cbn in Htop. injection Htop as <-. apply foldl_max_ge.
    apply elem_of_cons in Hin as [->|Hin]; [left; rewrite Hq, Z.div_mul by lia; lia|right].
    exists q. split; [|lia]. apply list_elem_of_fmap. exists u. split; [rewrite Hq, Z.div_mul by lia; lia|done]. }
  intros pa _. apply closed_raise_if; [auto with py|done].
Qed.
End forecasts.

Lemma heuristic_init_length np y m l t s : heuristic_init np y m = Ok (l, t, s) → length s = Z.to_nat m.
Proof. unfold heuristic_init. intros H. ok_inv H. subst. by rewrite !length_fmap, length_seq. Qed.

Lemma fit_hw_season np y m seg it h : 0 < m → fit_hw np y m seg it = Ok h → length (season h) = Z.to_nat m.
Proof.
  intros Hm H. unfold fit_hw in H. apply raise_if_ok in H as [_ H]. apply bind_ok in H as ([[l0 t0] s0] & Hi & H).
  apply heuristic_init_length in Hi. cbn beta iota zeta in H. destruct (foldl _ None HW_STARTS) as [best|]; [|discriminate].
  destruct (_params (x_ best)) as [[al be] ga].
  pose proof (hw_run_length y al be ga l0 t0 s0) as Hl. destruct (hw_run y al be ga l0 t0 s0) as [[[e l] t] s].
  apply raise_if_ok in H as [_ H]. injection H as <-. cbn [season snd] in *. rewrite <-Hi. apply Hl. intros ->. cbn in Hi. lia.
Qed.

(** What [lstsq] documents: as many coefficients as the rows have columns. *)
Definition lstsq_shape (np : NumLib) : Prop :=
  ∀ n rows targets, rows ≠ [] → Forall (λ r, length r = n) rows → length (np_lstsq np rows targets) = n.

Lemma fit_ar_length np s t ks coef rows : lstsq_shape np → 0 ≤ ar_order ks → fit_ar np s t ks = Ok (coef, rows) →
  length coef = Z.to_nat (ar_order ks + 1).
Proof.
  intros Hl Hp H. unfold fit_ar in H. apply raise_if_ok in H as [_ H]. cbn beta iota zeta in H.
  set (rs := omap (ar_row np s ks) _) in H. apply bind_ok in H as (few & Hfew & H).
  apply raise_if_ok in H as [-> H]. apply raise_if_ok in H as [_ H]. apply raise_if_ok in H as [_ H]. injection H as <- _.
  apply Hl.
  - intros E. apply fmap_nil_inv in E. rewrite E in Hfew. destruct (_ <? _); discriminate Hfew.
  - apply Forall_fmap, Forall_forall. intros [[r v] u] Hr. apply list_elem_of_omap in Hr as (x & _ & Hx). unfold ar_row in Hx.
    destruct (_ && _); [|discriminate]. injection Hx as <- _ _. unfold compose. cbn [fst length]. rewrite length_fmap, length_range.
    replace (ar_order ks + 1 - 1) with (1 * ar_order ks) by lia. rewrite ceil_div_mult by lia. lia.
Qed.

Lemma fit_e1_shape np s t ks f : lstsq_shape np → 0 ≤ ar_order ks → 0 < season_slots ks → fit_e1 np s t ks = Ok f → fit_shape ks f.
Proof.
  intros Hl Hp Hm H. unfold fit_e1 in H. do 3 apply raise_if_ok in H as [_ H]. cbn beta iota zeta in H.
  apply bind_ok in H as (a & _ & H). apply bind_ok in H as (b & _ & H). apply raise_if_ok in H as [_ H].
  apply bind_ok in H as (seg & _ & H). apply raise_if_ok in H as [_ H]. apply bind_ok in H as (c & _ & H).
  apply bind_ok in H as (h & Hh & H). apply bind_ok in H as ([coef rows] & Hc & H). apply bind_ok in H as (sha & _ & H).
  injection H as <-. split; cbn [hw ar_coef]; [by apply fit_hw_season in Hh|by eapply fit_ar_length].
Qed.

(** What a forecast promises about its targets and points. *)
Record forecast_ok (ks : KernelSettings) (series : Series) (input_end : Z) (targets : list Z) (f : E1Forecast) : Prop := {
  fo_targets : Forall (λ t, input_end < t ≤ input_end + season_seconds ks ∧ (interval_seconds ks | t - input_end)) targets;
  fo_lengths : length (f_hw f) = length targets ∧ length (f_profile_ar f) = length targets;
  fo_points : f_points f = zip_with (λ a b, fmax f0 (hw_weight ks ⊗ a ⊕ (f1 ⊖ hw_weight ks) ⊗ b)) (f_hw f) (f_profile_ar f);
  fo_finite : Forall (λ v, is_finite v = true) (f_hw f ++ f_profile_ar f ++ f_points f);
  fo_nonneg : length (f_points f) = length targets ∧ Forall (λ v, fle f0 v = true) (f_points f);
  fo_observed : is_finite (at_ series input_end) = true;
}.

Lemma forecast_sound np ks f series input_end targets r : 0 < interval_seconds ks →
  forecast_e1 np f series input_end targets ks = Ok r → forecast_ok ks series input_end targets r.
Proof.
  intros Hdt H. unfold forecast_e1 in H. do 2 apply raise_if_ok in H as [_ H]. apply raise_if_ok in H as [Hgrid H].
  apply raise_if_ok in H as [Hfar H]. apply raise_if_ok in H as [Hobs H]. rewrite existsb_false in Hgrid, Hfar.
  destruct (hw_run _ _ _ _ _ _ _) as [[[? lv] tr] sn]. apply raise_if_ok in H as [_ H].
  apply bind_ok in H as (hw_ & Hhw & H). apply raise_if_ok in H as [_ H]. apply bind_ok in H as (top & _ & H).
  apply bind_ok in H as (ar & _ & H). apply bind_ok in H as (pa & Hpa & H). apply raise_if_ok in H as [Hfin H].
  injection H as <-. apply mapM_res_length in Hhw, Hpa. rewrite length_fmap in Hhw. apply orb_false_iff in Hobs as [_ Hobs].
  apply negb_false_iff in Hobs, Hfin. split; cbn [f_hw f_profile_ar f_points]; [|done|done| | |done].
  - apply Forall_forall. intros t Ht. specialize (Hgrid t Ht). specialize (Hfar t Ht). bool_prop.
    split; [lia|]. by apply mod0_divide.
  - apply Forall_forall. intros v Hv. eapply forallb_forall; [exact Hfin|]. by apply list_elem_of_In.
  - split; [rewrite length_zip_with; lia|]. apply Forall_forall. intros v Hv.
    apply elem_of_lookup_zip_with in Hv as (i & a & b & -> & _). apply fmax_0_nonneg.
Qed.

(** A forecast from a fit that [fit_e1] made fails closed. With any NumPy whose [lstsq] answers one coefficient per
    column, and at least one target, [forecast_e1] either gives, for every target, finite components and a finite,
    non-negative point that is the weighted mean cut at zero, all targets lying on the grid within one season after an
    observed input end; or it raises [KernelUnavailable] with a bounded reason, never another exception; so the shadow
    candidates always exist, one per family under its own name, whether or not a fit is available. *)
Theorem forecast_fails_closed np ks s0 cutoff f series input_end targets :
  lstsq_shape np → 0 < interval_seconds ks ≤ season_seconds ks → 0 ≤ ar_order ks → targets ≠ [] →
  fit_e1 np s0 cutoff ks = Ok f →
  match forecast_e1 np f series input_end targets ks with
  | Ok r => forecast_ok ks series input_end targets r
  | Raise e => bounded_failure e
  end
  ∧ ∀ fit, fit = None ∨ fit = Some f → ∃ a b,
      shadow_candidates np series input_end targets ks fit = Ok [("seasonal_naive", a); ("statistical", b)].
Proof.
  intros Hl Hdt Hp Hne Hf. assert (0 < season_slots ks) as Hm by (apply Z.div_str_pos; lia).
  apply fit_e1_shape in Hf; [|done..]. pose proof (forecast_closed np ks ltac:(lia) Hm Hp f series input_end targets Hf Hne) as Hc.
  split.
  - destruct (forecast_e1 np f series input_end targets ks) as [r|e] eqn:E; [|exact Hc]. eapply forecast_sound; [lia|exact E].
  - intros fit Hfit. unfold shadow_candidates. assert (closed (seasonal_naive series input_end targets ks)) as Hn.
    { unfold seasonal_naive. apply closed_mapM. intros t _. apply closed_raise_if; [auto with py|done]. }
    assert (∀ A (r : res A) g recipe, closed r → ∃ c, or_unavailable recipe (g <$> r) = Ok c) as Hor.
    { intros A [x|e] g recipe Hr; [by eexists|]. destruct Hr as (reason & msg & -> & _). by eexists. }
    destruct (Hor _ _ Naive RECIPE_NAIVE Hn) as [a ->]. cbn [mbind res_bind]. exists a.
    destruct Hfit as [-> | ->]; [by eexists|]. destruct (Hor _ _ E1 RECIPE_E1 Hc) as [b ->]. by exists b.
Qed.

(** * Instances *)

Definition demo_sum (l : list f64) : f64 := foldl fadd f0 l.
Definition demo_mean (l : list f64) : f64 := demo_sum l ⊘ f64_of_Z (Z.of_nat (length l)).
Fixpoint demo_cumsum (acc : f64) (l : list f64) : list f64 :=
  match l with [] => [] | x :: t => (acc ⊕ x) :: demo_cumsum (acc ⊕ x) t end.

(** Simple stand-ins: a flat line, the zero recursion, an optimizer that stays at its start. *)
Definition demo_np : NumLib := {|
  np_mean := demo_mean; np_nanmean := λ l, demo_mean (filter (λ v, is_finite v) l); np_cumsum := demo_cumsum f0;
  np_line_fit := λ l, (or_default f0 (head l), f0); np_lstsq := λ rows _, (λ _, f0) <$> or_default [] (head rows);
  np_max_root := λ _, f0; minimize := λ obj x _, {| success := true; fun_ := obj x; x_ := x |} |}.

Lemma demo_np_shape : lstsq_shape demo_np.
Proof. intros n rows targets Hne Hall. destruct rows as [|r rows]; [done|]. cbn. rewrite length_fmap. by inversion Hall. Qed.

(** A day of observations with a two-hour season, and its first three hours' worth of later ones. *)
Definition demo_ks : KernelSettings := {|
  interval_seconds := 600; season_seconds := 7200; profile_days := 2; profile_min_support := 1; ar_order := 1;
  ar_window_days := 1; ar_min_rows := 3; ar_min_span_seconds := 600; hw_min_days := 2; hw_max_days := 3;
  hw_weight := dec 5 (-1); min_history_days := 1; min_observed_fraction := dec 95 (-2); hw_maxiter := 10 |}.
Definition demo_value (i : nat) : f64 := f64_of_Z (10 + Z.of_nat i mod 12).
Definition demo_series : Series := {| start := 600; interval := 600; values := demo_value <$> seq 0 150 |}.
Definition demo_cut : Z := 600 + 143 * 600.
Definition demo_other : Series := {| start := 600; interval := 600; values := (demo_value <$> seq 0 144) ++ replicate 9 S754_nan |}.
Definition demo_targets : list Z := [demo_cut + 1800; demo_cut + 2400].
Definition demo_fit : E1Fit := Eval vm_compute in
  match fit_e1 demo_np demo_series demo_cut demo_ks with
  | Ok f => f
  | Raise _ => {| cutoff := 0; e_interval := 0; hw := {| alpha := f0; beta := f0; gamma := f0; level := f0; trend := f0;
      season := []; sse := f0; n_train := 0; segment_start := 0 |}; ar_coef := []; ar_rows := 0; input_lo := 0;
      input_sha256 := EmptyString; e_settings := [] |}
  end.

Lemma demo_fit_eq : fit_e1 demo_np demo_series demo_cut demo_ks = Ok demo_fit.
Proof. vm_compute. reflexivity. Qed.

Lemma demo_agree : agree demo_series demo_other demo_cut.
Proof. split; [done|done|done|]. vm_compute. reflexivity. Qed.

Lemma kernels_causal_witness :
  fit_e1 demo_np demo_other demo_cut demo_ks = Ok demo_fit ∧ at_ demo_other (demo_cut + 600) = S754_nan.
Proof.
  destruct (kernels_causal demo_np demo_series demo_other demo_cut demo_ks demo_agree ltac:(done) ltac:(done) ltac:(done)) as [H _].
  split; [|vm_compute; reflexivity]. rewrite <-demo_fit_eq. symmetry. apply H; vm_compute; discriminate.
Defined.

Definition demo_season : list f64 := demo_value <$> seq 0 12.
Definition demo_y1 : list f64 := demo_value <$> seq 3 17.
Definition demo_y2 : list f64 := demo_value <$> seq 30 9.
Definition demo_rate : f64 := dec 3 (-1).

Lemma hw_advance_exact_witness :
  let '(_, l1, t1, s1) := hw_run demo_y1 demo_rate demo_rate demo_rate f0 f0 demo_season in
  let '(_, l2, t2, s2) := hw_run demo_y2 demo_rate demo_rate demo_rate l1 t1 s1 in
  let '(_, l, t, s) := hw_run (demo_y1 ++ demo_y2) demo_rate demo_rate demo_rate f0 f0 demo_season in
  (l2, t2, s2) = (l, t, s) ∧ length s = length demo_season.
Proof.
  assert (demo_season ≠ []) as Hne by discriminate.
  exact (hw_advance_exact demo_rate demo_rate demo_rate f0 f0 demo_season demo_y1 demo_y2 Hne).
Defined.

Lemma complete_segment_longest_witness :
  complete_segment_start demo_series demo_cut 36 = Ok (demo_cut - 35 * 600)
  ∧ (demo_cut - (demo_cut - 35 * 600)) / interval demo_series + 1 ≤ 36.
Proof.
  assert (complete_segment_start demo_series demo_cut 36 = Ok (demo_cut - 35 * 600)) as E by (vm_compute; reflexivity).
  assert (start demo_series ≤ demo_cut) as Hs by (vm_compute; discriminate).
  destruct (complete_segment_longest demo_series demo_cut 36 (demo_cut - 35 * 600) ltac:(reflexivity) Hs ltac:(discriminate) E)
    as (_ & _ & H & _).
  exact (conj E H).
Defined.

Lemma forecast_fails_closed_witness :
  (is_ok (forecast_e1 demo_np demo_fit demo_series (demo_cut + 1200) demo_targets demo_ks) = true)
  ∧ ∃ a b, shadow_candidates demo_np demo_series (demo_cut + 1200) demo_targets demo_ks (Some demo_fit)
           = Ok [("seasonal_naive", a); ("statistical", b)].
Proof.
  split; [vm_compute; reflexivity|].
  destruct (forecast_fails_closed demo_np demo_ks demo_series demo_cut demo_fit demo_series (demo_cut + 1200) demo_targets
    demo_np_shape ltac:(cbn; lia) ltac:(cbn; lia) ltac:(discriminate) demo_fit_eq) as [_ H].
  apply H. by right.
Defined.
