(* ===== verification/Artifacts.v ===== *)
(** [forecasting/artifacts.py]: bindings, the artifact of an E1 fit, [decode] with all its refusals, and the store of
    promoted artifacts. The container formats (a stored ZIP, the .npy arrays) are operations of a [Containers] argument,
    whose laws are what the formats document: what was written is read back. The directory is a dict from file names to
    bytes; [_write_atomic] is one step on it, since the rename is atomic, so a crash leaves a prefix of the steps.
    Failures of the file system itself are not modelled. *)
From Stdlib Require Import SpecFloat Ascii.
From S2P Require Import Prelude Float64 Sha256 Json JsonRoundtrip Identity Contracts History Statistical.

Definition ARTIFACT_SCHEMA : string := "statistical-artifact/v1".
Definition MEMBERS : list string := ["manifest.json"; "hw_season.npy"; "ar_coef.npy"].
Definition MAX_ARTIFACT_BYTES : Z := Z.shiftl 1 20.
Definition MAX_FIT_AGE_SECONDS : Z := 12 * 3600.

(** What [np.load] gives: the dtype's name, the shape, the values. *)
Record ndarray := { a_dtype : string; a_shape : list Z; a_data : list f64 }.

(** [None] is a [BadZipFile]. *)
Record Containers := {
  zip_write : list (string * string) → string;
  zip_read : string → option (list (string * string));
  npy_write : list f64 → string;
  npy_read : string → res ndarray;
}.

Record container_laws (ct : Containers) : Prop := {
  zip_law : ∀ ms, zip_read ct (zip_write ct ms) = Some ms;
  npy_law : ∀ l, npy_read ct (npy_write ct l) = Ok {| a_dtype := "<f8"; a_shape := [Z.of_nat (length l)]; a_data := l |};
}.

(** * Bindings *)

Record Binding := {
  bd_autoscaler_uid : string; bd_target_uid : string; bd_query_sha256 : string; bd_signal_contract : string;
  bd_interval_seconds : Z; bd_seasonality : string; bd_recipe : string;
}.

#[export] Instance binding_eq_dec : EqDecision Binding.
Proof. solve_decision. Defined.

Definition binding_dict (b : Binding) : list (string * json) :=
  [("autoscaler_uid", JStr (bd_autoscaler_uid b)); ("target_uid", JStr (bd_target_uid b));
   ("query_sha256", JStr (bd_query_sha256 b)); ("signal_contract", JStr (bd_signal_contract b));
   ("interval_seconds", JInt (bd_interval_seconds b)); ("seasonality", JStr (bd_seasonality b));
   ("recipe", JStr (bd_recipe b))].

Definition binding_key (b : Binding) : res string :=
  t ← canonical_json (JObj (("schema", JStr "artifact-binding/v1") :: binding_dict b)); Ok (sha256_hex t).

Definition for_signal (signal : ResolvedSignal) (settings : ForecastSettings) (recipe : string) : Binding := {|
  bd_autoscaler_uid := rs_autoscaler_uid signal; bd_target_uid := rs_target_uid signal; bd_query_sha256 := rs_sha256 signal;
  bd_signal_contract := rs_contract signal; bd_interval_seconds := sample_interval_seconds settings;
  bd_seasonality := seasonality settings; bd_recipe := recipe |}.

(** * Encoding *)

Definition hw_dict (h : HWState) : list (string * json) :=
  [("alpha", JFloat (alpha h)); ("beta", JFloat (beta h)); ("gamma", JFloat (gamma h)); ("level", JFloat (level h));
   ("trend", JFloat (trend h)); ("sse", JFloat (sse h)); ("n_train", JInt (n_train h));
   ("segment_start", JInt (segment_start h))].

Definition array_spec (blob : string) (l : list f64) : json :=
  JObj [("dtype", JStr "<f8"); ("shape", JArr [JInt (Z.of_nat (length l))]); ("sha256", JStr (sha256_hex blob))].

Section artifacts.
Context (ct : Containers).

Definition manifest_of (fit : E1Fit) (binding : Binding) : json := JObj
  [("schema", JStr ARTIFACT_SCHEMA); ("recipe", JStr RECIPE_E1); ("binding", JObj (binding_dict binding));
   ("fit_cutoff", JInt (cutoff fit)); ("input_lo", JInt (input_lo fit)); ("input_sha256", JStr (input_sha256 fit));
   ("kernel_settings", JObj (e_settings fit)); ("hw", JObj (hw_dict (hw fit))); ("ar_rows", JInt (ar_rows fit));
   ("arrays", JObj [("hw_season", array_spec (npy_write ct (season (hw fit))) (season (hw fit)));
                    ("ar_coef", array_spec (npy_write ct (ar_coef fit)) (ar_coef fit))])].

Definition encode_e1 (fit : E1Fit) (binding : Binding) : res string :=
  raise_if negb (bool_decide (bd_recipe binding = RECIPE_E1)) || negb (bd_interval_seconds binding =? e_interval fit)
    with PyValueError "binding does not describe this fit" ;;
  m ← canonical_json (manifest_of fit binding);
  Ok (zip_write ct [("manifest.json", m); ("ar_coef.npy", npy_write ct (ar_coef fit));
                    ("hw_season.npy", npy_write ct (season (hw fit)))]).

(** * Decoding *)

(** The fit as the manifest's JSON values and the checked arrays give it (the decoder does not check their types). *)
Record LoadedFit := {
  lf_cutoff : json; lf_interval : json; lf_hw : list (string * json); lf_season : list f64; lf_coef : list f64;
  lf_rows : json; lf_input_lo : json; lf_input_sha256 : json; lf_settings : json; lf_binding : list (string * json);
}.

Definition malformed (msg : string) : exn := ArtifactRefused "malformed" msg.

(** [z.read(n)]: the last member of that name. *)
Definition member (ms : list (string * string)) (n : string) : res string := of_option PyKeyError (dget n (reverse ms)).

Definition load_array (manifest : json) (raw : list (string * string)) (name : string) : res (list f64) :=
  arrays ← getitem "arrays" manifest;
  spec ← getitem name arrays;
  blob ← member raw (name +:+ ".npy");
  sha ← getitem "sha256" spec;
  raise_if negb (py_eq (JStr (sha256_hex blob)) sha) with malformed "an array does not match its digest" ;;
  a ← npy_read ct blob;
  raise_if negb (bool_decide (a_dtype a = "<f8")) with malformed "an array has the wrong dtype, shape or values" ;;
  shape ← getitem "shape" spec;
  raise_if negb (py_eq (JArr (JInt <$> a_shape a)) shape) || negb (forallb is_finite (a_data a))
    with malformed "an array has the wrong dtype, shape or values" ;;
  Ok (a_data a).

(** [Class( **d)]: the keys must be exactly the fields. *)
Definition exact_fields (fields : list string) (v : json) : res (list (string * json)) :=
  match v with
  | JObj o => raise_if negb (bool_decide (o.*1 ≡ₚ fields)) with PyTypeError ;; Ok o
  | _ => Raise PyTypeError
  end.

Definition HW_FIELDS : list string := ["alpha"; "beta"; "gamma"; "level"; "trend"; "sse"; "n_train"; "segment_start"].
Definition BINDING_FIELDS : list string :=
  ["autoscaler_uid"; "target_uid"; "query_sha256"; "signal_contract"; "interval_seconds"; "seasonality"; "recipe"].

Definition parse_artifact (data : string) : res LoadedFit :=
  match zip_read ct data with
  | None => Raise (malformed "BadZipFile")
  | Some raw =>
      raise_if negb (bool_decide (sort_by str_leb raw.*1 = sort_by str_leb MEMBERS)) with malformed "members" ;;
      text ← member raw "manifest.json";
      manifest ← loads_body text;
      season ← load_array manifest raw "hw_season";
      coef ← load_array manifest raw "ar_coef";
      schema ← getitem "schema" manifest;
      raise_if negb (py_eq schema (JStr ARTIFACT_SCHEMA)) with malformed "unknown schema or recipe" ;;
      recipe ← getitem "recipe" manifest;
      raise_if negb (py_eq recipe (JStr RECIPE_E1)) with malformed "unknown schema or recipe" ;;
      jhw ← getitem "hw" manifest; hw ← exact_fields HW_FIELDS jhw;
      cut ← getitem "fit_cutoff" manifest;
      jb ← getitem "binding" manifest; dt ← getitem "interval_seconds" jb;
      rows ← getitem "ar_rows" manifest;
      lo ← getitem "input_lo" manifest;
      sha ← getitem "input_sha256" manifest;
      settings ← getitem "kernel_settings" manifest;
      bound ← exact_fields BINDING_FIELDS jb;
      Ok {| lf_cutoff := cut; lf_interval := dt; lf_hw := hw; lf_season := season; lf_coef := coef; lf_rows := rows;
            lf_input_lo := lo; lf_input_sha256 := sha; lf_settings := settings; lf_binding := bound |}
  end.

(** [except (BadZipFile, ValueError, KeyError, TypeError)] *)
Definition or_malformed {A} (r : res A) : res A :=
  match r with
  | Raise (PyValueError _) | Raise PyKeyError | Raise PyTypeError => Raise (malformed "unreadable artifact")
  | _ => r
  end.

Definition same_fields (fields : list string) (a b : list (string * json)) : bool :=
  forallb (λ f, py_eq (or_default JNull (dget f a)) (or_default JNull (dget f b))) fields.

Definition SIGNAL_FIELDS : list string := ["autoscaler_uid"; "target_uid"; "query_sha256"; "signal_contract"; "recipe"].

(** Comparison and subtraction of a loaded cutoff: of anything but a number, a [TypeError]. *)
Definition cutoff_after (v : json) (t : Z) : res bool :=
  match num_of v with Some n => Ok (num_lt (inl t) n) | None => Raise PyTypeError end.
Definition older_than (v : json) (t age : Z) : res bool :=
  match num_of v with
  | Some (inl c) => Ok (age <? t - c)
  | Some (inr c) => Ok (num_lt (inl age) (inr (f64_of_Z t ⊖ c)))
  | None => Raise PyTypeError
  end.

Definition decode (data expected_sha256 : string) (binding : Binding) (ks : KernelSettings) (input_end max_age_seconds : Z)
    : res LoadedFit :=
  raise_if (MAX_ARTIFACT_BYTES <? body_len data) || negb (bool_decide (sha256_hex data = expected_sha256))
    with ArtifactRefused "digest" "the artifact bytes are not the expected ones" ;;
  fit ← or_malformed (parse_artifact data);
  raise_if negb (same_fields BINDING_FIELDS (lf_binding fit) (binding_dict binding))
    with ArtifactRefused (if same_fields SIGNAL_FIELDS (lf_binding fit) (binding_dict binding) then "incompatible" else "foreign")
           "the artifact is bound elsewhere" ;;
  raise_if negb (py_eq (lf_settings fit) (JObj (Statistical.canonical ks)))
           || negb (Z.of_nat (length (lf_season fit)) =? season_slots ks)
           || negb (Z.of_nat (length (lf_coef fit)) =? ar_order ks + 1)
    with ArtifactRefused "incompatible" "fitted with other kernel settings" ;;
  late ← cutoff_after (lf_cutoff fit) input_end;
  raise_if (late : bool) with ArtifactRefused "stale" "the fit cutoff is after the input end" ;;
  old ← older_than (lf_cutoff fit) input_end max_age_seconds;
  raise_if (old : bool) with ArtifactRefused "stale" "the fit is older than its limit" ;;
  Ok fit.

(** The typed fit behind the loaded values, for settings that [decode] found equal to [ks]. *)
Definition float_of (v : json) : option f64 := match v with JFloat x => Some x | _ => None end.
Definition int_of_json (v : json) : option Z := match v with JInt z => Some z | _ => None end.
Definition str_of_json (v : json) : option string := match v with JStr s => Some s | _ => None end.

Definition typed_fit (ks : KernelSettings) (f : LoadedFit) : option E1Fit :=
  let fl k := v ← dget k (lf_hw f); float_of v in
  let it k := v ← dget k (lf_hw f); int_of_json v in
  al ← fl "alpha"; be ← fl "beta"; ga ← fl "gamma"; lv ← fl "level"; tr ← fl "trend"; ss ← fl "sse";
  nt ← it "n_train"; sg ← it "segment_start";
  cut ← int_of_json (lf_cutoff f); dt ← int_of_json (lf_interval f); rows ← int_of_json (lf_rows f);
  lo ← int_of_json (lf_input_lo f); sha ← str_of_json (lf_input_sha256 f);
  Some {| cutoff := cut; e_interval := dt;
          hw := {| alpha := al; beta := be; gamma := ga; level := lv; trend := tr; season := lf_season f; sse := ss;
                   n_train := nt; segment_start := sg |};
          ar_coef := lf_coef f; ar_rows := rows; input_lo := lo; input_sha256 := sha;
          e_settings := Statistical.canonical ks |}.

(** * The fit process *)

Record FitPayload := {
  fp_start : Z; fp_interval : Z; fp_cutoff : Z; fp_kernel : KernelSettings; fp_binding : Binding; fp_values : list f64;
}.

(** The values are sent as their exact bytes and read back as the same floats. *)
Definition fit_payload (series : Series) (cutoff : Z) (ks : KernelSettings) (binding : Binding) : res FitPayload :=
  hi ← index series cutoff;
  Ok {| fp_start := start series; fp_interval := interval series; fp_cutoff := cutoff; fp_kernel := ks;
        fp_binding := binding; fp_values := py_slice (values series) 0 (hi + 1) |}.

Definition fit_e1_artifact (np : NumLib) (p : FitPayload) : res string :=
  series ← mk_series {| start := fp_start p; interval := fp_interval p; values := fp_values p |};
  ks ← mk_settings (fp_kernel p);
  fit ← fit_e1 np series (fp_cutoff p) ks;
  encode_e1 fit (fp_binding p).

(** * The store *)

Abbreviation directory := (list (string * string)).

Definition zip_name (sha : string) : string := sha +:+ ".zip".
Definition ptr_name (key : string) : string := key +:+ ".json".

Definition read_capped (s : string) : string := String.substring 0 (Z.to_nat (MAX_ARTIFACT_BYTES + 1)) s.

(** (sha256, cutoff, bytes). The artifact files are named by digests, so a pointer that is not a text names none. *)
Definition current (fs : directory) (binding : Binding) : res (option (json * json * string)) :=
  key ← binding_key binding;
  match dget (ptr_name key) fs with
  | None => Ok None
  | Some text =>
      ptr ← match loads_body text with Raise (PyValueError _) => Raise (malformed "unreadable pointer") | r => r end;
      sha ← match getitem "sha256" ptr with Raise PyKeyError => Raise (malformed "unreadable pointer") | r => r end;
      match sha with
      | JStr s =>
          match dget (zip_name s) fs with
          | None => Ok None
          | Some data =>
              let data := read_capped data in
              raise_if negb (bool_decide (sha256_hex data = s))
                with ArtifactRefused "digest" "the promoted artifact does not match its pointer" ;;
              cut ← getitem "fit_cutoff" ptr;
              Ok (Some (sha, cut, data))
          end
      | _ => Ok None
      end
  end.

Definition pointer_text (sha : string) (cut : json) : res string :=
  canonical_json (JObj [("sha256", JStr sha); ("fit_cutoff", cut)]).

(** [a <= b] between loaded cutoffs. *)
Definition cutoff_le (a b : json) : res bool :=
  match num_of a, num_of b with Some x, Some y => Ok (negb (num_lt y x)) | _, _ => Raise PyTypeError end.

(** What [promote] writes, in order, and its answer. *)
Definition promotion (fs : directory) (binding : Binding) (data : string) (ks : KernelSettings)
    : res (list (string * string) * (json * bool)) :=
  let sha := sha256_hex data in
  fit ← decode data sha binding ks (2 ^ 62) (2 ^ 62);
  cur ← current fs binding;
  kept ← match cur with
         | None => Ok None
         | Some c => le ← cutoff_le (lf_cutoff fit) c.1.2; Ok (if le : bool then Some c.1.1 else None)
         end;
  match kept with
  | Some sha' => Ok ([], (sha', false))
  | None =>
      key ← binding_key binding;
      ptr ← pointer_text sha (lf_cutoff fit);
      Ok ([(zip_name sha, data); (ptr_name key, ptr)], (JStr sha, true))
  end.

Definition write_all (fs : directory) (ws : list (string * string)) : directory := foldl (λ fs w, dset w.1 w.2 fs) fs ws.

Definition promote (binding : Binding) (data : string) (ks : KernelSettings) : SE directory (json * bool) :=
  λ fs, match promotion fs binding data ks with
        | Ok (ws, r) => (Ok r, write_all fs ws)
        | Raise e => (Raise e, fs)
        end.

Definition load_snapshot (fs : directory) (binding : Binding) (ks : KernelSettings) (input_end : Z)
    : res (option (json * LoadedFit)) :=
  cur ← current fs binding;
  match cur with
  | None => Ok None
  | Some (sha, _, data) =>
      fit ← decode data (match sha with JStr s => s | _ => EmptyString end) binding ks input_end MAX_FIT_AGE_SECONDS;
      Ok (Some (sha, fit))
  end.

Definition load (fs : directory) (binding : Binding) (ks : KernelSettings) (input_end : Z) : res (option LoadedFit) :=
  match load_snapshot fs binding ks input_end with Ok s => Ok (option_map snd s) | Raise e => Raise e end.
End artifacts.
