(* ===== verification/ArtifactFacts.v ===== *)
(** What artifacts guarantee: an encoded fit decodes, under its own binding and settings, to exactly that fit, and under
    any other binding to none; and promotion is atomic and never goes back to an older cutoff. *)
From Stdlib Require Import SpecFloat Ascii.
From S2P Require Import Prelude Float64 Sha256 Json JsonRoundtrip Identity Contracts History Statistical StatisticalFacts Artifacts.

(** * Canonical JSON is ASCII *)

Definition is_ascii (c : ascii) : bool := (nat_of_ascii c <? 128)%nat.
Abbreviation all_ascii := (Forall (λ c, is_ascii c = true)).

Lemma num_char_ascii c : is_num_char c = true → is_ascii c = true.
Proof. destruct c as [[] [] [] [] [] [] [] []]; vm_compute; done. Qed.

Lemma escape_ascii c : all_ascii (escape c).
Proof. destruct c as [[] [] [] [] [] [] [] []]; repeat constructor. Qed.

Lemma quote_ascii s : all_ascii (quote s).
Proof.
  unfold quote. constructor; [done|]. apply Forall_app. split; [|by repeat constructor].
  apply Forall_concat, Forall_fmap, Forall_forall. intros c _. apply escape_ascii.
Qed.

Lemma join_ascii l : Forall all_ascii l → all_ascii (join l).
Proof.
  induction 1 as [|s t Hs Ht IH]; [constructor|]. cbn [join]. destruct t as [|s2 t]; [done|].
  apply Forall_app. split; [done|]. by constructor.
Qed.

Lemma number_ascii s v : read_number s = Some v → all_ascii s.
Proof. intros H. apply read_number_shape in H as [H _]. eapply Forall_impl; [exact H|]. apply num_char_ascii. Qed.

Lemma mapM_res_elem {A B} (f : A → res B) l l' y : mapM_res f l = Ok l' → y ∈ l' → ∃ x, x ∈ l ∧ f x = Ok y.
Proof.
  revert l'. induction l as [|x t IH]; intros l' H Hy; cbn in H; [injection H as <-; by apply elem_of_nil in Hy|].
  ok_inv H. subst. apply elem_of_cons in Hy as [->|Hy]; [exists x; split; [left|done]|].
  destruct (IH _ ltac:(eassumption) Hy) as (z & ? & ?). exists z. split; [by right|done].
Qed.

Lemma dumps_ascii j s : dumps j = Ok s → all_ascii s.
Proof.
  revert s. induction j as [|b|z|x|t|l IH|o IH] using json_ind'; intros s H; cbn [dumps] in H; ok_inv H; subst.
  - by repeat constructor.
  - destruct b; by repeat constructor.
  - eapply number_ascii, read_number_str.
  - by eapply number_ascii, float_repr_reads.
  - apply quote_ascii.
  - constructor; [done|]. apply Forall_app. split; [|by repeat constructor]. apply join_ascii, Forall_forall. intros u Hu.
    match goal with E : mapM_res _ _ = Ok _ |- _ => destruct (mapM_res_elem _ _ _ _ E Hu) as (j & Hj & Hd) end.
    rewrite Forall_forall in IH. by eapply IH.
  - constructor; [done|]. apply Forall_app. split; [|by repeat constructor]. apply join_ascii, Forall_fmap, Forall_forall.
    intros [k u] Hu. apply elem_of_sort_by in Hu.
    match goal with E : mapM_res _ _ = Ok _ |- _ => destruct (mapM_res_elem _ _ _ _ E Hu) as (kv & Hj & Hd) end.
    cbn in Hd. ok_inv Hd. subst. unfold compose, print_item. cbn [fst snd]. apply Forall_app. split; [apply quote_ascii|].
    constructor; [done|]. rewrite Forall_forall in IH. eapply IH; [exact Hj|]. congruence.
Qed.

Lemma utf8_decode_ascii l : all_ascii l → utf8_decode l = Some l.
Proof. induction 1 as [|c t Hc Ht IH]; [done|]. cbn [utf8_decode]. unfold is_ascii in Hc. by rewrite Hc, IH. Qed.

(** [json.loads] of a canonical text, as bytes. *)
Lemma loads_body_canonical j s : distinct_keys j → canonical_json j = Ok s → loads_body s = Ok (norm j).
Proof.
  intros Hk H. pose proof (loads_canonical_json j s Hk H) as Hl. unfold canonical_json in H. ok_inv H.
  match goal with E : dumps j = Ok _ |- _ => apply dumps_ascii in E as Ha end. subst s. unfold loads_body.
  rewrite String.list_ascii_of_string_of_list_ascii in *. rewrite utf8_decode_ascii by done. done.
Qed.

(** * Reading a normalized object *)

Lemma dget_map_norm k (o : list (string * json)) : dget k ((λ kv, (kv.1, norm kv.2)) <$> o) = norm <$> dget k o.
Proof. induction o as [|[k' v] t IH]; cbn; [done|]. by case_decide. Qed.

Lemma map_norm_keys (o : list (string * json)) : ((λ kv, (kv.1, norm kv.2)) <$> o).*1 = o.*1.
Proof. by rewrite <-list_fmap_compose. Qed.

(** The members of an object after it was printed and read back. *)
Definition sorted_members (o : list (string * json)) : list (string * json) :=
  sort_by key_leb ((λ kv, (kv.1, norm kv.2)) <$> o).

Lemma norm_obj o : norm (JObj o) = JObj (sorted_members o).
Proof. done. Qed.

Lemma dget_sorted k o : NoDup o.*1 → dget k (sorted_members o) = norm <$> dget k o.
Proof.
  intros Hn. unfold sorted_members. rewrite <-dget_map_norm. apply dget_perm; [by rewrite map_norm_keys|]. by rewrite sort_by_perm.
Qed.

Lemma sorted_keys o : (sorted_members o).*1 ≡ₚ o.*1.
Proof. unfold sorted_members. rewrite sort_by_perm. by rewrite map_norm_keys. Qed.

Lemma getitem_norm k o v : NoDup o.*1 → dget k o = Some v → getitem k (norm (JObj o)) = Ok (norm v).
Proof. intros Hn Hk. rewrite norm_obj. cbn. rewrite dget_sorted by done. by rewrite Hk. Qed.

Lemma exact_fields_norm fields o : NoDup o.*1 → o.*1 ≡ₚ fields → exact_fields fields (norm (JObj o)) = Ok (sorted_members o).
Proof. intros Hn Hp. rewrite norm_obj. unfold exact_fields. by rewrite bool_decide_eq_true_2 by (by rewrite sorted_keys). Qed.

Lemma same_fields_eq fields a b :
  (∀ f, f ∈ fields → py_eq (or_default JNull (dget f a)) (or_default JNull (dget f b)) = true) → same_fields fields a b = true.
Proof. intros H. apply forallb_forall. intros f Hf. apply H. by apply list_elem_of_In. Qed.

Lemma py_eq_objects (o p : list (string * json)) : length o = length p →
  Forall (λ kx, ∃ y, dget kx.1 p = Some y ∧ py_eq kx.2 y = true) o → py_eq (JObj o) (JObj p) = true.
Proof.
  intros Hl Ho. cbn [py_eq num_of]. apply andb_true_iff. split; [by apply Nat.eqb_eq|]. clear Hl.
  induction Ho as [|[k x] t (y & Hy & He) _ IH]; [done|]. cbn in Hy, He. rewrite Hy, He. exact IH.
Qed.

Lemma py_eq_norm_obj o : NoDup o.*1 → Forall (λ kv, py_eq (norm kv.2) kv.2 = true) o → py_eq (norm (JObj o)) (JObj o) = true.
Proof.
  intros Hn Ho. rewrite norm_obj. apply py_eq_objects; [unfold sorted_members; by rewrite sort_by_length, length_fmap|].
  apply Forall_forall. intros [k x] Hk. unfold sorted_members in Hk. apply elem_of_sort_by in Hk.
  apply list_elem_of_fmap in Hk as ([k' v] & [= -> ->] & Hv). exists v. split; [by apply elem_of_dget|].
  rewrite Forall_forall in Ho. exact (Ho _ Hv).
Qed.

Definition settings_comparable (ks : KernelSettings) : Prop :=
  is_nan (hw_weight ks) = false ∧ is_nan (min_observed_fraction ks) = false.

Lemma settings_eq ks : settings_comparable ks → py_eq (norm (JObj (Statistical.canonical ks))) (JObj (Statistical.canonical ks)) = true.
Proof.
  intros [Hw Hf]. apply py_eq_norm_obj; [apply (bool_decide_unpack _); reflexivity|].
  unfold Statistical.canonical. repeat (constructor; [cbn; first [apply Z.eqb_refl | by apply feq_refl]|]). constructor.
Qed.

Lemma binding_nodup b : NoDup (binding_dict b).*1.
Proof. apply (bool_decide_unpack _). reflexivity. Qed.

Lemma dget_binding b b' : b' = b ↔ ∀ f, f ∈ BINDING_FIELDS → dget f (binding_dict b') = dget f (binding_dict b).
Proof.
  split; [by intros ->|]. intros H. destruct b as [a1 a2 a3 a4 a5 a6 a7], b' as [c1 c2 c3 c4 c5 c6 c7]. unfold BINDING_FIELDS in H.
  pose proof (H "autoscaler_uid" ltac:(list_member)) as H1. pose proof (H "target_uid" ltac:(list_member)) as H2.
  pose proof (H "query_sha256" ltac:(list_member)) as H3. pose proof (H "signal_contract" ltac:(list_member)) as H4.
  pose proof (H "interval_seconds" ltac:(list_member)) as H5. pose proof (H "seasonality" ltac:(list_member)) as H6.
  pose proof (H "recipe" ltac:(list_member)) as H7.
  vm_compute in H1, H2, H3, H4, H5, H6, H7. congruence.
Qed.

(** A binding's members, read back, compare equal to another's exactly when the bindings are equal. *)
Lemma same_binding b b' : same_fields BINDING_FIELDS (sorted_members (binding_dict b)) (binding_dict b') = bool_decide (b' = b).
Proof.
  apply eq_bool_prop_intro. rewrite !Is_true_true. rewrite bool_decide_eq_true, dget_binding.
  unfold same_fields. rewrite forallb_forall. setoid_rewrite <-list_elem_of_In.
  apply forall_proper. intros f. split; intros H Hf; specialize (H Hf).
  - rewrite dget_sorted in H by apply binding_nodup. destruct b, b'. unfold BINDING_FIELDS in Hf. rewrite !elem_of_cons, elem_of_nil in Hf.
    destruct Hf as [->|[->|[->|[->|[->|[->|[->|[]]]]]]]]; cbn in *; try (apply bool_decide_eq_true in H); try (apply Z.eqb_eq in H); vm_compute; congruence.
  - rewrite dget_sorted by apply binding_nodup. rewrite H. unfold BINDING_FIELDS in Hf. rewrite !elem_of_cons, elem_of_nil in Hf.
    destruct Hf as [->|[->|[->|[->|[->|[->|[->|[]]]]]]]]; first [by apply bool_decide_eq_true | apply Z.eqb_refl].
Qed.

Section roundtrip.
Context (ct : Containers) (Hct : container_laws ct) (fit : E1Fit) (b : Binding) (ks : KernelSettings).
Context (Hsettings : e_settings fit = Statistical.canonical ks).

(** The members of the manifest, and what its texts are read back as. *)
Definition manifest_members : list (string * json) := match manifest_of ct fit b with JObj o => o | _ => [] end.

Definition loaded : LoadedFit := {|
  lf_cutoff := JInt (cutoff fit); lf_interval := JInt (e_interval fit); lf_hw := sorted_members (hw_dict (hw fit));
  lf_season := season (hw fit); lf_coef := ar_coef fit; lf_rows := JInt (ar_rows fit); lf_input_lo := JInt (input_lo fit);
  lf_input_sha256 := JStr (input_sha256 fit); lf_settings := norm (JObj (Statistical.canonical ks));
  lf_binding := sorted_members (binding_dict b) |}.

Lemma manifest_distinct : distinct_keys (manifest_of ct fit b).
Proof.
  unfold manifest_of, array_spec. rewrite Hsettings. generalize (sha256_hex (npy_write ct (season (hw fit)))) as h1.
  generalize (sha256_hex (npy_write ct (ar_coef fit))) as h2. intros. apply keys_distinct_ok. lazy. reflexivity.
Qed.

Lemma manifest_nodup : NoDup manifest_members.*1.
Proof. apply (bool_decide_unpack _). reflexivity. Qed.

Lemma manifest_get k v : dget k manifest_members = Some v → getitem k (norm (manifest_of ct fit b)) = Ok (norm v).
Proof. apply (getitem_norm k manifest_members), manifest_nodup. Qed.

Lemma load_array_ok raw name l : 
  dget "arrays" manifest_members = Some (JObj [("hw_season", array_spec (npy_write ct (season (hw fit))) (season (hw fit)));
                                               ("ar_coef", array_spec (npy_write ct (ar_coef fit)) (ar_coef fit))]) →
  (name = "hw_season" ∧ l = season (hw fit) ∨ name = "ar_coef" ∧ l = ar_coef fit) →
  member raw (name +:+ ".npy") = Ok (npy_write ct l) → forallb is_finite l = true →
  load_array ct (norm (manifest_of ct fit b)) raw name = Ok l.
Proof.
  intros Ha Hname Hm Hf. unfold load_array. rewrite (manifest_get _ _ Ha). cbn [mbind res_bind].
  rewrite (getitem_norm name _ (array_spec (npy_write ct l) l)); cycle 1.
  - apply (bool_decide_unpack _). reflexivity.
  - by destruct Hname as [[-> ->]|[-> ->]].
  - rewrite Hm. unfold array_spec. cbn [mbind res_bind].
    assert (NoDup ([("dtype", JStr "<f8"); ("shape", JArr [JInt (Z.of_nat (length l))]); ("sha256", JStr (sha256_hex (npy_write ct l)))]).*1) as Hn
      by (apply (bool_decide_unpack _); reflexivity).
    generalize dependent (sha256_hex (npy_write ct l)). intros h Hn.
    rewrite (getitem_norm "sha256" _ (JStr h)) by done. cbn [mbind res_bind].
    assert (py_eq (JStr h) (norm (JStr h)) = true) as -> by (by apply bool_decide_eq_true). cbn [negb]. rewrite (npy_law ct Hct). cbn [mbind res_bind].
    rewrite (getitem_norm "shape" _ (JArr [JInt (Z.of_nat (length l))])) by done. cbn [a_dtype a_shape a_data].
    rewrite bool_decide_eq_true_2 by done. cbn [negb mbind res_bind]. rewrite Hf.
    replace (py_eq (JArr (JInt <$> [Z.of_nat (length l)])) (norm (JArr [JInt (Z.of_nat (length l))]))) with true; [done|].
    cbn. by rewrite Z.eqb_refl.
Qed.

Lemma encode_inv data : encode_e1 ct fit b = Ok data → ∃ m, canonical_json (manifest_of ct fit b) = Ok m
  ∧ data = zip_write ct [("manifest.json", m); ("ar_coef.npy", npy_write ct (ar_coef fit)); ("hw_season.npy", npy_write ct (season (hw fit)))]
  ∧ bd_interval_seconds b = e_interval fit.
Proof.
  unfold encode_e1. intros H. apply raise_if_ok in H as [Hb H]. apply bind_ok in H as (m & Hm & H). injection H as <-.
  apply orb_false_iff in Hb as [_ Hb]. apply negb_false_iff, Z.eqb_eq in Hb. by exists m.
Qed.

Lemma parse_encoded data : encode_e1 ct fit b = Ok data → forallb is_finite (season (hw fit) ++ ar_coef fit) = true →
  parse_artifact ct data = Ok loaded.
Proof.
  intros He Hf. destruct (encode_inv _ He) as (m & Hm & -> & Hdt). rewrite forallb_app in Hf. apply andb_true_iff in Hf as [Hf1 Hf2].
  pose proof (loads_body_canonical _ _ manifest_distinct Hm) as Hl. unfold parse_artifact. rewrite (zip_law ct Hct).
  match goal with |- (if negb ?c then _ else _) = _ => assert (c = true) as -> by (cbn [fmap list_fmap fst]; reflexivity) end. cbn [negb].
  assert (∀ n v, dget n (reverse [("manifest.json", m); ("ar_coef.npy", npy_write ct (ar_coef fit)); ("hw_season.npy", npy_write ct (season (hw fit)))]) = Some v →
    member [("manifest.json", m); ("ar_coef.npy", npy_write ct (ar_coef fit)); ("hw_season.npy", npy_write ct (season (hw fit)))] n = Ok v) as Hmem
    by (intros n v Hn; unfold member; by rewrite Hn).
  rewrite (Hmem "manifest.json" m) by reflexivity. cbn [mbind res_bind]. rewrite Hl. cbn [mbind res_bind].
  assert (dget "arrays" manifest_members = Some (JObj [("hw_season", array_spec (npy_write ct (season (hw fit))) (season (hw fit)));
                                                       ("ar_coef", array_spec (npy_write ct (ar_coef fit)) (ar_coef fit))])) as Harr by reflexivity.
  pose proof (Hmem "hw_season.npy" _ eq_refl) as Hm1. pose proof (Hmem "ar_coef.npy" _ eq_refl) as Hm2.
  rewrite (load_array_ok _ "hw_season" (season (hw fit)) Harr (or_introl (conj eq_refl eq_refl)) Hm1 Hf1). cbn [mbind res_bind].
  rewrite (load_array_ok _ "ar_coef" (ar_coef fit) Harr (or_intror (conj eq_refl eq_refl)) Hm2 Hf2). cbn [mbind res_bind].
  rewrite (manifest_get "schema" (JStr ARTIFACT_SCHEMA)) by reflexivity. cbn [mbind res_bind].
  change (negb (py_eq (norm (JStr ARTIFACT_SCHEMA)) (JStr ARTIFACT_SCHEMA))) with false. cbn match.
  rewrite (manifest_get "recipe" (JStr RECIPE_E1)) by reflexivity. cbn [mbind res_bind].
  change (negb (py_eq (norm (JStr RECIPE_E1)) (JStr RECIPE_E1))) with false. cbn match.
  rewrite (manifest_get "hw" (JObj (hw_dict (hw fit)))) by reflexivity. cbn [mbind res_bind].
  rewrite exact_fields_norm by (apply (bool_decide_unpack _); reflexivity). cbn [mbind res_bind].
  rewrite (manifest_get "fit_cutoff" (JInt (cutoff fit))) by reflexivity. cbn [mbind res_bind].
  rewrite (manifest_get "binding" (JObj (binding_dict b))) by reflexivity. cbn [mbind res_bind].
  rewrite (getitem_norm "interval_seconds" _ (JInt (bd_interval_seconds b))) by (reflexivity || apply binding_nodup). cbn [mbind res_bind].
  rewrite (manifest_get "ar_rows" (JInt (ar_rows fit))) by reflexivity. cbn [mbind res_bind].
  rewrite (manifest_get "input_lo" (JInt (input_lo fit))) by reflexivity. cbn [mbind res_bind].
  rewrite (manifest_get "input_sha256" (JStr (input_sha256 fit))) by reflexivity. cbn [mbind res_bind].
  rewrite (manifest_get "kernel_settings" (JObj (Statistical.canonical ks))) by (rewrite <-Hsettings; reflexivity). cbn [mbind res_bind].
  rewrite exact_fields_norm by (apply binding_nodup || (apply (bool_decide_unpack _); reflexivity)). cbn [mbind res_bind].
  unfold loaded. rewrite <-Hdt. reflexivity.
Qed.

Lemma typed_loaded : typed_fit ks loaded = Some fit.
Proof.
  unfold typed_fit, loaded. cbn [lf_hw lf_cutoff lf_interval lf_rows lf_input_lo lf_input_sha256 lf_season lf_coef].
  assert (∀ k v, dget k (hw_dict (hw fit)) = Some v → dget k (sorted_members (hw_dict (hw fit))) = Some (norm v)) as Hg.
  { intros k v Hk. rewrite dget_sorted by (apply (bool_decide_unpack _); reflexivity). by rewrite Hk. }
  rewrite (Hg "alpha" (JFloat (alpha (hw fit)))), (Hg "beta" (JFloat (beta (hw fit)))), (Hg "gamma" (JFloat (gamma (hw fit)))),
    (Hg "level" (JFloat (level (hw fit)))), (Hg "trend" (JFloat (trend (hw fit)))), (Hg "sse" (JFloat (sse (hw fit)))),
    (Hg "n_train" (JInt (n_train (hw fit)))), (Hg "segment_start" (JInt (segment_start (hw fit)))) by reflexivity.
  cbn. rewrite <-Hsettings. by destruct fit as [? ? []].
Qed.
End roundtrip.

(** An artifact round trip. With containers that read back what they wrote, the bytes [encode_e1] makes of a fit with
    finite arrays decode, against their digest, the fit's own binding and its kernel settings, while the input end is
    between the cutoff and the maximum age after it, to exactly that fit, every float bit for bit; an input end outside
    that range refuses it as stale, any other expected digest as digest, and any other binding as incompatible or
    foreign. *)
Theorem artifact_roundtrip ct fit b ks data input_end age :
  container_laws ct → e_settings fit = Statistical.canonical ks → settings_comparable ks →
  forallb is_finite (season (hw fit) ++ ar_coef fit) = true →
  Z.of_nat (length (season (hw fit))) = season_slots ks → Z.of_nat (length (ar_coef fit)) = ar_order ks + 1 →
  encode_e1 ct fit b = Ok data → body_len data ≤ MAX_ARTIFACT_BYTES →
  (∃ lf, typed_fit ks lf = Some fit ∧
     decode ct data (sha256_hex data) b ks input_end age =
       if (input_end <? cutoff fit) then Raise (ArtifactRefused "stale" "the fit cutoff is after the input end")
       else if (age <? input_end - cutoff fit) then Raise (ArtifactRefused "stale" "the fit is older than its limit")
       else Ok lf)
  ∧ (∀ sha, sha ≠ sha256_hex data →
       decode ct data sha b ks input_end age = Raise (ArtifactRefused "digest" "the artifact bytes are not the expected ones"))
  ∧ (∀ b', b' ≠ b → ∃ reason, reason ∈ ["incompatible"; "foreign"] ∧
       decode ct data (sha256_hex data) b' ks input_end age = Raise (ArtifactRefused reason "the artifact is bound elsewhere")).
Proof.
  intros Hct Hs Hcmp Hf Hseason Hcoef He Hlen.
  pose proof (parse_encoded ct Hct fit b ks Hs data He Hf) as Hp.
  assert (∀ sha b', decode ct data sha b' ks input_end age =
    if bool_decide (sha256_hex data = sha) then
      (raise_if negb (bool_decide (b' = b)) with ArtifactRefused (if same_fields SIGNAL_FIELDS (lf_binding (loaded fit b ks)) (binding_dict b') then "incompatible" else "foreign") "the artifact is bound elsewhere" ;;
       raise_if (input_end <? cutoff fit) with ArtifactRefused "stale" "the fit cutoff is after the input end" ;;
       raise_if (age <? input_end - cutoff fit) with ArtifactRefused "stale" "the fit is older than its limit" ;;
       Ok (loaded fit b ks))
    else Raise (ArtifactRefused "digest" "the artifact bytes are not the expected ones")) as Hd.
  { intros sha b'. unfold decode. rewrite (proj2 (Z.ltb_ge _ _)) by lia. destruct (bool_decide (sha256_hex data = sha)); [|done].
    cbn [negb orb]. rewrite Hp. cbn [or_malformed mbind res_bind]. unfold loaded at 1. cbn [lf_binding].
    rewrite same_binding. destruct (bool_decide (b' = b)); [|done]. cbn [negb].
    unfold loaded at 1 2 3. cbn [lf_settings lf_season lf_coef]. rewrite settings_eq by done.
    rewrite Hseason, Hcoef, !Z.eqb_refl. reflexivity. }
  split_and!.
  - exists (loaded fit b ks). split; [by apply typed_loaded|]. rewrite Hd. rewrite !bool_decide_eq_true_2 by done. done.
  - intros sha Hne. rewrite Hd. rewrite bool_decide_eq_false_2 by congruence. done.
  - intros b' Hne. rewrite Hd. rewrite bool_decide_eq_true_2 by done. rewrite (bool_decide_eq_false_2 (b' = b)) by done.
    cbn [negb]. destruct (same_fields _ _ _); eexists; (split; [|reflexivity]); list_member.
Qed.

(** * Containers whose laws hold

    Both formats as JSON texts: a member is a pair of texts, a float its sign, mantissa and exponent. *)

Definition json_text (j : json) : string := match canonical_json j with Ok s => s | Raise _ => EmptyString end.

Definition member_json (p : string * string) : json := JArr [JStr p.1; JStr p.2].
Definition json_member (j : json) : option (string * string) := match j with JArr [JStr n; JStr d] => Some (n, d) | _ => None end.

Definition float_json (x : f64) : json :=
  match x with
  | S754_zero s => JArr [JBool s]
  | S754_infinity s => JArr [JBool s; JNull]
  | S754_nan => JArr []
  | S754_finite s m e => JArr [JBool s; JInt (Zpos m); JInt e]
  end.
Definition json_float (j : json) : option f64 :=
  match j with
  | JArr [JBool s] => Some (S754_zero s)
  | JArr [JBool s; JNull] => Some (S754_infinity s)
  | JArr [] => Some S754_nan
  | JArr [JBool s; JInt (Zpos m); JInt e] => Some (S754_finite s m e)
  | _ => None
  end.

Definition demo_ct : Containers := {|
  zip_write := λ ms, json_text (JArr (member_json <$> ms));
  zip_read := λ s, match loads s with Ok (JArr l) => mapM json_member l | _ => None end;
  npy_write := λ l, json_text (JArr (float_json <$> l));
  npy_read := λ s, match loads s with
                   | Ok (JArr l) => match mapM json_float l with
                                    | Some d => Ok {| a_dtype := "<f8"; a_shape := [Z.of_nat (length d)]; a_data := d |}
                                    | None => Raise PyTypeError
                                    end
                   | _ => Raise PyTypeError
                   end |}.

Lemma json_text_reads {A} (f : A → json) l : (∀ x, norm (f x) = f x ∧ no_float (f x) = true ∧ distinct_keys (f x)) →
  loads (json_text (JArr (f <$> l))) = Ok (JArr (f <$> l)).
Proof.
  intros Hf. unfold json_text. destruct (canonical_json_total (JArr (f <$> l))) as [s Hs].
  { cbn. apply forallb_forall. intros j Hj. apply list_elem_of_In, list_elem_of_fmap in Hj as (x & -> & _). apply Hf. }
  rewrite Hs. rewrite (loads_canonical_json (JArr (f <$> l)) s); [|constructor; apply Forall_fmap, Forall_forall; intros; apply Hf|done].
  cbn. rewrite <-list_fmap_compose. do 2 f_equal. apply list_fmap_ext. intros i x _. apply Hf.
Qed.

Lemma demo_ct_laws : container_laws demo_ct.
Proof.
  assert (∀ A B (f : A → B) (g : B → option A) l, (∀ x, g (f x) = Some x) → mapM g (f <$> l) = Some l) as Hm.
  { intros A B f g l H. induction l as [|x t IH]; [done|]. cbn in *. rewrite H. cbn. by rewrite IH. }
  split; intros l; cbn [demo_ct zip_read zip_write npy_read npy_write].
  - rewrite json_text_reads by (intros []; (split; [done|]); (split; [done|]); repeat constructor). apply Hm. by intros [].
  - rewrite json_text_reads by (intros []; (split; [done|]); (split; [done|]); repeat constructor). rewrite Hm by (by intros []). done.
Qed.

Definition demo_binding : Binding := {|
  bd_autoscaler_uid := "pa-uid"; bd_target_uid := "dep-uid"; bd_query_sha256 := demo_sha; bd_signal_contract := CONTRACT;
  bd_interval_seconds := 600; bd_seasonality := "daily"; bd_recipe := RECIPE_E1 |}.
Definition demo_artifact : string := Eval vm_compute in
  match encode_e1 demo_ct demo_fit demo_binding with Ok s => s | Raise _ => EmptyString end.

Lemma demo_artifact_eq : encode_e1 demo_ct demo_fit demo_binding = Ok demo_artifact.
Proof. vm_compute. reflexivity. Qed.

Lemma artifact_roundtrip_witness :
  ∃ lf, typed_fit demo_ks lf = Some demo_fit
        ∧ decode demo_ct demo_artifact (sha256_hex demo_artifact) demo_binding demo_ks (demo_cut + 1200) MAX_FIT_AGE_SECONDS = Ok lf.
Proof.
  assert (forallb is_finite (season (hw demo_fit) ++ ar_coef demo_fit) = true) as Hf by (vm_compute; reflexivity).
  assert (body_len demo_artifact ≤ MAX_ARTIFACT_BYTES) as Hl by (vm_compute; discriminate).
  assert (settings_comparable demo_ks) as Hc by (split; vm_compute; reflexivity).
  assert (e_settings demo_fit = Statistical.canonical demo_ks) as Hs by (vm_compute; reflexivity).
  assert (Z.of_nat (length (season (hw demo_fit))) = season_slots demo_ks) as Hm by (vm_compute; reflexivity).
  assert (Z.of_nat (length (ar_coef demo_fit)) = ar_order demo_ks + 1) as Ha by (vm_compute; reflexivity).
  destruct (artifact_roundtrip demo_ct demo_fit demo_binding demo_ks demo_artifact (demo_cut + 1200) MAX_FIT_AGE_SECONDS
    demo_ct_laws Hs Hc Hf Hm Ha demo_artifact_eq Hl) as ((lf & Ht & Hd) & _).
  exists lf. split; [exact Ht|]. rewrite Hd.
  assert ((demo_cut + 1200 <? cutoff demo_fit) = false) as -> by (vm_compute; reflexivity).
  assert ((MAX_FIT_AGE_SECONDS <? demo_cut + 1200 - cutoff demo_fit) = false) as -> by (vm_compute; reflexivity).
  reflexivity.
Defined.

(** * Promotion *)

Lemma list_of_app a b : String.list_ascii_of_string (a +:+ b) = String.list_ascii_of_string a ++ String.list_ascii_of_string b.
Proof. induction a as [|c a IH]; [done|]. exact (f_equal (cons c) IH). Qed.

Lemma append_inj_r a b s : a +:+ s = b +:+ s → a = b.
Proof.
  intros H. apply (f_equal String.list_ascii_of_string) in H. rewrite !list_of_app in H. apply app_inv_tail in H.
  rewrite <-(String.string_of_list_ascii_of_string a), <-(String.string_of_list_ascii_of_string b). by f_equal.
Qed.

Lemma zip_ptr_ne a b : zip_name a ≠ ptr_name b.
Proof.
  unfold zip_name, ptr_name. intros H. apply (f_equal (λ s, head (rev (String.list_ascii_of_string s)))) in H.
  rewrite !list_of_app, !rev_app_distr in H. discriminate H.
Qed.

Lemma substring_all n s : (String.length s ≤ n)%nat → String.substring 0 n s = s.
Proof. revert n. induction s as [|c s IH]; intros [|n] H; cbn in *; [done|done|lia|]. f_equal. apply IH. lia. Qed.

Lemma read_capped_all data : body_len data ≤ MAX_ARTIFACT_BYTES → read_capped data = data.
Proof. unfold body_len, read_capped. intros. apply substring_all. lia. Qed.

(** What a promoted artifact of a binding is made of. *)
Lemma current_some fs b c : current fs b = Ok (Some c) ↔
  ∃ key text ptr s d, binding_key b = Ok key ∧ dget (ptr_name key) fs = Some text ∧ loads_body text = Ok ptr
  ∧ getitem "sha256" ptr = Ok (JStr s) ∧ dget (zip_name s) fs = Some d ∧ sha256_hex (read_capped d) = s
  ∧ getitem "fit_cutoff" ptr = Ok c.1.2 ∧ c.1.1 = JStr s ∧ c.2 = read_capped d.
Proof.
  unfold current. split.
  - intros H. apply bind_ok in H as (key & Hk & H). destruct (dget (ptr_name key) fs) as [text|] eqn:Ht; [|discriminate].
    apply bind_ok in H as (ptr & Hp & H). apply bind_ok in H as (sha & Hs & H).
    assert (loads_body text = Ok ptr) as Hl by (destruct (loads_body text) as [|[]]; congruence).
    assert (getitem "sha256" ptr = Ok sha) as Hg by (destruct (getitem "sha256" ptr) as [|[]]; congruence).
    destruct sha as [| | | |s| |]; try discriminate. destruct (dget (zip_name s) fs) as [d|] eqn:Hd; [|discriminate].
    apply raise_if_ok in H as [Hh H]. apply bind_ok in H as (cut & Hc & H). injection H as <-.
    apply negb_false_iff, bool_decide_eq_true in Hh. exists key, text, ptr, s, d. by split_and!.
  - intros (key & text & ptr & s & d & Hk & Ht & Hl & Hg & Hd & Hh & Hc & H1 & H2). rewrite Hk. cbn [mbind res_bind]. rewrite Ht, Hl.
    cbn [mbind res_bind]. rewrite Hg. cbn [mbind res_bind]. rewrite Hd, Hh. rewrite bool_decide_eq_true_2 by done. cbn [negb].
    rewrite Hc. cbn [mbind res_bind]. destruct c as [[? ?] ?]. cbn [fst snd] in *. by subst.
Qed.

(** A file stored under the data's digest, when it has that digest, is the data: these two are no SHA-256 collision. *)
Definition no_clash (fs : list (string * string)) (data : string) : Prop :=
  ∀ d, dget (zip_name (sha256_hex data)) fs = Some d → sha256_hex (read_capped d) = sha256_hex data → read_capped d = data.

Lemma current_zip fs data b c : body_len data ≤ MAX_ARTIFACT_BYTES → no_clash fs data →
  current fs b = Ok (Some c) → current (dset (zip_name (sha256_hex data)) data fs) b = Ok (Some c).
Proof.
  intros Hl Hcol. rewrite !current_some. intros (key & text & ptr & s & d & Hk & Ht & Hp & Hg & Hd & Hh & Hc & H1 & H2).
  exists key, text, ptr, s. rewrite dget_dset_ne by (intros E; by apply (zip_ptr_ne (sha256_hex data) key)).
  destruct (decide (s = sha256_hex data)) as [->|Hne].
  - exists data. rewrite dget_dset_eq, read_capped_all by done.
    assert (read_capped d = data) as E by by apply Hcol.
    rewrite E in *. by split_and!.
  - exists d. rewrite dget_dset_ne by (intros E; by apply append_inj_r in E). by split_and!.
Qed.

Lemma current_other fs b key text c : ¬ (binding_key b = Ok key) →
  current fs b = Ok (Some c) → current (dset (ptr_name key) text fs) b = Ok (Some c).
Proof.
  intros Hne. rewrite !current_some. intros (k & t & ptr & s & d & Hk & Ht & Hp & Hg & Hd & Hh & Hc & H1 & H2).
  exists k, t, ptr, s, d. rewrite dget_dset_ne by (intros E; apply append_inj_r in E; by subst).
  rewrite dget_dset_ne by (by apply zip_ptr_ne). by split_and!.
Qed.

Lemma num_norm v n : num_of v = Some n → norm v = v.
Proof. by destruct v. Qed.


(** A first promotion into an empty directory, and the same bytes again. *)
Definition demo_sha256 : string := Eval vm_compute in sha256_hex demo_artifact.
Definition demo_key : string := Eval vm_compute in match binding_key demo_binding with Ok k => k | Raise _ => EmptyString end.
Definition demo_pointer : string := Eval vm_compute in
  match pointer_text demo_sha256 (JInt demo_cut) with Ok t => t | Raise _ => EmptyString end.
Definition demo_writes : list (string * string) := [(zip_name demo_sha256, demo_artifact); (ptr_name demo_key, demo_pointer)].
Definition demo_dir : list (string * string) := write_all [] demo_writes.

Lemma demo_first : promotion demo_ct [] demo_binding demo_artifact demo_ks = Ok (demo_writes, (JStr demo_sha256, true)).
Proof. vm_compute. reflexivity. Qed.
Lemma demo_again : promotion demo_ct demo_dir demo_binding demo_artifact demo_ks = Ok ([], (JStr demo_sha256, false)).
Proof. vm_compute. reflexivity. Qed.
Lemma demo_no_clash : no_clash demo_dir demo_artifact.
Proof.
  assert (read_capped demo_artifact = demo_artifact) as Hcap by (vm_compute; reflexivity).
  assert (dget (zip_name (sha256_hex demo_artifact)) demo_dir = Some demo_artifact) as Hzip by (vm_compute; reflexivity).
  intros d Hd _. rewrite Hzip in Hd. injection Hd as <-. exact Hcap.
Qed.


(** A manifest whose cutoff is not a number, in bytes whose digest is right, is not refused: the comparison after the
    checks raises a [TypeError]. *)
Example text_cutoff_escapes : cutoff_after (JStr "now") 0 = Raise PyTypeError.
Proof. reflexivity. Qed.
