(* ===== verification/Worker.v ===== *)
(** [forecasting/worker.py]: the bounded fit worker as a state machine. A step is what one thread does while it holds the
    worker's lock, or one return from outside: a submit, a worker thread taking a ticket, starting its process, seeing it
    exit, publishing, recording the result, and the two halves of [close]. The fit process is outside: the only thing
    known of it is the outcome the parent sees once it was reaped. Promotion is an argument, a computation over the state
    [A] of the artifact store that may raise. A ticket's identity is the number it was created with. *)
From stdpp Require Import relations.
From S2P Require Import Prelude Float64 Sha256 Json Statistical Artifacts.

Definition FITS : list (string * string) := [("e1-product/v1", "forecasting.artifacts:fit_e1_artifact")].
Definition FAILURE_REASONS : list string := ["history"; "numeric"; "timeout"; "resource"; "storage"].
Definition MAX_PENDING : Z := 8.
Definition MAX_PAYLOAD_BYTES : Z := 28 * 1440 * 8 + 4096.
Definition MEMORY_BYTES : Z := Z.shiftl 384 20.

Record FitResult := {
  fr_signal_key : string; fr_recipe : string; fr_status : string; fr_reason : option string; fr_message : string;
  fr_artifact_sha256 : option string; fr_started : f64; fr_finished : f64; fr_cpu_seconds : option f64;
  fr_max_rss_kib : option Z;
}.

(** What a payload dict holds: its "values" when they are bytes, its "binding". *)
Record Payload := { pl_values : option string; pl_binding : json }.

Record Ticket := { tk_id : nat; tk_signal_key : string; tk_recipe : string; tk_binding : Binding; tk_payload : Payload }.

Definition failed (t : Ticket) (reason msg : string) (started finished : f64) (cpu : option f64) (rss : option Z) : FitResult := {|
  fr_signal_key := tk_signal_key t; fr_recipe := tk_recipe t; fr_status := "failed"; fr_reason := Some reason;
  fr_message := msg; fr_artifact_sha256 := None; fr_started := started; fr_finished := finished; fr_cpu_seconds := cpu;
  fr_max_rss_kib := rss |}.

(** * The fit process *)

(** How the recipe ended in the child: it returned (bytes or not), ran out of memory, or raised, with the exception's
    [reason] attribute when it has one. *)
Inductive fit_end :=
| Returned (data : option string)
| OutOfMemory
| Raised (reason : option string) (msg : string).

Inductive message :=
| MsgOk (data : string) (cpu : f64) (rss : Z)
| MsgError (reason msg : string).

Definition in_reasons (r : option string) : string :=
  match r with Some r => if bool_decide (r ∈ FAILURE_REASONS) then r else "numeric" | None => "numeric" end.

(** [_child]: the one message back. *)
Definition _child (e : fit_end) (cpu : f64) (rss : Z) : message :=
  match e with
  | Returned (Some data) => MsgOk data cpu rss
  | Returned None => MsgError (in_reasons None) "TypeError: a fit returns artifact bytes"
  | OutOfMemory => MsgError "resource" "the fit exceeded its memory limit"
  | Raised reason msg => MsgError (in_reasons reason) msg
  end.

(** What the parent sees once the process is reaped: whether the deadline passed (the kill timer fired or the clock is
    beyond it), the message if one arrived whole, and the exit code. A message comes from [_child]. *)
Record reaped := { rp_expired : bool; rp_msg : option (fit_end * f64 * Z); rp_exitcode : Z; rp_finished : f64 }.

Inductive conclusion :=
| Publish (data : string) (cpu : f64) (rss : Z)
| Failed (r : FitResult).

(** [_run] from the end of its [finally] to the publication. *)
Definition conclude (t : Ticket) (started : f64) (r : reaped) : conclusion :=
  let fail reason msg := Failed (failed t reason msg started (rp_finished r) None None) in
  let msg := (λ m, _child m.1.1 m.1.2 m.2) <$> rp_msg r in
  if rp_expired r then fail "timeout" "the fit did not finish and exit within its deadline"
  else match msg with
       | Some (MsgError reason m) => fail reason m
       | None => fail "resource" "fit process exited without a clean result"
       | Some (MsgOk data cpu rss) =>
           if negb (rp_exitcode r =? 0) then fail "resource" "fit process exited without a clean result"
           else Publish data cpu rss
       end.

(** * The state *)

(** Where a worker thread is: waiting for a ticket; holding one before its process started; with its process running;
    after it was reaped, before the publication; with a result not recorded yet; returned. *)
Inductive phase :=
| Waiting
| Dequeued (t : Ticket)
| Fitting (t : Ticket) (started : f64)
| Publishing (t : Ticket) (started finished : f64) (data : string) (cpu : f64) (rss : Z)
| Resolved (t : Ticket) (r : FitResult)
| Exited.

Record worker := {
  w_queue : list Ticket;                       (* _queue *)
  w_by_signal : list (string * Ticket);        (* _by_signal *)
  w_running : list string;                     (* the keys of _running *)
  w_closed : bool;                             (* _closed *)
  w_failures : list (string * Z);              (* failures *)
  w_threads : list phase;                      (* _threads *)
  w_dropped : list Ticket;                     (* close()'s local variable, until their results are set *)
  w_results : list (nat * FitResult);          (* the result of each resolved ticket *)
  w_next : nat;                                (* tickets created *)
}.

Definition new_worker (max_active : nat) : worker := {|
  w_queue := []; w_by_signal := []; w_running := []; w_closed := false; w_failures := (λ r, (r, 0)) <$> FAILURE_REASONS;
  w_threads := replicate max_active Waiting; w_dropped := []; w_results := []; w_next := 0 |}.

Definition set_thread (i : nat) (p : phase) (w : worker) : worker := {|
  w_queue := w_queue w; w_by_signal := w_by_signal w; w_running := w_running w; w_closed := w_closed w;
  w_failures := w_failures w; w_threads := <[i := p]> (w_threads w); w_dropped := w_dropped w; w_results := w_results w;
  w_next := w_next w |}.

Definition set_running (r : list string) (w : worker) : worker := {|
  w_queue := w_queue w; w_by_signal := w_by_signal w; w_running := r; w_closed := w_closed w; w_failures := w_failures w;
  w_threads := w_threads w; w_dropped := w_dropped w; w_results := w_results w; w_next := w_next w |}.

Definition set_queue (q : list Ticket) (s : list (string * Ticket)) (w : worker) : worker := {|
  w_queue := q; w_by_signal := s; w_running := w_running w; w_closed := w_closed w; w_failures := w_failures w;
  w_threads := w_threads w; w_dropped := w_dropped w; w_results := w_results w; w_next := w_next w |}.

(** * Operations *)

Section worker.
Context (fits : list (string * string)) (max_pending : Z).

Definition submit (binding : Binding) (recipe : string) (payload : Payload) : SE worker Ticket :=
  raise_if negb (dhas recipe fits) || negb (bool_decide (bd_recipe binding = recipe))
    with FitRefused "recipe is not allowlisted for this binding" ;;
  raise_if match pl_values payload with Some v => MAX_PAYLOAD_BYTES <? Z.of_nat (String.length v) | None => true end
    with FitRefused "the fit payload is missing or above its size bound" ;;
  raise_if negb (py_eq (pl_binding payload) (JObj (binding_dict binding)))
    with FitRefused "the fit payload is bound to another signal" ;;
  key ← lift (binding_key binding);
  w ← sget;
  raise_if w_closed w with FitRefused "the worker is closed" ;;
  match dget key (w_by_signal w) with
  | Some t => mret t
  | None =>
      raise_if max_pending <=? Z.of_nat (length (w_queue w)) with QueueFull "fits are already queued" ;;
      let t := {| tk_id := w_next w; tk_signal_key := key; tk_recipe := recipe; tk_binding := binding; tk_payload := payload |} in
      _ ← sput {| w_queue := w_queue w ++ [t]; w_by_signal := dset key t (w_by_signal w); w_running := w_running w;
                  w_closed := w_closed w; w_failures := w_failures w; w_threads := w_threads w; w_dropped := w_dropped w;
                  w_results := w_results w; w_next := S (w_next w) |};
      mret t
  end.

Definition busy (w : worker) : bool := negb (length (w_by_signal w) =? 0)%nat.

(** The head of [_loop]: [None] while the thread waits. *)
Definition dequeue (i : nat) (w : worker) : option worker :=
  match w_threads w !! i with
  | Some Waiting =>
      if w_closed w then Some (set_thread i Exited w)
      else match w_queue w with
           | [] => None
           | t :: q => Some (set_thread i (Dequeued t) (set_queue q (w_by_signal w) w))
           end
  | _ => None
  end.

Definition closed_result (t : Ticket) (stage : string) (started finished : f64) : FitResult :=
  failed t "resource" ("the worker was closed " +:+ stage) started finished None None.

(** The first locked section of [_run]. *)
Definition start_fit (i : nat) (now : f64) (w : worker) : option worker :=
  match w_threads w !! i with
  | Some (Dequeued t) =>
      Some (if w_closed w then set_thread i (Resolved t (closed_result t "before the fit started" f0 f0)) w
            else set_thread i (Fitting t now) (set_running (w_running w ++ [tk_signal_key t]) w))
  | _ => None
  end.

(** The process was reaped: it is no longer running, whatever its outcome. *)
Definition reap (i : nat) (r : reaped) (w : worker) : option worker :=
  match w_threads w !! i with
  | Some (Fitting t started) =>
      let w' := set_running (filter (λ k, k ≠ tk_signal_key t) (w_running w)) w in
      Some (set_thread i match conclude t started r with
                         | Publish data cpu rss => Publishing t started (rp_finished r) data cpu rss
                         | Failed res => Resolved t res
                         end w')
  | _ => None
  end.

(** An exception that escapes [_run] (the process cannot be created, its message cannot be read): never lose a ticket. *)
Definition crash (i : nat) (msg : string) (w : worker) : option worker :=
  match w_threads w !! i with
  | Some (Dequeued t) => Some (set_thread i (Resolved t (failed t "storage" msg f0 f0 None None)) w)
  | Some (Fitting t _) =>
      Some (set_thread i (Resolved t (failed t "storage" msg f0 f0 None None))
             (set_running (filter (λ k, k ≠ tk_signal_key t) (w_running w)) w))
  | _ => None
  end.

(** [self.failures[result.reason] += 1] for a failed fit, the result, and the signal's release. *)
Definition count_failure (r : FitResult) (fs : list (string * Z)) : list (string * Z) :=
  match fr_reason r with
  | Some reason => if bool_decide (fr_status r = "failed") then dset reason (or_default 0 (dget reason fs) + 1) fs else fs
  | None => fs
  end.

Definition record (i : nat) (w : worker) : option worker :=
  match w_threads w !! i with
  | Some (Resolved t r) =>
      Some {| w_queue := w_queue w; w_by_signal := ddel (tk_signal_key t) (w_by_signal w); w_running := w_running w;
              w_closed := w_closed w; w_failures := count_failure r (w_failures w);
              w_threads := <[i := Waiting]> (w_threads w); w_dropped := w_dropped w;
              w_results := w_results w ++ [(tk_id t, r)]; w_next := w_next w |}
  | _ => None
  end.

(** [close], under the lock: no admission from here, the queue is dropped and every running process is killed (which only
    shows in what its thread reaps). *)
Definition close_lock (w : worker) : worker := {|
  w_queue := []; w_by_signal := foldl (λ d t, ddel (tk_signal_key t) d) (w_by_signal w) (w_queue w); w_running := w_running w;
  w_closed := true; w_failures := w_failures w; w_threads := w_threads w; w_dropped := w_dropped w ++ w_queue w;
  w_results := w_results w; w_next := w_next w |}.

Definition dropped_result (t : Ticket) : FitResult := failed t "resource" "the worker was closed" f0 f0 None None.

Definition close_results (w : worker) : worker := {|
  w_queue := w_queue w; w_by_signal := w_by_signal w; w_running := w_running w; w_closed := w_closed w;
  w_failures := w_failures w; w_threads := w_threads w; w_dropped := [];
  w_results := w_results w ++ ((λ t, (tk_id t, dropped_result t)) <$> w_dropped w); w_next := w_next w |}.
End worker.

(** ** Publication *)

Section publish.
Context {A : Type} (promote : Ticket → string → SE A (string * bool)).

(** The last locked section of [_run], over the worker and the artifact store. *)
Definition publish (i : nat) (w : worker) (a : A) : option (worker * A) :=
  match w_threads w !! i with
  | Some (Publishing t started finished data cpu rss) =>
      if w_closed w then Some (set_thread i (Resolved t (closed_result t "before publication" started finished)) w, a)
      else
        match promote t data a with
        | (Ok (sha, promoted), a') =>
            Some (set_thread i (Resolved t {| fr_signal_key := tk_signal_key t; fr_recipe := tk_recipe t;
                    fr_status := if promoted : bool then "promoted" else "unchanged"; fr_reason := None; fr_message := EmptyString;
                    fr_artifact_sha256 := Some sha; fr_started := started; fr_finished := finished;
                    fr_cpu_seconds := Some cpu; fr_max_rss_kib := Some rss |}) w, a')
        | (Raise _, a') =>
            Some (set_thread i (Resolved t (failed t "storage" "promotion failed" started finished (Some cpu) (Some rss))) w, a')
        end
  | _ => None
  end.
End publish.
