(* ===== verification/WorkerSafety.v ===== *)
(** What the fit worker guarantees over every interleaving of its threads, its callers and [close]: one active fit per
    signal, bounded queues, no lost ticket, nothing started or published after [close], and a bounded drain. *)
From stdpp Require Import relations.
From S2P Require Import Prelude Float64 Sha256 Json Statistical Artifacts Worker.

Definition ticket_of (p : phase) : list Ticket :=
  match p with
  | Waiting | Exited => []
  | Dequeued t | Fitting t _ | Publishing t _ _ _ _ _ | Resolved t _ => [t]
  end.
Definition fitting_of (p : phase) : list string := match p with Fitting t _ => [tk_signal_key t] | _ => [] end.
Definition result_of (p : phase) : list FitResult := match p with Resolved _ r => [r] | _ => [] end.

Definition gather {B} (f : phase → list B) (ps : list phase) : list B := concat (f <$> ps).
#[local] Arguments gather : simpl never.
Definition held (w : worker) : list Ticket := gather ticket_of (w_threads w).
Definition active (w : worker) : list Ticket := w_queue w ++ held w.
Definition signal_entry (t : Ticket) : string * Ticket := (tk_signal_key t, t).

Definition bounded_result (r : FitResult) : Prop :=
  fr_status r = "failed" → ∃ reason, fr_reason r = Some reason ∧ reason ∈ FAILURE_REASONS.

Record worker_ok (max_pending : Z) (w : worker) : Prop := {
  wo_signal : w_by_signal w ≡ₚ signal_entry <$> active w;
  wo_keys : NoDup (tk_signal_key <$> active w);
  wo_pending : Z.of_nat (length (w_queue w)) ≤ max_pending;
  wo_running : w_running w ≡ₚ gather fitting_of (w_threads w);
  wo_ids : (tk_id <$> active w ++ w_dropped w) ++ (w_results w).*1 ≡ₚ seq 0 (w_next w);
  wo_closed : w_closed w = true → w_queue w = [];
  wo_results : Forall bounded_result ((w_results w).*2 ++ gather result_of (w_threads w));
  wo_failures : (w_failures w).*1 = FAILURE_REASONS;
}.

(** * Threads *)

Lemma gather_insert {B} (f : phase → list B) ps i p p' : ps !! i = Some p →
  ∃ rest, gather f ps ≡ₚ f p ++ rest ∧ gather f (<[i := p']> ps) ≡ₚ f p' ++ rest.
Proof.
  intros Hi. exists (gather f (take i ps) ++ gather f (drop (S i) ps)). assert (i < length ps)%nat as Hl by by eapply lookup_lt_Some.
  assert (∀ q, gather f (take i ps ++ q :: drop (S i) ps) ≡ₚ f q ++ gather f (take i ps) ++ gather f (drop (S i) ps)) as Hq.
  { intros q. unfold gather. rewrite fmap_app, concat_app. cbn [fmap list_fmap concat]. by rewrite Permutation_app_swap_app. }
  split; [rewrite <-(take_drop_middle ps i p Hi) at 1; apply Hq|]. rewrite insert_take_drop by done. apply Hq.
Qed.

(** A thread that keeps its ticket. *)
Lemma gather_same {B} (f : phase → list B) ps i p p' : ps !! i = Some p → f p' = f p → gather f (<[i := p']> ps) ≡ₚ gather f ps.
Proof. intros Hi E. destruct (gather_insert f ps i p p' Hi) as (rest & H1 & H2). by rewrite H1, H2, E. Qed.

Lemma ddel_entry t rest : NoDup (tk_signal_key <$> t :: rest) →
  filter (λ p : string * Ticket, p.1 ≠ tk_signal_key t) (signal_entry <$> t :: rest) = signal_entry <$> rest.
Proof.
  intros H. cbn in H. apply NoDup_cons in H as [Hn _]. cbn [fmap list_fmap]. rewrite filter_cons, decide_False by (cbn; tauto).
  apply filter_true, Forall_fmap, Forall_forall. intros x Hx E. apply Hn. apply list_elem_of_fmap. exists x. by split.
Qed.

Lemma ddel_perm (d : list (string * Ticket)) t rest : d ≡ₚ signal_entry <$> t :: rest → NoDup (tk_signal_key <$> t :: rest) →
  ddel (tk_signal_key t) d ≡ₚ signal_entry <$> rest.
Proof. intros Hd Hn. unfold ddel. rewrite Hd. by rewrite ddel_entry. Qed.

Lemma ddel_all d q rest : d ≡ₚ signal_entry <$> q ++ rest → NoDup (tk_signal_key <$> q ++ rest) →
  foldl (λ d t, ddel (tk_signal_key t) d) d q ≡ₚ signal_entry <$> rest.
Proof.
  revert d. induction q as [|t q IH]; intros d Hd Hn; [done|]. cbn [foldl]. apply IH.
  - by apply (ddel_perm d t (q ++ rest)).
  - cbn in Hn. by apply NoDup_cons in Hn as [_ ?].
Qed.

Lemma reasons_bounded r : in_reasons r ∈ FAILURE_REASONS.
Proof. unfold in_reasons. destruct r as [r|]; [|list_member]. case_bool_decide; [done|list_member]. Qed.

Lemma failed_bounded t reason msg s f c r : reason ∈ FAILURE_REASONS → bounded_result (failed t reason msg s f c r).
Proof. intros H _. by exists reason. Qed.

Lemma conclude_bounded t s r res : conclude t s r = Failed res → bounded_result res.
Proof.
  unfold conclude. destruct (rp_expired r); [intros [= <-]; apply failed_bounded; list_member|].
  destruct (rp_msg r) as [[[e c] k]|]; cbn; [|intros [= <-]; apply failed_bounded; list_member].
  destruct (_child e c k) as [data c' k'|reason m] eqn:E.
  - destruct (negb _); [|done]. intros [= <-]. apply failed_bounded. list_member.
  - intros [= <-]. apply failed_bounded. destruct e as [[data|]| |reason' m']; cbn in E; try discriminate; injection E as <- _;
      first [apply reasons_bounded | list_member].
Qed.

(** A step in which one thread keeps its ticket and nothing is queued, dropped or recorded. *)
Lemma move_ok mp w i p p' running : worker_ok mp w → w_threads w !! i = Some p → ticket_of p' = ticket_of p →
  running ≡ₚ gather fitting_of (<[i := p']> (w_threads w)) → Forall bounded_result (result_of p') →
  worker_ok mp (set_thread i p' (set_running running w)).
Proof.
  intros [H1 H2 H3 H4 H5 H6 H7 H8] Hi Ht Hr Hb.
  assert (active (set_thread i p' (set_running running w)) ≡ₚ active w) as Ha.
  { unfold active, held. cbn. by rewrite (gather_same ticket_of _ _ _ _ Hi Ht). }
  split; try done.
  - by rewrite Ha.
  - by rewrite Ha.
  - cbn [w_dropped w_results w_next set_thread set_running]. by rewrite Ha.
  - cbn. destruct (gather_insert result_of _ i p p' Hi) as (rest & E1 & E2). rewrite E2. rewrite E1 in H7.
    rewrite !Forall_app in H7 |- *. tauto.
Qed.

(** * Every operation keeps the invariant *)

Section operations.
Context (fits : list (string * string)) (mp : Z).

Lemma submit_ok b recipe p w t w' : worker_ok mp w → submit fits mp b recipe p w = (Ok t, w') → worker_ok mp w' ∧ t ∈ active w'.
Proof.
  intros Hok H. unfold submit in H. ok_inv H. lift_inv. unfold sget in *.
  match goal with E : (Ok _, _) = (Ok ?v, ?x) |- _ => injection E as <- <- end.
  match goal with E : w_closed w = false |- _ => rename E into Hc end.
  match goal with E : binding_key b = Ok ?k |- _ => rename k into key end.
  destruct Hok as [J1 J2 J3 J4 J5 J6 J7 J8]. destruct (dget key (w_by_signal w)) as [t0|] eqn:Hk.
  - injection H as <- <-. split; [by split|]. apply dget_elem_of in Hk. rewrite J1 in Hk.
    apply list_elem_of_fmap in Hk as (y & [= _ ->] & ?). done.
  - ok_inv H. unfold sput in *. match goal with E : (Ok tt, _) = _ |- _ => injection E as _ <- end. injection H as <- <-. bool_prop.
    set (t := {| tk_id := w_next w; tk_signal_key := key; tk_recipe := recipe; tk_binding := b; tk_payload := p |}).
    apply dget_None in Hk. assert (key ∉ tk_signal_key <$> active w) as Hfresh.
    { intros Hin. apply Hk. rewrite J1. apply list_elem_of_fmap in Hin as (y & -> & Hy). apply list_elem_of_fmap.
      exists (signal_entry y). split; [done|]. apply list_elem_of_fmap. by exists y. }
    assert (∀ w', w_queue w' = w_queue w ++ [t] → w_threads w' = w_threads w → active w' ≡ₚ t :: active w) as Ha.
    { intros w' E1 E2. unfold active, held. rewrite E1, E2, <-app_assoc. cbn [app]. by rewrite <-Permutation_middle. }
    match goal with |- worker_ok mp ?w' ∧ _ => specialize (Ha w' eq_refl eq_refl) end.
    split; [|rewrite Ha; left]. split; try done.
    + cbn. rewrite dset_fresh by done. rewrite Ha. cbn. rewrite J1. by rewrite Permutation_app_comm.
    + rewrite Ha. cbn. by constructor.
    + cbn. rewrite length_app. cbn. lia.
    + rewrite Ha. cbn [w_dropped w_results w_next app fmap list_fmap]. rewrite seq_S. cbn. rewrite <-Permutation_cons_append. by constructor.
    + cbn. by rewrite Hc.
Qed.

Lemma dequeue_ok i w w' : worker_ok mp w → dequeue i w = Some w' → worker_ok mp w'.
Proof.
  intros Hok H. unfold dequeue in H. destruct (w_threads w !! i) as [[]|] eqn:Hi; try discriminate.
  destruct (w_closed w) eqn:Hc.
  - injection H as <-. assert (w = set_running (w_running w) w) as E by (by destruct w). rewrite E at 1.
    apply (move_ok _ _ _ Waiting); [done|done|done| |constructor].
    rewrite (gather_same fitting_of _ _ _ Exited Hi) by done. apply Hok.
  - destruct Hok as [H1 H2 H3 H4 H5 H6 H7 H8]. destruct (w_queue w) as [|t q] eqn:Hq; [discriminate|]. injection H as <-.
    assert (active (set_thread i (Dequeued t) (set_queue q (w_by_signal w) w)) ≡ₚ active w) as Ha.
    { unfold active, held. cbn. destruct (gather_insert ticket_of _ i _ (Dequeued t) Hi) as (rest & E1 & E2).
      rewrite E1, E2, Hq. cbn. by rewrite <-Permutation_middle. }
    assert (∀ B (f : phase → list B), f (Dequeued t) = f Waiting → gather f (<[i := Dequeued t]> (w_threads w)) ≡ₚ gather f (w_threads w)) as Hg
      by (intros B f; by apply gather_same).
    split; try done.
    + by rewrite Ha.
    + by rewrite Ha.
    + cbn in *. lia.
    + cbn. by rewrite Hg.
    + rewrite Ha. done.
    + cbn. by rewrite Hc.
    + cbn. by rewrite Hg.
Qed.

Lemma start_ok i now w w' : worker_ok mp w → start_fit i now w = Some w' → worker_ok mp w'.
Proof.
  intros Hok H. unfold start_fit in H. destruct (w_threads w !! i) as [[|t| | | |]|] eqn:Hi; try discriminate. injection H as <-.
  destruct (w_closed w).
  - assert (w = set_running (w_running w) w) as E by (by destruct w). rewrite E at 1.
    apply (move_ok _ _ _ (Dequeued t)); [done|done|done| |].
    + rewrite (gather_same fitting_of _ _ _ _ Hi) by done. apply Hok.
    + constructor; [|constructor]. apply failed_bounded. list_member.
  - apply (move_ok _ _ _ (Dequeued t)); [done|done|done| |constructor].
    destruct (gather_insert fitting_of _ i _ (Fitting t now) Hi) as (rest & E1 & E2). rewrite E2.
    rewrite (wo_running _ _ Hok), E1. cbn. by rewrite Permutation_app_comm.
Qed.

(** The keys of running fits are distinct, so a reaped one leaves exactly the others. *)
Lemma fitting_subseteq ps : gather fitting_of ps ⊆+ tk_signal_key <$> gather ticket_of ps.
Proof.
  unfold gather. induction ps as [|p ps IH]; [done|]. cbn. rewrite fmap_app. apply submseteq_app; [|done].
  destruct p; cbn; try done; apply submseteq_nil_l.
Qed.

Lemma fitting_nodup w : worker_ok mp w → NoDup (gather fitting_of (w_threads w)).
Proof.
  intros Hok. pose proof (wo_keys _ _ Hok) as Hn. unfold active in Hn. rewrite fmap_app in Hn. apply NoDup_app in Hn as (_ & _ & Hn).
  pose proof (fitting_subseteq (w_threads w)) as [k Hk]%submseteq_Permutation. unfold held in Hn. rewrite Hk in Hn.
  by apply NoDup_app in Hn as [? _].
Qed.

Lemma running_reaped w i t now p' : worker_ok mp w → w_threads w !! i = Some (Fitting t now) → fitting_of p' = [] →
  filter (λ k, k ≠ tk_signal_key t) (w_running w) ≡ₚ gather fitting_of (<[i := p']> (w_threads w)).
Proof.
  intros Hok Hi Hp. pose proof (fitting_nodup w Hok) as Hn. destruct (gather_insert fitting_of _ i _ p' Hi) as (rest & E1 & E2).
  rewrite E1 in Hn. cbn in Hn. apply NoDup_cons in Hn as [Hn _]. rewrite E2, Hp, (wo_running _ _ Hok), E1. cbn [fitting_of app].
  rewrite filter_cons, decide_False by tauto. rewrite filter_true; [done|]. apply Forall_forall. intros k Hk ->. done.
Qed.

Lemma reap_ok i r w w' : worker_ok mp w → reap i r w = Some w' → worker_ok mp w'.
Proof.
  intros Hok H. unfold reap in H. destruct (w_threads w !! i) as [[| |t now| | |]|] eqn:Hi; try discriminate. injection H as <-.
  apply (move_ok _ _ _ (Fitting t now)); [done|done|by destruct (conclude t now r)| |].
  - eapply running_reaped; [done|done|by destruct (conclude t now r)].
  - destruct (conclude t now r) as [|res] eqn:E; [constructor|]. constructor; [by eapply conclude_bounded|constructor].
Qed.

Lemma crash_ok i msg w w' : worker_ok mp w → crash i msg w = Some w' → worker_ok mp w'.
Proof.
  intros Hok H. unfold crash in H. destruct (w_threads w !! i) as [[|t|t now| | |]|] eqn:Hi; try discriminate; injection H as <-.
  - assert (w = set_running (w_running w) w) as E by (by destruct w). rewrite E at 1.
    apply (move_ok _ _ _ (Dequeued t)); [done|done|done| |].
    + rewrite (gather_same fitting_of _ _ _ _ Hi) by done. apply Hok.
    + constructor; [|constructor]. apply failed_bounded. list_member.
  - apply (move_ok _ _ _ (Fitting t now)); [done|done|done|by eapply running_reaped|].
    constructor; [|constructor]. apply failed_bounded. list_member.
Qed.

Lemma publish_ok {A} (promote : Ticket → string → SE A (string * bool)) i w a w' a' :
  worker_ok mp w → publish promote i w a = Some (w', a') → worker_ok mp w'.
Proof.
  intros Hok H. unfold publish in H. destruct (w_threads w !! i) as [[| | |t s f data cpu rss| |]|] eqn:Hi; try discriminate.
  assert (∀ r, bounded_result r → worker_ok mp (set_thread i (Resolved t r) w)) as Hr.
  { intros r Hb. assert (w = set_running (w_running w) w) as E by (by destruct w). rewrite E at 1.
    apply (move_ok _ _ _ (Publishing t s f data cpu rss)); [done|done|done| |by repeat constructor].
    rewrite (gather_same fitting_of _ _ _ _ Hi) by done. apply Hok. }
  destruct (w_closed w); [injection H as <- <-; apply Hr, failed_bounded; list_member|].
  destruct (promote t data a) as [[[sha promoted]|e] a1]; injection H as <- <-; apply Hr.
  - by destruct promoted.
  - apply failed_bounded. list_member.
Qed.

Lemma count_failure_keys r fs : bounded_result r → fs.*1 = FAILURE_REASONS → (count_failure r fs).*1 = FAILURE_REASONS.
Proof.
  intros Hb Hf. unfold count_failure. destruct (fr_reason r) as [reason|] eqn:Er; [|done]. case_bool_decide as Es; [|done].
  destruct (Hb Es) as (reason' & E & Hin). assert (reason' = reason) as -> by congruence. rewrite dset_keys, Hf. by rewrite decide_True.
Qed.

Lemma record_ok i w w' : worker_ok mp w → record i w = Some w' → worker_ok mp w'.
Proof.
  intros [H1 H2 H3 H4 H5 H6 H7 H8] H. unfold record in H. destruct (w_threads w !! i) as [[| | | |t r|]|] eqn:Hi; try discriminate.
  injection H as <-. destruct (gather_insert ticket_of _ i _ Waiting Hi) as (rest & E1 & E2).
  destruct (gather_insert result_of _ i _ Waiting Hi) as (rrest & R1 & R2). cbn in E1, E2, R1, R2.
  match goal with |- worker_ok mp ?w' => set (w1 := w') end.
  assert (active w ≡ₚ t :: active w1) as Ha.
  { unfold active, held, w1. cbn. rewrite E1, E2. by rewrite Permutation_middle. }
  rewrite R1 in H7. apply Forall_app in H7 as [H7 H7']. apply Forall_cons in H7' as [Hr H7'].
  split; try done.
  - apply ddel_perm; [by rewrite H1, Ha|by rewrite <-Ha].
  - rewrite Ha in H2. cbn in H2. by apply NoDup_cons in H2 as [_ ?].
  - cbn. rewrite (gather_same fitting_of _ _ _ Waiting Hi) by done. done.
  - cbn [w1 w_dropped w_results w_next]. rewrite <-H5, Ha, (fmap_app fst (w_results w)). cbn [app fmap list_fmap fst].
    rewrite app_assoc. by rewrite <-Permutation_cons_append.
  - cbn. rewrite R2. rewrite fmap_app, !Forall_app. split_and!; [done|by repeat constructor|done].
  - cbn. by apply count_failure_keys.
Qed.

Lemma close_lock_ok w : 0 ≤ mp → worker_ok mp w → worker_ok mp (close_lock w).
Proof.
  intros Hmp [H1 H2 H3 H4 H5 H6 H7 H8]. unfold active in *. split; try done; unfold active, held in *; cbn.
  - by apply ddel_all.
  - rewrite fmap_app in H2. apply NoDup_app in H2. tauto.
  - rewrite <-H5. f_equiv. f_equiv. rewrite (Permutation_app_comm (w_queue w)), <-!app_assoc. f_equiv.
    by rewrite Permutation_app_comm.
Qed.

Lemma close_results_ok w : worker_ok mp w → worker_ok mp (close_results w).
Proof.
  intros [H1 H2 H3 H4 H5 H6 H7 H8]. split; try done; cbn.
  - assert (((λ t, (tk_id t, dropped_result t)) <$> w_dropped w).*1 = tk_id <$> w_dropped w) as E by (by rewrite <-list_fmap_compose).
    change (active (close_results w)) with (active w).
    rewrite app_nil_r, <-H5, (fmap_app fst), E, (fmap_app tk_id (active w)), <-app_assoc. apply Permutation_app_head, Permutation_app_comm.
  - apply Forall_app in H7 as [H7 H7']. rewrite (fmap_app snd), !Forall_app. split_and!; [done| |done].
    apply Forall_fmap, Forall_fmap, Forall_forall. intros t _. apply failed_bounded. list_member.
Qed.
End operations.

(** * Every interleaving *)

Section steps.
Context (fits : list (string * string)) (mp : Z) {A : Type} (promote : Ticket → string → SE A (string * bool)).

(** What a worker thread does next, over the worker and the artifact store. *)
Inductive thread_step (i : nat) : worker * A → worker * A → Prop :=
| ThDequeue w a w' : dequeue i w = Some w' → thread_step i (w, a) (w', a)
| ThStart w a now w' : start_fit i now w = Some w' → thread_step i (w, a) (w', a)
| ThReap w a r w' : reap i r w = Some w' → thread_step i (w, a) (w', a)
| ThCrash w a msg w' : crash i msg w = Some w' → thread_step i (w, a) (w', a)
| ThPublish w a w' a' : publish promote i w a = Some (w', a') → thread_step i (w, a) (w', a')
| ThRecord w a w' : record i w = Some w' → thread_step i (w, a) (w', a).

Inductive worker_step : worker * A → worker * A → Prop :=
| StepThread i s s' : thread_step i s s' → worker_step s s'
| StepSubmit w a b recipe p t w' : submit fits mp b recipe p w = (Ok t, w') → worker_step (w, a) (w', a)
| StepClose w a : worker_step (w, a) (close_lock w, a)
| StepCloseResults w a : worker_step (w, a) (close_results w, a).

Lemma thread_step_ok i s s' : worker_ok mp s.1 → thread_step i s s' → worker_ok mp s'.1.
Proof.
  intros Hok Hs. revert Hok. destruct Hs as [w a w' H|w a now w' H|w a r w' H|w a msg w' H|w a w' a' H|w a w' H]; cbn [fst snd]; intros Hok.
  - by eapply dequeue_ok.
  - by eapply start_ok.
  - by eapply reap_ok.
  - by eapply crash_ok.
  - by eapply publish_ok.
  - by eapply record_ok.
Qed.

Lemma thread_count i s s' : thread_step i s s' → length (w_threads s'.1) = length (w_threads s.1).
Proof.
  intros [w a w' H|w a now w' H|w a r w' H|w a msg w' H|w a w' a' H|w a w' H]; cbn [fst snd].
  - unfold dequeue in H. repeat case_match; try discriminate; injection H as <-; apply length_insert.
  - unfold start_fit in H. repeat case_match; try discriminate; injection H as <-; apply length_insert.
  - unfold reap in H. destruct (w_threads w !! i) as [[]|]; try discriminate. injection H as <-. apply length_insert.
  - unfold crash in H. repeat case_match; try discriminate; injection H as <-; apply length_insert.
  - unfold publish in H. destruct (w_threads w !! i) as [[]|]; try discriminate.
    destruct (w_closed w); [injection H as <- <-; apply length_insert|].
    destruct (promote _ _ _) as [[[]|] ?]; injection H as <- <-; apply length_insert.
  - unfold record in H. repeat case_match; try discriminate; injection H as <-; apply length_insert.
Qed.

Lemma submit_threads b recipe p w t w' : submit fits mp b recipe p w = (Ok t, w') → w_threads w' = w_threads w ∧ w_closed w = false.
Proof.
  intros H. unfold submit in H. ok_inv H. lift_inv. unfold sget in *.
  match goal with E : (Ok _, _) = (Ok ?v, ?x) |- _ => injection E as <- <- end.
  destruct (dget _ _); [by injection H as _ <-|]. ok_inv H. unfold sput in *.
  match goal with E : (Ok tt, _) = _ |- _ => injection E as _ <- end. by injection H as _ <-.
Qed.

Lemma step_ok s s' : 0 ≤ mp → worker_ok mp s.1 → worker_step s s' →
  worker_ok mp s'.1 ∧ length (w_threads s'.1) = length (w_threads s.1).
Proof.
  intros Hmp Hok Hs. revert Hok. destruct Hs as [i s1 s2 H|w a b recipe p t w' H|w a|w a]; cbn [fst snd]; intros Hok.
  - split; [by eapply thread_step_ok|by eapply thread_count].
  - split; [by eapply submit_ok|]. apply submit_threads in H as [H _]. cbn. by rewrite H.
  - split; [by apply close_lock_ok|done].
  - split; [by apply close_results_ok|done].
Qed.

Lemma gather_waiting {B} (f : phase → list B) n : f Waiting = [] → gather f (replicate n Waiting) = [].
Proof. intros H. unfold gather. induction n as [|n IH]; [done|]. cbn. by rewrite H. Qed.

Lemma new_worker_ok n : 0 ≤ mp → worker_ok mp (new_worker n).
Proof.
  intros Hmp. assert (held (new_worker n) = []) as Ha by (unfold held; cbn; by rewrite gather_waiting).
  split; cbn; rewrite ?Ha, ?gather_waiting by done; first [done | constructor; fail | apply NoDup_nil_2 | idtac].
Qed.

Lemma reachable_ok n a s : 0 ≤ mp → rtc worker_step (new_worker n, a) s → worker_ok mp s.1 ∧ length (w_threads s.1) = n.
Proof.
  intros Hmp Hs. refine (rtc_ind_r (λ s, worker_ok mp s.1 ∧ length (w_threads s.1) = n) _ _ _ _ Hs).
  - split; [by apply new_worker_ok|apply length_replicate].
  - intros y z _ Hz [Hok Hl]. destruct (step_ok y z Hmp Hok Hz) as [? E]. split; [done|by rewrite E].
Qed.

Lemma gather_fitting_le ps : (length (gather fitting_of ps) ≤ length ps)%nat.
Proof.
  unfold gather. induction ps as [|p ps IH]; [done|]. cbn. rewrite length_app. destruct p; cbn; lia.
Qed.


(** * After [close] *)

Definition stopped (s s' : worker * A) : Prop :=
  w_closed s'.1 = true ∧ s'.2 = s.2 ∧ w_running s'.1 ⊆+ w_running s.1 ∧ w_next s'.1 = w_next s.1.

Lemma closed_step s s' : w_closed s.1 = true → worker_step s s' → stopped s s'.
Proof.
  unfold stopped. intros Hc Hs. revert Hc.
  destruct Hs as [i s1 s2 [w a w' H|w a now w' H|w a r w' H|w a msg w' H|w a w' a' H|w a w' H]|w a b recipe p t w' H|w a|w a]; cbn [fst snd]; intros Hc.
  - unfold dequeue in H. repeat case_match; try discriminate; injection H as <-; by split_and!.
  - unfold start_fit in H. rewrite Hc in H. repeat case_match; try discriminate; injection H as <-; by split_and!.
  - unfold reap in H. destruct (w_threads w !! i) as [[]|]; try discriminate. injection H as <-. split_and!; [done|done| |done].
    apply sublist_submseteq, sublist_filter.
  - unfold crash in H. repeat case_match; try discriminate; injection H as <-; split_and!; try done; apply sublist_submseteq, sublist_filter.
  - unfold publish in H. rewrite Hc in H. destruct (w_threads w !! i) as [[]|]; try discriminate. injection H as <- <-. by split_and!.
  - unfold record in H. repeat case_match; try discriminate; injection H as <-; by split_and!.
  - apply submit_threads in H as [_ H]. congruence.
  - by split_and!.
  - by split_and!.
Qed.

(** From the moment [close] holds the lock, nothing more starts or is published, whatever runs: the store of artifacts
    never changes again, the running processes only become fewer, no ticket is ever admitted, and the worker stays closed. *)
Theorem closed_stops w a w' a' : w_closed w = true → rtc worker_step (w, a) (w', a') →
  w_closed w' = true ∧ a' = a ∧ w_running w' ⊆+ w_running w ∧ w_next w' = w_next w.
Proof.
  intros Hc Hs. refine (rtc_ind_r (stopped (w, a)) _ _ _ _ Hs).
  - by split_and!.
  - intros y z _ Hz (H1 & H2 & H3 & H4). destruct (closed_step y z H1 Hz) as (K1 & K2 & K3 & K4).
    split_and!; [done|congruence|by etrans|congruence].
Qed.

(** * The drain *)

(** What a thread still does before it returns, once the worker is closed. *)
Definition rank (p : phase) : nat :=
  match p with Exited => 0 | Waiting => 1 | Resolved _ _ => 2 | Publishing _ _ _ _ _ _ | Dequeued _ => 3 | Fitting _ _ => 4 end.
Definition work (w : worker) : nat := sum_list (rank <$> w_threads w).

Definition thread_steps (s s' : worker * A) : Prop := ∃ i, thread_step i s s'.

Lemma sum_list_app (l k : list nat) : sum_list (l ++ k) = (sum_list l + sum_list k)%nat.
Proof. induction l as [|x l IH]; [done|]. cbn. lia. Qed.

Lemma work_insert ps i p p' : ps !! i = Some p → (rank p' < rank p)%nat → (sum_list (rank <$> <[i := p']> ps) < sum_list (rank <$> ps))%nat.
Proof.
  intros Hi Hr. assert (i < length ps)%nat as Hl by by eapply lookup_lt_Some.
  rewrite insert_take_drop by done. rewrite <-(take_drop_middle ps i p Hi) at 3. rewrite !fmap_app, !sum_list_app. cbn. lia.
Qed.

Lemma work_bound ps : (sum_list (rank <$> ps) ≤ 4 * length ps)%nat.
Proof. induction ps as [|p ps IH]; [done|]. cbn. destruct p; cbn; lia. Qed.

Lemma closed_decreases i s s' : w_closed s.1 = true → thread_step i s s' → (work s'.1 < work s.1)%nat.
Proof.
  intros Hc Hs. revert Hc. destruct Hs as [w a w' H|w a now w' H|w a r w' H|w a msg w' H|w a w' a' H|w a w' H]; cbn [fst snd]; intros Hc;
    unfold dequeue, start_fit, reap, crash, publish, record in H; rewrite ?Hc in H;
    destruct (w_threads w !! i) as [[]|] eqn:Hi; try discriminate; simplify_eq; eapply (work_insert _ _ _ _ Hi); cbn; try lia.
  destruct (conclude _ _ _); cbn; lia.
Qed.

(** A thread of a closed worker that has not returned can move. *)
Lemma closed_enabled i w a p : w_closed w = true → w_threads w !! i = Some p → p = Exited ∨ ∃ s', thread_step i (w, a) s'.
Proof.
  intros Hc Hi. destruct p as [|t|t now|t s f data cpu rss|t r|]; [right..|by left].
  - eexists. apply ThDequeue. unfold dequeue. by rewrite Hi, Hc.
  - eexists. apply (ThStart _ _ _ f0). unfold start_fit. by rewrite Hi.
  - eexists. apply (ThCrash _ _ _ EmptyString). unfold crash. by rewrite Hi.
  - eexists. apply ThPublish. unfold publish. by rewrite Hi, Hc.
  - eexists. apply ThRecord. unfold record. by rewrite Hi.
Qed.

Lemma all_exited ps : (∀ i p, ps !! i = Some p → p = Exited) → gather ticket_of ps = [] ∧ gather fitting_of ps = [].
Proof.
  unfold gather. induction ps as [|p ps IH]; intros H; [done|]. rewrite (H 0%nat p eq_refl). apply IH. intros i q Hq. by apply (H (S i)).
Qed.

End steps.

(** * A run *)

Definition demo_signal (query : string) : Binding := {|
  bd_autoscaler_uid := "pa-uid"; bd_target_uid := "dep-uid"; bd_query_sha256 := query; bd_signal_contract := "rps/v1";
  bd_interval_seconds := 60; bd_seasonality := "weekly"; bd_recipe := "e1-product/v1" |}.
Definition demo_payload (b : Binding) : Payload := {| pl_values := Some "bytes"; pl_binding := JObj (binding_dict b) |}.
Definition demo_promote (t : Ticket) (data : string) : SE (list string) (string * bool) := λ a, (Ok (data, true), a ++ [data]).
Definition demo_reaped : reaped := {| rp_expired := false; rp_msg := Some (Returned (Some "artifact"), f0, 1); rp_exitcode := 0; rp_finished := f0 |}.

Definition demo_submit (query : string) (w : worker) : worker :=
  (submit FITS MAX_PENDING (demo_signal query) "e1-product/v1" (demo_payload (demo_signal query)) w).2.
Definition or_same (o : option worker) (w : worker) : worker := or_default w o.

(** One fit is published; a second one is running and a third one queued when [close] holds the lock. *)
Definition demo_w1 : worker := Eval vm_compute in demo_submit "q1" (new_worker 1).
Definition demo_w2 : worker := Eval vm_compute in or_same (dequeue 0 demo_w1) demo_w1.
Definition demo_w3 : worker := Eval vm_compute in or_same (start_fit 0 f0 demo_w2) demo_w2.
Definition demo_w4 : worker := Eval vm_compute in or_same (reap 0 demo_reaped demo_w3) demo_w3.
Definition demo_w5 : worker := Eval vm_compute in match publish demo_promote 0 demo_w4 [] with Some (w, _) => w | None => demo_w4 end.
Definition demo_w6 : worker := Eval vm_compute in or_same (record 0 demo_w5) demo_w5.
Definition demo_w7 : worker := Eval vm_compute in demo_submit "q2" demo_w6.
Definition demo_w8 : worker := Eval vm_compute in or_same (dequeue 0 demo_w7) demo_w7.
Definition demo_w9 : worker := Eval vm_compute in or_same (start_fit 0 f0 demo_w8) demo_w8.
Definition demo_w10 : worker := Eval vm_compute in demo_submit "q3" demo_w9.
Definition demo_w11 : worker := Eval vm_compute in close_lock demo_w10.
Definition demo_w12 : worker := Eval vm_compute in or_same (reap 0 demo_reaped demo_w11) demo_w11.
Definition demo_w13 : worker := Eval vm_compute in match publish demo_promote 0 demo_w12 [] with Some (w, _) => w | None => demo_w12 end.
Definition demo_w14 : worker := Eval vm_compute in or_same (record 0 demo_w13) demo_w13.
Definition demo_w15 : worker := Eval vm_compute in or_same (dequeue 0 demo_w14) demo_w14.

Definition demo_step : worker * list string → worker * list string → Prop := worker_step FITS MAX_PENDING demo_promote.

Lemma demo_submitted query w w' t : submit FITS MAX_PENDING (demo_signal query) "e1-product/v1" (demo_payload (demo_signal query)) w = (Ok t, w') →
  ∀ a, demo_step (w, a) (w', a).
Proof. intros H a. by eapply StepSubmit. Qed.

Ltac thread_run := eapply rtc_l; [apply (StepThread _ _ _ 0%nat)|].

Lemma demo_run_closed : rtc demo_step (new_worker 1, []) (demo_w11, ["artifact"]).
Proof.
  eapply rtc_l; [eapply (demo_submitted "q1" _ demo_w1); vm_compute; reflexivity|].
  thread_run; [apply (ThDequeue _ _ _ _ demo_w2); vm_compute; reflexivity|].
  thread_run; [apply (ThStart _ _ _ _ f0 demo_w3); vm_compute; reflexivity|].
  thread_run; [apply (ThReap _ _ _ _ demo_reaped demo_w4); vm_compute; reflexivity|].
  thread_run; [apply (ThPublish _ _ _ _ demo_w5 ["artifact"]); vm_compute; reflexivity|].
  thread_run; [apply (ThRecord _ _ _ _ demo_w6); vm_compute; reflexivity|].
  eapply rtc_l; [eapply (demo_submitted "q2" _ demo_w7); vm_compute; reflexivity|].
  thread_run; [apply (ThDequeue _ _ _ _ demo_w8); vm_compute; reflexivity|].
  thread_run; [apply (ThStart _ _ _ _ f0 demo_w9); vm_compute; reflexivity|].
  eapply rtc_l; [eapply (demo_submitted "q3" _ demo_w10); vm_compute; reflexivity|].
  apply rtc_once. exact (StepClose _ _ _ demo_w10 ["artifact"]).
Qed.

Lemma demo_drained : rtc (thread_steps demo_promote) (demo_w11, ["artifact"]) (demo_w15, ["artifact"]).
Proof.
  eapply rtc_l; [exists 0%nat; apply (ThReap _ _ _ _ demo_reaped demo_w12); vm_compute; reflexivity|].
  eapply rtc_l; [exists 0%nat; apply (ThPublish _ _ _ _ demo_w13 ["artifact"]); vm_compute; reflexivity|].
  eapply rtc_l; [exists 0%nat; apply (ThRecord _ _ _ _ demo_w14); vm_compute; reflexivity|].
  apply rtc_once. exists 0%nat. apply (ThDequeue _ _ _ _ demo_w15); vm_compute; reflexivity.
Qed.

Lemma demo_no_step s : ¬ thread_steps demo_promote (demo_w15, ["artifact"]) s.
Proof.
  assert (w_threads demo_w15 = [Exited]) as Ht by (vm_compute; reflexivity).
  intros [i Hi]. remember (demo_w15, ["artifact"]) as p eqn:Ep.
  destruct Hi as [w a w' H|w a now w' H|w a r w' H|w a msg w' H|w a w' a' H|w a w' H];
    injection Ep as -> ->; unfold dequeue, start_fit, reap, crash, publish, record in H; rewrite Ht in H;
    destruct i as [|i]; cbn in H; try discriminate; by destruct i.
Qed.

Lemma demo_drain_steps : rtc demo_step (new_worker 1, []) (demo_w15, ["artifact"]).
Proof.
  etrans; [exact demo_run_closed|]. generalize demo_drained. apply rtc_subrel. intros s s' [i H]. by apply (StepThread _ _ _ i).
Qed.


Lemma closed_stops_witness : w_running demo_w15 ⊆+ w_running demo_w11 ∧ w_next demo_w15 = w_next demo_w11.
Proof.
  assert (w_closed demo_w11 = true) as Hc by (vm_compute; reflexivity).
  assert (rtc demo_step (demo_w11, ["artifact"]) (demo_w15, ["artifact"])) as Hs.
  { generalize demo_drained. apply rtc_subrel. intros s s' [i H]. by apply (StepThread _ _ _ i). }
  destruct (closed_stops FITS MAX_PENDING demo_promote _ _ _ _ Hc Hs) as (_ & _ & H1 & H2). by split.
Defined.

