(* ===== verification/State.v ===== *)
(** The per-epoch state of [forecasting/service.py] and the JSON its checkpoints hold. The code keeps that state as nested
    dicts, which are their own JSON; here it is a record of the typed states of [Calibration] and [Trust], and the dict
    layout of [cal.initial], [new_ledger], [_bucket], [new_pairs], [new_hysteresis], [new_selection] and [_initial] is
    written out once as a printer and once as a reader. A reader looks at every field at once, where the code looks at a
    field when it uses it; on what the service wrote no field is missing ([checkpoint_roundtrip]). *)
From Stdlib Require Import Ascii.
From S2P Require Import Prelude Float64 Sha256 Json JsonRoundtrip Maturation Store Calibration Trust.

(** * Printing *)

Definition zkey (z : Z) : string := String.string_of_list_ascii (str_of_Z z).
Definition opt_str (o : option string) : json := match o with Some s => JStr s | None => JNull end.
Definition zdict {V} (f : V → json) (d : list (Z * V)) : json := JObj ((λ kv, (zkey kv.1, f kv.2)) <$> d).
Definition sdict {V} (f : V → json) (d : list (string * V)) : json := JObj ((λ kv, (kv.1, f kv.2)) <$> d).

Definition cal_fields (s : cal_state) : list (string * json) :=
  [("schema", JStr Calibration.STATE_SCHEMA); ("epoch", JStr (s_epoch s)); ("model", JStr (s_model s));
   ("recipe", JStr (s_recipe s)); ("a_e8", JInt (a_e8 s));
   ("scores", JArr ((λ x, JArr [JInt x.1; JFloat x.2]) <$> scores s)); ("last_seq", JInt (last_seq s));
   ("newest_window_end", opt_int (newest_window_end s));
   ("all", JObj [("scored", JInt (al_scored (all_ s))); ("unscorable", JInt (al_unscorable (all_ s)));
                 ("bounded", JInt (al_bounded (all_ s))); ("covered", JInt (al_covered (all_ s)));
                 ("abs_error_sum_rps", JFloat (al_abs_error_sum_rps (all_ s)))]);
   ("gate", JObj [("scored", JInt (ga_scored (gate s))); ("unscorable", JInt (ga_unscorable (gate s)));
                  ("bounded", JInt (ga_bounded (gate s))); ("covered", JInt (ga_covered (gate s)));
                  ("pinball_sum_rps", JFloat (ga_pinball_sum_rps (gate s)))]);
   ("level_updates", JInt (level_updates s)); ("at_bound", JInt (at_bound s))].

(** The issued details of a bound. *)
Definition info_json (i : bound_info) : json := JObj
  ([("n", JInt (bi_n i)); ("rank", JInt (bi_rank i)); ("working_miscoverage", JFloat (bi_working_miscoverage i))]
   ++ match bi_unavailable i with Some w => [("unavailable", JStr w)] | None => [] end
   ++ match bi_quantile_rps i with Some q => [("quantile_rps", JFloat q)] | None => [] end).

Definition bucket_json (b : bucket) : json :=
  JObj (((λ f, (f, JInt (bint f b))) <$> _INTS) ++ ((λ f, (f, JFloat (bfloat f b))) <$> _FLOATS)).

Definition totals_fields (t : totals) : list (string * json) :=
  [("issued", JInt (t_issued t)); ("covered", JInt (t_covered t)); ("missed", JInt (t_missed t));
   ("unscorable", JInt (t_unscorable t)); ("prospective_gate_bounded", JInt (t_prospective_gate_bounded t));
   ("replay_gate_bounded", JInt (t_replay_gate_bounded t))].

Definition ledger_fields (l : ledger) : list (string * json) :=
  [("schema", JStr LEDGER_SCHEMA); ("epoch", JStr (l_epoch l)); ("model", JStr (l_model l));
   ("recipe", JStr (l_recipe l)); ("interval_s", JInt (interval_s l)); ("buckets", zdict bucket_json (buckets l));
   ("pending", zdict JInt (pending l)); ("recent", JArr (JInt <$> recent l));
   ("consecutive_misses", JInt (consecutive_misses l)); ("first_prospective_s", opt_int (first_prospective_s l));
   ("first_issue_s", opt_int (first_issue_s l)); ("last_prospective_outcome_s", opt_int (last_prospective_outcome_s l));
   ("last_outcome_seq", JInt (last_outcome_seq l)); ("last_issuance_seq", JInt (last_issuance_seq l));
   ("newest_s", opt_int (newest_s l)); ("totals", JObj (totals_fields (l_totals l)))].

Definition pending_pair_json (x : string * f64 * string) : json :=
  let '(m, loss, iss) := x in JArr [JStr m; JFloat loss; JStr iss].
Definition pair_bucket_fields (b : pair_bucket) : list (string * json) :=
  [("n", JInt (pb_n b)); ("chal", JFloat (pb_chal b)); ("base", JFloat (pb_base b)); ("first", JInt (pb_first b));
   ("last", JInt (pb_last b))].

Definition pair_fields (p : pair_state) : list (string * json) :=
  [("epoch", JStr (ps_epoch p)); ("challenger", JStr (ps_challenger p)); ("baseline", JStr (ps_baseline p));
   ("recipes", sdict JStr (ps_recipes p)); ("pending", zdict pending_pair_json (ps_pending p));
   ("buckets", zdict (λ b, JObj (pair_bucket_fields b)) (ps_buckets p)); ("last_seq", JInt (ps_last_seq p))].

Definition hysteresis_fields (h : hysteresis) : list (string * json) :=
  [("epoch", JStr (h_epoch h)); ("recipe", JStr (h_recipe h)); ("trusted", JBool (trusted h));
   ("ever_trusted", JBool (ever_trusted h)); ("demoted_at_s", opt_int (demoted_at_s h));
   ("bounds_at_demotion", JInt (bounds_at_demotion h)); ("gates_ok_since_s", opt_int (gates_ok_since_s h))].

Definition selection_fields (s : selection) : list (string * json) :=
  [("epoch", opt_str (sel_epoch s)); ("selected", opt_str (sel_selected s)); ("recipe", opt_str (sel_recipe s));
   ("since_s", opt_int (sel_since_s s)); ("switches", JInt (sel_switches s));
   ("entry_since", sdict JInt (sel_entry_since s))].

Definition SELECTION : string := "_selection".

(** What [evaluate] takes and returns: a hysteresis state by model, and the selection under its own key. *)
Definition trust_json (t : trust_state) : json :=
  JObj (((λ kv, (kv.1, JObj (hysteresis_fields kv.2))) <$> ts_hyst t)
        ++ match ts_selection t with Some s => [(SELECTION, JObj (selection_fields s))] | None => [] end).

Record model_state := { m_recipe : string; m_calibration : cal_state; m_ledger : ledger }.

Definition model_fields (m : model_state) : list (string * json) :=
  [("recipe", JStr (m_recipe m)); ("calibration", JObj (cal_fields (m_calibration m)));
   ("ledger", JObj (ledger_fields (m_ledger m)))].

Definition STATE_SCHEMA : string := "statistical-service-state/v1".

Record epoch_state := {
  e_epoch : string; e_last_outcome_seq : Z; e_last_issuance_seq : Z; e_models : list (string * model_state);
  e_trust : trust_state; e_pairs : list (string * pair_state);
}.

Definition state_fields (s : epoch_state) : list (string * json) :=
  [("schema", JStr STATE_SCHEMA); ("epoch", JStr (e_epoch s)); ("last_outcome_seq", JInt (e_last_outcome_seq s));
   ("last_issuance_seq", JInt (e_last_issuance_seq s)); ("models", sdict (λ m, JObj (model_fields m)) (e_models s));
   ("trust", trust_json (e_trust s)); ("pairs", sdict (λ p, JObj (pair_fields p)) (e_pairs s))].

Definition state_json (s : epoch_state) : json := JObj (state_fields s).

(** * Reading *)

Definition the_int (v : json) : res Z := match v with JInt z => Ok z | _ => Raise PyTypeError end.
Definition the_float (v : json) : res f64 := match v with JFloat x => Ok x | _ => Raise PyTypeError end.
Definition the_str (v : json) : res string := match v with JStr s => Ok s | _ => Raise PyTypeError end.
Definition the_bool (v : json) : res bool := match v with JBool b => Ok b | _ => Raise PyTypeError end.
Definition the_opt {A} (f : json → res A) (v : json) : res (option A) := match v with JNull => Ok None | _ => Some <$> f v end.
Definition field {A} (k : string) (f : json → res A) (v : json) : res A := x ← getitem k v; f x.
Definition the_list {A} (f : json → res A) (v : json) : res (list A) := l ← as_list v; mapM_res f l.

(** [int(k)] of a dict's key. *)
Definition read_zkey (k : string) : res Z :=
  match read_number (String.list_ascii_of_string k) with Some (inl z) => Ok z | _ => Raise (PyValueError "invalid literal for int()") end.
Definition the_dict {K V} (fk : string → res K) (f : json → res V) (v : json) : res (list (K * V)) :=
  o ← as_dict v; mapM_res (λ kv, k ← fk kv.1; x ← f kv.2; Ok (k, x)) o.

Definition cal_of (v : json) : res cal_state :=
  epoch ← field "epoch" the_str v; model ← field "model" the_str v; recipe ← field "recipe" the_str v;
  a ← field "a_e8" the_int v;
  sc ← field "scores" (the_list (λ x, l ← as_list x; t ← py_nth l 0; e ← py_nth l 1; tz ← the_int t; ef ← the_float e;
                                      Ok (tz, ef))) v;
  seq ← field "last_seq" the_int v; newest ← field "newest_window_end" (the_opt the_int) v;
  al ← field "all" (λ x, a1 ← field "scored" the_int x; a2 ← field "unscorable" the_int x; a3 ← field "bounded" the_int x;
                         a4 ← field "covered" the_int x; a5 ← field "abs_error_sum_rps" the_float x;
                         Ok {| al_scored := a1; al_unscorable := a2; al_bounded := a3; al_covered := a4;
                               al_abs_error_sum_rps := a5 |}) v;
  ga ← field "gate" (λ x, a1 ← field "scored" the_int x; a2 ← field "unscorable" the_int x; a3 ← field "bounded" the_int x;
                          a4 ← field "covered" the_int x; a5 ← field "pinball_sum_rps" the_float x;
                          Ok {| ga_scored := a1; ga_unscorable := a2; ga_bounded := a3; ga_covered := a4;
                                ga_pinball_sum_rps := a5 |}) v;
  lu ← field "level_updates" the_int v; ab ← field "at_bound" the_int v;
  Ok {| s_epoch := epoch; s_model := model; s_recipe := recipe; a_e8 := a; scores := sc; last_seq := seq;
        newest_window_end := newest; all_ := al; gate := ga; level_updates := lu; at_bound := ab |}.

Definition bucket_of (v : json) : res bucket :=
  is_ ← mapM_res (λ f, n ← field f the_int v; Ok (f, n)) _INTS;
  fs ← mapM_res (λ f, x ← field f the_float v; Ok (f, x)) _FLOATS;
  Ok {| ints := is_; floats := fs |}.

Definition totals_of (v : json) : res totals :=
  a1 ← field "issued" the_int v; a2 ← field "covered" the_int v; a3 ← field "missed" the_int v;
  a4 ← field "unscorable" the_int v; a5 ← field "prospective_gate_bounded" the_int v;
  a6 ← field "replay_gate_bounded" the_int v;
  Ok {| t_issued := a1; t_covered := a2; t_missed := a3; t_unscorable := a4; t_prospective_gate_bounded := a5;
        t_replay_gate_bounded := a6 |}.

Definition ledger_of (v : json) : res ledger :=
  epoch ← field "epoch" the_str v; model ← field "model" the_str v; recipe ← field "recipe" the_str v;
  dt ← field "interval_s" the_int v; bs ← field "buckets" (the_dict read_zkey bucket_of) v;
  pe ← field "pending" (the_dict read_zkey the_int) v; rc ← field "recent" (the_list the_int) v;
  cm ← field "consecutive_misses" the_int v; fp ← field "first_prospective_s" (the_opt the_int) v;
  fi ← field "first_issue_s" (the_opt the_int) v; lp ← field "last_prospective_outcome_s" (the_opt the_int) v;
  lo ← field "last_outcome_seq" the_int v; li ← field "last_issuance_seq" the_int v;
  nw ← field "newest_s" (the_opt the_int) v; t ← field "totals" totals_of v;
  Ok {| l_epoch := epoch; l_model := model; l_recipe := recipe; interval_s := dt; buckets := bs; pending := pe;
        recent := rc; consecutive_misses := cm; first_prospective_s := fp; first_issue_s := fi;
        last_prospective_outcome_s := lp; last_outcome_seq := lo; last_issuance_seq := li; newest_s := nw;
        l_totals := t |}.

Definition pending_pair_of (v : json) : res (string * f64 * string) :=
  l ← as_list v; m ← py_nth l 0; x ← py_nth l 1; i ← py_nth l 2; m ← the_str m; x ← the_float x; i ← the_str i;
  Ok (m, x, i).
Definition pair_bucket_of (v : json) : res pair_bucket :=
  n ← field "n" the_int v; c ← field "chal" the_float v; b ← field "base" the_float v; f ← field "first" the_int v;
  l ← field "last" the_int v;
  Ok {| pb_n := n; pb_chal := c; pb_base := b; pb_first := f; pb_last := l |}.
Definition pair_of (v : json) : res pair_state :=
  e ← field "epoch" the_str v; c ← field "challenger" the_str v; b ← field "baseline" the_str v;
  rs ← field "recipes" (the_dict Ok the_str) v; pe ← field "pending" (the_dict read_zkey pending_pair_of) v;
  bs ← field "buckets" (the_dict read_zkey pair_bucket_of) v; s ← field "last_seq" the_int v;
  Ok {| ps_epoch := e; ps_challenger := c; ps_baseline := b; ps_recipes := rs; ps_pending := pe; ps_buckets := bs;
        ps_last_seq := s |}.

Definition hysteresis_of (v : json) : res hysteresis :=
  e ← field "epoch" the_str v; r ← field "recipe" the_str v; t ← field "trusted" the_bool v;
  et ← field "ever_trusted" the_bool v; d ← field "demoted_at_s" (the_opt the_int) v;
  b ← field "bounds_at_demotion" the_int v; g ← field "gates_ok_since_s" (the_opt the_int) v;
  Ok {| h_epoch := e; h_recipe := r; trusted := t; ever_trusted := et; demoted_at_s := d; bounds_at_demotion := b;
        gates_ok_since_s := g |}.
Definition selection_of (v : json) : res selection :=
  e ← field "epoch" (the_opt the_str) v; s ← field "selected" (the_opt the_str) v;
  r ← field "recipe" (the_opt the_str) v; si ← field "since_s" (the_opt the_int) v; sw ← field "switches" the_int v;
  en ← field "entry_since" (the_dict Ok the_int) v;
  Ok {| sel_epoch := e; sel_selected := s; sel_recipe := r; sel_since_s := si; sel_switches := sw; sel_entry_since := en |}.

Definition trust_of (v : json) : res trust_state :=
  o ← as_dict v;
  hs ← the_dict Ok hysteresis_of (JObj (ddel SELECTION o));
  sel ← match dget SELECTION o with Some s => Some <$> selection_of s | None => Ok None end;
  Ok {| ts_hyst := hs; ts_selection := sel |}.

Definition model_of (v : json) : res model_state :=
  r ← field "recipe" the_str v; c ← field "calibration" cal_of v; l ← field "ledger" ledger_of v;
  Ok {| m_recipe := r; m_calibration := c; m_ledger := l |}.

Definition state_of (v : json) : res epoch_state :=
  e ← field "epoch" the_str v; o ← field "last_outcome_seq" the_int v; i ← field "last_issuance_seq" the_int v;
  ms ← field "models" (the_dict Ok model_of) v; t ← field "trust" trust_of v; ps ← field "pairs" (the_dict Ok pair_of) v;
  Ok {| e_epoch := e; e_last_outcome_seq := o; e_last_issuance_seq := i; e_models := ms; e_trust := t; e_pairs := ps |}.
