(* ===== verification/StateRoundtrip.v ===== *)
(** The checkpoint round trip: the epoch state the service journals is the state it reads back, with every dict in the
    order of its keys' texts, and journaling it again writes the same bytes. *)
From Stdlib Require Import SpecFloat Ascii.
From S2P Require Import Prelude Float64 Sha256 Json JsonRoundtrip Maturation Store Calibration Trust State.

(** * Dicts in the order of their keys' texts *)

Definition text_order {K V} (kt : K → string) (a b : K * V) : bool := str_leb (kt a.1) (kt b.1).
Definition by_key {K V} (kt : K → string) (d : list (K * V)) : list (K * V) := sort_by (text_order kt) d.
Definition map_vals {K V W} (h : V → W) (d : list (K * V)) : list (K * W) := (λ kv, (kv.1, h kv.2)) <$> d.

Lemma sort_by_fmap {A B} (leb : B → B → bool) (g : A → B) l : sort_by leb (g <$> l) = g <$> sort_by (λ a b, leb (g a) (g b)) l.
Proof.
  assert (∀ x l, insert_by leb (g x) (g <$> l) = g <$> insert_by (λ a b, leb (g a) (g b)) x l) as Hi.
  { intros x k. induction k as [|y t IH]; [done|]. cbn. destruct (leb (g x) (g y)); [done|]. cbn. by f_equal. }
  unfold sort_by in *. induction l as [|x t IH]; [done|]. cbn [fmap list_fmap foldr]. etrans; [|apply Hi]. f_equal. exact IH.
Qed.

Lemma norm_dict {K V} (kt : K → string) (f : V → json) d :
  norm (JObj ((λ kv, (kt kv.1, f kv.2)) <$> d)) = JObj ((λ kv, (kt kv.1, norm (f kv.2))) <$> by_key kt d).
Proof. cbn [norm]. rewrite <-list_fmap_compose, sort_by_fmap. done. Qed.

Lemma the_dict_norm {K V W} (fk : string → res K) (kt : K → string) (g : json → res W) (f : V → json) (h : V → W) d :
  (∀ k, fk (kt k) = Ok k) → (∀ v, g (norm (f v)) = Ok (h v)) →
  the_dict fk g (norm (JObj ((λ kv, (kt kv.1, f kv.2)) <$> d))) = Ok (map_vals h (by_key kt d)).
Proof.
  intros Hk Hg. rewrite norm_dict. unfold the_dict. cbn [as_dict mbind res_bind]. generalize (by_key kt d). intros l.
  induction l as [|[k v] t IH]; [done|]. cbn in *. rewrite Hk. cbn. rewrite Hg. cbn. by rewrite IH.
Qed.

Lemma read_zkey_ok z : read_zkey (zkey z) = Ok z.
Proof. unfold read_zkey, zkey. by rewrite String.list_ascii_of_string_of_list_ascii, read_number_str. Qed.

Lemma dget_map_vals {K V W} `{EqDecision K} (h : V → W) k (d : list (K * V)) : dget k (map_vals h d) = h <$> dget k d.
Proof. induction d as [|[k' v] t IH]; [done|]. cbn. by case_decide. Qed.

Lemma field_norm {A} k (g : json → res A) o j v :
  NoDup o.*1 → dget k o = Some j → g (norm j) = Ok v → field k g (norm (JObj o)) = Ok v.
Proof.
  intros Hn Hk Hg. unfold field. cbn [norm getitem].
  rewrite (dget_perm k (map_vals norm o)); [|unfold map_vals; by rewrite <-list_fmap_compose|apply sort_by_perm].
  rewrite dget_map_vals, Hk. exact Hg.
Qed.

Lemma bind_reads {A B} (r : res A) (k : A → res B) v w : r = Ok v → k v = Ok w → (r ≫= k) = Ok w.
Proof. by intros ->. Qed.

Lemma mapM_norm {A B} (g : json → res B) (f : A → json) (h : A → B) l :
  (∀ x, g (norm (f x)) = Ok (h x)) → mapM_res g (norm <$> (f <$> l)) = Ok (h <$> l).
Proof. intros H. induction l as [|x t IH]; [done|]. cbn in *. rewrite H. cbn. by rewrite IH. Qed.

Lemma the_list_norm {A B} (g : json → res B) (f : A → json) (h : A → B) l :
  (∀ x, g (norm (f x)) = Ok (h x)) → the_list g (norm (JArr (f <$> l))) = Ok (h <$> l).
Proof. intros H. unfold the_list. cbn [norm as_list mbind res_bind]. by apply mapM_norm. Qed.

Lemma opt_int_reads o : the_opt the_int (norm (opt_int o)) = Ok o.
Proof. by destruct o. Qed.
Lemma opt_str_reads o : the_opt the_str (norm (opt_str o)) = Ok o.
Proof. by destruct o. Qed.

Lemma ints_read l : the_list the_int (norm (JArr (JInt <$> l))) = Ok l.
Proof. rewrite (the_list_norm the_int JInt id) by done. by rewrite list_fmap_id. Qed.

(** One field after another of an object whose keys are known. *)
Ltac known_keys := apply (bool_decide_unpack _); vm_compute; exact I.
Ltac read_field := eapply bind_reads; [eapply field_norm; [known_keys|reflexivity|]|cbn beta].
Create HintDb reads.
#[local] Hint Resolve opt_int_reads opt_str_reads ints_read : reads.
Ltac read_fields := repeat (read_field; [first [reflexivity | solve [eauto with reads]]|]).

(** * The state with its dicts in text order *)

Definition norm_bucket (b : bucket) : bucket := {|
  ints := (λ f, (f, bint f b)) <$> _INTS; floats := (λ f, (f, bfloat f b)) <$> _FLOATS |}.

Definition norm_ledger (l : ledger) : ledger :=
  set_pending (by_key zkey (pending l)) (set_buckets (map_vals norm_bucket (by_key zkey (buckets l))) l).

Definition norm_pair (p : pair_state) : pair_state := {|
  ps_epoch := ps_epoch p; ps_challenger := ps_challenger p; ps_baseline := ps_baseline p;
  ps_recipes := by_key id (ps_recipes p); ps_pending := by_key zkey (ps_pending p);
  ps_buckets := by_key zkey (ps_buckets p); ps_last_seq := ps_last_seq p |}.

Definition norm_selection (s : selection) : selection := {|
  sel_epoch := sel_epoch s; sel_selected := sel_selected s; sel_recipe := sel_recipe s; sel_since_s := sel_since_s s;
  sel_switches := sel_switches s; sel_entry_since := by_key id (sel_entry_since s) |}.

Definition norm_trust (t : trust_state) : trust_state := {|
  ts_hyst := by_key id (ts_hyst t); ts_selection := norm_selection <$> ts_selection t |}.

Definition norm_model (m : model_state) : model_state := {|
  m_recipe := m_recipe m; m_calibration := m_calibration m; m_ledger := norm_ledger (m_ledger m) |}.

Definition norm_state (s : epoch_state) : epoch_state := {|
  e_epoch := e_epoch s; e_last_outcome_seq := e_last_outcome_seq s; e_last_issuance_seq := e_last_issuance_seq s;
  e_models := map_vals norm_model (by_key id (e_models s)); e_trust := norm_trust (e_trust s);
  e_pairs := map_vals norm_pair (by_key id (e_pairs s)) |}.

(** * Each part reads back *)

Lemma cal_reads s : cal_of (norm (JObj (cal_fields s))) = Ok s.
Proof.
  unfold cal_of, cal_fields. read_fields.
  read_field; [apply (the_list_norm _ (λ x : Z * f64, JArr [JInt x.1; JFloat x.2]) id); by intros []|]. read_fields.
  rewrite list_fmap_id. by destruct s as [? ? ? ? ? ? ? [] [] ? ?].
Qed.
#[local] Hint Resolve cal_reads : reads.

Lemma bucket_reads b : bucket_of (norm (bucket_json b)) = Ok (norm_bucket b).
Proof.
  assert (∀ f j v (g : json → res v) x, dget f (((λ f, (f, JInt (bint f b))) <$> _INTS) ++ ((λ f, (f, JFloat (bfloat f b))) <$> _FLOATS)) = Some j →
    g (norm j) = Ok x → field f g (norm (bucket_json b)) = Ok x) as Hf.
  { intros f j v g x Hj Hg. eapply field_norm; [known_keys|exact Hj|exact Hg]. }
  unfold bucket_of. eapply bind_reads; [|cbn beta].
  - unfold _INTS. cbn [mapM_res]. repeat (eapply bind_reads; [eapply bind_reads; [eapply Hf; reflexivity|reflexivity]|eapply bind_reads; [|reflexivity]]). reflexivity.
  - eapply bind_reads; [|reflexivity].
    unfold _FLOATS. cbn [mapM_res]. repeat (eapply bind_reads; [eapply bind_reads; [eapply Hf; reflexivity|reflexivity]|eapply bind_reads; [|reflexivity]]). reflexivity.
Qed.

Lemma totals_reads t : totals_of (norm (JObj (totals_fields t))) = Ok t.
Proof. unfold totals_of, totals_fields. read_fields. by destruct t. Qed.
#[local] Hint Resolve totals_reads : reads.

(** A dict whose keys are integers, and one whose keys are texts. *)
Lemma zdict_reads {V W} (g : json → res W) (f : V → json) (h : V → W) d :
  (∀ v, g (norm (f v)) = Ok (h v)) → the_dict read_zkey g (norm (zdict f d)) = Ok (map_vals h (by_key zkey d)).
Proof. intros H. unfold zdict. apply (the_dict_norm read_zkey zkey); [apply read_zkey_ok|done]. Qed.
Lemma sdict_reads {V W} (g : json → res W) (f : V → json) (h : V → W) d :
  (∀ v, g (norm (f v)) = Ok (h v)) → the_dict Ok g (norm (sdict f d)) = Ok (map_vals h (by_key id d)).
Proof. intros H. unfold sdict. by apply (the_dict_norm Ok id). Qed.

Lemma map_vals_id {K V} (d : list (K * V)) : map_vals id d = d.
Proof. unfold map_vals. rewrite <-(list_fmap_id d) at 2. apply list_fmap_ext. by intros i [k v]. Qed.

Lemma zdict_reads_id {V} (g : json → res V) (f : V → json) d :
  (∀ v, g (norm (f v)) = Ok v) → the_dict read_zkey g (norm (zdict f d)) = Ok (by_key zkey d).
Proof. intros H. rewrite (zdict_reads g f id) by done. by rewrite map_vals_id. Qed.
Lemma sdict_reads_id {V} (g : json → res V) (f : V → json) d :
  (∀ v, g (norm (f v)) = Ok v) → the_dict Ok g (norm (sdict f d)) = Ok (by_key id d).
Proof. intros H. rewrite (sdict_reads g f id) by done. by rewrite map_vals_id. Qed.

Lemma ledger_reads l : ledger_of (norm (JObj (ledger_fields l))) = Ok (norm_ledger l).
Proof.
  unfold ledger_of, ledger_fields. read_fields.
  read_field; [by apply (zdict_reads _ _ norm_bucket), bucket_reads|]. read_field; [by apply zdict_reads_id|].
  read_fields. by destruct l as [? ? ? ? ? ? ? ? ? ? ? ? ? ? []].
Qed.

Lemma pending_pair_reads x : pending_pair_of (norm (pending_pair_json x)) = Ok x.
Proof. by destruct x as [[m loss] iss]. Qed.
Lemma pair_bucket_reads b : pair_bucket_of (norm (JObj (pair_bucket_fields b))) = Ok b.
Proof. unfold pair_bucket_of, pair_bucket_fields. read_fields. by destruct b. Qed.

Lemma pair_reads p : pair_of (norm (JObj (pair_fields p))) = Ok (norm_pair p).
Proof.
  unfold pair_of, pair_fields. read_fields. read_field; [by apply sdict_reads_id|].
  read_field; [by apply zdict_reads_id, pending_pair_reads|]. read_field; [by apply zdict_reads_id, pair_bucket_reads|].
  read_fields. done.
Qed.

Lemma hysteresis_reads h : hysteresis_of (norm (JObj (hysteresis_fields h))) = Ok h.
Proof. unfold hysteresis_of, hysteresis_fields. read_fields. by destruct h. Qed.

Lemma selection_reads s : selection_of (norm (JObj (selection_fields s))) = Ok (norm_selection s).
Proof. unfold selection_of, selection_fields. read_fields. read_field; [by apply sdict_reads_id|]. done. Qed.

Lemma model_reads m : model_of (norm (JObj (model_fields m))) = Ok (norm_model m).
Proof.
  unfold model_of, model_fields. read_fields. read_field; [apply ledger_reads|]. done.
Qed.

(** Sorting and dropping a key commute. *)
Lemma key_leb_total {A} (a b : string * A) : key_leb a b = true ∨ key_leb b a = true.
Proof. apply str_leb_total. Qed.
Lemma key_leb_trans {A} (a b c : string * A) : key_leb a b = true → key_leb b c = true → key_leb a c = true.
Proof. apply str_leb_trans. Qed.
Lemma key_sorted {A} (l : list (string * A)) : StronglySorted (λ a b, key_leb a b = true) (sort_by key_leb l).
Proof.
  apply (sort_by_sorted _ (λ _, True)); [intros; apply key_leb_total|intros ? ? ? _ _ _; apply key_leb_trans|by apply Forall_true].
Qed.

Lemma ddel_other {V} (k : string) (d : list (string * V)) : k ∉ d.*1 → ddel k d = d.
Proof.
  intros Hk. unfold ddel. induction d as [|[k' v] t IH]; [done|]. cbn in Hk. apply not_elem_of_cons in Hk as [? ?].
  rewrite filter_cons, decide_True by (by apply not_eq_sym). by rewrite IH.
Qed.

Definition trust_wf (t : trust_state) : Prop := NoDup (ts_hyst t).*1 ∧ SELECTION ∉ (ts_hyst t).*1.

Definition trust_fields (t : trust_state) : list (string * json) :=
  ((λ kv, (kv.1, JObj (hysteresis_fields kv.2))) <$> ts_hyst t)
  ++ match ts_selection t with Some s => [(SELECTION, JObj (selection_fields s))] | None => [] end.

Lemma trust_fields_keys t : (trust_fields t).*1 = (ts_hyst t).*1 ++ match ts_selection t with Some _ => [SELECTION] | None => [] end.
Proof. unfold trust_fields. rewrite fmap_app, <-list_fmap_compose. by destruct (ts_selection t). Qed.

Lemma trust_fields_nodup t : trust_wf t → NoDup (trust_fields t).*1.
Proof.
  intros [Hn Hs]. rewrite trust_fields_keys. destruct (ts_selection t); [by apply NoDup_snoc|by rewrite app_nil_r].
Qed.

Lemma trust_reads t : trust_wf t → trust_of (norm (trust_json t)) = Ok (norm_trust t).
Proof.
  intros Hw. pose proof (trust_fields_nodup t Hw) as Hn. destruct Hw as [Hh Hs]. unfold trust_of, trust_json.
  fold (trust_fields t). cbn [norm as_dict mbind res_bind].
  assert (ddel SELECTION (sort_by key_leb (map_vals norm (trust_fields t)))
          = sort_by key_leb (map_vals norm ((λ kv, (kv.1, JObj (hysteresis_fields kv.2))) <$> ts_hyst t))) as Ed.
  { unfold ddel. rewrite (filter_sort_by key_leb) by (first [apply key_leb_total|apply key_leb_trans]). f_equal. unfold trust_fields, map_vals. rewrite fmap_app, filter_app.
    change (filter _ (_ <$> (_ <$> ts_hyst t))) with (ddel SELECTION ((λ kv : string * json, (kv.1, norm kv.2)) <$> ((λ kv : string * hysteresis, (kv.1, JObj (hysteresis_fields kv.2))) <$> ts_hyst t))).
    rewrite ddel_other by (by rewrite <-!list_fmap_compose). destruct (ts_selection t) as [s|]; [|by rewrite app_nil_r].
    cbn [fmap list_fmap fst snd]. rewrite filter_cons, decide_False by (intros H; by apply H). by rewrite app_nil_r. }
  change ((λ kv : string * json, (kv.1, norm kv.2)) <$> trust_fields t) with (map_vals norm (trust_fields t)).
  rewrite Ed.
  change (JObj (sort_by key_leb (map_vals norm ((λ kv, (kv.1, JObj (hysteresis_fields kv.2))) <$> ts_hyst t))))
    with (norm (sdict (λ h, JObj (hysteresis_fields h)) (ts_hyst t))).
  eapply bind_reads; [apply sdict_reads_id, hysteresis_reads|cbn beta].
  rewrite (dget_perm SELECTION (map_vals norm (trust_fields t))); [|unfold map_vals; by rewrite <-list_fmap_compose|apply sort_by_perm].
  rewrite dget_map_vals. unfold norm_trust. destruct (ts_selection t) as [s|] eqn:Es.
  - assert (dget SELECTION (trust_fields t) = Some (JObj (selection_fields s))) as ->.
    { apply elem_of_dget; [done|]. unfold trust_fields. rewrite Es. apply elem_of_app. right. by left. }
    cbn [fmap option_fmap option_map]. rewrite selection_reads. done.
  - assert (dget SELECTION (trust_fields t) = None) as ->; [|done].
    apply dget_None. rewrite trust_fields_keys, Es, app_nil_r. done.
Qed.

(** * Printing what was read back *)

Lemma dumps_norm j : ∀ s, dumps j = Ok s → dumps (norm j) = Ok s.
Proof.
  induction j as [|b|z|x|t|l IH|o IH] using json_ind'; intros s H; try exact H; cbn [dumps norm] in *; ok_inv H; subst.
  - match goal with E : mapM_res dumps l = Ok ?ss |- _ => assert (mapM_res dumps (norm <$> l) = Ok ss) as -> end; [|done].
    match goal with E : mapM_res dumps l = Ok ?ss |- _ => rename ss into ys; revert ys E end.
    induction IH as [|j t Hj _ IHt]; intros ys E; [done|]. cbn [mapM_res] in E. ok_inv E. subst. cbn [fmap list_fmap mapM_res].
    erewrite Hj by eassumption. cbn [mbind res_bind]. by erewrite IHt by eassumption.
  - match goal with E : mapM_res _ o = Ok ?ss |- _ => rename ss into kvs; rename E into Ho end.
    assert (Forall2 (λ (x : string * json) (y : string * list ascii), x.1 = y.1 ∧ dumps x.2 = Ok y.2)
              (map_vals norm o) kvs) as Hf.
    { revert kvs Ho. induction IH as [|[k j] t Hj _ IHt]; intros kvs Ho; cbn [mapM_res] in Ho; [injection Ho as <-; constructor|].
      ok_inv Ho. subst. match goal with E : mbind _ _ = Ok _ |- _ => ok_inv E; subst end. constructor; [split; [done|]; cbn; by apply Hj|by apply IHt]. }
      apply (Forall2_sort_by (λ x y, dumps x = Ok y)) in Hf. fold (map_vals norm o).
    assert (mapM_res (λ kv : string * json, s0 ← dumps kv.2; Ok (kv.1, s0)) (sort_by key_leb (map_vals norm o)) = Ok (sort_by key_leb kvs)) as ->.
    { clear Ho IH. revert Hf. generalize (sort_by key_leb (map_vals norm o)) as a, (sort_by key_leb kvs) as b. intros a b.
      induction 1 as [|[k j] [k' y] a b [Hk Hj] _ IHf]; [done|]. cbn in Hk, Hj. subst. cbn [mapM_res fst snd]. rewrite Hj. cbn [mbind res_bind]. by rewrite IHf. }
    cbn [mbind res_bind]. by rewrite (sort_by_id _ (sort_by _ _)) by apply key_sorted.
Qed.

(** Whether a value has a text is a matter of its elements. *)
Lemma mapM_res_all {A B} (f : A → res B) l ys : mapM_res f l = Ok ys → Forall (λ x, ∃ y, f x = Ok y) l.
Proof.
  revert ys. induction l as [|x t IH]; intros ys H; [constructor|]. cbn [mapM_res] in H. ok_inv H. constructor; eauto.
Qed.

Lemma dumps_of_norm j s : dumps (norm j) = Ok s → ∃ t, dumps j = Ok t.
Proof.
  revert s. induction j as [|b|z|x|t|l IH|o IH] using json_ind'; intros s H; try (by eauto); cbn [dumps norm] in *; ok_inv H; subst.
  - destruct (mapM_res_total dumps l) as [ys ->]; [|by eauto].
    match goal with E : mapM_res _ _ = Ok _ |- _ => apply mapM_res_all in E; rewrite Forall_fmap in E; rename E into Hl end.
    rewrite Forall_forall in *. intros v Hv. destruct (Hl v Hv) as [y Hy]. by eapply IH.
  - destruct (mapM_res_total (λ kv : string * json, s ← dumps kv.2; Ok (kv.1, s)) o) as [ys ->]; [|by eauto].
    match goal with E : mapM_res _ _ = Ok _ |- _ => apply mapM_res_all in E; rewrite sort_by_perm, Forall_fmap in E; rename E into Hl end.
    rewrite Forall_forall in *. intros kv Hx. destruct (Hl kv Hx) as [y Hy]. cbn in Hy. ok_inv Hy.
    match goal with E : dumps _ = Ok _ |- _ => destruct (IH kv Hx _ E) as [t ->] end. by eexists.
Qed.

(** The text is determined by the normal form. *)
Lemma canonical_same j k s : norm j = norm k → canonical_json j = Ok s → canonical_json k = Ok s.
Proof.
  unfold canonical_json. intros E H. ok_inv H. subst.
  match goal with A : dumps j = Ok _ |- _ => apply dumps_norm in A; rewrite E in A; rename A into Hk end.
  destruct (dumps_of_norm k _ Hk) as [t Ht]. apply dumps_norm in Ht as Ht'. rewrite Hk in Ht'. injection Ht' as <-. by rewrite Ht.
Qed.

Lemma norm_obj_ext o o' : map_vals norm o = map_vals norm o' → norm (JObj o) = norm (JObj o').
Proof. unfold map_vals. cbn [norm]. by intros ->. Qed.

Lemma by_key_idem {K V} (kt : K → string) (d : list (K * V)) : by_key kt (by_key kt d) = by_key kt d.
Proof.
  unfold by_key. apply sort_by_id. apply (sort_by_sorted _ (λ _, True)); [intros; apply str_leb_total|intros ? ? ? _ _ _; apply str_leb_trans|by apply Forall_true].
Qed.

Lemma by_key_perm {K V} (kt : K → string) (d : list (K * V)) : by_key kt d ≡ₚ d.
Proof. apply sort_by_perm. Qed.

Lemma by_key_map {K V W} (kt : K → string) (h : V → W) (d : list (K * V)) : by_key kt (map_vals h d) = map_vals h (by_key kt d).
Proof. unfold by_key, map_vals. by rewrite (sort_by_fmap (text_order kt)). Qed.

Lemma dict_again {K V} (kt : K → string) (f : V → json) (h : V → V) d : (∀ v, norm (f (h v)) = norm (f v)) →
  norm (JObj ((λ kv, (kt kv.1, f kv.2)) <$> map_vals h (by_key kt d))) = norm (JObj ((λ kv, (kt kv.1, f kv.2)) <$> d)).
Proof.
  intros Hh. rewrite !norm_dict, by_key_map, by_key_idem. unfold map_vals. rewrite <-list_fmap_compose. f_equal.
  apply list_fmap_ext. intros i [k v] _. unfold compose. cbn [fst snd]. by rewrite Hh.
Qed.

Lemma zdict_again {V} (f : V → json) (h : V → V) d : (∀ v, norm (f (h v)) = norm (f v)) →
  norm (zdict f (map_vals h (by_key zkey d))) = norm (zdict f d).
Proof. apply (dict_again zkey). Qed.
Lemma sdict_again {V} (f : V → json) (h : V → V) d : (∀ v, norm (f (h v)) = norm (f v)) →
  norm (sdict f (map_vals h (by_key id d))) = norm (sdict f d).
Proof. apply (dict_again id). Qed.
Lemma zdict_again_id {V} (f : V → json) d : norm (zdict f (by_key zkey d)) = norm (zdict f d).
Proof. rewrite <-(map_vals_id (by_key zkey d)). by apply zdict_again. Qed.
Lemma sdict_again_id {V} (f : V → json) d : norm (sdict f (by_key id d)) = norm (sdict f d).
Proof. rewrite <-(map_vals_id (by_key id d)). by apply sdict_again. Qed.

Lemma bucket_again b : norm (bucket_json (norm_bucket b)) = norm (bucket_json b).
Proof. reflexivity. Qed.

Lemma ledger_again l : norm (JObj (ledger_fields (norm_ledger l))) = norm (JObj (ledger_fields l)).
Proof.
  apply norm_obj_ext. unfold map_vals, ledger_fields, norm_ledger. cbn [fmap list_fmap fst snd set_pending set_buckets l_epoch l_model
    l_recipe interval_s buckets pending recent consecutive_misses first_prospective_s first_issue_s last_prospective_outcome_s
    last_outcome_seq last_issuance_seq newest_s l_totals].
  rewrite (zdict_again bucket_json norm_bucket) by apply bucket_again. by rewrite zdict_again_id.
Qed.

Lemma pair_again p : norm (JObj (pair_fields (norm_pair p))) = norm (JObj (pair_fields p)).
Proof.
  apply norm_obj_ext. unfold map_vals, pair_fields, norm_pair. cbn [fmap list_fmap fst snd ps_epoch ps_challenger ps_baseline ps_recipes
    ps_pending ps_buckets ps_last_seq].
  by rewrite sdict_again_id, !zdict_again_id.
Qed.

Lemma model_again m : norm (JObj (model_fields (norm_model m))) = norm (JObj (model_fields m)).
Proof.
  apply norm_obj_ext. unfold map_vals, model_fields. cbn [fmap list_fmap fst snd norm_model m_recipe m_calibration m_ledger].
  by rewrite ledger_again.
Qed.

Lemma selection_again s : norm (JObj (selection_fields (norm_selection s))) = norm (JObj (selection_fields s)).
Proof.
  apply norm_obj_ext. unfold map_vals, selection_fields. cbn [fmap list_fmap fst snd norm_selection sel_epoch sel_selected sel_recipe
    sel_since_s sel_switches sel_entry_since]. by rewrite sdict_again_id.
Qed.

Lemma sorted_perm {A} (l k : list (string * A)) : NoDup l.*1 → l ≡ₚ k → sort_by key_leb l = sort_by key_leb k.
Proof.
  intros Hn Hp. assert (sort_by key_leb l ≡ₚ sort_by key_leb k) as Hs by (by rewrite !sort_by_perm).
  assert (NoDup (sort_by key_leb l).*1) as Hn' by (by rewrite sort_by_perm).
  revert Hs Hn'. generalize (key_sorted l), (key_sorted k). generalize (sort_by key_leb l) as a, (sort_by key_leb k) as b.
  intros a b Ha. revert b. induction Ha as [|x t Ht IH Hx]; intros b Hb Hs Hn'; [by apply Permutation_nil_l in Hs as ->|].
  destruct Hb as [|y u Hu Hy]; [by apply Permutation_nil_r in Hs|].
  assert (x = y) as ->.
  { assert (x ∈ y :: u) as Hin by (rewrite <-Hs; left). assert (y ∈ x :: t) as Hin' by (rewrite Hs; left).
    apply elem_of_cons in Hin as [|Hin]; [done|]. apply elem_of_cons in Hin' as [->|Hin']; [done|].
    rewrite Forall_forall in Hx, Hy. specialize (Hx y Hin'). specialize (Hy x Hin).
    assert (x.1 = y.1) as E by (by apply str_leb_antisymm). eapply NoDup_fmap_inj; [exact Hn'|by left|by right|done]. }
  f_equal. apply IH; [done|by apply Permutation_cons_inv in Hs|]. cbn in Hn'. by apply NoDup_cons in Hn' as [_ ?].
Qed.

Lemma trust_again t : trust_wf t → norm (trust_json (norm_trust t)) = norm (trust_json t).
Proof.
  intros Hw. pose proof (trust_fields_nodup t Hw) as Hn. unfold trust_json. fold (trust_fields t). fold (trust_fields (norm_trust t)).
  cbn [norm]. f_equal. symmetry. apply sorted_perm; [by rewrite <-list_fmap_compose|].
  unfold trust_fields. rewrite !fmap_app. apply Permutation_app.
  - cbn [norm_trust ts_hyst]. by rewrite by_key_perm.
  - cbn [norm_trust ts_selection]. destruct (ts_selection t) as [s|]; [|done]. cbn [fmap option_fmap option_map list_fmap fst snd].
    by rewrite selection_again.
Qed.

Lemma state_again s : trust_wf (e_trust s) → norm (state_json (norm_state s)) = norm (state_json s).
Proof.
  intros Hw. apply norm_obj_ext. unfold map_vals, state_fields. cbn [fmap list_fmap fst snd norm_state e_epoch e_last_outcome_seq
    e_last_issuance_seq e_models e_trust e_pairs].
  rewrite trust_again by done. rewrite (sdict_again _ norm_model) by apply model_again.
  by rewrite (sdict_again _ norm_pair) by apply pair_again.
Qed.

(** * States as the code builds them *)

(** Every dict of the state has each of its keys once. *)
Record state_wf (s : epoch_state) : Prop := {
  sw_models : NoDup (e_models s).*1;
  sw_ledgers : Forall (λ km, NoDup (buckets (m_ledger km.2)).*1 ∧ NoDup (pending (m_ledger km.2)).*1) (e_models s);
  sw_trust : trust_wf (e_trust s);
  sw_selection : ∀ sel, ts_selection (e_trust s) = Some sel → NoDup (sel_entry_since sel).*1;
  sw_pairs : NoDup (e_pairs s).*1;
  sw_pair : Forall (λ kp, NoDup (ps_recipes kp.2).*1 ∧ NoDup (ps_pending kp.2).*1 ∧ NoDup (ps_buckets kp.2).*1) (e_pairs s);
}.

#[local] Instance zkey_inj : Inj eq eq zkey.
Proof. intros a b E. pose proof (read_zkey_ok a) as H. rewrite E, read_zkey_ok in H. congruence. Qed.

Lemma zdict_distinct {V} (f : V → json) d : NoDup d.*1 → (∀ k v, (k, v) ∈ d → distinct_keys (f v)) → distinct_keys (zdict f d).
Proof.
  intros Hn Hf. unfold zdict. constructor.
  - rewrite <-list_fmap_compose. change (NoDup (zkey ∘ fst <$> d)). rewrite list_fmap_compose. by apply (NoDup_fmap_2 zkey).
  - rewrite Forall_fmap, Forall_forall. intros [k v] Hx. by apply (Hf k).
Qed.
Lemma sdict_distinct {V} (f : V → json) d : NoDup d.*1 → (∀ k v, (k, v) ∈ d → distinct_keys (f v)) → distinct_keys (sdict f d).
Proof.
  intros Hn Hf. unfold sdict. constructor; [by rewrite <-list_fmap_compose|].
  rewrite Forall_fmap, Forall_forall. intros [k v] Hx. by apply (Hf k).
Qed.

(** An object of known keys. *)
Ltac each_value :=
  lazymatch goal with
  | |- Forall _ [] => constructor
  | |- Forall _ (_ :: _) => constructor; [cbn [snd]; try (by constructor)|each_value]
  end.
Ltac known_object := constructor; [known_keys|each_value].

Lemma opt_int_distinct o : distinct_keys (opt_int o).
Proof. destruct o; constructor. Qed.
Lemma opt_str_distinct o : distinct_keys (opt_str o).
Proof. destruct o; constructor. Qed.
Lemma ints_distinct l : distinct_keys (JArr (JInt <$> l)).
Proof. constructor. apply Forall_fmap, Forall_forall. intros; constructor. Qed.
Create HintDb distinct.
#[local] Hint Resolve opt_int_distinct opt_str_distinct ints_distinct : distinct.

Lemma bucket_distinct b : distinct_keys (bucket_json b).
Proof. unfold bucket_json. constructor; [known_keys|]. cbn [_INTS _FLOATS fmap list_fmap app]. each_value. Qed.

Lemma cal_distinct s : distinct_keys (JObj (cal_fields s)).
Proof.
  unfold cal_fields. known_object; auto with distinct.
  - constructor. apply Forall_fmap, Forall_forall. intros x _. repeat constructor.
  - known_object.
  - known_object.
Qed.

Lemma ledger_distinct l : NoDup (buckets l).*1 → NoDup (pending l).*1 → distinct_keys (JObj (ledger_fields l)).
Proof.
  intros Hb Hp. unfold ledger_fields. known_object; auto with distinct.
  - apply zdict_distinct; [done|]. intros; apply bucket_distinct.
  - apply zdict_distinct; [done|]. intros; constructor.
  - unfold totals_fields. known_object.
Qed.

Lemma pair_distinct p : NoDup (ps_recipes p).*1 → NoDup (ps_pending p).*1 → NoDup (ps_buckets p).*1 → distinct_keys (JObj (pair_fields p)).
Proof.
  intros H1 H2 H3. unfold pair_fields. known_object; auto with distinct.
  - apply sdict_distinct; [done|]. intros; constructor.
  - apply zdict_distinct; [done|]. intros k [[m x] i] _. repeat constructor.
  - apply zdict_distinct; [done|]. intros k b _. unfold pair_bucket_fields. known_object.
Qed.

Lemma trust_distinct t : trust_wf t → (∀ sel, ts_selection t = Some sel → NoDup (sel_entry_since sel).*1) → distinct_keys (trust_json t).
Proof.
  intros Hw Hs. constructor; [by apply trust_fields_nodup|]. apply Forall_app. split.
  - apply Forall_fmap, Forall_forall. intros [k h] _. cbn [snd]. unfold hysteresis_fields. known_object; auto with distinct.
  - destruct (ts_selection t) as [sel|]; [|constructor]. constructor; [|constructor]. cbn [snd]. unfold selection_fields.
    known_object; auto with distinct. apply sdict_distinct; [by apply Hs|]. intros; constructor.
Qed.

Lemma state_distinct s : state_wf s → distinct_keys (state_json s).
Proof.
  intros [H1 H2 H3 H4 H5 H6]. unfold state_json, state_fields. known_object; auto with distinct.
  - apply sdict_distinct; [done|]. intros k m Hm. rewrite Forall_forall in H2. destruct (H2 _ Hm) as [Hb Hp].
    unfold model_fields. known_object; auto using cal_distinct, ledger_distinct.
  - by apply trust_distinct.
  - apply sdict_distinct; [done|]. intros k p Hp. rewrite Forall_forall in H6. destruct (H6 _ Hp) as (? & ? & ?). by apply pair_distinct.
Qed.

Lemma state_reads s : trust_wf (e_trust s) → state_of (norm (state_json s)) = Ok (norm_state s).
Proof.
  intros Hw. unfold state_of, state_json, state_fields. read_fields.
  read_field; [apply (sdict_reads _ _ norm_model), model_reads|]. read_field; [by apply trust_reads|].
  read_field; [apply (sdict_reads _ _ norm_pair), pair_reads|]. done.
Qed.

(** Two ledgers no operation on a single hour, window end or field tells apart. *)
Definition same_ledger (l l' : ledger) : Prop :=
  l' = set_pending (pending l') (set_buckets (buckets l') l)
  ∧ (∀ e, dget e (pending l') = dget e (pending l)) ∧ (buckets l').*1 ≡ₚ (buckets l).*1
  ∧ ∀ t, (∀ f, f ∈ _INTS → bint f (_bucket l' t) = bint f (_bucket l t))
         ∧ (∀ f, f ∈ _FLOATS → bfloat f (_bucket l' t) = bfloat f (_bucket l t)).

Lemma norm_bucket_int b f : f ∈ _INTS → bint f (norm_bucket b) = bint f b.
Proof. unfold _INTS. rewrite !elem_of_cons, elem_of_nil. intros H. repeat (destruct H as [->|H]; [reflexivity|]). done. Qed.
Lemma norm_bucket_float b f : f ∈ _FLOATS → bfloat f (norm_bucket b) = bfloat f b.
Proof. unfold _FLOATS. rewrite !elem_of_cons, elem_of_nil. intros H. repeat (destruct H as [->|H]; [reflexivity|]). done. Qed.

Lemma dget_by_key {K V} `{EqDecision K} (kt : K → string) k (d : list (K * V)) : NoDup d.*1 → dget k (by_key kt d) = dget k d.
Proof.
  intros Hn. destruct (dget k d) as [v|] eqn:E.
  - apply elem_of_dget; [by rewrite by_key_perm|]. rewrite by_key_perm. by apply dget_elem_of.
  - apply dget_None. rewrite by_key_perm. by apply dget_None.
Qed.

Lemma norm_ledger_same l : NoDup (buckets l).*1 → NoDup (pending l).*1 → same_ledger l (norm_ledger l).
Proof.
  intros Hb Hp. split_and!.
  - by destruct l.
  - intros e. by apply dget_by_key.
  - cbn [norm_ledger set_pending set_buckets buckets]. unfold map_vals. rewrite <-list_fmap_compose.
    change (fst ∘ _) with (fst (A := Z) (B := bucket)). by rewrite by_key_perm.
  - intros t. unfold _bucket. cbn [norm_ledger set_pending set_buckets buckets]. rewrite dget_map_vals, dget_by_key by done.
    destruct (dget (t / HOUR) (buckets l)) as [b|]; cbn [fmap option_fmap option_map or_default]; [|done].
    split; intros f Hf; [by apply norm_bucket_int|by apply norm_bucket_float].
Qed.

(** C30: What the service journals is what it reads back: the epoch state written as a checkpoint is decoded from its bytes
    with every counter, level, score, hysteresis, selection and pair unchanged (only the order of the dicts becomes that of
    their keys), and writing the state that was read gives the same bytes, so a restart adds no checkpoint of its own. *)
Theorem checkpoint_roundtrip s text : state_wf s → canonical_json (state_json s) = Ok text →
  (j ← loads text; state_of j) = Ok (norm_state s)
  ∧ canonical_json (state_json (norm_state s)) = Ok text
  ∧ (∀ k m, dget k (e_models s) = Some m → ∃ m', dget k (e_models (norm_state s)) = Some m' ∧ m_recipe m' = m_recipe m
      ∧ m_calibration m' = m_calibration m ∧ same_ledger (m_ledger m) (m_ledger m'))
  ∧ (∀ k, dget k (ts_hyst (e_trust (norm_state s))) = dget k (ts_hyst (e_trust s))).
Proof.
  intros Hw Ht. pose proof (sw_trust _ Hw) as Hwt. split_and!.
  - rewrite (loads_canonical_json _ _ (state_distinct s Hw) Ht). by apply state_reads.
  - refine (canonical_same _ _ _ _ Ht). symmetry. by apply state_again.
  - intros k m Hm. exists (norm_model m). cbn [norm_state e_models]. rewrite dget_map_vals, dget_by_key, Hm by apply Hw. split_and!; try done.
    pose proof (sw_ledgers _ Hw) as Hl. rewrite Forall_forall in Hl. destruct (Hl _ (dget_elem_of _ _ _ Hm)). by apply norm_ledger_same.
  - intros k. apply dget_by_key, Hwt.
Qed.

(** A state whose buckets are not in the order of their texts ("9" comes after "10"). *)
Definition demo_ledger : ledger :=
  set_pending [(39600, 43320); (36000, 39720)] (set_buckets [(9, bump "iss" 1 new_bucket); (10, fbump "pin" (f64_of_Z 3) (bump "g_bd" 2 new_bucket))]
    (new_ledger "epoch" "statistical" "e1-product/v1" 600)).
Definition demo_state : epoch_state := {|
  e_epoch := "epoch"; e_last_outcome_seq := 7; e_last_issuance_seq := 9;
  e_models := [("statistical", {| m_recipe := "e1-product/v1";
    m_calibration := initial demo_policy "epoch" "statistical" "e1-product/v1"; m_ledger := demo_ledger |})];
  e_trust := {| ts_hyst := [("statistical", new_hysteresis "e1-product/v1" "epoch"); ("seasonal_naive", new_hysteresis "n" "epoch")];
                ts_selection := Some (new_selection (Some "epoch")) |};
  e_pairs := [("statistical", new_pairs "epoch" "statistical" "e1-product/v1" "n" NAIVE)] |}.
Definition demo_state_text : string := Eval vm_compute in match canonical_json (state_json demo_state) with Ok t => t | Raise _ => EmptyString end.

Lemma demo_state_text_eq : canonical_json (state_json demo_state) = Ok demo_state_text.
Proof. vm_compute. reflexivity. Qed.

Lemma demo_state_wf : state_wf demo_state.
Proof.
  split; [known_keys| |split; known_keys|intros sel [= <-]; constructor|known_keys|].
  - constructor; [|constructor]. split; known_keys.
  - constructor; [|constructor]. split_and!; known_keys.
Qed.

Lemma checkpoint_roundtrip_witness :
  (j ← loads demo_state_text; state_of j) = Ok (norm_state demo_state)
  ∧ ((λ km : string * model_state, (buckets (m_ledger km.2)).*1) <$> e_models (norm_state demo_state)) = [[10; 9]].
Proof.
  destruct (checkpoint_roundtrip _ _ demo_state_wf demo_state_text_eq) as [H _]. split; [exact H|reflexivity].
Defined.
