(* ===== verification/Datasets.v ===== *)
(** [evaluation/datasets.py]: replay datasets. A dataset is a manifest and one CSV file; the manifest pins the file's
    bytes, and loading checks all of it, row by row. The CSV reader, [int()] and [float()] are the language's, written out
    for what the loader gives them: ASCII text. The main theorem is that a dataset that was written loads as what was
    written. *)
From Stdlib Require Import SpecFloat Ascii.
From S2P Require Import Prelude Float64 Sha256 Json JsonRoundtrip Numbers Identity Contracts Maturation Calibration Trust State.

Definition MANIFEST_SCHEMA : string := "forecast-dataset/v1".
Definition CSV_HEADER : list string := ["event_time"; "value_rps"; "available_at_ms"].
Definition AVAILABILITY_MODES : list string := ["per_sample"; "settlement"].
Definition SOURCE_KINDS : list string := ["synthetic"; "archive"; "public"].
Definition MAX_DATA_BYTES : Z := 268435456.
Definition _MANIFEST_KEYS : list string :=
  ["schema"; "name"; "version"; "description"; "source"; "license"; "attribution"; "units"; "interval_seconds"; "timezone";
   "series"; "availability"; "exclusions"; "extraction"; "data_file"; "data_sha256"; "rows"].

Record Observation := { event_time : Z; value_rps : f64; available_at_ms : Z }.

Record Dataset := { manifest : list (string * json); manifest_sha256 : string; observations : list Observation }.

Record Exclusion := { ex_start : Z; ex_end : Z; ex_reason : string }.

Definition exclusion_of (v : json) : res Exclusion :=
  s ← field "start" the_int v; e ← field "end" the_int v; r ← field "reason" the_str v;
  Ok {| ex_start := s; ex_end := e; ex_reason := r |}.

(** The manifest's exclusions, all read at once; the manifest's check has seen each of them. *)
Definition exclusions (d : Dataset) : res (list Exclusion) :=
  l ← field "exclusions" as_list (JObj (manifest d)); mapM_res exclusion_of l.

(** The reason of the first exclusion window that holds a time. *)
Definition excluded (l : list Exclusion) (t : Z) : option string :=
  option_map ex_reason (List.find (λ e, (ex_start e <=? t) && (t <? ex_end e)) l).

Definition invalid (why : string) : exn := DatasetInvalid why.

(** * Rows *)

(** The availability of a manifest: its mode and its settlement delay. *)
Definition check_row (interval : Z) (mode : string) (settle : Z) (last : option Z) (o : Observation) : res (option Z) :=
  raise_if negb (event_time o mod interval =? 0) with invalid "event time is off the grid" ;;
  raise_if match last with Some l => event_time o <=? l | None => false end
    with invalid "event time is duplicate or unordered" ;;
  raise_if negb (is_finite (value_rps o) && (f0 ≤ᶠ value_rps o)) with invalid "value is not a finite, non-negative rate" ;;
  raise_if available_at_ms o <? event_time o * 1000 with invalid "sample is available before it happened" ;;
  raise_if bool_decide (mode = "settlement") && negb (available_at_ms o =? (event_time o + settle) * 1000)
    with invalid "sample does not follow the declared settlement delay" ;;
  Ok (Some (event_time o)).

Definition _check_observations (obs : list Observation) (interval : Z) (mode : string) (settle : Z) : res () :=
  _ ← foldM (check_row interval mode settle) None obs; Ok ().

(** * The manifest *)

(** [set(d) == keys] for the keys of a dict. *)
Definition keys_are (d : list (string * json)) (keys : list string) : bool :=
  forallb (λ k, dhas k d) keys && forallb (λ kv, bool_decide (kv.1 ∈ keys)) d.

Definition is_str (v : json) : bool := match v with JStr _ => true | _ => false end.
Definition str_in (v : json) (l : list string) : bool := existsb (λ s, py_eq v (JStr s)) l.
Definition ends_with (suffix : string) (s : string) : bool :=
  let n := String.length suffix in let m := String.length s in
  (n <=? m)%nat && bool_decide (String.substring (m - n) n s = suffix).

(** [os.path.basename(p) == p] holds when there is no slash. *)
Definition plain_name (s : string) : bool := forallb (λ c, negb (is_char 47 c)) (chars s).

Definition exclusion_ok (v : json) : bool :=
  match v with
  | JObj ex => keys_are ex ["start"; "end"; "reason"] &&
               match oget "start" ex, oget "end" ex, oget "reason" ex with
               | JInt s, JInt e, JStr r => (s <? e) && negb (bool_decide (r = EmptyString)) | _, _, _ => false end
  | _ => false
  end.

Definition _check_manifest (v : json) : res () :=
  raise_if match v with JObj m => negb (keys_are m _MANIFEST_KEYS) | _ => true end with invalid "manifest keys differ" ;;
  m ← as_dict v;
  let it k := oget k m in
  raise_if negb (py_eq (it "schema") (JStr MANIFEST_SCHEMA)) || negb (py_eq (it "units") (JStr UNIT))
           || negb (py_eq (it "timezone") (JStr "UTC")) with invalid "unsupported schema, units or timezone" ;;
  raise_if negb (existsb (λ i, py_eq (it "interval_seconds") (JInt i)) ALLOWED_INTERVALS)
    with invalid "interval is not an admitted cadence" ;;
  raise_if negb (forallb (λ k, is_str (it k) && truthy (it k))
                   ["name"; "version"; "description"; "attribution"; "series"; "data_file"])
    with invalid "manifest entry must be a non-empty string" ;;
  df ← the_str (it "data_file");
  raise_if negb (plain_name df) || bool_decide (df ∈ ["."; ".."]) || negb (ends_with ".csv" df)
    with invalid "data_file must be a plain .csv file name next to the manifest" ;;
  raise_if match it "source" with JObj src => negb (str_in (oget "kind" src) SOURCE_KINDS) | _ => true end
    with invalid "source.kind must be one of" ;;
  raise_if match it "license" with JObj lic => negb (is_str (oget "name" lic) && truthy (oget "name" lic)) | _ => true end
    with invalid "every dataset names its license" ;;
  raise_if match it "extraction" with
           | JObj ext => negb (forallb (λ k, is_str (oget k ext) && truthy (oget k ext)) ["command"; "version"]) | _ => true end
    with invalid "extraction needs a command and a version" ;;
  raise_if match it "availability" with
           | JObj av => negb (str_in (oget "mode" av) AVAILABILITY_MODES
                              && match oget "settlement_seconds" av with JInt s => 0 <=? s | _ => false end
                              && keys_are av ["mode"; "settlement_seconds"])
           | _ => true end with invalid "availability must declare a mode and a settlement delay" ;;
  raise_if match it "exclusions" with JArr _ => false | _ => true end with invalid "exclusions must be a list" ;;
  exs ← as_list (it "exclusions");
  raise_if negb (forallb exclusion_ok exs) with invalid "malformed exclusion" ;;
  raise_if negb (match it "data_sha256" with JStr s => (String.length s =? 64)%nat | _ => false end) || negb (is_int (it "rows"))
    with invalid "data_sha256 and rows are required" ;;
  Ok ().

(** * CSV *)

Definition comma : ascii := ascii_of_nat 44.
Definition newline : ascii := ascii_of_nat 10.

(** [csv.writer] on values whose text needs no quotes. *)
Fixpoint join_cells (l : list (list ascii)) : list ascii :=
  match l with [] => [] | s :: t => match t with [] => s | _ => s ++ comma :: join_cells t end end.
Definition csv_line (cells : list (list ascii)) : list ascii := join_cells cells ++ [newline].

(** [repr] of a float, the values no JSON text has included. *)
Definition py_repr (x : f64) : res (list ascii) :=
  match x with
  | S754_nan => Ok (chars "nan")
  | S754_infinity neg => Ok (chars (if neg then "-inf" else "inf"))
  | _ => of_option PyTypeError (float_repr x)
  end.

Definition row_cells (o : Observation) : res (list (list ascii)) :=
  v ← py_repr (value_rps o);
  Ok [str_of_Z (event_time o); v; str_of_Z (available_at_ms o)].

Definition _encode_csv (obs : list Observation) : res string :=
  rows ← mapM_res row_cells obs;
  Ok (String.string_of_list_ascii (concat (csv_line <$> ((chars <$> CSV_HEADER) :: rows)))).

(** The reader's states, as in the language's module. *)
Inductive csv_state := StartRecord | StartField | InField | InQuoted | QuoteInQuoted | EatCrnl.

Record csv_reader := { cs_state : csv_state; cs_field : list ascii; cs_fields : list (list ascii) }.

Definition FIELD_LIMIT : Z := 131072.
Definition save_field (st : csv_state) (r : csv_reader) : csv_reader :=
  {| cs_state := st; cs_field := []; cs_fields := cs_fields r ++ [cs_field r] |}.
Definition at_state (st : csv_state) (r : csv_reader) : csv_reader :=
  {| cs_state := st; cs_field := cs_field r; cs_fields := cs_fields r |}.
(** A field beyond the limit is an error of the reader. *)
Definition add_char (st : csv_state) (c : ascii) (r : csv_reader) : option csv_reader :=
  if FIELD_LIMIT <=? Z.of_nat (length (cs_field r)) then None
  else Some {| cs_state := st; cs_field := cs_field r ++ [c]; cs_fields := cs_fields r |}.

Definition is_eol (c : ascii) : bool := is_char 10 c || is_char 13 c.

Definition start_field (c : ascii) (r : csv_reader) : option csv_reader :=
  if is_eol c then Some (save_field EatCrnl r)
  else if is_char 34 c then Some (at_state InQuoted r)
  else if is_char 44 c then Some (save_field StartField r)
  else add_char InField c r.

(** One character of a line; nothing for an error. *)
Definition csv_char (c : ascii) (r : csv_reader) : option csv_reader :=
  match cs_state r with
  | StartRecord => if is_eol c then Some (at_state EatCrnl r) else start_field c r
  | StartField => start_field c r
  | InField => if is_eol c then Some (save_field EatCrnl r) else if is_char 44 c then Some (save_field StartField r)
               else add_char InField c r
  | InQuoted => if is_char 34 c then Some (at_state QuoteInQuoted r) else add_char InQuoted c r
  | QuoteInQuoted => if is_char 34 c then add_char InQuoted c r else if is_char 44 c then Some (save_field StartField r)
                     else if is_eol c then Some (save_field EatCrnl r) else add_char InField c r
  | EatCrnl => if is_eol c then Some r else None
  end.

(** The end of a line. *)
Definition csv_eol (r : csv_reader) : csv_reader :=
  match cs_state r with
  | StartRecord | InQuoted => r
  | StartField | InField | QuoteInQuoted => save_field StartRecord r
  | EatCrnl => at_state StartRecord r
  end.

Definition fresh_record : csv_reader := {| cs_state := StartRecord; cs_field := []; cs_fields := [] |}.

(** A record is complete when a line ends outside quotes. *)
Definition end_line (r : csv_reader) (rows : list (list (list ascii))) : csv_reader * list (list (list ascii)) :=
  let r' := csv_eol r in
  match cs_state r' with StartRecord => (fresh_record, rows ++ [cs_fields r']) | _ => (r', rows) end.

(** [list(csv.reader(io.StringIO(text)))]; [pending] tells whether the last line has begun. *)
Fixpoint csv_rows (r : csv_reader) (pending : bool) (rows : list (list (list ascii))) (l : list ascii)
    : option (list (list (list ascii))) :=
  match l with
  | [] =>
      let '(r', rows') := if pending then end_line r rows else (r, rows) in
      match cs_state r' with InQuoted => Some (rows' ++ [cs_fields r' ++ [cs_field r']]) | _ => Some rows' end
  | c :: t =>
      r' ← csv_char c r;
      if is_char 10 c then let '(r2, rows2) := end_line r' rows in csv_rows r2 false rows2 t
      else csv_rows r' true rows t
  end.

(** * Writing and loading *)

Definition read_row (r : list (list ascii)) : res Observation :=
  match r with
  | [t; v; a] =>
      match py_int t, py_float v, py_int a with
      | Some t, Some v, Some a => Ok {| event_time := t; value_rps := v; available_at_ms := a |}
      | _, _, _ => Raise (invalid "malformed row")
      end
  | _ => Raise (invalid "malformed row")
  end.

Definition is_ascii (s : string) : bool := forallb (λ c, (nat_of_ascii c <? 128)%nat) (chars s).

(** The interval, mode and settlement delay that the rows are checked against; a cadence written as a float is the integer
    it equals. *)
Definition row_rules (m : list (string * json)) : res (Z * string * Z) :=
  i ← of_option PyTypeError (List.find (λ i, py_eq (oget "interval_seconds" m) (JInt i)) ALLOWED_INTERVALS);
  mode ← field "mode" the_str (oget "availability" m);
  s ← field "settlement_seconds" the_int (oget "availability" m);
  Ok (i, mode, s).

(** What is read from disk: the manifest's text, the size of the data file and its bytes. *)
Definition load_data (m : list (string * json)) (size : Z) (data : string) : res Dataset :=
  raise_if MAX_DATA_BYTES <? size with invalid "data file is larger than the replay limit" ;;
  raise_if negb (py_eq (JStr (sha256_hex data)) (oget "data_sha256" m))
    with invalid "data file does not match the manifest's data_sha256" ;;
  raise_if negb (is_ascii data) with invalid "data file is not ASCII CSV" ;;
  rows ← of_option (invalid "data file is not ASCII CSV") (csv_rows fresh_record false [] (chars data));
  match rows with
  | header :: rest =>
      raise_if negb (bool_decide (header = chars <$> CSV_HEADER)) with invalid "data header must be" ;;
      obs ← mapM_res read_row rest;
      raise_if negb (py_eq (JInt (Z.of_nat (length obs))) (oget "rows" m)) with invalid "row count differs from the manifest" ;;
      '(i, mode, s) ← row_rules m;
      _ ← _check_observations obs i mode s;
      text ← canonical_json (JObj m);
      Ok {| manifest := m; manifest_sha256 := sha256_hex text; observations := obs |}
  | [] => Raise (invalid "data header must be")
  end.

Definition load_dataset (manifest_text : string) (size : Z) (data : string) : res Dataset :=
  j ← match loads manifest_text with Raise (PyValueError _) => Raise (invalid "manifest is not JSON") | r => r end;
  _ ← _check_manifest j;
  m ← as_dict j;
  load_data m size data.

(** The arguments of [write_dataset] that go into the manifest as they are. *)
Record dataset_spec := {
  w_name : string; w_version : string; w_description : string; w_source : list (string * json); w_interval_seconds : Z;
  w_series : string; w_availability : list (string * json); w_extraction : list (string * json);
  w_exclusions : list (list (string * json)); w_license : list (string * json); w_attribution : string;
}.

(** The manifest and the bytes of the data file, once everything is checked. *)
Definition write_dataset (w : dataset_spec) (obs : list Observation) : res (list (string * json) * string) :=
  data ← _encode_csv obs;
  let m := [("schema", JStr MANIFEST_SCHEMA); ("name", JStr (w_name w)); ("version", JStr (w_version w));
            ("description", JStr (w_description w)); ("source", JObj (w_source w)); ("license", JObj (w_license w));
            ("attribution", JStr (w_attribution w)); ("units", JStr UNIT); ("interval_seconds", JInt (w_interval_seconds w));
            ("timezone", JStr "UTC"); ("series", JStr (w_series w)); ("availability", JObj (w_availability w));
            ("exclusions", JArr (JObj <$> w_exclusions w)); ("extraction", JObj (w_extraction w));
            ("data_file", JStr (w_name w +:+ ".csv")); ("data_sha256", JStr (sha256_hex data));
            ("rows", JInt (Z.of_nat (length obs)))] in
  _ ← _check_manifest (JObj m);
  '(i, mode, s) ← row_rules m;
  _ ← _check_observations obs i mode s;
  Ok (m, data).

(** Observations that arrive a settlement delay after their event time, some later, some never. *)
Definition with_receipts (values : list (Z * f64)) (settlement_s : Z) (delays_ms : list (Z * Z)) (missing : list Z) : list Observation :=
  (λ tv : Z * f64, {| event_time := tv.1; value_rps := tv.2;
                      available_at_ms := (tv.1 + settlement_s) * 1000 + or_default 0 (dget tv.1 delays_ms) |})
    <$> filter (λ tv : Z * f64, tv.1 ∉ missing) values.

(** * Numbers read back *)

Lemma num_char_field c : is_num_char c = true → is_char 44 c = false ∧ is_char 34 c = false ∧ is_eol c = false
  ∧ (nat_of_ascii c <? 128)%nat = true.
Proof. destruct c as [[] [] [] [] [] [] [] []]; vm_compute; intros H; try discriminate H; split_and!; reflexivity. Qed.

(** * Rows read back *)

Definition cell_ok (s : list ascii) : Prop :=
  s ≠ [] ∧ Forall (λ c, is_char 44 c = false ∧ is_char 34 c = false ∧ is_eol c = false ∧ (nat_of_ascii c <? 128)%nat = true) s
  ∧ Z.of_nat (length s) ≤ FIELD_LIMIT.

Definition line_start (st : csv_state) : Prop := st = StartRecord ∨ st = StartField.

Lemma eol_newline c : is_eol c = false → is_char 10 c = false.
Proof. unfold is_eol. intros H. by bool_prop. Qed.

Lemma read_in_field s f fs rows l :
  Forall (λ c, is_char 44 c = false ∧ is_char 34 c = false ∧ is_eol c = false ∧ (nat_of_ascii c <? 128)%nat = true) s →
  Z.of_nat (length f + length s) ≤ FIELD_LIMIT →
  csv_rows {| cs_state := InField; cs_field := f; cs_fields := fs |} true rows (s ++ l)
  = csv_rows {| cs_state := InField; cs_field := f ++ s; cs_fields := fs |} true rows l.
Proof.
  revert f. induction s as [|c t IH]; intros f Hs Hlen; [by rewrite app_nil_r|]. apply Forall_cons in Hs as [(H44 & H34 & He & _) Ht].
  cbn [app csv_rows csv_char cs_state]. rewrite He, H44. unfold add_char. cbn [cs_field cs_fields length] in *.
  destruct (Z.leb_spec FIELD_LIMIT (Z.of_nat (length f))); [lia|]. cbn [mbind option_bind]. rewrite (eol_newline c He).
  rewrite IH by (try done; rewrite length_app; cbn; lia). by rewrite <-app_assoc.
Qed.

Lemma read_cell st b s fs rows l : line_start st → cell_ok s →
  csv_rows {| cs_state := st; cs_field := []; cs_fields := fs |} b rows (s ++ l)
  = csv_rows {| cs_state := InField; cs_field := s; cs_fields := fs |} true rows l.
Proof.
  intros Hst (Hne & Hs & Hlen). destruct s as [|c t]; [done|]. apply Forall_cons in Hs as [(H44 & H34 & He & _) Ht].
  cbn [app csv_rows]. assert (csv_char c {| cs_state := st; cs_field := []; cs_fields := fs |}
    = Some {| cs_state := InField; cs_field := [c]; cs_fields := fs |}) as ->.
  { destruct Hst as [->| ->]; cbn [csv_char cs_state]; unfold start_field; rewrite He, ?H34, ?H44; reflexivity. }
  cbn [mbind option_bind]. rewrite (eol_newline c He). rewrite read_in_field; [done|done|cbn in *; lia].
Qed.

Lemma read_line cells st b fs rows l : cells ≠ [] → Forall cell_ok cells → line_start st →
  csv_rows {| cs_state := st; cs_field := []; cs_fields := fs |} b rows (csv_line cells ++ l)
  = csv_rows fresh_record false (rows ++ [fs ++ cells]) l.
Proof.
  unfold csv_line. revert st b fs. induction cells as [|s t IH]; intros st b fs Hne Hc Hst; [done|]. apply Forall_cons in Hc as [Hs Ht].
  cbn [join_cells]. destruct t as [|s2 t].
  - rewrite <-app_assoc, read_cell by done. reflexivity.
  - rewrite <-!app_assoc, read_cell by done. cbn [app csv_rows csv_char cs_state mbind option_bind].
    change (is_eol comma) with false. change (is_char 44 comma) with true. change (is_char 10 comma) with false. cbn match.
    unfold save_field. cbn [cs_field cs_fields mbind option_bind].
    specialize (IH StartField true (fs ++ [s]) ltac:(done) Ht ltac:(by right)). rewrite <-!app_assoc in IH. exact IH.
Qed.

Lemma read_lines ls rows : Forall (λ cells, cells ≠ [] ∧ Forall cell_ok cells) ls →
  csv_rows fresh_record false rows (concat (csv_line <$> ls)) = Some (rows ++ ls).
Proof.
  revert rows. induction ls as [|x t IH]; intros rows H; [by rewrite app_nil_r|]. apply Forall_cons in H as [[Hne Hx] Ht].
  cbn [fmap list_fmap concat]. unfold fresh_record at 1. rewrite read_line by (done || by left). cbn [app]. rewrite IH by done. by rewrite <-app_assoc.
Qed.

(** The interpreter prints and reads integers of at most 4300 digits; a float takes far fewer characters. *)
Definition short_cells (o : Observation) : Prop :=
  ∀ cells, row_cells o = Ok cells → Forall (λ s, Z.of_nat (length s) ≤ MAX_STR_DIGITS) cells.

Lemma number_cell tok v : read_number tok = Some v → Z.of_nat (length tok) ≤ MAX_STR_DIGITS → cell_ok tok.
Proof.
  intros H Hl. destruct (read_number_shape tok v H) as [Hall (c & t & Hs & _)]. split_and!.
  - destruct Hs as [->|(m & _ & ->)]; done.
  - eapply Forall_impl; [exact Hall|]. intros x Hx. destruct (num_char_field x Hx) as (? & ? & ? & ?). done.
  - unfold FIELD_LIMIT, MAX_STR_DIGITS in *. lia.
Qed.

Lemma row_reads o cells : row_cells o = Ok cells → is_finite (value_rps o) = true → short_cells o →
  read_row cells = Ok o ∧ cells ≠ [] ∧ Forall cell_ok cells.
Proof.
  intros H Hf Hs. specialize (Hs cells H). unfold row_cells in H. ok_inv H. subst cells. rename x into v.
  assert (read_number v = Some (inr (value_rps o))) as Hv.
  { apply float_repr_reads. unfold py_repr in H0. destruct (value_rps o); try discriminate Hf; by apply of_option_ok in H0. }
  pose proof (read_number_str (event_time o)) as Ht. pose proof (read_number_str (available_at_ms o)) as Ha.
  rewrite !Forall_cons in Hs. destruct Hs as (Hs1 & Hs2 & Hs3 & _). split_and!; [|done|].
  - cbn [read_row]. rewrite (py_int_number _ _ Ht), (py_int_number _ _ Ha), (py_float_number _ _ Hv) by done. by destruct o.
  - rewrite !Forall_cons. split_and!; [by eapply number_cell..|constructor].
Qed.

Lemma check_rows_finite i mode s last obs r : foldM (check_row i mode s) last obs = Ok r → Forall (λ o, is_finite (value_rps o) = true) obs.
Proof.
  revert last. induction obs as [|o t IH]; intros last H; [constructor|]. cbn [foldM] in H. ok_inv H.
  match goal with E : check_row _ _ _ _ _ = Ok _ |- _ => unfold check_row in E; ok_inv E end. bool_prop. constructor; [done|by eapply IH].
Qed.

Lemma cells_ascii s : cell_ok s → forallb (λ c, (nat_of_ascii c <? 128)%nat) s = true.
Proof.
  intros (_ & H & _). apply forallb_forall. intros c Hc%list_elem_of_In. rewrite Forall_forall in H. by apply H.
Qed.

Lemma line_ascii cells : Forall cell_ok cells → forallb (λ c, (nat_of_ascii c <? 128)%nat) (csv_line cells) = true.
Proof.
  intros H. unfold csv_line. rewrite forallb_app. apply andb_true_iff. split; [|done].
  induction H as [|s t Hs _ IH]; [done|]. cbn [join_cells]. destruct t; [by apply cells_ascii|].
  rewrite forallb_app. apply andb_true_iff. split; [by apply cells_ascii|done].
Qed.

Lemma lines_ascii ls : Forall (λ cells, cells ≠ [] ∧ Forall cell_ok cells) ls →
  forallb (λ c, (nat_of_ascii c <? 128)%nat) (concat (csv_line <$> ls)) = true.
Proof.
  induction 1 as [|x t [_ Hx] _ IH]; [done|]. cbn [fmap list_fmap concat]. rewrite forallb_app. apply andb_true_iff.
  split; [by apply line_ascii|done].
Qed.

Lemma header_ok : chars <$> CSV_HEADER ≠ [] ∧ Forall cell_ok (chars <$> CSV_HEADER).
Proof. split; [done|]. repeat (constructor; [split_and!; [done|repeat (constructor; [by vm_compute|]); constructor|by vm_compute]|]). constructor. Qed.

Lemma encode_reads obs data : _encode_csv obs = Ok data → Forall (λ o, is_finite (value_rps o) = true) obs → Forall short_cells obs →
  is_ascii data = true ∧ ∃ rows, csv_rows fresh_record false [] (chars data) = Some ((chars <$> CSV_HEADER) :: rows)
    ∧ mapM_res read_row rows = Ok obs.
Proof.
  unfold _encode_csv. intros (rows & Hr & H)%bind_ok Hf Hs. apply (f_equal (λ r, match r with Ok a => a | Raise _ => EmptyString end)) in H.
  assert (mapM_res read_row rows = Ok obs ∧ Forall (λ cells, cells ≠ [] ∧ Forall cell_ok cells) rows) as [Hm Hok].
  { clear H. revert rows Hr. induction obs as [|o t IH]; intros rows Hr; [injection Hr as <-; by split; [|constructor]|].
    apply Forall_cons in Hf as [Hf1 Hf2]. apply Forall_cons in Hs as [Hs1 Hs2]. cbn in Hr.
    apply bind_ok in Hr as (c & Hc & Hr). apply bind_ok in Hr as (cs & Hcs & Hr). injection Hr as <-.
    destruct (row_reads o c Hc Hf1 Hs1) as (Hrr & Hne & Hco). destruct (IH Hf2 Hs2 cs Hcs) as [Hmm Hoo].
    split; [|by constructor]. cbn. rewrite Hrr. cbn. fold (mapM_res read_row). by rewrite Hmm. }
  assert (Forall (λ cells, cells ≠ [] ∧ Forall cell_ok cells) ((chars <$> CSV_HEADER) :: rows)) as Hall
    by (constructor; [apply header_ok|done]).
  assert (chars data = concat (csv_line <$> (chars <$> CSV_HEADER) :: rows)) as Hd
    by (rewrite <-H; apply String.list_ascii_of_string_of_list_ascii).
  unfold is_ascii. rewrite Hd. split; [by apply lines_ascii|]. exists rows. split; [|done]. by rewrite read_lines.
Qed.

(** C28: A dataset that was written loads as what was written: the manifest passes its own check again, the CSV text of
    the data file reads back row by row as the very same observations, floats and the sign of zero included, its digest
    is the one the manifest pins, and the dataset is identified by the digest of the manifest's canonical text. *)
Theorem dataset_roundtrip w obs m data text :
  write_dataset w obs = Ok (m, data) → Forall short_cells obs → Z.of_nat (String.length data) ≤ MAX_DATA_BYTES →
  canonical_json (JObj m) = Ok text →
  _check_manifest (JObj m) = Ok () ∧
  load_data m (Z.of_nat (String.length data)) data = Ok {| manifest := m; manifest_sha256 := sha256_hex text; observations := obs |}.
Proof.
  intros H Hs Hsize Ht. unfold write_dataset in H. apply bind_ok in H as (data' & Henc & H). cbv zeta in H.
  match type of H with context [_check_manifest (JObj ?q)] => remember q as m' eqn:Em end.
  apply bind_ok in H as ([] & Hm & H). apply bind_ok in H as ([[i mode] s] & Hr & H). apply bind_ok in H as ([] & Ho & H).
  injection H as -> ->. split; [done|]. pose proof Ho as Hrows. unfold _check_observations in Hrows.
  apply bind_ok in Hrows as (r & Hrows & _). apply check_rows_finite in Hrows.
  destruct (encode_reads obs data Henc Hrows Hs) as (Ha & rows & Hc & Hrd). unfold load_data.
  rewrite (proj2 (Z.ltb_ge _ _) Hsize), Ha, Hc. cbn [negb of_option mbind res_bind].
  assert (oget "data_sha256" m = JStr (sha256_hex data) ∧ oget "rows" m = JInt (Z.of_nat (length obs))) as [-> ->] by (by rewrite Em).
  cbn [py_eq num_of num_eq]. rewrite !bool_decide_true by done. cbn [negb]. rewrite Hrd. cbn [mbind res_bind py_eq num_of num_eq].
  rewrite Z.eqb_refl. cbn [negb]. rewrite Hr. cbn [mbind res_bind]. rewrite Ho. cbn [mbind res_bind]. rewrite Ht. done.
Qed.

(** A small dataset. *)
Definition demo_spec : dataset_spec := {|
  w_name := "demo"; w_version := "1"; w_description := "synthetic daily series"; w_source := [("kind", JStr "synthetic")];
  w_interval_seconds := 60; w_series := "synthetic/daily";
  w_availability := [("mode", JStr "settlement"); ("settlement_seconds", JInt 120)];
  w_extraction := [("command", JStr "demo"); ("version", JStr "1")];
  w_exclusions := [[("start", JInt 120); ("end", JInt 180); ("reason", JStr "maintenance")]];
  w_license := [("name", JStr "Apache-2.0")]; w_attribution := "synthetic" |}.

Definition demo_values : list (Z * f64) := [(60, idiv 1 10); (120, f64_of_Z 3); (180, S754_zero true); (240, idiv 22 7)].
Definition demo_observations : list Observation := with_receipts demo_values 120 [] [].
Definition demo_manifest : list (string * json) := match write_dataset demo_spec demo_observations with Ok (m, _) => m | Raise _ => [] end.
Definition demo_csv : string := match write_dataset demo_spec demo_observations with Ok (_, d) => d | Raise _ => EmptyString end.
Definition demo_text : string := match canonical_json (JObj demo_manifest) with Ok t => t | Raise _ => EmptyString end.
Definition demo_dataset : Dataset :=
  {| manifest := demo_manifest; manifest_sha256 := sha256_hex demo_text; observations := demo_observations |}.

Lemma dataset_roundtrip_witness :
  write_dataset demo_spec demo_observations = Ok (demo_manifest, demo_csv) ∧
  load_data demo_manifest (Z.of_nat (String.length demo_csv)) demo_csv = Ok demo_dataset.
Proof.
  assert (write_dataset demo_spec demo_observations = Ok (demo_manifest, demo_csv)) as H by (by vm_compute).
  split; [exact H|].
  assert (canonical_json (JObj demo_manifest) = Ok demo_text) as Ht by (by vm_compute).
  assert (Forall short_cells demo_observations) as Hs.
  { unfold short_cells. repeat (apply Forall_cons; split; [intros cells E; vm_compute in E; injection E as <-; repeat (constructor; [by vm_compute|]); constructor|]).
    constructor. }
  assert (Z.of_nat (String.length demo_csv) ≤ MAX_DATA_BYTES) as Hz by (by vm_compute).
  exact (proj2 (dataset_roundtrip demo_spec demo_observations demo_manifest demo_csv demo_text H Hs Hz Ht)).
Defined.

(** * What a loaded dataset promises *)

Record observations_ok (obs : list Observation) (dt : Z) : Prop := {
  ok_increasing : StronglySorted Z.lt (event_time <$> obs);
  ok_grid : Forall (λ o, event_time o mod dt = 0) obs;
  ok_values : Forall (λ o, is_finite (value_rps o) = true ∧ (f0 ≤ᶠ value_rps o) = true) obs;
  ok_receipts : Forall (λ o, event_time o * 1000 ≤ available_at_ms o) obs;
}.

Lemma check_rows_ok i mode s last obs r : foldM (check_row i mode s) last obs = Ok r →
  observations_ok obs i ∧ ∀ l, last = Some l → Forall (λ o, l < event_time o) obs.
Proof.
  revert last. induction obs as [|o t IH]; intros last H.
  { split; [|intros; constructor]. split; constructor. }
  cbn [foldM] in H. apply bind_ok in H as (l1 & Hc & H). unfold check_row in Hc. ok_inv Hc. bool_prop. subst l1.
  destruct (IH _ H) as [[] Hlt]. specialize (Hlt _ eq_refl). split.
  - split; cbn; try (constructor; done). constructor; [done|]. apply Forall_fmap. eapply Forall_impl; [exact Hlt|]. done.
  - intros l ->. bool_prop. constructor; [done|]. eapply Forall_impl; [exact Hlt|]. cbn. lia.
Qed.

Lemma check_observations_ok obs i mode s : _check_observations obs i mode s = Ok () → observations_ok obs i.
Proof. unfold _check_observations. intros (r & H & _)%bind_ok. by apply check_rows_ok in H as [? _]. Qed.

Lemma load_data_ok m size data d : load_data m size data = Ok d →
  manifest d = m ∧ ∃ i mode s, row_rules m = Ok (i, mode, s) ∧ observations_ok (observations d) i.
Proof.
  unfold load_data. intros H. do 4 (first [apply raise_if_ok in H as [_ H]|apply bind_ok in H as (?rows & _ & H)]).
  destruct rows as [|header rest]; [discriminate|]. apply raise_if_ok in H as [_ H]. apply bind_ok in H as (obs & _ & H).
  apply raise_if_ok in H as [_ H]. apply bind_ok in H as ([[i mode] s] & Hr & H). apply bind_ok in H as ([] & Ho & H).
  apply bind_ok in H as (text & _ & H). injection H as <-. split; [done|]. exists i, mode, s. split; [done|].
  by eapply check_observations_ok.
Qed.

(** The manifest's check admits a cadence written as a float, which the replay then cannot step by. *)
Example float_cadence_admitted :
  (_check_manifest (JObj (dset "interval_seconds" (JFloat (f64_of_Z 60)) demo_manifest)) = Ok ())
  ∧ is_ok (load_data (dset "interval_seconds" (JFloat (f64_of_Z 60)) demo_manifest) 100 demo_csv) = true.
Proof. split; by vm_compute. Qed.
