(* ===== verification/Replay.v ===== *)
(** [evaluation/forecast_replay.py]: the chronological replay of a dataset through the journal, on a manual clock. A run
    walks the decision origins; each tick records what has arrived, closes the windows that have settled, folds their
    outcomes into the state, forecasts from what is visible, commits the issuance and checkpoints the state with the tick
    it completed. A run is a computation over the journal, its clock and the number of steps it has asked of the disk; what
    the disk answers each of them is the argument [disk], so an interruption is an answer that fails. *)
From Stdlib Require Import SpecFloat.
From S2P Require Import Prelude Float64 Sha256 Json JsonRoundtrip Identity Contracts Clock Maturation Store Calibration Trust History State Datasets.

Definition REPLAY_SCHEMA : string := "forecast-replay/v1".
Definition ISSUANCE_SCHEMA : string := "forecast-issuance/v1".
Definition DAY : Z := 86400.

Record ReplayConfig := {
  first_origin : Z; last_origin : Z; lead_seconds : Z; settlement_seconds : Z; outcome_grace_seconds : Z; model_family : string;
  model_recipe : string; miscoverage_bps : Z; eta_bps : Z; min_miscoverage_bps : Z; max_miscoverage_bps : Z; min_windows : Z;
  max_scores : Z; retention_seconds : Z;
}.

Definition policy (c : ReplayConfig) : res CalibrationPolicy := mk_policy {|
  p_lead_seconds := lead_seconds c; p_nominal_bps := miscoverage_bps c; p_eta_bps := eta_bps c; p_min_bps := min_miscoverage_bps c;
  p_max_bps := max_miscoverage_bps c; p_min_windows := min_windows c; p_max_scores := max_scores c;
  p_retention_seconds := retention_seconds c |}.

Definition check (c : ReplayConfig) (interval : Z) : res () :=
  raise_if negb (forallb (λ v, v mod interval =? 0) [first_origin c; last_origin c; lead_seconds c])
    with ReplayError "must lie on the grid" ;;
  raise_if (lead_seconds c <=? 0) || (last_origin c <? first_origin c)
    with ReplayError "a positive lead and an ordered origin range are required" ;;
  raise_if (settlement_seconds c <? 0) || (outcome_grace_seconds c <? 0) with ReplayError "settlement and grace are non-negative" ;;
  Ok ().

(** [asdict(config)] *)
Definition config_json (c : ReplayConfig) : json := JObj
  [("first_origin", JInt (first_origin c)); ("last_origin", JInt (last_origin c)); ("lead_seconds", JInt (lead_seconds c));
   ("settlement_seconds", JInt (settlement_seconds c)); ("outcome_grace_seconds", JInt (outcome_grace_seconds c));
   ("model_family", JStr (model_family c)); ("model_recipe", JStr (model_recipe c)); ("miscoverage_bps", JInt (miscoverage_bps c));
   ("eta_bps", JInt (eta_bps c)); ("min_miscoverage_bps", JInt (min_miscoverage_bps c));
   ("max_miscoverage_bps", JInt (max_miscoverage_bps c)); ("min_windows", JInt (min_windows c)); ("max_scores", JInt (max_scores c));
   ("retention_seconds", JInt (retention_seconds c))].

(** * What a forecaster sees *)

Record VisibleHistory := {
  v_received : receipts; v_now_ms : Z; v_interval : Z; v_through : option Z; v_excluded : option (Z → option string);
}.

Definition _visible (h : VisibleHistory) (t : Z) : option (f64 * Z) :=
  match dget t (v_received h) with
  | None => None
  | Some (v, at_) =>
      if (v_now_ms h <? at_) || match v_through h with Some u => u <? t | None => false end then None
      else match v_excluded h with
           | Some f => match f t with
                       | Some why => if bool_decide (why = EmptyString) then Some (v, at_) else None
                       | None => Some (v, at_) end
           | None => Some (v, at_)
           end
  end.

(** [view[t]] and [view.get(t)] *)
Definition view_item (h : VisibleHistory) (t : Z) : res f64 := of_option PyKeyError (fst <$> _visible h t).
Definition view_get (h : VisibleHistory) (t : Z) : option f64 := fst <$> _visible h t.

(** [iter(view)] and [len(view)] *)
Definition view_times (h : VisibleHistory) : list Z := filter (λ t, is_Some (_visible h t)) (sort_by Z.leb (v_received h).*1).
Definition view_len (h : VisibleHistory) : Z := Z.of_nat (length (view_times h)).

Definition latest (h : VisibleHistory) : option Z :=
  foldl (λ best t, if match best with None => true | Some b => b <? t end && bool_decide (is_Some (_visible h t)) then Some t else best)
    None (v_received h).*1.

Definition received_through_ms (h : VisibleHistory) : option Z :=
  match omap (λ t, snd <$> _visible h t) (v_received h).*1 with [] => None | a :: l => Some (foldl Z.max a l) end.

Definition Forecaster : Type := VisibleHistory → Z → list Z → res (option (list f64)).

Definition last_value : Forecaster := λ h _ targets,
  match latest h with
  | None => Ok None
  | Some t => v ← view_item h t; Ok (Some (replicate (length targets) v))
  end.

Definition daily_naive : Forecaster := λ h _ targets,
  let lagged := (λ s, view_get h (s - DAY)) <$> targets in
  Ok (if existsb (λ v, bool_decide (v = None)) lagged then None else Some (omap id lagged)).

(** * The state a checkpoint holds *)

Definition initial_state (epoch : string) (p : CalibrationPolicy) (model recipe : string) : list (string * json) :=
  [("scored", JInt 0); ("unscorable", JInt 0); ("excluded", JInt 0); ("missing_truth", JInt 0); ("covered", JInt 0);
   ("missed", JInt 0); ("unbounded", JInt 0); ("abs_error_sum_rps", JFloat f0); ("last_window_end", JNull);
   ("calibration", JObj (cal_fields (initial p epoch model recipe)))].

(** [s[k] += 1] *)
Definition incr (k : string) (s : list (string * json)) : res (list (string * json)) :=
  n ← field k the_int (JObj s); Ok (dset k (JInt (n + 1)) s).

Definition fold (state : json) (o : Outcome) (issuance : option Issuance) (p : CalibrationPolicy) : res json :=
  s ← as_dict state; jp ← o_payload o;
  c ← field "calibration" cal_of state;
  iss ← of_option PyTypeError issuance; r ← from_journal iss o;
  c' ← apply c r p;
  let s := dset "last_window_end" (JInt (o_window_end o)) (dset "calibration" (JObj (cal_fields c')) s) in
  if bool_decide (o_status o = "unscorable") then
    s ← incr "unscorable" s; reason ← field "reason" the_str jp; s ← incr reason s; Ok (JObj s)
  else
    s ← incr "scored" s;
    sum ← field "abs_error_sum_rps" rate_of (JObj s); e ← field "abs_error_rps" rate_of jp;
    let s := dset "abs_error_sum_rps" (JFloat (sum ⊕ e)) s in
    covered ← getitem "covered" jp;
    s ← incr (match covered with JNull => "unbounded" | _ => if truthy covered then "covered" else "missed" end) s;
    Ok (JObj s).

Definition interval_seconds (d : Dataset) : res Z := field "interval_seconds" the_int (JObj (manifest d)).

(** The evidence key and the settings hash. *)
Definition replay_keys (d : Dataset) (c : ReplayConfig) : res (string * string) :=
  dt ← interval_seconds d;
  st ← canonical_json (JObj [("schema", JStr REPLAY_SCHEMA); ("config", config_json c); ("interval_seconds", JInt dt)]);
  let settings := sha256_hex st in
  et ← canonical_json (JObj [("schema", JStr REPLAY_SCHEMA); ("dataset", JStr (manifest_sha256 d)); ("settings", JStr settings);
                             ("forecast_contract", JStr FORECAST_CONTRACT)]);
  Ok (sha256_hex et, settings).

(** * The run *)

(** [for x in l: ...] *)
Fixpoint for_in {W A} (f : A → SE W ()) (l : list A) : SE W () := match l with [] => mret () | x :: t => _ ← f x; for_in f t end.
Fixpoint fold_in {W A S} (f : S → A → SE W S) (s : S) (l : list A) : SE W S :=
  match l with [] => mret s | x :: t => s' ← f s x; fold_in f s' t end.

(** [ForecastStore.recover] with a fold that looks into the journal. *)
Definition recover_with (ek : string) (f : json → Outcome → SE store json) (init : json) : SE store (json * Z * Z) :=
  cp ← latest_checkpoint ek;
  let '(state, last) := match cp with Some c => (c_state c, c_last_outcome_seq c) | None => (init, 0) end in
  os ← outcomes_after ek last;
  fold_in (λ '(state, _, applied) o, state' ← f state o; mret (state', o_seq o, applied + 1)) (state, last, 0) os.

(** The observations that have arrived by now, and those still to come. *)
Fixpoint arrive (now_ms : Z) (l : list Observation) : list Observation * list Observation :=
  match l with
  | o :: t => if available_at_ms o <=? now_ms then let '(a, b) := arrive now_ms t in (o :: a, b) else ([], l)
  | [] => ([], [])
  end.

(** [received.setdefault(...)] *)
Definition receive (r : receipts) (o : Observation) : receipts :=
  if dhas (event_time o) r then r else dset (event_time o) (value_rps o, available_at_ms o) r.

Definition arrival_order (a b : Observation) : bool :=
  (available_at_ms a <? available_at_ms b) || ((available_at_ms a =? available_at_ms b) && (event_time a <=? event_time b)).

Record world := { w_store : store; w_clock : option Z; w_ops : nat }.

(** Where the loop stands: the observations still to come, those received, and its two counts. *)
Record progress := { to_come : list Observation; received : receipts; issued : Z; no_forecast : Z }.

Record ReplayResult := {
  rr_evidence_key : string; rr_settings_sha256 : string; rr_issued : Z; rr_no_forecast : Z; rr_scored : json; rr_unscorable : json;
  rr_excluded : json; rr_pending : Z; rr_checkpoint : option json; rr_journal_sha256 : string;
}.

(** The run's fixed values. *)
Record replay := {
  rp_ek : string; rp_settings : string; rp_series : string; rp_source : string; rp_dt : Z; rp_policy : CalibrationPolicy;
  rp_excluded : Z → option string; rp_dataset_sha256 : string; rp_config : ReplayConfig;
}.

Section run.
Context (disk : nat → Z * option sql_error) (forecaster : Forecaster).

Definition on_store {A} (m : SE store A) : SE world A :=
  λ w, let '(r, s) := m (w_store w) in (r, {| w_store := s; w_clock := w_clock w; w_ops := w_ops w |}).

(** A step that may write: the disk answers it, and the store's clock stamps it. *)
Definition writing {A} (m : env → SE store A) : SE world A :=
  λ w, let d := disk (w_ops w) in
       let '(r, s) := m {| e_usage := d.1; e_now := or_default 0 (w_clock w); e_sql := d.2 |} (w_store w) in
       (r, {| w_store := s; w_clock := w_clock w; w_ops := S (w_ops w) |}).

Definition clock_set (ms : Z) : SE world () :=
  λ w, match w_clock w with
       | Some now => match manual_set now (JInt ms) with
                     | Ok t => (Ok (), {| w_store := w_store w; w_clock := Some t; w_ops := w_ops w |})
                     | Raise e => (Raise e, w) end
       | None => (Raise PyTypeError, w)
       end.

Section tick.
Context (p : replay).
Abbreviation c := (rp_config p).

Definition issuance_bundle (view : VisibleHistory) (t : Z) (targets : list Z) (points : list f64) (base : f64) (upper : option f64)
    (info : bound_info) (issuance_id : string) : json := JObj
  [("schema", JStr ISSUANCE_SCHEMA); ("evidence_mode", JStr "replay"); ("forecast_contract", JStr FORECAST_CONTRACT);
   ("issuance_id", JStr issuance_id); ("evidence_key", JStr (rp_ek p)); ("settings_sha256", JStr (rp_settings p));
   ("dataset_sha256", JStr (rp_dataset_sha256 p)); ("model_family", JStr (model_family c)); ("model_recipe", JStr (model_recipe c));
   ("decision_origin", JInt t); ("window_start", JInt t); ("window_end", JInt (or_default 0 (last targets)));
   ("target_timestamps", JArr (JInt <$> targets)); ("sample_interval_seconds", JInt (v_interval view));
   ("point_rps", JArr (JFloat <$> points)); ("base_window_max_rps", JFloat base); ("upper_window_max_rps", opt_float upper);
   ("nominal_miscoverage_bps", JInt (miscoverage_bps c));
   ("calibration", match info_json info with
                   | JObj o => JObj (dset "in_cohort" (JBool (in_cohort t (lead_seconds c))) o) | j => j end);
   ("issued_at_ms", JInt (v_now_ms view)); ("input_end", opt_int (latest view));
   ("input_received_through_ms", opt_int (received_through_ms view))].

Definition _issue (e : env) (view : VisibleHistory) (t : Z) (targets : list Z) (points : list f64) (state : json) : SE store Z :=
  raise_if negb (length points =? length targets)%nat || negb (forallb (λ x, is_finite x && (f0 ≤ᶠ x)) points)
    with ReplayError "the forecaster returned an invalid trajectory" ;;
  key ← lift (mk_key (rp_ek p) t t (or_default 0 (last targets)) (rp_settings p));
  base ← lift (match points with v :: vs => Ok (fmax_list v vs) | [] => Raise (PyValueError "max() iterable argument is empty") end);
  cal ← lift (field "calibration" cal_of state);
  '(upper, info) ← lift (upper_bound cal (rp_policy p) base t);
  r ← get_or_issue e key (λ id, Ok (issuance_bundle view t targets points base upper info id)) [model_family c];
  mret (b2z r.2).

(** What a window's truth says about it now: nothing while it is pending. *)
Definition verdict (r : receipts) (now_ms : Z) (iss : Issuance) : res (option (string * json)) :=
  jb ← i_payload iss; b ← as_dict jb;
  issued_outcome b (model_family c) r now_ms (settlement_seconds c) (outcome_grace_seconds c) (Some (rp_excluded p)).

(** Close one window, when it has settled. *)
Definition close (e : env) (r : receipts) (now_ms : Z) (iss : Issuance) : SE store () :=
  o ← lift (verdict r now_ms iss);
  match o with
  | Some (status, payload) => _ ← commit_outcome e (i_issuance_id iss) (model_family c) status payload; mret ()
  | None => mret ()
  end.

Definition sample_of (o : Observation) : Z * f64 * Z := (event_time o, value_rps o, available_at_ms o).

Definition ingest (e : env) (batch : list Observation) : SE store () :=
  match batch with
  | [] => mret ()
  | _ => _ ← record_observations e (rp_series p) (sample_of <$> batch) (rp_source p); mret ()
  end.

(** Folding an outcome reads its issuance from the journal. *)
Definition fold_journal (st : json) (o : Outcome) : SE store json :=
  iss ← get_issuance_by_id (o_issuance_id o); lift (fold st o iss (rp_policy p)).

Definition start_state : json := JObj (initial_state (rp_ek p) (rp_policy p) (model_family c) (model_recipe c)).

Definition targets_of (t : Z) : list Z := (λ k, t + Z.of_nat k * rp_dt p) <$> seq 1 (Z.to_nat (lead_seconds c / rp_dt p)).

(** The rest of a tick once the batch is recorded: nothing of it depends on how the receipts came about. *)
Definition decide_tick (t : Z) (r : receipts) (counts : Z * Z) : SE world (Z * Z) :=
  isss ← on_store (open_issuances (rp_ek p) (model_family c) (t - settlement_seconds c));
  _ ← for_in (λ iss, writing (λ e, close e r (t * 1000) iss)) isss;
  '(state, last, _) ← on_store (recover_with (rp_ek p) fold_journal start_state);
  through ← lift (watermark (WNumber (JInt t)) (rp_dt p) (settlement_seconds c));
  let view := {| v_received := r; v_now_ms := t * 1000; v_interval := rp_dt p; v_through := Some through;
                 v_excluded := Some (rp_excluded p) |} in
  points ← lift (forecaster view t (targets_of t));
  counts' ← match points with
            | None => mret (counts.1, counts.2 + 1)
            | Some pts => n ← writing (λ e, _issue e view t (targets_of t) pts state); mret (counts.1 + n, counts.2)
            end;
  s ← lift (as_dict state);
  _ ← writing (λ e, write_checkpoint e (rp_ek p) (JObj (dset "replay_tick" (JInt t) s)) last);
  mret counts'.

Definition tick (q : progress) (t : Z) : SE world progress :=
  _ ← clock_set (t * 1000);
  let '(batch, rest) := arrive (t * 1000) (to_come q) in
  let r := foldl receive (received q) batch in
  _ ← writing (λ e, ingest e batch);
  counts ← decide_tick t r (issued q, no_forecast q);
  mret {| to_come := rest; received := r; issued := counts.1; no_forecast := counts.2 |}.
End tick.

Definition begin (arrivals : list Observation) : progress := {| to_come := arrivals; received := []; issued := 0; no_forecast := 0 |}.

(** [checkpoint state + "replay_tick"]: where a run (re)starts. *)
Definition resume_from (c : ReplayConfig) (dt : Z) (cp : option Checkpoint) : res Z :=
  match cp with Some cp => t ← field "replay_tick" the_int (c_state cp); Ok (t + dt) | None => Ok (first_origin c) end.

(** The run's fixed values, from its arguments. *)
Definition prepare (d : Dataset) (c : ReplayConfig) : res replay :=
  dt ← interval_seconds d;
  _ ← check c dt;
  pol ← policy c;
  '(ek, settings) ← replay_keys d c;
  source ← field "data_sha256" the_str (JObj (manifest d));
  exs ← exclusions d;
  Ok {| rp_ek := ek; rp_settings := settings; rp_series := "replay:" +:+ manifest_sha256 d; rp_source := source; rp_dt := dt;
        rp_policy := pol; rp_excluded := excluded exs; rp_dataset_sha256 := manifest_sha256 d; rp_config := c |}.

(** The totals of a run, read from the journal. *)
Definition report (p : replay) (q : progress) : SE world ReplayResult :=
  let c := rp_config p in
  cp ← on_store (latest_checkpoint (rp_ek p));
  let totals := match cp with Some x => c_state x | None => start_state p end in
  pend ← on_store (open_issuances (rp_ek p) (model_family c) (last_origin c + lead_seconds c));
  scored ← lift (getitem "scored" totals); unscorable ← lift (getitem "unscorable" totals); exc ← lift (getitem "excluded" totals);
  digest ← on_store journal_digest;
  mret {| rr_evidence_key := rp_ek p; rr_settings_sha256 := rp_settings p; rr_issued := issued q; rr_no_forecast := no_forecast q;
          rr_scored := scored; rr_unscorable := unscorable; rr_excluded := exc; rr_pending := Z.of_nat (length pend);
          rr_checkpoint := c_state <$> cp; rr_journal_sha256 := digest |}.

Definition run_replay (d : Dataset) (c : ReplayConfig) : SE world ReplayResult :=
  p ← lift (prepare d c);
  cp ← on_store (latest_checkpoint (rp_ek p));
  start ← lift (resume_from c (rp_dt p) cp);
  w ← sget;
  raise_if bool_decide (w_clock w = None) with ReplayError "a replay store runs on a ManualClock" ;;
  q ← fold_in (tick p) (begin (sort_by arrival_order (observations d))) (range start (last_origin c + 1) (rp_dt p));
  report p q.
End run.
