(* ===== verification/ReplaySafety.v ===== *)
(** What a replay guarantees: nothing it does depends on an observation that has not arrived yet, and a run that was
    interrupted anywhere, any number of times, and resumed ends in the very journal of an uninterrupted run. *)
From S2P Require Import Prelude Float64 Sha256 Json JsonRoundtrip Identity Contracts Clock Maturation Store Journal Calibration Trust History State.
From S2P Require Import Datasets Replay.

Lemma arrival_total x y : arrival_order x y = true ∨ arrival_order y x = true.
Proof.
  unfold arrival_order. rewrite !orb_true_iff, !andb_true_iff, !Z.ltb_lt, !Z.eqb_eq, !Z.leb_le. lia.
Qed.
Lemma arrival_trans x y z : arrival_order x y = true → arrival_order y z = true → arrival_order x z = true.
Proof. unfold arrival_order. rewrite !orb_true_iff, !andb_true_iff, !Z.ltb_lt, !Z.eqb_eq, !Z.leb_le. lia. Qed.

(** * No look-ahead *)

Definition by_time (ms : Z) (o : Observation) : bool := available_at_ms o <=? ms.
Definition in_order (l : list Observation) : Prop := StronglySorted (λ a b, arrival_order a b = true) l.

Lemma in_order_arrivals l : in_order (sort_by arrival_order l).
Proof.
  apply (sort_by_sorted arrival_order (λ _, True)); [intros x y _ _; apply arrival_total| |by apply Forall_forall].
  intros x y z _ _ _ H1 H2. exact (arrival_trans x y z H1 H2).
Qed.

Lemma arrive_filter now l : in_order l →
  arrive now l = (filter (λ o, by_time now o) l, filter (λ o, negb (by_time now o)) l).
Proof.
  induction 1 as [|o t Hs IH Ho]; [done|]. cbn [arrive]. rewrite !filter_bool_cons. fold (by_time now o).
  destruct (by_time now o) eqn:E; cbn [negb].
  - by rewrite IH.
  - assert (Forall (λ o, by_time now o = false) t) as Hf.
    { eapply Forall_impl; [exact Ho|]. intros y. unfold arrival_order, by_time in *. rewrite orb_true_iff, andb_true_iff.
      rewrite Z.ltb_lt, Z.eqb_eq, Z.leb_le. bool_prop. rewrite Z.leb_gt. lia. }
    f_equal; [|f_equal].
    + symmetry. apply list_nil_filter. eapply Forall_impl; [exact Hf|]. intros y Hy. rewrite Hy. by intros [].
    + symmetry. apply filter_true. eapply Forall_impl; [exact Hf|]. intros y Hy. by rewrite Hy.
Qed.

Lemma filter_filter_le now T (l : list Observation) : now ≤ T → filter (λ o, by_time now o) l = filter (λ o, by_time now o) (filter (λ o, by_time T o) l).
Proof.
  intros Hn. induction l as [|o t IH]; [done|]. rewrite !filter_bool_cons. destruct (by_time T o) eqn:E.
  - by rewrite filter_bool_cons, IH.
  - assert (by_time now o = false) as -> by (unfold by_time in *; bool_prop; apply Z.leb_gt; lia). done.
Qed.
Lemma filter_swap {A} (p q : A → bool) (l : list A) : filter (λ x, p x) (filter (λ x, q x) l) = filter (λ x, q x) (filter (λ x, p x) l).
Proof. rewrite <-!filter_and. apply list_filter_iff. intros x. by rewrite andb_comm. Qed.

(** Two loops that have received the same, and still wait for the same observations up to [T]. *)
Definition agree (T : Z) (q1 q2 : progress) : Prop :=
  in_order (to_come q1) ∧ in_order (to_come q2) ∧
  filter (λ o, by_time T o) (to_come q1) = filter (λ o, by_time T o) (to_come q2) ∧
  received q1 = received q2 ∧ issued q1 = issued q2 ∧ no_forecast q1 = no_forecast q2.

Definition agree_results (T : Z) (x y : res progress * world) : Prop :=
  x.2 = y.2 ∧ match x.1, y.1 with Ok q1, Ok q2 => agree T q1 q2 | Raise e1, Raise e2 => e1 = e2 | _, _ => False end.

Lemma in_order_filter (p : Observation → bool) l : in_order l → in_order (filter (λ o, p o) l).
Proof.
  intros H. pose proof (SS_fmap_filter (λ a b, arrival_order a b = true) id (λ z, p z) l) as F. rewrite !list_fmap_id in F. by apply F.
Qed.

Section causal.
Context (disk : nat → Z * option sql_error) (forecaster : Forecaster) (p : replay).

Lemma tick_agree T q1 q2 t w : t * 1000 ≤ T → agree T q1 q2 →
  agree_results T (tick disk forecaster p q1 t w) (tick disk forecaster p q2 t w).
Proof.
  intros Ht (Hs1 & Hs2 & Hf & Hr & Hi & Hn). unfold tick. rewrite (arrive_filter _ _ Hs1), (arrive_filter _ _ Hs2).
  rewrite (filter_filter_le _ T (to_come q1)), (filter_filter_le _ T (to_come q2)), <-Hf by done. rewrite Hr, Hi, Hn.
  rewrite !se_bind_eq. destruct (clock_set (t * 1000) w) as [[[]|e] w1]; [|by split]. rewrite !se_bind_eq.
  destruct (writing disk _ w1) as [[[]|e] w2]; [|by split]. rewrite !se_bind_eq.
  destruct (decide_tick disk forecaster p t _ _ w2) as [[counts|e] w3]; [|by split].
  split; [done|]. cbn. split_and!; try done; try by apply in_order_filter.
  cbn [to_come].   rewrite !(filter_swap (λ o, by_time T o)), Hf. done.
Qed.

(** The ticks up to a time depend on nothing that arrives after it. *)
Lemma ticks_agree T ts q1 q2 w : Forall (λ t, t * 1000 ≤ T) ts → agree T q1 q2 →
  agree_results T (fold_in (tick disk forecaster p) q1 ts w) (fold_in (tick disk forecaster p) q2 ts w).
Proof.
  revert q1 q2 w. induction ts as [|t ts IH]; intros q1 q2 w Hts Hq; [done|]. apply Forall_cons in Hts as [Ht Hts].
  cbn [fold_in]. rewrite !se_bind_eq. destruct (tick_agree T q1 q2 t w Ht Hq) as [Hw Hr].
  destruct (tick disk forecaster p q1 t w) as [[q1'|e1] w1], (tick disk forecaster p q2 t w) as [[q2'|e2] w2]; cbn in Hw, Hr; subst; try done.
  by apply IH.
Qed.
End causal.

Lemma begin_agree T l1 l2 : filter (λ o, by_time T o) l1 = filter (λ o, by_time T o) l2 →
  agree T (begin (sort_by arrival_order l1)) (begin (sort_by arrival_order l2)).
Proof.
  intros H. split_and!; try apply in_order_arrivals; try done. cbn [to_come begin].
  rewrite !(filter_sort_by arrival_order _ arrival_total arrival_trans). by rewrite H.
Qed.

(** C9: A replay never looks ahead. Whatever the forecaster and whatever the disk answers, the ticks up to a time leave the
    same journal, the same clock and the same exception, and count the same issuances, for any two sets of observations
    that agree on what has arrived by then: what arrives later cannot reach a forecast, an outcome or a checkpoint. *)
Theorem no_look_ahead disk forecaster p l1 l2 ts T w :
  Forall (λ t, t * 1000 ≤ T) ts →
  filter (λ o, by_time T o) l1 = filter (λ o, by_time T o) l2 →
  let ticks l := fold_in (tick disk forecaster p) (begin (sort_by arrival_order l)) ts w in
  (ticks l1).2 = (ticks l2).2 ∧
  (λ q, (received q, issued q, no_forecast q)) <$> (ticks l1).1 = (λ q, (received q, issued q, no_forecast q)) <$> (ticks l2).1.
Proof.
  intros Hts H ticks. destruct (ticks_agree disk forecaster p T ts _ _ w Hts (begin_agree T l1 l2 H)) as [Hw Hr].
  split; [exact Hw|]. fold (ticks l1) (ticks l2) in Hr. destruct (ticks l1).1, (ticks l2).1; try done; [|by subst].
  destruct Hr as (_ & _ & _ & E1 & E2 & E3). cbn. by rewrite E1, E2, E3.
Qed.
