(* ===== verification/ReplayResume.v ===== *)
(** Interrupting a replay and resuming it: the journal of the resumed run is the journal of an uninterrupted one. A run of
    the journal's operations on a disk that may fail is compared, operation by operation, with one on a disk that does
    not: an operation either does the same or leaves the tables alone. What a tick does is then stated once, as a relation
    between stores ([tick_path]), and every store at which a tick can stop starts that tick again and ends where it would
    have ended. *)
From Stdlib Require Import Ascii.
From stdpp Require Import sets.
From S2P Require Import Prelude Float64 Sha256 Json JsonRoundtrip Identity Contracts Clock Maturation Store Journal Calibration Trust History.
From S2P Require Import State StateRoundtrip Datasets Replay ReplaySafety.

(** * What is read has no duplicate keys *)

Lemma literal_distinct t l v r : Forall (λ kv, distinct_keys kv.2) t → read_literal t l = Some (v, r) → distinct_keys v.
Proof.
  induction 1 as [|[k x] t Hx _ IH]; cbn; [done|]. destruct (strip_prefix _ l); [by intros [= <- _]|done].
Qed.

Lemma atom_distinct l v r : read_atom l = Some (v, r) → distinct_keys v.
Proof.
  unfold read_atom. destruct (read_literal literals l) as [[x y]|] eqn:E.
  - intros [= <- _]. eapply literal_distinct; [|exact E]. repeat (constructor; [constructor|]). constructor.
  - destruct (span _ l) as [tok r']. destruct (read_number tok) as [[z|x]|]; intros H; try discriminate; injection H as <- _; constructor.
Qed.

Lemma distinct_dset k v o : distinct_keys (JObj o) → distinct_keys v → distinct_keys (JObj (dset k v o)).
Proof.
  inversion 1 as [| | | | | |? Hn Hf]; subst. intros Hv. constructor; [by apply dset_NoDup|].
  rewrite Forall_forall in *. intros [k' v'] [[-> ->]|Hi]%elem_of_dset; [done|by apply (Hf (k', v'))].
Qed.

Lemma parsed_distinct n :
  (∀ l v r, value n l = Some (v, r) → distinct_keys v) ∧
  (∀ l acc v r, Forall distinct_keys acc → elements n l acc = Some (v, r) → distinct_keys v) ∧
  (∀ l acc v r, distinct_keys (JObj acc) → members n l acc = Some (v, r) → distinct_keys v).
Proof.
  induction n as [|n (IHv & IHe & IHm)]; [done|]. split_and!.
  - intros l v r. cbn [value]. destruct l as [|c t]; [done|]. destruct (is_char 34 c).
    { intros ([s r'] & _ & [= <- _])%bind_Some. constructor. }
    destruct (is_char 91 c).
    { destruct (skip_ws t) as [|c' t']; [done|]. destruct (is_char 93 c'); [intros [= <- _]; by repeat constructor|]. apply IHe. constructor. }
    destruct (is_char 123 c); [|apply atom_distinct].
    destruct (skip_ws t) as [|c' t']; [done|]. destruct (is_char 125 c'); [intros [= <- _]; by repeat constructor|]. apply IHm. by repeat constructor.
  - intros l acc v r Ha. cbn [elements]. intros ([x r'] & Hx & H)%bind_Some. apply IHv in Hx.
    assert (Forall distinct_keys (acc ++ [x])) by (apply Forall_app; by repeat constructor).
    destruct (skip_ws r') as [|c t]; [done|]. destruct (is_char 93 c); [injection H as <- _; by constructor|].
    destruct (is_char 44 c); [|done]. by eapply IHe.
  - intros l acc v r Ha. cbn [members]. destruct l as [|q t]; [done|]. destruct (is_char 34 q); [|done].
    intros ([k r'] & _ & H)%bind_Some. destruct (skip_ws r') as [|c t']; [done|]. destruct (is_char 58 c); [|done].
    apply bind_Some in H as ([x r2] & Hx & H). apply IHv in Hx.
    assert (distinct_keys (JObj (dset k x acc))) by by apply distinct_dset.
    destruct (skip_ws r2) as [|c2 t2]; [done|]. destruct (is_char 125 c2); [by injection H as <- _|].
    destruct (is_char 44 c2); [|done]. by eapply IHm.
Qed.

Lemma loads_distinct text j : loads text = Ok j → distinct_keys j.
Proof.
  unfold loads. destruct (value _ _) as [[v r]|] eqn:E; [|done]. destruct (_ =? _)%nat; [|done]. intros [= <-].
  by apply parsed_distinct in E.
Qed.

(** * The same operation on two disks *)

(** Where [m2] succeeds, [m1] does the same or fails and leaves the tables alone. *)
Definition twin {A} (m1 m2 : SE store A) : Prop :=
  ∀ s b s2, m2 s = (Ok b, s2) → match m1 s with (Ok a, s1) => a = b ∧ s1 = s2 | (Raise _, s1) => same_tables s s1 end.

Lemma twin_refl {A} (m : SE store A) : twin m m.
Proof. intros s b s2 H. by rewrite H. Qed.

Lemma twin_then {A B} (m1 m2 : SE store A) (k : A → SE store B) : twin m1 m2 → twin (m1 ≫= k) (m2 ≫= k).
Proof.
  intros Hm s b s2 (a & s1 & E & Hk)%se_bind_ok. rewrite se_bind_eq. specialize (Hm s a s1 E).
  destruct (m1 s) as [[a'|e] s1']; [|done]. destruct Hm as [-> ->]. by rewrite Hk.
Qed.

Lemma twin_reads {A B} (m1 m2 : SE store A) (k1 k2 : A → SE store B) :
  reads m1 → twin m1 m2 → (∀ a, twin (k1 a) (k2 a)) → twin (m1 ≫= k1) (m2 ≫= k2).
Proof.
  intros Hr Hm Hk s b s2 (a & s1 & E & H)%se_bind_ok. rewrite se_bind_eq. specialize (Hm s a s1 E). specialize (Hr s).
  unfold wp in Hr. destruct (m1 s) as [[a'|e] s1']; [|done]. destruct Hm as [-> ->]. specialize (Hk a s1 b s2 H).
  destruct (k1 a s1) as [[b'|e] s3]; [done|]. by eapply same_trans.
Qed.

Lemma twin_guard {A} what (m1 m2 : SE store A) : twin m1 m2 → twin (_guard what m1) (_guard what m2).
Proof.
  intros Hm s b s2 H%guard_ok. specialize (Hm s b s2 H). unfold _guard. destruct (m1 s) as [[a|e] s1]; [done|].
  destruct (unavailable e); [|done]. by eapply same_trans, same_fail.
Qed.

Lemma twin_raise_if {A} (c : bool) e (k1 k2 : SE store A) : twin k1 k2 → twin (raise_if c with e ;; k1) (raise_if c with e ;; k2).
Proof. intros Hk s b s2 H. destruct c; [discriminate H|]. by apply Hk. Qed.

Lemma twin_quota e1 e2 n : twin (_check_quota e1 n) (_check_quota e2 n).
Proof.
  intros s b s2 H. unfold _check_quota in *. destruct (_ <? _); [discriminate|]. injection H as <- <-.
  destruct (_ <? _); [apply same_refl|done].
Qed.

Lemma twin_tx {A} e1 e2 (body : SE store A) : twin (_tx e1 body) (_tx e2 body).
Proof.
  intros s b s2 H%tx_ok. unfold _tx. destruct (e_sql e1); [apply same_refl|]. by rewrite H.
Qed.

(** Walks through an operation: reads, then the transaction. *)
Ltac twin :=
  repeat first
    [ apply twin_refl | apply twin_guard | apply twin_raise_if | apply twin_quota | apply twin_tx
    | apply twin_then; solve [apply twin_quota | apply twin_tx]
    | apply twin_reads; [solve [auto 3 with reads; reads]|first [apply twin_quota|apply twin_refl]|intros ?]
    | match goal with |- twin (match ?x with _ => _ end) _ => destruct x end ].

Lemma twin_record e1 e2 series samples source : twin (record_observations e1 series samples source) (record_observations e2 series samples source).
Proof. unfold record_observations. twin. Qed.

Lemma twin_outcome e1 e2 id m st payload : e_now e1 = e_now e2 → twin (commit_outcome e1 id m st payload) (commit_outcome e2 id m st payload).
Proof. intros E. unfold commit_outcome. rewrite E. twin. Qed.

Lemma twin_get_or_issue e1 e2 key build models : e_now e1 = e_now e2 → twin (get_or_issue e1 key build models) (get_or_issue e2 key build models).
Proof. intros E. unfold get_or_issue, commit_issuance. rewrite E. twin. Qed.

Lemma twin_checkpoint e1 e2 ek state n : e_now e1 = e_now e2 → twin (write_checkpoint e1 ek state n) (write_checkpoint e2 ek state n).
Proof. intros E. unfold write_checkpoint. rewrite E. twin. Qed.

(** * Reading the open windows *)

(** The issuance a row stands for. *)
Definition row_value (r : issuance_row) : option Issuance := match (_row_to_issuance r demo0).1 with Ok i => Some i | Raise _ => None end.

Lemma row_value_decodes r i : decodes r i → row_value r = Some i.
Proof. intros H. unfold row_value. by rewrite (decodes_row r i demo0 H). Qed.

Lemma rows_decode l s : Forall (λ r, ∃ i, decodes r i) l → mapM_se _row_to_issuance l s = (Ok (omap row_value l), s).
Proof.
  induction 1 as [|r t [i Hi] _ IH]; [done|]. rewrite mapM_se_cons, se_bind_eq, (decodes_row r i s Hi), se_bind_eq, IH.
  cbn. by rewrite (row_value_decodes r i Hi).
Qed.

Lemma ok_rows_decode s : journal_ok s → Forall (λ r, ∃ i, decodes r i) (issuances s).
Proof. intros Hj. eapply Forall_impl; [apply (jo_rows _ Hj)|]. intros r [(i & ? & _) _]. by exists i. Qed.

Lemma issuance_total x y : issuance_order x y = true ∨ issuance_order y x = true.
Proof. unfold issuance_order. rewrite !orb_true_iff, !andb_true_iff, !Z.ltb_lt, !Z.eqb_eq, !Z.leb_le. lia. Qed.
Lemma issuance_trans x y z : issuance_order x y = true → issuance_order y z = true → issuance_order x z = true.
Proof. unfold issuance_order. rewrite !orb_true_iff, !andb_true_iff, !Z.ltb_lt, !Z.eqb_eq, !Z.leb_le. lia. Qed.

Lemma filter_both_orders {A} (P Q : A → Prop) `{∀ x, Decision (P x)} `{∀ x, Decision (Q x)} (l : list A) :
  filter P (filter Q l) = filter Q (filter P l).
Proof. rewrite !list_filter_filter. apply list_filter_iff. tauto. Qed.

Section open.
Context (ek fam : string) (bound : Z).

Definition is_open (os : list Outcome) (r : issuance_row) : bool :=
  bool_decide (ir_evidence_key r = ek) && (ir_window_end r <=? bound)
  && negb (existsb (λ o, bool_decide (o_issuance_id o = ir_issuance_id r) && bool_decide (o_model o = fam)) os).
Definition open_rows (s : store) : list issuance_row := sort_by issuance_order (filter (λ r, is_open (outcomes s) r) (issuances s)).
Definition open_list (s : store) : list Issuance := filter (λ i, fam ∈ i_models i) (omap row_value (open_rows s)).

Lemma open_rows_decode s : journal_ok s → Forall (λ r, ∃ i, decodes r i) (open_rows s).
Proof.
  intros Hj. apply Forall_forall. intros r Hr%elem_of_sort_by. apply list_elem_of_filter in Hr as [_ Hr].
  pose proof (ok_rows_decode s Hj) as H. rewrite Forall_forall in H. by apply H.
Qed.

Lemma open_value s : journal_ok s → open_issuances ek fam bound s = (Ok (open_list s), s).
Proof.
  intros Hj. unfold open_issuances, _guard. rewrite !se_bind_eq. unfold sget. cbv beta iota zeta. rewrite se_bind_eq.
  pose proof (rows_decode (open_rows s) s (open_rows_decode s Hj)) as H. unfold open_rows, is_open in H. by rewrite H.
Qed.

Lemma omap_row_ids l : Forall (λ r, ∃ i, decodes r i) l → i_issuance_id <$> omap row_value l = ir_issuance_id <$> l.
Proof.
  induction 1 as [|r t [i Hi] _ IH]; [done|]. cbn. rewrite (row_value_decodes r i Hi). cbn. by rewrite (de_id r i Hi), <-IH.
Qed.

Lemma open_list_ids s : journal_ok s → NoDup (i_issuance_id <$> open_list s).
Proof.
  intros Hj. unfold open_list. apply NoDup_fmap_filter. rewrite omap_row_ids by by apply open_rows_decode.
  unfold open_rows. rewrite sort_by_perm. apply NoDup_fmap_filter. apply Hj.
Qed.

(** An open window has no outcome of the family yet. *)
Lemma open_list_fresh s i : journal_ok s → i ∈ open_list s → List.find (is_outcome_of (i_issuance_id i) fam) (outcomes s) = None.
Proof.
  intros Hj [_ (r & Hr & Hv)%list_elem_of_omap]%list_elem_of_filter. pose proof (open_rows_decode s Hj) as Hd. rewrite Forall_forall in Hd.
  destruct (Hd r Hr) as (i' & Hi). rewrite (row_value_decodes _ _ Hi) in Hv. injection Hv as <-.
  apply elem_of_sort_by, list_elem_of_filter in Hr as [Ho _]. unfold is_open in Ho. apply Is_true_true in Ho.
  apply find_None. intros o Hin. bool_prop. match goal with E : existsb _ _ = false |- _ => rewrite existsb_false in E; specialize (E o Hin) end.
  unfold is_outcome_of. by rewrite (de_id _ _ Hi).
Qed.

Lemma omap_filter_ids (q : string → bool) l : Forall (λ r, ∃ i, decodes r i) l →
  omap row_value (filter (λ r, q (ir_issuance_id r)) l) = filter (λ i, q (i_issuance_id i)) (omap row_value l).
Proof.
  induction 1 as [|r t [i Hi] _ IH]; [done|]. rewrite filter_bool_cons. cbn. rewrite (row_value_decodes r i Hi).
  rewrite (filter_bool_cons (λ i, q (i_issuance_id i))), (de_id r i Hi). destruct (q (ir_issuance_id r)); cbn; [|done].
  by rewrite (row_value_decodes r i Hi), IH.
Qed.

(** Closing a window takes it, and only it, off the list. *)
Lemma open_list_closed s o n : journal_ok s → o_model o = fam →
  open_list (set_outcomes (outcomes s ++ [o]) n s) = filter (λ i, negb (bool_decide (o_issuance_id o = i_issuance_id i))) (open_list s).
Proof.
  intros Hj Hm. unfold open_list. rewrite filter_both_orders. f_equal.
  pose proof (omap_filter_ids (λ id, negb (bool_decide (o_issuance_id o = id))) (open_rows s) (open_rows_decode s Hj)) as E.
  cbv beta in E. etransitivity; [|exact E].
  f_equal. unfold open_rows. cbn [outcomes issuances set_outcomes].
  rewrite (filter_sort_by _ _ issuance_total issuance_trans), <-filter_and. f_equal. apply list_filter_iff. intros r. f_equiv.
  unfold is_open. rewrite existsb_app. cbn [existsb]. rewrite Hm, (bool_decide_true (fam = fam)), andb_true_r, orb_false_r, negb_orb by done.
  by rewrite andb_assoc.
Qed.
End open.

(** * What the operations do to the tables *)

Lemma row_outcome_ok o s o' s' : _row_to_outcome o s = (Ok o', s') → o' = o ∧ s' = s.
Proof. unfold _row_to_outcome. destruct (bool_decide _); [|discriminate]. by intros [= <- <-]. Qed.

Lemma commit_outcome_fresh env id m st payload s b s1 :
  commit_outcome env id m st payload s = (Ok b, s1) → List.find (is_outcome_of id m) (outcomes s) = None →
  ∃ o n, s1 = set_outcomes (outcomes s ++ [o]) n s ∧ o_issuance_id o = id ∧ o_model o = m.
Proof.
  unfold commit_outcome. intros H Hn. ok_inv H. lift_inv. apply guard_ok in H. ok_inv H.
  match goal with E : sget _ = _ |- _ => injection E as <- <- end.
  match goal with E : _require_healthy _ = (Ok _, ?q) |- _ => injection E as _ <- end.
  rewrite Hn in H. ok_inv H. match goal with E : get_issuance_by_id _ _ = (Ok ?o, _) |- _ => destruct o as [iss|]; [|discriminate H] end.
  match goal with E : get_issuance_by_id _ _ = _ |- _ => apply get_by_id_ok in E as (-> & r & _ & Hid & Hd) end.
  ok_inv H. match goal with E : _check_quota _ _ _ = (Ok _, _) |- _ => unfold _check_quota in E; destruct (_ <? _); [discriminate E|injection E as _ <-] end.
  match goal with E : _tx _ _ _ = (Ok ?u, _) |- _ => apply tx_ok in E; destruct u end.
  match goal with E : insert_outcome _ _ _ _ _ _ = _ |- _ => apply insert_outcome_inv in E as (_ & ->) end.
  match goal with E : sget _ = _ |- _ => injection E as <- <- end. injection H as _ <-. lift_inv.
  match goal with E : _row_to_outcome _ _ = _ |- _ => apply row_outcome_ok in E as [_ ->] end.
  eexists _, _. split; [reflexivity|]. cbn. by rewrite (de_id _ _ Hd).
Qed.

Lemma commit_outcome_ok env id m st payload s r s1 : commit_outcome env id m st payload s = (r, s1) → journal_ok s → journal_ok s1.
Proof. intros H. apply evolves_ok. exact (wp_run _ _ _ _ _ (commit_outcome_evolves env id m st payload s) H). Qed.

(** Stores that differ in their outcomes alone. *)
Definition outcomes_only (s s' : store) : Prop := ∃ l n, s' = set_outcomes l n s.

Lemma outcomes_only_refl s : outcomes_only s s.
Proof. exists (outcomes s), (outcome_seq s). by destruct s. Qed.
Lemma outcomes_only_trans s1 s2 s3 : outcomes_only s1 s2 → outcomes_only s2 s3 → outcomes_only s1 s3.
Proof. intros (l & n & ->) (l' & n' & ->). by exists l', n'. Qed.

Definition calm_env (now : Z) : env := {| e_usage := 0; e_now := now; e_sql := None |}.

Definition at_ (s : store) (now : Z) (n : nat) : world := {| w_store := s; w_clock := Some now; w_ops := n |}.

Section steps.
Context (disk : nat → Z * option sql_error).

(** The disk failed, or had something to say. *)
Definition troubled : Prop := ∃ n, disk n ≠ (0, None).

(** A step on any disk does what it does on a calm one, or is interrupted and leaves the tables alone. *)
Lemma writing_twin {A} (m : env → SE store A) now b s s2 n :
  (∀ e1 e2, e_now e1 = e_now e2 → twin (m e1) (m e2)) → m (calm_env now) s = (Ok b, s2) →
  writing disk m (at_ s now n) = (Ok b, at_ s2 now (S n)) ∨
  ∃ e s', writing disk m (at_ s now n) = (Raise e, at_ s' now (S n)) ∧ same_tables s s' ∧ troubled.
Proof.
  intros Ht H. unfold writing, at_. cbn [w_store w_clock w_ops or_default]. 
  assert (disk n = (0, None) ∨ disk n ≠ (0, None)) as [E|E].
  { destruct (disk n) as [u [e|]]; [by right|]. destruct (decide (u = 0)) as [->|]; [by left|right; congruence]. }
  - rewrite E. cbn [fst snd]. fold (calm_env now). rewrite H. by left.
  - specialize (Ht {| e_usage := (disk n).1; e_now := now; e_sql := (disk n).2 |} (calm_env now) eq_refl s b s2 H).
    destruct (m _ s) as [[a|e] s1]; [left; by destruct Ht as [-> ->]|]. right. exists e, s1. split_and!; [done|done|by exists n].
Qed.
End steps.

Lemma on_store_at {A} (m : SE store A) s r s' now n : m s = (r, s') → on_store m (at_ s now n) = (r, at_ s' now n).
Proof. intros H. unfold on_store, at_. cbn. by rewrite H. Qed.

(** * Closing windows *)

Section closing.
Context (disk : nat → Z * option sql_error) (p : replay) (r : receipts) (now bound : Z).
Abbreviation fam := (model_family (rp_config p)).
Abbreviation opened := (open_list (rp_ek p) fam bound).
Abbreviation quiet_window := (λ i, verdict p r now i = Ok None).

Lemma twin_close e1 e2 i : e_now e1 = e_now e2 → twin (close p e1 r now i) (close p e2 r now i).
Proof.
  intros E. unfold close. apply twin_reads; [auto with reads|apply twin_refl|]. intros [[st pl]|]; [|apply twin_refl].
  by apply twin_then, twin_outcome.
Qed.

(** The loop over a list of windows, on a disk that does not fail. *)
Fixpoint closes (l : list Issuance) (s s' : store) : Prop :=
  match l with [] => s' = s | i :: t => ∃ s1, close p (calm_env now) r now i s = (Ok (), s1) ∧ closes t s1 s' end.

Lemma closes_quiet l s s' : Forall quiet_window l → closes l s s' ↔ s' = s.
Proof.
  induction 1 as [|i t Hi _ IH]; [done|]. cbn [closes]. unfold close. rewrite Hi. split.
  - intros (s1 & [= <-] & H). by apply IH.
  - intros ->. exists s. split; [done|by apply IH].
Qed.

Lemma closes_app l1 l2 s s' : closes (l1 ++ l2) s s' ↔ ∃ s1, closes l1 s s1 ∧ closes l2 s1 s'.
Proof. revert s. induction l1 as [|i t IH]; intros s; cbn; [naive_solver|]. setoid_rewrite IH. naive_solver. Qed.

(** A window on the list is closed: it leaves the list. *)
Lemma close_step done i t s s1 : journal_ok s → opened s = done ++ i :: t → close p (calm_env now) r now i s = (Ok (), s1) →
  journal_ok s1 ∧ outcomes_only s s1 ∧
  (verdict p r now i = Ok None ∧ s1 = s ∨ opened s1 = done ++ t).
Proof.
  intros Hj Ho H. unfold close in H. ok_inv H. lift_inv. match goal with E : verdict _ _ _ _ = Ok ?o |- _ => destruct o as [[st pl]|] end.
  - ok_inv H. injection H as <-. match goal with E : commit_outcome _ _ _ _ _ _ = (Ok _, ?q) |- _ => rename E into Hc; rename q into s1 end.
    assert (i ∈ opened s) as Hi by (rewrite Ho; apply elem_of_app; right; left).
    pose proof (open_list_fresh _ _ _ _ _ Hj Hi) as Hf. split; [by eapply commit_outcome_ok|].
    destruct (commit_outcome_fresh _ _ _ _ _ _ _ _ Hc Hf) as (o & n & -> & Hid & Hm). split; [by eexists _, _|]. right.
    rewrite open_list_closed, Ho by done. rewrite Hid. pose proof (open_list_ids (rp_ek p) fam bound s Hj) as Hn. rewrite Ho in Hn.
    rewrite filter_app, filter_bool_cons, bool_decide_true by done. cbn [negb].
    rewrite fmap_app in Hn. apply NoDup_app in Hn as (_ & Hd & Hn). cbn in Hn. apply NoDup_cons in Hn as [Hn _].
    f_equal; apply filter_true, Forall_forall; intros j Hjn; apply Is_true_true, negb_true_iff, bool_decide_eq_false; intros E.
    + apply (Hd (i_issuance_id j)); [apply list_elem_of_fmap; by exists j|]. rewrite <-E. left.
    + apply Hn. rewrite E. apply list_elem_of_fmap. by exists j.
  - injection H as <-. split; [done|]. split; [apply outcomes_only_refl|]. by left.
Qed.

(** The loop on any disk: it ends where the calm one ends, with nothing left to close; or it is interrupted at a store
    from which the calm loop over what is then open ends in the same place. *)
Lemma close_loop l done s s2 n : journal_ok s → opened s = done ++ l → Forall quiet_window done → closes l s s2 →
  (∃ n', for_in (λ i, writing disk (λ e, close p e r now i)) l (at_ s now n) = (Ok (), at_ s2 now n')
         ∧ journal_ok s2 ∧ outcomes_only s s2 ∧ Forall quiet_window (opened s2)) ∨
  (∃ e s1 s' n', for_in (λ i, writing disk (λ e, close p e r now i)) l (at_ s now n) = (Raise e, at_ s' now n')
         ∧ same_tables s1 s' ∧ journal_ok s1 ∧ outcomes_only s s1 ∧ closes (opened s1) s1 s2 ∧ troubled disk).
Proof.
  revert done s n. induction l as [|i t IH]; intros done s n Hj Ho Hq Hc; cbn [for_in].
  { left. cbn in Hc. subst s2. rewrite app_nil_r in Ho. exists n. split_and!; [done|done|apply outcomes_only_refl|by rewrite Ho]. }
  destruct Hc as (s1 & Hi & Hc). rewrite se_bind_eq. destruct (close_step done i t s s1 Hj Ho Hi) as (Hj1 & Hf & Hs1).
  destruct (writing_twin disk (λ e, close p e r now i) now () s s1 n (λ e1 e2, twin_close e1 e2 i) Hi) as [->|(e & s' & -> & Hs & Htr)].
  - assert (∃ done', opened s1 = done' ++ t ∧ Forall quiet_window done') as (done' & Ho1 & Hq1).
    { destruct Hs1 as [[Hv ->]|Hs1]; [|by exists done]. exists (done ++ [i]). rewrite <-app_assoc. split; [done|].
      apply Forall_app. split; [done|by constructor]. }
    destruct (IH done' s1 (S n) Hj1 Ho1 Hq1 Hc) as [(n' & -> & ? & Hf2 & ?)|(e & s3 & s' & n' & -> & ? & ? & Hf2 & ? & ?)].
    + left. exists n'. split_and!; [done|done|by eapply outcomes_only_trans|done].
    + right. exists e, s3, s', n'. split_and!; try done. by eapply outcomes_only_trans.
  - right. exists e, s, s', (S n). split_and!; try done; [apply outcomes_only_refl|]. rewrite Ho. apply closes_app.
    exists s. split; [by apply closes_quiet|]. cbn [closes]. by exists s1.
Qed.
End closing.

(** * Recording what has arrived *)

Lemma find_app_some {A} (q : A → bool) l l' x : List.find q l = Some x → List.find q (l ++ l') = Some x.
Proof. induction l as [|y t IH]; cbn; [done|]. by destruct (q y). Qed.

Section ingesting.
Context (p : replay) (A : list Observation).

(** What the resumed run must be able to record again. *)
Record replayable (quota : Z) : Prop := {
  ra_times : NoDup (event_time <$> A);
  ra_valid : Forall (λ o, valid_sample (sample_of o) = true) A;
  ra_source : sha256_text (rp_source p) = true;
  ra_quota : 64 * Z.of_nat (length A) ≤ quota;
}.

Abbreviation record := (record_one (rp_series p) (rp_source p)).
Definition recorded (l : list Observation) (s : store) : store :=
  (foldl record ({| new := 0; duplicate := 0; corrected := 0 |}, s) (sample_of <$> l)).2.

(** The journal holds samples of the dataset only, and a sample's first receipt. *)
Definition ours (s : store) : Prop :=
  ∀ o, o ∈ Store.observations s → ob_series o = rp_series p → ∃ x, x ∈ A ∧ event_time x = ob_event_time o ∧ value_rps x = ob_value o.
Definition present (s : store) (x : Observation) : Prop :=
  ∃ o, List.find (is_observation (rp_series p) (event_time x)) (Store.observations s) = Some o.

(** Stores that differ in their observations alone. *)
Definition observations_only (s s' : store) : Prop := ∃ l, s' = set_observations (Store.observations s ++ l) (corrections s) s.

Lemma observations_only_refl s : observations_only s s.
Proof. exists []. rewrite app_nil_r. by destruct s. Qed.
Lemma observations_only_trans s1 s2 s3 : observations_only s1 s2 → observations_only s2 s3 → observations_only s1 s3.
Proof. intros (l & ->) (l' & ->). exists (l ++ l'). cbn. by rewrite app_assoc. Qed.

Lemma present_mono s s' x : observations_only s s' → present s x → present s' x.
Proof. intros (l & ->) (o & Ho). exists o. cbn. by apply find_app_some. Qed.

Context (quota : Z) (HA : replayable quota).

Lemma sample_once x s o : x ∈ A → ours s → List.find (is_observation (rp_series p) (event_time x)) (Store.observations s) = Some o →
  feq (ob_value o) (value_rps x) = true.
Proof.
  intros Hx Ho Hf. apply List.find_some in Hf as [Hin Hp]. apply list_elem_of_In in Hin. unfold is_observation in Hp. bool_prop.
  destruct (Ho o Hin) as (y & Hy & Et & <-); [done|].
  assert (y = x) as -> by (eapply (NoDup_fmap_inj event_time); [apply (ra_times _ HA)|done|done|congruence]).
  apply feq_refl. pose proof (ra_valid _ HA) as Hv. rewrite Forall_forall in Hv. specialize (Hv x Hx). cbn in Hv. bool_prop.
  by destruct (value_rps x).
Qed.

(** One sample: nothing when it is there already, one new row when it is not. *)
Lemma record_sample x n s : x ∈ A → ours s →
  (present s x → (record (n, s) (sample_of x)).2 = s) ∧
  observations_only s (record (n, s) (sample_of x)).2 ∧ ours (record (n, s) (sample_of x)).2 ∧ present (record (n, s) (sample_of x)).2 x.
Proof.
  intros Hx Ho. unfold record_one, sample_of, present. destruct (List.find _ (Store.observations s)) as [o|] eqn:E.
  - rewrite (sample_once x s o Hx Ho E). cbn [snd]. split_and!; [done|apply observations_only_refl|done|]. by exists o.
  - cbn [snd]. set (row := {| ob_series := _ |}). split_and!; [by intros [? ?]| | |].
    + by exists [row].
    + intros o [Hin|Hin%list_elem_of_singleton]%elem_of_app Hs; [by apply Ho|]. exists x. by rewrite Hin.
    + exists row. cbn [Store.observations set_observations]. clear -E. induction (Store.observations s) as [|y t IH]; cbn in *.
      * unfold is_observation. cbn. by rewrite bool_decide_true, Z.eqb_refl.
      * destruct (is_observation _ _ y); [discriminate|by apply IH].
Qed.

Lemma record_fold_samples l n s : l ⊆ A → ours s →
  let s' := (foldl record (n, s) (sample_of <$> l)).2 in
  (Forall (present s) l → s' = s) ∧ observations_only s s' ∧ ours s' ∧ Forall (present s') l.
Proof.
  revert n s. induction l as [|x t IH]; intros n s Hl Ho; cbn [fmap list_fmap foldl].
  { split_and!; [done|apply observations_only_refl|done|constructor]. }
  destruct (record_sample x n s ltac:(set_solver) Ho) as (Hp & Hf & Ho1 & Hx).
  destruct (record (n, s) (sample_of x)) as [n1 s1] eqn:E. cbn [snd] in *.
  destruct (IH n1 s1 ltac:(set_solver) Ho1) as (Hp2 & Hf2 & Ho2 & Hx2). split_and!.
  - intros [H1 H2]%Forall_cons. specialize (Hp H1). subst s1. by apply Hp2.
  - by eapply observations_only_trans.
  - done.
  - constructor; [by eapply present_mono|done].
Qed.

Lemma record_count l n n' s : (foldl record (n, s) l).2 = (foldl record (n', s) l).2.
Proof.
  revert n n' s. induction l as [|[[ts v] at_] t IH]; intros n n' s; [done|]. cbn [foldl record_one].
  destruct (List.find _ _) as [o|]; [destruct (feq _ _)|]; apply IH.
Qed.

(** What is there already is recorded again without effect. *)
Lemma recorded_again l1 l2 s : l1 ⊆ A → ours s → Forall (present s) l1 → recorded (l1 ++ l2) s = recorded l2 s.
Proof.
  intros Hl Ho Hp. unfold recorded. rewrite fmap_app, foldl_app.
  destruct (foldl record _ (sample_of <$> l1)) as [n1 s1] eqn:E.
  pose proof (record_fold_samples l1 {| new := 0; duplicate := 0; corrected := 0 |} s Hl Ho) as (H & _). rewrite E in H.
  cbn [snd] in H. rewrite (H Hp). apply record_count.
Qed.

Lemma ingest_calm now l s : problem s = None → quota_bytes s = quota → l ⊆ A → NoDup l →
  ingest p (calm_env now) l s = (Ok (), recorded l s).
Proof.
  intros Hp Hq Hl Hn. destruct l as [|x t]; [done|]. unfold ingest, recorded. set (l := x :: t) in *. clearbody l.
  rewrite se_bind_eq. unfold record_observations. rewrite (ra_source _ HA). cbn [negb].
  assert (forallb valid_sample (sample_of <$> l) = true) as ->.
  { apply forallb_forall. intros y (o & -> & Ho)%list_elem_of_In%list_elem_of_fmap. pose proof (ra_valid _ HA) as Hv.
    rewrite Forall_forall in Hv. apply Hv. set_solver. }
  cbn [negb]. unfold _guard. rewrite !se_bind_eq. unfold _require_healthy. rewrite Hp. rewrite se_bind_eq.
  unfold _check_quota. cbn [calm_env e_usage]. rewrite length_fmap, Hq.
  assert (length l ≤ length A)%nat as Hlen by (apply submseteq_length, NoDup_submseteq; [done|set_solver]).
  pose proof (ra_quota _ HA). destruct (Z.ltb_spec quota (0 + 64 * Z.of_nat (length l))); [lia|].
  unfold _tx. cbn [calm_env e_sql]. by destruct (foldl _ _ _) as [n1 s1].
Qed.

Lemma ingest_ok e l s u s' : ingest p e l s = (Ok u, s') → s' = recorded l s.
Proof.
  destruct l as [|x t]; [by intros [= _ <-]|]. unfold ingest, recorded. set (l := x :: t). clearbody l. intros H. ok_inv H.
  injection H as _ <-. match goal with E : record_observations _ _ _ _ _ = _ |- _ => unfold record_observations in E; ok_inv E; apply guard_ok in E; ok_inv E end.
  match goal with E : _tx _ _ _ = _ |- _ => apply tx_ok in E end.
  match goal with E : _check_quota _ _ _ = (Ok _, _) |- _ => unfold _check_quota in E; destruct (_ <? _); [discriminate E|injection E as _ <-] end.
  match goal with E : _require_healthy _ = (Ok _, ?q) |- _ => injection E as _ <- end.
  destruct (foldl _ _ _) as [n1 s1]. by simplify_eq.
Qed.
End ingesting.

(** * Recovering, issuing, checkpointing *)

Lemma latest_checkpoint_eq ek s s' o s1 : checkpoints s' = checkpoints s → latest_checkpoint ek s = (Ok o, s1) →
  s1 = s ∧ latest_checkpoint ek s' = (Ok o, s').
Proof.
  intros Hc H. pose proof (latest_checkpoint_ok _ _ _ _ H) as [-> _]. split; [done|].
  unfold latest_checkpoint, _guard, mbind, se_bind, sget in *. rewrite Hc. destruct (last _) as [c|]; [|by injection H as <-].
  unfold lift, mthrow, se_throw in *. destruct (_ || _); [done|]. destruct (loads _); [by injection H as <-|done].
Qed.

Section recovering.
Context (p : replay).

Lemma fold_journal_grows st o s st' s1 s' : fold_journal p st o s = (Ok st', s1) → (∃ l, issuances s' = issuances s ++ l) →
  s1 = s ∧ fold_journal p st o s' = (Ok st', s').
Proof.
  intros H (l & Hl). unfold fold_journal in *. apply se_bind_ok in H as (oi & s2 & Hg & H). apply lift_ok in H as [Hf ->].
  unfold get_issuance_by_id in *. apply guard_ok, find_issuance_ok in Hg as [-> Hoi]. split; [done|].
  destruct oi as [i|]; [|unfold fold in Hf; by ok_inv Hf]. destruct Hoi as (r & Hr & Hd).
  rewrite se_bind_eq. unfold _guard. rewrite (find_issuance_decodes _ s' r i); [|rewrite Hl; by apply find_app_some|done]. by rewrite Hf.
Qed.

Lemma fold_outcomes_grows os acc s v s1 s' :
  fold_in (λ '(state, _, applied) o, state' ← fold_journal p state o; mret (state', o_seq o, applied + 1)) acc os s = (Ok v, s1) →
  (∃ l, issuances s' = issuances s ++ l) →
  s1 = s ∧ fold_in (λ '(state, _, applied) o, state' ← fold_journal p state o; mret (state', o_seq o, applied + 1)) acc os s' = (Ok v, s').
Proof.
  intros H Hl. revert acc H. induction os as [|o t IH]; intros [[st q] k] H; cbn [fold_in] in *; [by injection H as <- <-|].
  apply se_bind_ok in H as (acc' & s2 & Ha & H). apply se_bind_ok in Ha as (st' & s3 & Hf & Ha). injection Ha as <- <-.
  destruct (fold_journal_grows _ _ _ _ _ s' Hf Hl) as [-> Hf']. destruct (IH _ H) as [-> H']. split; [done|].
  rewrite !se_bind_eq, Hf'. exact H'.
Qed.

(** Recovery reads the checkpoints, the outcomes and the issuances they name: new issuances do not change it. *)
Lemma recover_grows init s v s1 s' : recover_with (rp_ek p) (fold_journal p) init s = (Ok v, s1) → journal_ok s → journal_ok s' →
  checkpoints s' = checkpoints s → outcomes s' = outcomes s → (∃ l, issuances s' = issuances s ++ l) →
  s1 = s ∧ recover_with (rp_ek p) (fold_journal p) init s' = (Ok v, s').
Proof.
  intros H Hj Hj' Hc Ho Hl. unfold recover_with in *. apply se_bind_ok in H as (cp & s2 & Hcp & H).
  destruct (latest_checkpoint_eq _ _ s' _ _ Hc Hcp) as [-> Hcp']. rewrite se_bind_eq, Hcp'.
  destruct cp as [c|]; cbv beta iota zeta in *; apply se_bind_ok in H as (os & s3 & Hos & H);
    rewrite (outcomes_after_ok s) in Hos by done; injection Hos as <- <-;
    rewrite se_bind_eq, (outcomes_after_ok s'), Ho by done; by apply fold_outcomes_grows.
Qed.

(** A recovered state is a dict without duplicate keys. *)
Lemma incr_distinct k s s' : incr k s = Ok s' → distinct_keys (JObj s) → distinct_keys (JObj s').
Proof. unfold incr. intros H. ok_inv H. subst. intros. apply distinct_dset; [done|constructor]. Qed.

Lemma fold_distinct st o i pol st' : Replay.fold st o i pol = Ok st' → distinct_keys st → distinct_keys st'.
Proof.
  unfold Replay.fold. intros H Hd. ok_inv H. match goal with E : as_dict st = Ok ?s |- _ => apply as_dict_ok in E as -> end.
  match type of H with context [dset "last_window_end" ?a ?b] => set (s2 := dset "last_window_end" a b) in * end.
  assert (distinct_keys (JObj s2)) as Hd2 by (apply distinct_dset; [apply distinct_dset; [done|apply cal_distinct]|constructor]).
  destruct (bool_decide _); ok_inv H; subst st'.
  - eapply incr_distinct; [eassumption|]. by eapply incr_distinct.
  - eapply incr_distinct; [eassumption|]. apply distinct_dset; [by eapply incr_distinct|constructor].
Qed.

Lemma start_distinct : distinct_keys (start_state p).
Proof.
  unfold start_state, initial_state. constructor; [known_keys|]. repeat (constructor; [cbn [snd]; first [apply cal_distinct|constructor]|]). constructor.
Qed.

Lemma fold_outcomes_distinct os acc s v s1 :
  fold_in (λ '(state, _, applied) o, state' ← fold_journal p state o; mret (state', o_seq o, applied + 1)) acc os s = (Ok v, s1) →
  distinct_keys acc.1.1 → distinct_keys v.1.1.
Proof.
  revert acc s. induction os as [|o t IH]; intros [[st q] k] s H Hd; cbn [fold_in] in H; [by injection H as <- <-|].
  apply se_bind_ok in H as (acc' & s2 & Ha & H). apply se_bind_ok in Ha as (st' & s3 & Hf & Ha). injection Ha as <- <-.
  eapply IH; [exact H|]. cbn [fst] in *. unfold fold_journal in Hf. apply se_bind_ok in Hf as (oi & s4 & _ & Hf).
  apply lift_ok in Hf as [Hf _]. by eapply fold_distinct.
Qed.

Lemma recover_distinct s v s1 : recover_with (rp_ek p) (fold_journal p) (start_state p) s = (Ok v, s1) → journal_ok s → distinct_keys v.1.1.
Proof.
  intros H Hj. unfold recover_with in H. apply se_bind_ok in H as (cp & s2 & Hcp & H).
  apply latest_checkpoint_ok in Hcp as [-> Hcp]. destruct cp as [c|]; cbv beta iota zeta in H; apply se_bind_ok in H as (os & s3 & _ & H);
    eapply fold_outcomes_distinct; try exact H; cbn [fst]; [|apply start_distinct].
  destruct (last _) as [row|]; [|discriminate Hcp]. destruct Hcp as (j & Hl & _ & [= ->]). by eapply loads_distinct.
Qed.
End recovering.

(** Issuing adds at most one row, and asking again for the same key writes nothing. *)
Lemma get_or_issue_row env key build models s i b s' : get_or_issue env key build models s = (Ok (i, b), s') →
  s' = s ∨ ∃ r n, s' = set_issuances (issuances s ++ [r]) n s ∧ ir_window_end r = k_window_end key.
Proof.
  unfold get_or_issue. intros H%guard_ok. ok_inv H.
  match goal with E : _require_healthy _ = (Ok _, ?q) |- _ => injection E as _ <- end.
  match goal with E : get_issuance key _ = (Ok ?o, _) |- _ => apply get_issuance_ok in E as (k & Hk & -> & Hf); destruct o as [j|] end.
  { ok_inv H. lift_inv. injection H as _ _ <-. by left. }
  ok_inv H. lift_inv. match goal with E : sget _ = _ |- _ => injection E as <- <- end.
  match goal with E : _refuse_retired _ _ = (Ok _, ?q) |- _ => assert (q = s) as -> by (unfold _refuse_retired in E; by injection E as _ <-) end.
  unfold commit_issuance in H. ok_inv H. lift_inv. match goal with E : sget _ = _ |- _ => injection E as <- <- end. apply guard_ok in H. ok_inv H.
  match goal with E : _require_healthy _ = (Ok _, ?q) |- _ => injection E as _ <- end.
  match goal with E : get_issuance key _ = (Ok ?o, _) |- _ => apply get_issuance_ok in E as (k' & Hk' & -> & Hf'); destruct o as [j|] end.
  { ok_inv H. lift_inv. injection H as _ _ <-. by left. }
  ok_inv H. lift_inv. injection H as _ _ <-.
  match goal with E : _refuse_retired _ _ = (Ok _, ?q) |- _ => assert (q = s) as -> by (unfold _refuse_retired in E; by injection E as _ <-) end.
  match goal with E : _check_quota _ _ _ = (Ok _, _) |- _ => unfold _check_quota in E; destruct (_ <? _); [discriminate E|injection E as _ <-] end.
  match goal with E : _tx _ _ _ = (Ok ?u, _) |- _ => apply tx_ok in E; destruct u end.
  match goal with E : insert_issuance _ _ _ _ _ _ _ = _ |- _ => apply insert_issuance_inv in E as (_ & _ & ->) end.
  match goal with E : get_issuance key _ = (Ok _, _) |- _ => apply get_issuance_ok in E as (? & _ & -> & _) end.
  right. eexists _, _. split; [reflexivity|done].
Qed.

Lemma get_or_issue_again env key build models s i b s' env' build' : get_or_issue env key build models s = (Ok (i, b), s') →
  key_ok key → journal_ok s → problem s' = None →
  journal_ok s' ∧ get_or_issue env' key build' models s' = (Ok (i, false), s').
Proof.
  intros H Hkey Hj Hp. assert (journal_ok s') as Hj'
    by (eapply evolves_ok; [|exact Hj]; exact (wp_run _ _ _ _ _ (get_or_issue_evolves env key build models s Hkey) H)).
  split; [done|]. destruct (get_or_issue_committed _ _ _ _ _ _ _ _ H) as (r & Hr & Hd & Hk & Hm).
  unfold get_or_issue, _guard, _require_healthy, lift, mbind, se_bind. rewrite Hp.
  rewrite (get_issuance_row s' r i key Hj' Hr Hd Hk). rewrite Hm. by rewrite bool_decide_true by done.
Qed.

Lemma write_checkpoint_row env ek st n s c s' : write_checkpoint env ek st n s = (Ok c, s') →
  ∃ l k, s' = set_checkpoints l k s.
Proof.
  unfold write_checkpoint. intros H. ok_inv H. lift_inv. apply guard_ok in H. ok_inv H.
  match goal with E : _require_healthy _ = (Ok _, ?q) |- _ => injection E as _ <- end.
  match goal with E : latest_checkpoint _ _ = (Ok ?o, _) |- _ => rename o into newest; apply latest_checkpoint_ok in E as [-> _] end.
  match type of H with context [mbind ?k (_check_quota env ?q)] => set (w := mbind k (_check_quota env q)) in * end.
  assert (w s = (Ok c, s') → ∃ l k, s' = set_checkpoints l k s) as Hw.
  { clear H. unfold w. intros H. ok_inv H.
    match goal with E : _check_quota _ _ _ = (Ok _, _) |- _ => unfold _check_quota in E; destruct (_ <? _); [discriminate E|injection E as _ <-] end.
    match goal with E : _tx _ _ _ = (Ok ?u, _) |- _ => apply tx_ok in E; unfold insert_checkpoint, mbind, se_bind, sget, sput in E; injection E as _ <- end.
    lift_inv. match goal with E : latest_checkpoint _ _ = (Ok _, _) |- _ => apply latest_checkpoint_ok in E as [-> _] end.
    subst s'. by eexists _, _. }
  destruct newest as [cp|]; [|by apply Hw].
  ok_inv H. destruct (_ && _); [|by apply Hw]. injection H as _ <-. exists (checkpoints s), (checkpoint_seq s). by destruct s.
Qed.

Lemma write_checkpoint_journal env ek st n s r s' : write_checkpoint env ek st n s = (r, s') → distinct_keys st → journal_ok s → journal_ok s'.
Proof. intros H Hd. apply evolves_ok. exact (wp_run _ _ _ _ _ (write_checkpoint_evolves env ek st n s Hd) H). Qed.

Definition new_row (ek data : string) (n now : Z) (s : store) : checkpoint_row :=
  {| cr_seq := checkpoint_seq s + 1; cr_evidence_key := ek; cr_last_outcome_seq := n; cr_schema_version := SCHEMA_VERSION; cr_payload := data;
     cr_payload_sha256 := sha256_hex data; cr_created_at_ms := now |}.

(** After the INSERT and the DELETE of old ones, the newest checkpoint is the one inserted. *)
Lemma newest_kept {A} (q kept : A → bool) base r : q r = true → kept r = true →
  last (filter (λ x, q x) (filter (λ x, negb (q x) || kept x) (base ++ [r]))) = Some r.
Proof.
  intros Hq Hk. rewrite (filter_app _ base), (filter_bool_cons (λ x, negb (q x) || kept x)), Hk, orb_true_r, filter_nil.
  by rewrite filter_app, filter_bool_cons, Hq, filter_nil, last_snoc.
Qed.

Lemma newest_is_new ek data n now s row :
  last (filter (λ c, bool_decide (cr_evidence_key c = ek)) (checkpoints (insert_checkpoint ek data n now s).2)) = Some row → cr_payload row = data.
Proof.
  unfold insert_checkpoint, mbind, se_bind, sget, sput. cbn [snd checkpoints set_checkpoints].
  fold (new_row ek data n now s). set (row' := new_row ek data n now s). set (rows := checkpoints s ++ [row']).
  set (mine := filter (λ c, bool_decide (cr_evidence_key c = ek)) rows). set (keep := cr_seq <$> drop (length mine - CHECKPOINTS_KEPT) mine).
  assert (cr_seq row' ∈ keep) as Hk.
  { assert (mine = filter (λ c, bool_decide (cr_evidence_key c = ek)) (checkpoints s) ++ [row']) as Em.
    { unfold mine, rows. rewrite filter_app, filter_bool_cons.
      replace (bool_decide (cr_evidence_key row' = ek)) with true by (by rewrite bool_decide_true). done. }
    unfold keep. rewrite Em, length_app, drop_app_le by (cbn [length]; unfold CHECKPOINTS_KEPT; lia).
    rewrite fmap_app. apply elem_of_app. right. left. }
  unfold rows. rewrite (newest_kept (λ c, bool_decide (cr_evidence_key c = ek)) (λ c, bool_decide (cr_seq c ∈ keep)));
    [by intros [= <-]|by apply bool_decide_true|by apply bool_decide_true].
Qed.

(** A tick leaves its mark, unless the text it would write and the latest checkpoint's text differ and have one digest. *)
Lemma checkpoint_marks env ek sd t n s cp s4 : write_checkpoint env ek (JObj (dset "replay_tick" (JInt t) sd)) n s = (Ok cp, s4) →
  distinct_keys (JObj (dset "replay_tick" (JInt t) sd)) → journal_ok s →
  field "replay_tick" the_int (c_state cp) = Ok t ∨
  ∃ row data, row ∈ checkpoints s ∧ _encode (JObj (dset "replay_tick" (JInt t) sd)) MAX_CHECKPOINT_BYTES = Ok data ∧
    cr_payload row ≠ data ∧ sha256_hex (cr_payload row) = sha256_hex data.
Proof.
  set (st := JObj _). intros H Hd Hj.
  assert (∀ data, _encode st MAX_CHECKPOINT_BYTES = Ok data → ∀ j, loads data = Ok j → field "replay_tick" the_int j = Ok t) as Hread.
  { intros data He j Hl. rewrite (encode_loads _ _ _ He Hd) in Hl. injection Hl as <-. unfold st. inversion Hd as [| | | | | |? Hn _]; subst.
    eapply field_norm; [exact Hn|apply dget_dset_eq|done]. }
  unfold write_checkpoint in H. apply se_bind_ok in H as (data & ? & [He ->]%lift_ok & H). apply guard_ok in H.
  apply se_bind_ok in H as (? & s1 & Hh & H). injection Hh as _ <-. apply se_bind_ok in H as (o & s1 & Hl & H).
  apply latest_checkpoint_ok in Hl as [-> Hl].
  match type of H with context [mbind ?k (_check_quota env ?q)] => set (w := mbind k (_check_quota env q)) in * end.
  assert (w s = (Ok cp, s4) → field "replay_tick" the_int (c_state cp) = Ok t) as Hw.
  { clear H. unfold w. intros H. apply se_bind_ok in H as (? & s1 & Hq & H).
    unfold _check_quota in Hq. destruct (_ <? _); [discriminate Hq|]. injection Hq as _ <-.
    apply se_bind_ok in H as ([] & s1 & Ht & H). apply tx_ok in Ht.
    apply se_bind_ok in H as (o' & s2 & Hl' & H). apply lift_ok in H as [H ->]. apply of_option_ok in H. subst o'.
    apply latest_checkpoint_ok in Hl' as [-> Hl'].
    match type of Hl' with match ?l with _ => _ end => destruct l as [row|] eqn:El; [|discriminate Hl'] end.
    destruct Hl' as (j & Hj2 & _ & [= ->]). cbn [c_state].
    apply (Hread data He j). rewrite <-Hj2. f_equal. symmetry. apply (newest_is_new ek data n (e_now env) s row). by rewrite Ht. }
  destruct o as [c0|]; [|left; by apply Hw]. apply se_raise_if_ok in H as [_ H]. destruct (_ && _) eqn:E; [|left; by apply Hw].
  injection H as -> _. bool_prop. destruct (last _) as [row|] eqn:El; [|discriminate Hl]. destruct Hl as (j & Hl & Hsha & [= ->]). cbn [c_state c_payload_sha256] in *.
  destruct (decide (cr_payload row = data)) as [<-|Hne]; [left; by eapply Hread|]. right. exists row, data.
  split_and!; [by apply last_Some_elem_of, list_elem_of_filter in El as [_ ?]|done|done|congruence].
Qed.

(** * One tick *)

Lemma range_nil lo hi dt : 0 < dt → hi ≤ lo → range lo hi dt = [].
Proof.
  intros Hd H. unfold range. pose proof (proj2 (ceil_div_le (hi - lo) dt 0 Hd) ltac:(lia)).
  by replace (Z.to_nat (ceil_div (hi - lo) dt)) with 0%nat by lia.
Qed.
Lemma range_cons lo hi dt : 0 < dt → lo < hi → range lo hi dt = lo :: range (lo + dt) hi dt.
Proof.
  intros Hd H. unfold range. assert (ceil_div (hi - lo) dt = ceil_div (hi - (lo + dt)) dt + 1) as ->.
  { unfold ceil_div. replace (- (hi - (lo + dt))) with (- (hi - lo) + 1 * dt) by lia. rewrite Z.div_add by lia. lia. }
  pose proof (ceil_div_spec (hi - (lo + dt)) dt Hd).
  replace (Z.to_nat (ceil_div (hi - (lo + dt)) dt + 1)) with (S (Z.to_nat (ceil_div (hi - (lo + dt)) dt))) by nia.
  cbn [seq fmap list_fmap]. f_equal; [lia|]. rewrite <-fmap_S_seq, <-list_fmap_compose. apply list_fmap_ext. intros _ k _. cbn. lia.
Qed.

Lemma arrive_split now l : l = (arrive now l).1 ++ (arrive now l).2 ∧ Forall (λ o, by_time now o = true) (arrive now l).1.
Proof.
  induction l as [|o t [IH1 IH2]]; [by split; [|constructor]|]. cbn [arrive]. fold (by_time now o). destruct (by_time now o) eqn:E; [|by split; [|constructor]].
  destruct (arrive now t) as [a b]. cbn [fst snd] in *. split; [cbn; by f_equal|by constructor].
Qed.

Lemma arrive_app now pre l : Forall (λ o, by_time now o = true) pre → arrive now (pre ++ l) = (pre ++ (arrive now l).1, (arrive now l).2).
Proof.
  induction 1 as [|o t Ho _ IH]; cbn [app arrive]; [by destruct (arrive now l)|]. fold (by_time now o). by rewrite Ho, IH.
Qed.

Section issuing.
Context (p : replay).

Lemma twin_ingest e1 e2 l : twin (ingest p e1 l) (ingest p e2 l).
Proof. destruct l; [apply twin_refl|]. apply twin_then, twin_record. Qed.

Lemma twin_issue e1 e2 view t tg pts st : e_now e1 = e_now e2 → twin (_issue p e1 view t tg pts st) (_issue p e2 view t tg pts st).
Proof.
  intros E. unfold _issue. apply twin_raise_if. do 3 (apply twin_reads; [apply reads_lift|apply twin_refl|intros ?]).
  apply twin_reads; [apply reads_lift|apply twin_refl|intros [upper info]]. by apply twin_then, twin_get_or_issue.
Qed.

Lemma issuance_key_ok ek o ws we ss k : mk_key ek o ws we ss = Ok k → key_ok k ∧ ws < k_window_end k.
Proof.
  intros H. pose proof (mk_key_fields _ _ _ _ _ _ H) as (-> & -> & ?). unfold key_ok. cbn. split; [done|lia].
Qed.

Lemma issue_again e view t tg pts st s n s' : _issue p e view t tg pts st s = (Ok n, s') → journal_ok s → problem s = None →
  journal_ok s' ∧ (s' = s ∨ ∃ r m, s' = set_issuances (issuances s ++ [r]) m s ∧ t < ir_window_end r) ∧
  ∃ n', _issue p e view t tg pts st s' = (Ok n', s').
Proof.
  intros H Hj Hp. unfold _issue in H. apply se_raise_if_ok in H as [Hc H].
  apply se_bind_ok in H as (key & ? & [Hk ->]%lift_ok & H). apply se_bind_ok in H as (base & ? & [Hb ->]%lift_ok & H).
  apply se_bind_ok in H as (c & ? & [Hcal ->]%lift_ok & H). apply se_bind_ok in H as ([upper info] & ? & [Hu ->]%lift_ok & H).
  apply se_bind_ok in H as ([i b] & s1 & Hg & H). injection H as _ <-. destruct (issuance_key_ok _ _ _ _ _ _ Hk) as [Hkey Hwe].
  pose proof (get_or_issue_row _ _ _ _ _ _ _ _ Hg) as Hrow.
  assert (problem s1 = None) as Hp1 by (destruct Hrow as [->|(r & m & -> & _)]; done).
  destruct (get_or_issue_again _ _ _ _ _ _ _ _ e (λ id, Ok (issuance_bundle p view t tg pts base upper info id)) Hg Hkey Hj Hp1) as [Hj1 Ha].
  split; [done|]. split; [destruct Hrow as [->|(r & m & -> & E)]; [by left|right; exists r, m; split; [done|by rewrite E]]|].
  exists (b2z false). unfold _issue. rewrite Hc. rewrite se_bind_eq, Hk. unfold lift at 1. cbv beta iota.
  rewrite se_bind_eq, Hb. unfold lift at 1. cbv beta iota. rewrite se_bind_eq, Hcal. unfold lift at 1. cbv beta iota.
  rewrite se_bind_eq, Hu. unfold lift at 1. cbv beta iota. by rewrite se_bind_eq, Ha.
Qed.
End issuing.

Lemma open_list_later ek fam bound s r n : bound < ir_window_end r →
  open_list ek fam bound (set_issuances (issuances s ++ [r]) n s) = open_list ek fam bound s.
Proof.
  intros H. unfold open_list, open_rows. cbn [issuances outcomes set_issuances]. rewrite filter_app, filter_bool_cons.
  assert (is_open ek fam bound (outcomes s) r = false) as ->.
  { unfold is_open. rewrite (proj2 (Z.leb_gt _ _) H). by rewrite andb_false_r. }
  by rewrite app_nil_r.
Qed.

Section ticks.
Context (forecaster : Forecaster) (p : replay) (A : list Observation) (quota : Z) (HA : replayable p A quota).
Context (Hsettle : 0 ≤ settlement_seconds (rp_config p)).
Abbreviation c := (rp_config p).
Abbreviation opened t := (open_list (rp_ek p) (model_family c) (t - settlement_seconds c)).

(** What has arrived by a tick, and what the service has then received. *)
Definition arrived (t : Z) : list Observation := (arrive (t * 1000) A).1.
Definition history (t : Z) : receipts := foldl receive [] (arrived t).
Definition view_at (t through : Z) : VisibleHistory :=
  {| v_received := history t; v_now_ms := t * 1000; v_interval := rp_dt p; v_through := Some through; v_excluded := Some (rp_excluded p) |}.

Definition issue_path (t through : Z) (pts : option (list f64)) (state : json) (s s' : store) : Prop :=
  match pts with
  | None => s' = s
  | Some ps => ∃ n, _issue p (calm_env (t * 1000)) (view_at t through) t (targets_of p t) ps state s = (Ok n, s')
  end.

(** A tick on a disk that does not fail, from one store to another, once everything that has arrived is recorded: what has
    settled is closed, the state is recovered, a forecast is issued, the tick is marked. *)
Inductive decide_path (t : Z) (s1 s4 : store) : Prop :=
| DecidePath s2 s3 state last k through pts sd cp :
    closes p (history t) (t * 1000) (opened t s1) s1 s2 →
    recover_with (rp_ek p) (fold_journal p) (start_state p) s2 = (Ok (state, last, k), s2) →
    watermark (WNumber (JInt t)) (rp_dt p) (settlement_seconds c) = Ok through →
    forecaster (view_at t through) t (targets_of p t) = Ok pts →
    issue_path t through pts state s2 s3 →
    as_dict state = Ok sd →
    write_checkpoint (calm_env (t * 1000)) (rp_ek p) (JObj (dset "replay_tick" (JInt t) sd)) last s3 = (Ok cp, s4) →
    decide_path t s1 s4.

Definition tick_path (t : Z) (s s4 : store) : Prop :=
  ∃ s1, ingest p (calm_env (t * 1000)) (arrived t) s = (Ok (), s1) ∧ decide_path t s1 s4.

Record sound (s : store) : Prop := {
  so_journal : journal_ok s;
  so_healthy : problem s = None;
  so_quota : quota_bytes s = quota;
  so_ours : ours p A s;
}.

Lemma arrived_sub t : arrived t ⊆ A.
Proof. unfold arrived. destruct (arrive_split (t * 1000) A) as [E _]. rewrite E at 2. intros o Ho. apply elem_of_app. by left. Qed.

Lemma arrived_NoDup t : NoDup (arrived t).
Proof.
  pose proof (ra_times _ _ _ HA) as H. destruct (arrive_split (t * 1000) A) as [E _]. rewrite E, fmap_app in H.
  apply NoDup_app in H as [H _]. by apply NoDup_fmap_1 in H.
Qed.

Lemma ours_observations s s' : Store.observations s' = Store.observations s → ours p A s → ours p A s'.
Proof. unfold ours. by intros ->. Qed.
Lemma present_observations s s' l : Store.observations s' = Store.observations s → Forall (present p s) l → Forall (present p s') l.
Proof. unfold present. by intros ->. Qed.

Lemma sound_recorded l s : l ⊆ A → sound s → sound (recorded p l s) ∧ observations_only s (recorded p l s) ∧ Forall (present p (recorded p l s)) l.
Proof.
  intros Hl [Hj Hh Hq Ho].
  destruct (record_fold_samples p A quota HA l {| new := 0; duplicate := 0; corrected := 0 |} s Hl Ho) as (_ & Hf & Ho1 & Hp).
  fold (recorded p l s) in Hf, Ho1, Hp. split; [|done]. split; [|by destruct Hf as (l' & ->)..|done].
  apply ok_observations; [|done]. apply Forall_fmap. eapply Forall_impl; [|intros o Ho2; exact Ho2].
  apply Forall_forall. intros o Hin. pose proof (ra_valid _ _ _ HA) as Hv. rewrite Forall_forall in Hv. by apply Hv, Hl.
Qed.

Lemma ingest_present t s : sound s → Forall (present p s) (arrived t) → ingest p (calm_env (t * 1000)) (arrived t) s = (Ok (), s).
Proof.
  intros Hs Hp. rewrite (ingest_calm p A quota HA) by (try apply Hs; apply arrived_sub || apply arrived_NoDup).
  pose proof (recorded_again p A quota HA (arrived t) [] s (arrived_sub t) (so_ours _ Hs) Hp) as E. rewrite app_nil_r in E. by rewrite E.
Qed.

Lemma tick_path_redo t s s4 : sound s → Forall (present p s) (arrived t) → decide_path t s s4 → tick_path t s s4.
Proof. intros Hs Hp Hd. exists s. split; [by apply ingest_present|done]. Qed.

(** Stores that agree on all but outcomes, issuances and checkpoints. *)
Lemma sound_frame s s' : sound s → journal_ok s' → problem s' = problem s → quota_bytes s' = quota_bytes s →
  Store.observations s' = Store.observations s → sound s'.
Proof. intros [] Hj Hp Hq Ho. split; [done|congruence|congruence|by eapply ours_observations]. Qed.

Section on_disk.
Context (disk : nat → Z * option sql_error) (t : Z).
Abbreviation run_at m s n := (m (at_ s (t * 1000) n)).

(** How a step may be interrupted: at a store, up to the mark of the failure, that starts the tick again and ends at [s4]. *)
Definition interrupted {B} (o : res B * world) (s s4 : store) : Prop :=
  ∃ e s1 s' n, o = (Raise e, at_ s' (t * 1000) n) ∧ same_tables s1 s' ∧ sound s1 ∧ checkpoints s1 = checkpoints s ∧ tick_path t s1 s4
    ∧ troubled disk.

(** The last step of a tick. *)
Lemma mark_disk s3 s4 st last cp n : write_checkpoint (calm_env (t * 1000)) (rp_ek p) st last s3 = (Ok cp, s4) →
  distinct_keys st → sound s3 → Forall (present p s3) (arrived t) → decide_path t s3 s4 →
  let step := run_at (writing disk (λ e, write_checkpoint e (rp_ek p) st last)) s3 n in
  (step = (Ok cp, at_ s4 (t * 1000) (S n)) ∧ sound s4 ∧ Forall (present p s4) (arrived t)) ∨ interrupted step s3 s4.
Proof.
  intros H Hd Hs Hp Hpath step.
  destruct (writing_twin disk _ (t * 1000) cp s3 s4 n (λ e1 e2, twin_checkpoint e1 e2 (rp_ek p) st last) H) as [E|(e & s' & E & Hst & Htr)].
  - left. destruct (write_checkpoint_row _ _ _ _ _ _ _ H) as (l & k & ->). split; [exact E|].
    split; [|by eapply present_observations]. apply (sound_frame s3); [done| |done..].
    eapply write_checkpoint_journal; [exact H|done|apply Hs].
  - right. exists e, s3, s', (S n). split_and!; [exact E|done|done|done|by apply tick_path_redo|done].
Qed.

(** Issuing, and then marking. *)
Lemma issue_disk s2 s4 state last k through pts sd s3 cp n counts :
  sound s2 → Forall (present p s2) (arrived t) → Forall (λ i, verdict p (history t) (t * 1000) i = Ok None) (opened t s2) →
  recover_with (rp_ek p) (fold_journal p) (start_state p) s2 = (Ok (state, last, k), s2) →
  watermark (WNumber (JInt t)) (rp_dt p) (settlement_seconds c) = Ok through →
  forecaster (view_at t through) t (targets_of p t) = Ok pts →
  issue_path t through pts state s2 s3 → as_dict state = Ok sd →
  write_checkpoint (calm_env (t * 1000)) (rp_ek p) (JObj (dset "replay_tick" (JInt t) sd)) last s3 = (Ok cp, s4) →
  let step := run_at (counts' ← match pts with
            | None => mret (counts.1, counts.2 + 1)
            | Some pts => m ← writing disk (λ e, _issue p e (view_at t through) t (targets_of p t) pts state); mret (counts.1 + m, counts.2)
            end;
            s ← lift (as_dict state);
            _ ← writing disk (λ e, write_checkpoint e (rp_ek p) (JObj (dset "replay_tick" (JInt t) s)) last);
            mret counts') s2 n in
  (∃ counts' n', step = (Ok counts', at_ s4 (t * 1000) n') ∧ sound s4 ∧ Forall (present p s4) (arrived t)) ∨ interrupted step s2 s4.
Proof.
  intros Hs Hp Hq Hr Hw Hf Hi Hsd Hc step.
  assert (distinct_keys (JObj (dset "replay_tick" (JInt t) sd))) as Hdk.
  { apply distinct_dset; [|constructor]. rewrite <-(as_dict_ok _ _ Hsd). by apply (recover_distinct _ _ _ _ Hr), Hs. }
  assert (decide_path t s2 s4) as Hp2 by (econstructor; [apply closes_quiet; done|done..]).
  (* the issuance leaves everything else as it was *)
  assert (sound s3 ∧ Store.observations s3 = Store.observations s2 ∧ checkpoints s3 = checkpoints s2 ∧ decide_path t s3 s4) as (Hs3 & Ho3 & Hc3 & Hp3).
  { unfold issue_path in Hi. destruct pts as [ps|]; [|by subst]. destruct Hi as (m & Hi).
    destruct (issue_again _ _ _ _ _ _ _ _ _ _ Hi (so_journal _ Hs) (so_healthy _ Hs)) as (Hj3 & [->|(r & m' & -> & Hlt)] & m2 & Ha); [done|].
    set (s3 := set_issuances _ _ _) in *. assert (sound s3) as Hs3 by (by apply (sound_frame s2)). split_and!; [done..|].
    eapply (DecidePath t s3 s4 s3 s3); [| |exact Hw|exact Hf|by exists m2|exact Hsd|exact Hc].
    - apply closes_quiet; [|done]. unfold s3. rewrite open_list_later; [done|lia].
    - apply (recover_grows p _ s2 _ s2 s3 Hr); [apply Hs|done|done|done|by exists [r]]. }
  assert (Forall (present p s3) (arrived t)) as Hpr3 by by eapply present_observations.
  assert (∀ n (counts' : Z * Z), run_at (s ← lift (as_dict state); _ ← writing disk (λ e, write_checkpoint e (rp_ek p) (JObj (dset "replay_tick" (JInt t) s)) last); mret counts') s3 n
    = match run_at (writing disk (λ e, write_checkpoint e (rp_ek p) (JObj (dset "replay_tick" (JInt t) sd)) last)) s3 n with
      | (Ok _, w) => (Ok counts', w) | (Raise e, w) => (Raise e, w) end) as Hrest.
  { intros n0 counts'. rewrite se_bind_eq, Hsd. unfold lift. cbv beta iota. rewrite se_bind_eq. by destruct (writing _ _ _) as [[?|?] ?]. }
  assert (∀ n (counts' : Z * Z), let rest := run_at (s ← lift (as_dict state); _ ← writing disk (λ e, write_checkpoint e (rp_ek p) (JObj (dset "replay_tick" (JInt t) s)) last); mret counts') s3 n in
    (∃ counts' n', rest = (Ok counts', at_ s4 (t * 1000) n') ∧ sound s4 ∧ Forall (present p s4) (arrived t)) ∨ interrupted rest s2 s4) as Hend.
  { intros n0 counts' rest. unfold rest. rewrite Hrest. destruct (mark_disk s3 s4 _ last cp n0 Hc Hdk Hs3 Hpr3 Hp3) as [(-> & ? & ?)|(e & s1 & s' & n' & -> & ? & ? & Hck & ? & ?)].
    - left. by eexists _, _.
    - right. exists e, s1, s', n'. split_and!; try done. congruence. }
  unfold issue_path in Hi. destruct pts as [ps|].
  - destruct Hi as (m & Hi). unfold step. rewrite se_bind_eq, se_bind_eq.
    destruct (writing_twin disk _ (t * 1000) m s2 s3 n (λ e1 e2, twin_issue p e1 e2 _ _ _ _ _) Hi) as [->|(e & s' & -> & Hst & Htr)].
    + apply (Hend (S n) (counts.1 + m, counts.2)).
    + right. exists e, s2, s', (S n). split_and!; [done..|by apply tick_path_redo|done].
  - subst s3. apply (Hend n (counts.1, counts.2 + 1)).
Qed.

Lemma decide_disk s s4 n counts : sound s → Forall (present p s) (arrived t) → decide_path t s s4 →
  let step := run_at (decide_tick disk forecaster p t (history t) counts) s n in
  (∃ counts' n', step = (Ok counts', at_ s4 (t * 1000) n') ∧ sound s4 ∧ Forall (present p s4) (arrived t)) ∨ interrupted step s s4.
Proof.
  intros Hs Hp Hpath step. pose proof Hpath as [s2 s3 state last k through pts sd cp Hcl Hr Hw Hf Hi Hsd Hc].
  pose proof (on_store_at _ _ _ _ (t * 1000) n (open_value (rp_ek p) (model_family c) (t - settlement_seconds c) s (so_journal _ Hs))) as Ho.
  destruct (close_loop disk p (history t) (t * 1000) _ (opened t s) [] s s2 n (so_journal _ Hs) eq_refl ltac:(constructor) Hcl)
    as [(n' & El & Hj2 & (l & m & ->) & Hq)|(e & s1 & s' & n' & El & Hst & Hj1 & (l & m & ->) & Hc1 & Htr)].
  - set (s2 := set_outcomes l m s) in *. assert (sound s2) as Hs2 by (by apply (sound_frame s)).
    pose proof (issue_disk s2 s4 state last k through pts sd s3 cp n' counts Hs2 (present_observations s s2 (arrived t) eq_refl Hp) Hq Hr Hw Hf Hi Hsd Hc) as Hend.
    cbv zeta in Hend. match type of Hend with _ ∨ interrupted ?o _ _ => assert (step = o) as -> end; [|exact Hend].
    unfold step, decide_tick. rewrite se_bind_eq, Ho, se_bind_eq, El, se_bind_eq, (on_store_at _ _ _ _ _ _ Hr). cbv beta iota.
    rewrite se_bind_eq, Hw. unfold lift at 1. cbv beta iota. rewrite se_bind_eq. fold (view_at t through). rewrite Hf. done.
  - right. set (s1 := set_outcomes l m s) in *. assert (sound s1) as Hs1 by (by apply (sound_frame s)).
    exists e, s1, s', n'. split_and!; [unfold step, decide_tick; by rewrite se_bind_eq, Ho, se_bind_eq, El|done..| |done].
    apply tick_path_redo; [done|by apply (present_observations s)|].
    by apply (DecidePath t s1 s4 s2 s3 state last k through pts sd cp).
Qed.

(** Where the loop stands before a tick: all it has taken is in the journal, and had arrived by then. *)
Definition before (q : progress) (s : store) : Prop :=
  ∃ pre, A = pre ++ to_come q ∧ received q = foldl receive [] pre ∧ Forall (present p s) pre ∧ Forall (λ o, by_time (t * 1000) o = true) pre.

Lemma before_arrived q s : before q s → ∃ pre batch rest, arrive (t * 1000) (to_come q) = (batch, rest) ∧ arrived t = pre ++ batch ∧
  A = (pre ++ batch) ++ rest ∧ history t = foldl receive (received q) batch ∧ Forall (present p s) pre.
Proof.
  intros (pre & HA0 & Hr & Hp & Hb). destruct (arrive (t * 1000) (to_come q)) as [batch rest] eqn:E. exists pre, batch, rest.
  assert (arrived t = pre ++ batch) as Ha by (unfold arrived; rewrite HA0, arrive_app by done; by rewrite E).
  split_and!; [done|done| | |done].
  - destruct (arrive_split (t * 1000) (to_come q)) as [Es _]. rewrite E in Es. cbn in Es. rewrite HA0, Es at 1. by rewrite app_assoc.
  - unfold history. rewrite Ha, foldl_app. by rewrite <-Hr.
Qed.

Lemma tick_disk q s s4 now n : now ≤ t * 1000 → sound s → before q s → tick_path t s s4 →
  let step := tick disk forecaster p q t (at_ s now n) in
  (∃ q' n', step = (Ok q', at_ s4 (t * 1000) n') ∧ sound s4 ∧ before q' s4) ∨ interrupted step s s4.
Proof.
  intros Hnow Hs Hq Hpath step. destruct (before_arrived q s Hq) as (pre & batch & rest & Ea & Har & HA0 & Hh & Hpre).
  pose proof Hpath as (s1 & Hin & Hd). assert (pre ⊆ A ∧ batch ⊆ A) as [Hp1 Hb1] by (split; intros o Ho; rewrite HA0, !elem_of_app; auto).
  apply ingest_ok in Hin. rewrite Har, (recorded_again p A quota HA pre batch s Hp1 (so_ours _ Hs) Hpre) in Hin.
  assert (ingest p (calm_env (t * 1000)) batch s = (Ok (), s1)) as Hin1.
  { rewrite Hin. apply (ingest_calm p A quota HA); [apply Hs|apply Hs|done|]. pose proof (arrived_NoDup t) as H. rewrite Har in H.
    by apply NoDup_app in H as (_ & _ & ?). }
  destruct (sound_recorded batch s Hb1 Hs) as (Hs1 & Hf1 & Hpb). rewrite <-Hin in Hs1, Hf1, Hpb.
  assert (Forall (present p s1) (arrived t)) as Hpr.
  { rewrite Har. apply Forall_app. split; [|done]. eapply Forall_impl; [exact Hpre|]. intros x. by apply present_mono. }
  assert (clock_set (t * 1000) (at_ s now n) = (Ok (), at_ s (t * 1000) n)) as Hcl.
  { unfold clock_set, at_. cbn [w_clock]. unfold manual_set. by rewrite (proj2 (Z.ltb_ge _ _) Hnow). }
  assert (step = match writing disk (λ e, ingest p e batch) (at_ s (t * 1000) n) with
    | (Ok _, w) => match decide_tick disk forecaster p t (history t) (issued q, no_forecast q) w with
        | (Ok k, w') => (Ok {| to_come := rest; received := history t; issued := k.1; no_forecast := k.2 |}, w')
        | (Raise e, w') => (Raise e, w') end
    | (Raise e, w) => (Raise e, w) end) as ->.
  { unfold step, tick. rewrite se_bind_eq, Hcl, Ea, <-Hh. rewrite se_bind_eq. destruct (writing _ _ _) as [[[]|e] w]; [|done].
    rewrite se_bind_eq. by destruct (decide_tick _ _ _ _ _ _ _) as [[k|e] w']. }
  destruct (writing_twin disk _ (t * 1000) () s s1 n (λ e1 e2 _, twin_ingest p e1 e2 batch) Hin1) as [->|(e & s' & -> & Hst & Htr)].
  - destruct (decide_disk s1 s4 (S n) (issued q, no_forecast q) Hs1 Hpr Hd) as [(k & n' & -> & Hs4 & Hp4)|(e & s2 & s' & n' & -> & Hst & Hs2 & Hc2 & Hp2 & Htr)].
    + left. eexists _, n'. split_and!; [done|done|]. exists (pre ++ batch). cbn [to_come received]. split_and!; [done| |by rewrite <-Har|].
      * unfold history. by rewrite Har.
      * rewrite <-Har. apply arrive_split.
    + right. exists e, s2, s', n'. split_and!; try done. destruct Hf1 as (l & ->). done.
  - right. exists e, s, s', (S n). done.
Qed.
End on_disk.

(** * The ticks of a run *)

(** Where a run on this journal would start. *)
Definition marker (s : store) (t : Z) : Prop :=
  ∃ cp, latest_checkpoint (rp_ek p) s = (Ok cp, s) ∧ resume_from c (rp_dt p) cp = Ok t.

Lemma marker_eq s s' t : checkpoints s' = checkpoints s → marker s t → marker s' t.
Proof. intros Hc (cp & H & Hr). exists cp. by destruct (latest_checkpoint_eq _ _ s' _ _ Hc H) as [_ ?]. Qed.

Fixpoint ticks_path (ts : list Z) (s F : store) : Prop :=
  match ts with [] => F = s | t :: ts => ∃ s', tick_path t s s' ∧ marker s' (t + rp_dt p) ∧ ticks_path ts s' F end.

Abbreviation ticks_from t := (range t (last_origin c + 1) (rp_dt p)).

(** The journal [s] can be resumed, and then ends at [F]. *)
Definition resumable (s F : store) : Prop := sound s ∧ ∃ t, first_origin c ≤ t ∧ marker s t ∧ ticks_path (ticks_from t) s F.

Context (Hdt : 0 < rp_dt p).

Lemma before_later q s t t' : t ≤ t' → before t q s → before t' q s.
Proof.
  intros Ht (pre & ? & ? & ? & Hb). exists pre. split_and!; [done..|]. eapply Forall_impl; [exact Hb|]. unfold by_time.
  intros o Ho. apply Z.leb_le in Ho. apply Z.leb_le. lia.
Qed.

Lemma ticks_disk disk k : ∀ t q s now n F, (length (ticks_from t) = k)%nat → first_origin c ≤ t → sound s → marker s t → before t q s → ticks_path (ticks_from t) s F →
  let run := fold_in (tick disk forecaster p) q (ticks_from t) (at_ s now n) in
  (∃ q' now' n', run = (Ok q', at_ F now' n') ∧ resumable F F) ∨
  (∃ e s1 s' now' n', run = (Raise e, at_ s' now' n') ∧ same_tables s1 s' ∧ resumable s1 F ∧ (troubled disk ∨ t * 1000 < now)).
Proof.
  induction k as [|k IH]; intros t q s now n F Hk Hfirst Hs Hm Hq Hpath run.
  - apply nil_length_inv in Hk. unfold run. rewrite Hk in *. cbn in Hpath. subst F. left. exists q, now, n. split; [done|].
    split; [done|]. exists t. by rewrite Hk.
  - destruct (decide (t < last_origin c + 1)) as [Hlt|]; [|rewrite range_nil in Hk by lia; discriminate Hk].
    unfold run. rewrite (range_cons t _ _ Hdt Hlt) in Hk |- *. cbn [fold_in]. rewrite se_bind_eq.
    assert (resumable s F) as Hres by (split; [done|by exists t]).
    rewrite (range_cons t _ _ Hdt Hlt) in Hpath. cbn [ticks_path] in Hpath. destruct Hpath as (s4 & Ht & Hm4 & Hpath).
    destruct (Z.leb_spec now (t * 1000)).
    + destruct (tick_disk disk t q s s4 now n ltac:(done) Hs Hq Ht) as [(q' & n' & -> & Hs4 & Hq')|(e & s1 & s' & n' & -> & Hst & Hs1 & Hc1 & Ht1 & Htr)].
      * destruct (IH (t + rp_dt p) q' s4 (t * 1000) n' F ltac:(by injection Hk) ltac:(lia) Hs4 Hm4 (before_later q' s4 t (t + rp_dt p) ltac:(lia) Hq') Hpath)
          as [(q2 & now2 & n2 & -> & Hr)|(e & s1 & s' & now' & n2 & -> & ? & ? & [?|?])].
        -- left. by exists q2, now2, n2.
        -- right. exists e, s1, s', now', n2. split_and!; try done. by left.
        -- lia.
      * right. exists e, s1, s', (t * 1000), n'. split_and!; [done|done| |by left]. split; [done|]. exists t. split; [done|]. split; [by apply (marker_eq s)|].
        rewrite (range_cons t _ _ Hdt Hlt). by exists s4.
    + right. assert (tick disk forecaster p q t (at_ s now n) = (Raise (ClockError "the replay clock cannot move"), at_ s now n)) as ->.
      { unfold tick. rewrite se_bind_eq. unfold clock_set, at_. cbn [w_clock]. unfold manual_set. by rewrite (proj2 (Z.ltb_lt _ _)). }
      exists (ClockError "the replay clock cannot move"), s, s, now, n. split_and!; [done|apply same_refl|done|by right].
Qed.

(** ** A run that is not interrupted *)

Definition calm : nat → Z * option sql_error := λ _, (0, None).

Lemma calm_untroubled : ¬ troubled calm.
Proof. by intros [n H]. Qed.

Lemma writing_calm {B} (m : env → SE store B) s now n b w : writing calm m (at_ s now n) = (Ok b, w) →
  ∃ s', m (calm_env now) s = (Ok b, s') ∧ w = at_ s' now (S n).
Proof.
  unfold writing, calm, at_. cbn [w_store w_clock w_ops or_default fst snd]. fold (calm_env now). destruct (m (calm_env now) s) as [r s'].
  intros [= -> <-]. by exists s'.
Qed.

Lemma from_journal_ok {B} (m : SE store B) s now n b w : on_store m (at_ s now n) = (Ok b, w) → ∃ s', m s = (Ok b, s') ∧ w = at_ s' now n.
Proof. unfold on_store, at_. cbn. destruct (m s) as [r s']. intros [= -> <-]. by exists s'. Qed.

Lemma for_in_calm r now l s n w : for_in (λ i, writing calm (λ e, close p e r now i)) l (at_ s now n) = (Ok (), w) →
  ∃ s' n', w = at_ s' now n' ∧ closes p r now l s s'.
Proof.
  revert s n. induction l as [|i t IH]; intros s n H; cbn [for_in] in H; [injection H as <-; by exists s, n|].
  apply se_bind_ok in H as ([] & w1 & Hi & H). apply writing_calm in Hi as (s1 & Hi & ->).
  destruct (IH _ _ H) as (s' & n' & -> & Hc). exists s', n'. split; [done|]. by exists s1.
Qed.

Lemma recover_ok init s v s1 : recover_with (rp_ek p) (fold_journal p) init s = (Ok v, s1) → journal_ok s → s1 = s.
Proof. intros H Hj. exact (proj1 (recover_grows p _ s v s1 s H Hj Hj eq_refl eq_refl ltac:(exists []; by rewrite app_nil_r))). Qed.

Lemma decide_calm t s n counts k w : sound s → Forall (present p s) (arrived t) →
  decide_tick calm forecaster p t (history t) counts (at_ s (t * 1000) n) = (Ok k, w) →
  ∃ s4 n', w = at_ s4 (t * 1000) n' ∧ decide_path t s s4.
Proof.
  intros Hs Hp H. unfold decide_tick in H. apply se_bind_ok in H as (isss & w1 & Ho & H). apply from_journal_ok in Ho as (s1 & Ho & ->).
  rewrite (open_value _ _ _ s (so_journal _ Hs)) in Ho. injection Ho as <- <-.
  apply se_bind_ok in H as ([] & w2 & Hc & H). apply for_in_calm in Hc as (s2 & n2 & -> & Hc).
  destruct (close_loop calm p (history t) (t * 1000) _ _ [] s s2 n (so_journal _ Hs) eq_refl ltac:(constructor) Hc)
    as [(? & _ & Hj2 & (l & m & ->) & Hq)|(? & ? & ? & ? & _ & _ & _ & _ & _ & []%calm_untroubled)].
  set (s2 := set_outcomes l m s) in *. assert (sound s2) as Hs2 by (by apply (sound_frame s)).
  apply se_bind_ok in H as ([[state last] kk] & w3 & Hr & H). apply from_journal_ok in Hr as (s3 & Hr & ->). pose proof (recover_ok _ _ _ _ Hr Hj2) as ->.
  apply se_bind_ok in H as (through & ? & [Hw ->]%lift_ok & H). apply se_bind_ok in H as (pts & ? & [Hf ->]%lift_ok & H).
  apply se_bind_ok in H as (k' & w4 & Hi & H). fold (view_at t through) in Hf, Hi.
  assert (∃ s3 n3, w4 = at_ s3 (t * 1000) n3 ∧ issue_path t through pts state s2 s3) as (s3 & n3 & -> & Hip).
  { destruct pts as [ps|]; [|injection Hi as _ <-; by exists s2, n2]. apply se_bind_ok in Hi as (m' & w5 & Hi & E). injection E as _ <-.
    apply writing_calm in Hi as (s3 & Hi & ->). exists s3, (S n2). split; [done|]. by exists m'. }
  apply se_bind_ok in H as (sd & ? & [Hsd ->]%lift_ok & H). apply se_bind_ok in H as (cp & w6 & Hcp & H). injection H as _ <-.
  apply writing_calm in Hcp as (s4 & Hcp & ->). exists s4, (S n3). split; [done|]. by econstructor.
Qed.

Lemma tick_calm t q s now n q' w : sound s → before t q s → tick calm forecaster p q t (at_ s now n) = (Ok q', w) →
  now ≤ t * 1000 ∧ ∃ s4, tick_path t s s4.
Proof.
  intros Hs Hq H. destruct (before_arrived t q s Hq) as (pre & batch & rest & Ea & Har & HA0 & Hh & Hpre).
  assert (pre ⊆ A ∧ batch ⊆ A) as [Hp1 Hb1] by (split; intros o Ho; rewrite HA0, !elem_of_app; auto).
  unfold tick in H. apply se_bind_ok in H as ([] & w1 & Hc & H).
  assert (now ≤ t * 1000 ∧ w1 = at_ s (t * 1000) n) as [Hnow ->].
  { unfold clock_set, at_ in Hc. cbn [w_clock] in Hc. unfold manual_set in Hc. destruct (Z.ltb_spec (t * 1000) now); [discriminate|].
    by injection Hc as <-. }
  split; [done|]. rewrite Ea in H. cbv beta iota in H. rewrite <-Hh in H. apply se_bind_ok in H as ([] & w2 & Hi & H).
  apply writing_calm in Hi as (s1 & Hi & ->). apply ingest_ok in Hi.
  destruct (sound_recorded batch s Hb1 Hs) as (Hs1 & Hf1 & Hpb). rewrite <-Hi in Hs1, Hf1, Hpb.
  assert (Forall (present p s1) (arrived t)) as Hpr.
  { rewrite Har. apply Forall_app. split; [|done]. eapply Forall_impl; [exact Hpre|]. intros x. by apply present_mono. }
  apply se_bind_ok in H as (k & w3 & Hd & H). destruct (decide_calm t s1 _ _ _ _ Hs1 Hpr Hd) as (s4 & n4 & _ & Hp). exists s4, s1.
  split; [|done]. rewrite (ingest_calm p A quota HA); [|apply Hs|apply Hs|apply arrived_sub|apply arrived_NoDup].
  by rewrite Har, (recorded_again p A quota HA pre batch s Hp1 (so_ours _ Hs) Hpre), Hi.
Qed.

(** Every tick of the run leaves its own mark: the latest checkpoint names it. (A tick whose checkpoint has the sequence
    number and the digest of the one before is taken for written.) *)
Definition marked (w : world) (t : Z) : bool :=
  match (latest_checkpoint (rp_ek p) (w_store w)).1 with
  | Ok (Some cp) => match field "replay_tick" the_int (c_state cp) with Ok z => z =? t | Raise _ => false end
  | _ => false
  end.

Fixpoint all_marked (q : progress) (ts : list Z) (w : world) : bool :=
  match ts with
  | [] => true
  | t :: ts => match tick calm forecaster p q t w with (Ok q', w') => marked w' t && all_marked q' ts w' | (Raise _, _) => false end
  end.

Lemma marked_marker s now n t : marked (at_ s now n) t = true → marker s (t + rp_dt p).
Proof.
  unfold marked, marker. cbn [w_store at_]. destruct (latest_checkpoint (rp_ek p) s) as [[[cp|]|e] s'] eqn:E; try discriminate.
  cbn [fst]. intros H. exists (Some cp). pose proof (latest_checkpoint_ok _ _ _ _ E) as [-> _]. split; [done|].
  cbn [resume_from]. destruct (field _ _ _) as [z|]; [|discriminate]. apply Z.eqb_eq in H. by subst.
Qed.

Lemma ticks_calm ts q s now n q' w : sound s → (∀ t, head ts = Some t → before t q s) → StronglySorted Z.lt ts →
  fold_in (tick calm forecaster p) q ts (at_ s now n) = (Ok q', w) → all_marked q ts (at_ s now n) = true → ticks_path ts s (w_store w).
Proof.
  revert q s now n. induction ts as [|t ts IH]; intros q s now n Hs Hq Hsort H Hm; cbn [fold_in] in H; [injection H as _ <-; done|].
  apply se_bind_ok in H as (q1 & w1 & Ht & H). cbn [all_marked] in Hm. rewrite Ht in Hm. apply andb_true_iff in Hm as [Hm1 Hm].
  specialize (Hq t eq_refl). destruct (tick_calm t q s now n q1 w1 Hs Hq Ht) as (Hnow & s4 & Hp).
  destruct (tick_disk calm t q s s4 now n Hnow Hs Hq Hp) as [(q2 & n2 & E & Hs4 & Hq4)|(? & ? & ? & ? & _ & _ & _ & _ & _ & []%calm_untroubled)].
  rewrite E in Ht. injection Ht as -> <-. exists s4. split_and!; [done|by eapply marked_marker|].
  apply StronglySorted_inv in Hsort as [Hsort Hlt]. eapply IH; [exact Hs4| |exact Hsort|exact H|exact Hm].
  intros t' Ht'. eapply before_later; [|exact Hq4]. destruct ts as [|y ts]; [discriminate|]. injection Ht' as ->.
  apply Forall_cons in Hlt as [? _]. lia.
Qed.
End ticks.

(** * Interrupted and resumed *)

Lemma range_sorted lo hi dt : 0 < dt → StronglySorted Z.lt (range lo hi dt).
Proof.
  intros Hd. unfold range. apply SS_fmap. remember 0%nat as i eqn:Ei. clear Ei. generalize (Z.to_nat (ceil_div (hi - lo) dt)). intros k.
  revert i. induction k as [|k IH]; intros i; cbn [seq]; constructor; [apply IH|]. apply Forall_forall. intros j Hj%elem_of_seq. nia.
Qed.

(** A new process opens the file the last one left, with the same parameters. *)
Definition restart (s : store) : res store :=
  reopen None (Store.retention_seconds s) (Store.retention_seconds s + obs_extra s) (quota_bytes s) (max_bundle_bytes s) true s.

Lemma restart_same s s' s2 : same_tables s s' → problem s = None → restart s' = Ok s2 → s2 = s.
Proof.
  intros (q & -> & _) Hp H. unfold restart, reopen in H. ok_inv H. subst s2. destruct s; cbn in *. by subst.
Qed.

(** The journals that runs of one replay can leave, one after another: each run meets whatever disk and clock, ends or is
    interrupted, and the file is opened again. *)
Inductive attempts (forecaster : Forecaster) (d : Dataset) (c : ReplayConfig) (s0 : store) : store → Prop :=
| at_first : attempts forecaster d c s0 s0
| at_again s disk clk n r w s' :
    attempts forecaster d c s0 s → run_replay disk forecaster d c {| w_store := s; w_clock := clk; w_ops := n |} = (r, w) →
    restart (w_store w) = Ok s' → attempts forecaster d c s0 s'.

(** The counts of a result are of its own run; the rest is read from the journal. *)
Definition of_journal (r : ReplayResult) : string * string * json * json * json * Z * option json * string :=
  (rr_evidence_key r, rr_settings_sha256 r, rr_scored r, rr_unscorable r, rr_excluded r, rr_pending r, rr_checkpoint r, rr_journal_sha256 r).

Lemma prepare_ok d c p : prepare d c = Ok p → rp_config p = c ∧ 0 ≤ settlement_seconds c.
Proof.
  intros Hprep. unfold prepare in Hprep. apply bind_ok in Hprep as (dt & _ & H). apply bind_ok in H as ([] & Hc & H). apply bind_ok in H as (pol & _ & H).
  apply bind_ok in H as ([ek st] & _ & H). apply bind_ok in H as (src & _ & H). apply bind_ok in H as (exs & _ & H). injection H as <-.
  split; [done|]. unfold check in Hc. ok_inv Hc. by bool_prop.
Qed.

Section resume.
Context (forecaster : Forecaster) (d : Dataset) (p : replay) (Hprep : prepare d (rp_config p) = Ok p).
Abbreviation c := (rp_config p).
Abbreviation arrivals := (sort_by arrival_order (observations d)).

Lemma report_reads q w : let '(r, w') := report p q w in same_tables (w_store w) (w_store w') ∧ w_clock w' = w_clock w.
Proof.
  destruct w as [s clk n]. unfold report.
  assert (∀ {B} (m : SE store B), reads m → ∀ s0 s1 clk1 n1, same_tables s0 s1 →
    let '(r, w') := on_store m {| w_store := s1; w_clock := clk1; w_ops := n1 |} in same_tables s0 (w_store w') ∧ w_clock w' = clk1) as Hr.
  { intros B m Hm s0 s1 clk1 n1 Hs. unfold on_store. cbn. specialize (Hm s1). unfold wp in Hm. destruct (m s1) as [r s2]. cbn.
    split; [by eapply same_trans|done]. }
  rewrite se_bind_eq. pose proof (Hr _ _ (reads_latest_checkpoint (rp_ek p)) s s clk n (same_refl _)) as H1.
  destruct (on_store _ _) as [[cp|e] [s1 c1 n1]]; [|done]. cbn in H1. destruct H1 as [H1 ->]. cbv zeta. rewrite se_bind_eq.
  pose proof (Hr _ _ (reads_open (rp_ek p) (model_family (rp_config p)) (last_origin (rp_config p) + lead_seconds (rp_config p))) s s1 clk n1 H1) as H2.
  destruct (on_store _ _) as [[l|e] [s2 c2 n2]]; [|done]. cbn in H2. destruct H2 as [H2 ->].
  do 3 (rewrite se_bind_eq; unfold lift at 1; destruct (getitem _ _); [|done]). rewrite se_bind_eq.
  pose proof (Hr _ _ reads_digest s s2 clk n2 H2) as H3. by destruct (on_store journal_digest _) as [[g|e] [s3 c3 n3]].
Qed.

Lemma report_ok q s now n r w : report p q (at_ s now n) = (Ok r, w) →
  ∀ q' now' n', ∃ r' w', report p q' (at_ s now' n') = (Ok r', w') ∧ w_store w' = w_store w ∧ of_journal r' = of_journal r.
Proof.
  intros H q' now' n'. unfold report in *. apply se_bind_ok in H as (cp & w1 & Hcp & H). apply from_journal_ok in Hcp as (s1 & Hcp & ->).
  apply se_bind_ok in H as (l & w2 & Hl & H). apply from_journal_ok in Hl as (s2 & Hl & ->).
  apply se_bind_ok in H as (a1 & w3 & [Ha1 ->]%lift_ok & H). apply se_bind_ok in H as (a2 & w3 & [Ha2 ->]%lift_ok & H).
  apply se_bind_ok in H as (a3 & w3 & [Ha3 ->]%lift_ok & H). apply se_bind_ok in H as (g & w4 & Hg & H). apply from_journal_ok in Hg as (s4 & Hg & ->).
  injection H as <- <-. eexists _, (at_ s4 now' n'). split_and!; [|reflexivity|].
  2:{ instantiate (1 := {| rr_issued := issued q'; rr_no_forecast := no_forecast q' |}). reflexivity. }
  rewrite se_bind_eq, (on_store_at _ _ _ _ _ _ Hcp). cbv zeta. rewrite se_bind_eq, (on_store_at _ _ _ _ _ _ Hl).
  rewrite se_bind_eq, Ha1. unfold lift at 1. cbv beta iota. rewrite se_bind_eq, Ha2. unfold lift at 1. cbv beta iota.
  rewrite se_bind_eq, Ha3. unfold lift at 1. cbv beta iota. by rewrite se_bind_eq, (on_store_at _ _ _ _ _ _ Hg).
Qed.

Context (quota : Z) (HA : replayable p arrivals quota) (Hdt : 0 < rp_dt p).
Abbreviation resumable := (resumable forecaster p arrivals quota).

Lemma before_begin t s : before p arrivals t (begin arrivals) s.
Proof. exists []. by split_and!. Qed.

(** A run on a journal that can be resumed leaves one that can be resumed to the same end; on a calm disk it gets there. *)
Lemma run_disk disk s F clk n : resumable s F →
  let '(r, w) := run_replay disk forecaster d c {| w_store := s; w_clock := clk; w_ops := n |} in
  (∃ s1, same_tables s1 (w_store w) ∧ resumable s1 F) ∧
  (disk = calm → ∀ now q0 now0 n0 r0 w0, clk = Some now → now ≤ first_origin c * 1000 → report p q0 (at_ F now0 n0) = (Ok r0, w0) →
   ∃ r', r = Ok r' ∧ w_store w = w_store w0 ∧ of_journal r' = of_journal r0).
Proof.
  destruct (prepare_ok _ _ _ Hprep) as [_ Hset]. intros Hres. pose proof Hres as [Hs (t & Hfirst & Hm & Hpath)].
  unfold run_replay. rewrite se_bind_eq, Hprep. unfold lift at 1. cbv beta iota. pose proof Hm as (cp & Hcp & Hfrom).
  rewrite se_bind_eq. unfold on_store at 1. cbn [w_store w_clock w_ops]. rewrite Hcp. cbv beta iota. rewrite se_bind_eq, Hfrom. unfold lift at 1. cbv beta iota.
  rewrite se_bind_eq. unfold sget at 1. cbv beta iota. destruct clk as [now|]; cbn [w_clock].
  2:{ rewrite bool_decide_true by done. split; [by exists s; split; [apply same_refl|]|]. by intros _ now q0 now0 n0 r0 w0 [=]. }
  rewrite bool_decide_false by done. rewrite se_bind_eq. fold (at_ s now n).
  destruct (ticks_disk forecaster p arrivals quota HA Hset Hdt disk _ t (begin arrivals) s now n F eq_refl Hfirst Hs Hm (before_begin t s) Hpath)
    as [(q & now' & n' & E & HF)|(e & s1 & s' & now' & n' & E & Hst & Hr1 & Hwhy)]; rewrite E.
  - pose proof (report_reads q (at_ F now' n')) as Hrr. destruct (report p q (at_ F now' n')) as [r w] eqn:Er. destruct Hrr as [Hrr _]. split; [by exists F|].
    intros _ now1 q0 now0 n0 r0 w0 _ _ H0. destruct (report_ok q0 F now0 n0 r0 w0 H0 q now' n') as (r' & w' & H' & Hw' & Hj).
    rewrite Er in H'. injection H' as -> ->. by exists r'.
  - split; [by exists s1|]. intros -> now1 q0 now0 n0 r0 w0 [= <-] Hnow. destruct Hwhy as [[]%calm_untroubled|]. lia.
Qed.
End resume.

Lemma sorted_replayable p obs dt quota : observations_ok obs dt → Forall (λ o, 0 ≤ available_at_ms o) obs → sha256_text (rp_source p) = true →
  64 * Z.of_nat (length obs) ≤ quota → replayable p (sort_by arrival_order obs) quota.
Proof.
  intros [Hi _ Hv Hr] Hp Hs Hq. split; [| |done|by rewrite sort_by_length].
  - rewrite sort_by_perm. clear -Hi. induction Hi as [|x l Hs IH Hx]; constructor; [|done]. intros Hin. rewrite Forall_forall in Hx.
    specialize (Hx x Hin). lia.
  - rewrite sort_by_perm. rewrite Forall_forall in *. intros o Ho. cbn. destruct (Hv o Ho) as [-> ->]. cbn. by apply Z.leb_le, Hp.
Qed.

Lemma create_resumable forecaster p A quota id keep obs cap s0 F : create id keep obs quota cap = Ok s0 → 
  ticks_path forecaster p A (range (first_origin (rp_config p)) (last_origin (rp_config p) + 1) (rp_dt p)) s0 F →
  resumable forecaster p A quota s0 F.
Proof.
  intros Hc Hp. pose proof (create_ok _ _ _ _ _ _ Hc) as Hj. unfold create in Hc. ok_inv Hc. subst s0. split.
  - split; [done|done|done|]. intros o Ho. by apply elem_of_nil in Ho.
  - exists (first_origin (rp_config p)). split; [lia|]. split; [by exists None|done].
Qed.

Lemma attempts_resumable forecaster d p quota s0 s F : prepare d (rp_config p) = Ok p → replayable p (sort_by arrival_order (observations d)) quota →
  0 < rp_dt p → attempts forecaster d (rp_config p) s0 s →
  resumable forecaster p (sort_by arrival_order (observations d)) quota s0 F → resumable forecaster p (sort_by arrival_order (observations d)) quota s F.
Proof.
  intros Hprep HA Hdt Ha H0. induction Ha as [|s disk clk n r w s' Ha IH Hrun Hre]; [done|].
  pose proof (run_disk forecaster d p Hprep quota HA Hdt disk s F clk n IH) as H. rewrite Hrun in H.
  destruct H as [(s1 & Hst & Hr1) _]. by rewrite (restart_same s1 (w_store w) s' Hst (so_healthy _ _ _ _ (proj1 Hr1)) Hre).
Qed.

(** C8: An interrupted replay, resumed, ends in the journal of an uninterrupted one. Take a replay that a calm disk carries
    from a new journal to its end. Whatever journal any number of earlier runs of the same replay left, each with any disk,
    any clock and interrupted at any write or not at all, a run that reopens it on a calm disk succeeds, leaves exactly the
    tables of the uninterrupted run, rowids, order and commit times included, and reports the same totals, the same
    checkpoint and the same journal digest. *)
Theorem resume_same_journal forecaster d c p id keep obs quota cap s0 s now0 n0 r0 w0 now n :
  prepare d c = Ok p → 0 < rp_dt p → observations_ok (observations d) (rp_dt p) →
  Forall (λ o, 0 ≤ available_at_ms o) (observations d) → sha256_text (rp_source p) = true →
  64 * Z.of_nat (length (observations d)) ≤ quota → create id keep obs quota cap = Ok s0 →
  now0 ≤ first_origin c * 1000 → now ≤ first_origin c * 1000 →
  run_replay calm forecaster d c (at_ s0 now0 n0) = (Ok r0, w0) →
  all_marked forecaster p (begin (sort_by arrival_order (observations d))) (range (first_origin c) (last_origin c + 1) (rp_dt p))
    (at_ s0 now0 n0) = true →
  attempts forecaster d c s0 s →
  ∃ r w, run_replay calm forecaster d c (at_ s now n) = (Ok r, w) ∧ w_store w = w_store w0 ∧ of_journal r = of_journal r0.
Proof.
  intros Hprep Hdt Hobs Hpos Hsrc Hq Hcr Hn0 Hn Hrun Hmark Ha. destruct (prepare_ok _ _ _ Hprep) as [<- Hset].
  pose proof (sorted_replayable p _ _ quota Hobs Hpos Hsrc Hq) as HA. set (A := sort_by arrival_order (observations d)) in *.
  pose proof Hrun as Hrun0. unfold run_replay in Hrun0. rewrite se_bind_eq, Hprep in Hrun0. unfold lift at 1 in Hrun0. cbv beta iota in Hrun0.
  assert (latest_checkpoint (rp_ek p) s0 = (Ok None, s0)) as Hcp by (clear -Hcr; unfold create in Hcr; ok_inv Hcr; by subst).
  rewrite se_bind_eq, (on_store_at _ _ _ _ _ _ Hcp) in Hrun0. cbv beta iota in Hrun0. rewrite se_bind_eq in Hrun0. cbn [resume_from lift] in Hrun0.
  rewrite se_bind_eq in Hrun0. unfold sget at 1 in Hrun0. cbv beta iota in Hrun0.
  change (w_clock (at_ s0 now0 n0)) with (Some now0) in Hrun0. rewrite bool_decide_false in Hrun0 by done.
  apply se_bind_ok in Hrun0 as (q & w1 & Ht & Hrep). fold A in Ht.
  assert (sound p A quota s0) as Hs0.
  { pose proof (create_ok _ _ _ _ _ _ Hcr) as Hj. clear -Hcr Hj. unfold create in Hcr. ok_inv Hcr. subst s0. split; [done|done|done|].
    intros o Ho. by apply elem_of_nil in Ho. }
  pose proof (ticks_calm forecaster p A quota HA Hset _ _ _ _ _ _ _ Hs0 (λ t _, before_begin d p t s0) (range_sorted _ _ _ Hdt) Ht Hmark) as Hpath.
  pose proof (create_resumable forecaster p A quota _ _ _ _ _ _ Hcr Hpath) as H0.
  destruct (ticks_disk forecaster p A quota HA Hset Hdt calm _ (first_origin (rp_config p)) (begin A) s0 now0 n0 (w_store w1) eq_refl ltac:(lia) Hs0
    ltac:(by exists None) (before_begin d p _ s0) Hpath) as [(q' & now' & n' & E & _)|(? & ? & ? & ? & ? & _ & _ & _ & [[]%calm_untroubled|?])]; [|lia].
  rewrite E in Ht. injection Ht as -> Hw1. rewrite <-Hw1 in Hrep at 1. remember (w_store w1) as F eqn:EF. clear EF.
  pose proof (attempts_resumable forecaster d p quota s0 s F Hprep HA Hdt Ha H0) as Hres.
  pose proof (run_disk forecaster d p Hprep quota HA Hdt calm s _ (Some now) n Hres) as H.
  change {| w_store := s; w_clock := Some now; w_ops := n |} with (at_ s now n) in H.
  destruct (run_replay calm forecaster d (rp_config p) (at_ s now n)) as [r w]. destruct H as [_ H].
  destruct (H eq_refl now q now' n' r0 w0 eq_refl Hn Hrep) as (r' & -> & Hw & Hj). by exists r', w.
Qed.
