(* ===== verification/ReplayDemo.v ===== *)
(** A small replay, run in full: a dataset of eight samples, three forecasts, a run whose disk fails in the middle of a
    tick, and the run that resumes it. *)
From Stdlib Require Import SpecFloat.
From S2P Require Import Prelude Float64 Sha256 Json JsonRoundtrip Identity Contracts Clock Maturation Store Journal Calibration Trust History.
From S2P Require Import State StateRoundtrip Datasets Replay ReplaySafety ReplayResume.

(** Samples of eight minutes, each received two minutes after its event. *)
Definition replay_values : list (Z * f64) :=
  [(60, f64_of_Z 5); (120, f64_of_Z 3); (180, idiv 1 10); (240, f64_of_Z 4); (300, idiv 9 2); (360, f64_of_Z 6); (420, f64_of_Z 2); (480, f64_of_Z 7)].
Definition replay_observations : list Observation := with_receipts replay_values 120 [] [].
Definition replay_manifest : list (string * json) := match write_dataset demo_spec replay_observations with Ok (m, _) => m | Raise _ => [] end.
Definition replay_dataset : Dataset :=
  {| manifest := replay_manifest;
     manifest_sha256 := match canonical_json (JObj replay_manifest) with Ok t => sha256_hex t | Raise _ => EmptyString end;
     observations := replay_observations |}.

(** Three origins, each forecasting the next minute. *)
Definition replay_config : ReplayConfig := {|
  first_origin := 240; last_origin := 480; lead_seconds := 60; settlement_seconds := 120; outcome_grace_seconds := 60;
  model_family := "last_value"; model_recipe := "last-value/v1"; miscoverage_bps := 1000; eta_bps := 100; min_miscoverage_bps := 100;
  max_miscoverage_bps := 5000; min_windows := 1; max_scores := 10; retention_seconds := 86400 |}.

Definition replay_plan : res replay := prepare replay_dataset replay_config.
Definition replay_store : res store := create "replay" 86400 86400 1000000 100000.

(** The disk fills up at one write and has room again after it. *)
Definition full_at (k : nat) : nat → Z * option sql_error := λ n, if (n =? k)%nat then (0, Some SqlFull) else (0, None).
Definition from_store (s : store) : world := at_ s 0 0.


(** The journal a run leaves when the disk is full at its [k]-th write, opened again. *)
Definition after_full (k : nat) (s : store) : res store :=
  restart (w_store (run_replay (full_at k) last_value replay_dataset replay_config (from_store s)).2).

(** What the example needs, in one evaluation: the plan, the uninterrupted run and its marks; the run interrupted after its
    seventh write is a failing one. *)
Definition replay_checks (p : replay) (s0 : store) : bool :=
  (rp_dt p =? 60) && sha256_text (rp_source p)
  && is_ok (run_replay calm last_value replay_dataset replay_config (from_store s0)).1
  && all_marked last_value p (begin (sort_by arrival_order (observations replay_dataset))) (range 240 481 (rp_dt p)) (from_store s0)
  && negb (is_ok (run_replay (full_at 7) last_value replay_dataset replay_config (from_store s0)).1)
  && is_ok (after_full 7 s0).

Lemma replay_checked :
  match replay_plan, replay_store with Ok p, Ok s0 => replay_checks p s0 | _, _ => false end = true.
Proof. by vm_compute. Qed.

Lemma replay_observed : observations_ok (observations replay_dataset) 60.
Proof. apply (check_observations_ok _ _ "settlement" 120). by vm_compute. Qed.

Lemma resume_same_journal_witness : ∃ p s0 s r0 w0 r w,
  replay_plan = Ok p ∧ replay_store = Ok s0 ∧ after_full 7 s0 = Ok s ∧
  is_ok (run_replay (full_at 7) last_value replay_dataset replay_config (from_store s0)).1 = false ∧
  run_replay calm last_value replay_dataset replay_config (from_store s0) = (Ok r0, w0) ∧
  run_replay calm last_value replay_dataset replay_config (from_store s) = (Ok r, w) ∧
  w_store w = w_store w0 ∧ of_journal r = of_journal r0.
Proof.
  pose proof replay_checked as H. destruct replay_plan as [p|] eqn:Ep; [|discriminate H]. destruct replay_store as [s0|] eqn:Es; [|discriminate H].
  unfold replay_checks in H. apply andb_true_iff in H as [H Hre]. apply andb_true_iff in H as [H Hfail].
  apply andb_true_iff in H as [H Hmark]. apply andb_true_iff in H as [H Hrun]. apply andb_true_iff in H as [Hdt Hsrc].
  apply Z.eqb_eq in Hdt. apply negb_true_iff in Hfail. destruct (after_full 7 s0) as [s|] eqn:Ef; [|discriminate Hre].
  destruct (run_replay calm last_value replay_dataset replay_config (from_store s0)) as [[r0|] w0] eqn:E0; [|discriminate Hrun].
  destruct (run_replay (full_at 7) last_value replay_dataset replay_config (from_store s0)) as [rf wf] eqn:Ew.
  assert (attempts last_value replay_dataset replay_config s0 s) as Ha.
  { eapply at_again; [apply at_first|exact Ew|]. unfold after_full in Ef. by rewrite Ew in Ef. }
  assert (observations_ok (observations replay_dataset) (rp_dt p)) as Hobs by (rewrite Hdt; exact replay_observed).
  assert (Forall (λ o, 0 ≤ available_at_ms o) (observations replay_dataset)) as Hpos by (repeat (constructor; [cbn; lia|]); constructor).
  assert (64 * Z.of_nat (length (observations replay_dataset)) ≤ 1000000) as Hq by (by vm_compute).
  destruct (resume_same_journal last_value replay_dataset replay_config p "replay" 86400 86400 1000000 100000 s0 s 0 0%nat r0 w0 0 0%nat
    Ep ltac:(lia) Hobs Hpos Hsrc Hq Es ltac:(done) ltac:(done) E0 Hmark Ha) as (r & w & Hr & Hw & Hj).
  exists p, s0, s, r0, w0, r, w. split_and!; [exact eq_refl|exact eq_refl|exact Ef|rewrite Ew; exact Hfail|exact E0|exact Hr|exact Hw|exact Hj].
Defined.

(** A sample that arrives late, and the samples without it, say the same to every tick before it. *)
Definition without_last : list Observation := take 7 replay_observations.

Lemma no_look_ahead_witness : ∃ p s0, replay_plan = Ok p ∧ replay_store = Ok s0 ∧ replay_observations ≠ without_last ∧
  (fold_in (tick calm last_value p) (begin (sort_by arrival_order replay_observations)) [240; 300; 480] (from_store s0)).2
  = (fold_in (tick calm last_value p) (begin (sort_by arrival_order without_last)) [240; 300; 480] (from_store s0)).2.
Proof.
  pose proof replay_checked as H. destruct replay_plan as [p|] eqn:Ep; [|discriminate H]. destruct replay_store as [s0|] eqn:Es; [|discriminate H].
  exists p, s0. split_and!; [exact eq_refl|exact eq_refl|intros E; apply (f_equal length) in E; discriminate E|].
  assert (Forall (λ t, t * 1000 ≤ 480000) [240; 300; 480]) as Ht by (repeat (constructor; [lia|]); constructor).
  assert (filter (λ o, by_time 480000 o) replay_observations = filter (λ o, by_time 480000 o) without_last) as Hf by (by vm_compute).
  exact (proj1 (no_look_ahead calm last_value p replay_observations without_last [240; 300; 480] 480000 (from_store s0) Ht Hf)).
Defined.

(** Recorded one at a time, as an uninterrupted run does, the samples fit a disk with room for one; submitted together, as
    the first tick of a resumed run does, they are refused, although the journal holds every one of them. *)
Example resume_needs_room : match replay_plan, replay_store with
  | Ok p, Ok s0 =>
      let tight := {| e_usage := 1000000 - 64; e_now := 600000; e_sql := None |} in
      let '(r, s) := for_in (λ o, ingest p tight [o]) replay_observations s0 in
      is_ok r && (length (Store.observations s) =? 8)%nat
      && match (ingest p tight replay_observations s).1 with Raise (StoreFull _) => true | _ => false end
  | _, _ => false
  end = true.
Proof. by vm_compute. Qed.
