(* ===== verification/Service.v ===== *)
(** [forecasting/service.py]: one [/v2/predict] request, end to end, over the service's own state (the journal, the
    artifacts, the fit worker, the metrics, the receipt clock) and an outside world [X] it only meets through five
    operations: the Kubernetes reader, the metrics backend, the monotonic and the wall clock, and the disk under the
    journal. A request holds the service's lock from [_issue] on, so a request is one computation.

    The bundle an issuance commits is the JSON the code builds; [_response] reads the answer out of it again. A journal
    operation that stamps its row is given the clock's answer when it starts. *)
From Stdlib Require Import SpecFloat.
From S2P Require Import Prelude Float64 Sha256 Json Timestamps Identity Contracts Response Clock Maturation Store Calibration.
From S2P Require Import Trust History Metrics Statistical Artifacts Worker State.

Definition REFIT_SECONDS : Z := 6 * 3600.
Definition RECIPES : list (string * string) := [("seasonal_naive", RECIPE_NAIVE); ("statistical", RECIPE_E1)].
Definition RELEASE_GATES_PASSED : bool := false.

Record ServiceConfig := { prometheus_url : string; fit_mode : string; compact_every_seconds : Z }.

Record service := {
  sv_store : option store; sv_store_problem : option string; sv_artifacts : list (string * string); sv_worker : option worker;
  sv_metrics : ForecastMetrics; sv_compacted_s : option Z; sv_clock : option Z;
}.

Definition with_store (st : store) (s : service) : service := {|
  sv_store := Some st; sv_store_problem := sv_store_problem s; sv_artifacts := sv_artifacts s; sv_worker := sv_worker s;
  sv_metrics := sv_metrics s; sv_compacted_s := sv_compacted_s s; sv_clock := sv_clock s |}.
Definition with_artifacts (d : list (string * string)) (s : service) : service := {|
  sv_store := sv_store s; sv_store_problem := sv_store_problem s; sv_artifacts := d; sv_worker := sv_worker s;
  sv_metrics := sv_metrics s; sv_compacted_s := sv_compacted_s s; sv_clock := sv_clock s |}.
Definition with_worker (w : worker) (s : service) : service := {|
  sv_store := sv_store s; sv_store_problem := sv_store_problem s; sv_artifacts := sv_artifacts s; sv_worker := Some w;
  sv_metrics := sv_metrics s; sv_compacted_s := sv_compacted_s s; sv_clock := sv_clock s |}.
Definition with_metrics (m : ForecastMetrics) (s : service) : service := {|
  sv_store := sv_store s; sv_store_problem := sv_store_problem s; sv_artifacts := sv_artifacts s; sv_worker := sv_worker s;
  sv_metrics := m; sv_compacted_s := sv_compacted_s s; sv_clock := sv_clock s |}.
Definition with_compacted (t : Z) (s : service) : service := {|
  sv_store := sv_store s; sv_store_problem := sv_store_problem s; sv_artifacts := sv_artifacts s; sv_worker := sv_worker s;
  sv_metrics := sv_metrics s; sv_compacted_s := Some t; sv_clock := sv_clock s |}.
Definition with_clock (t : Z) (s : service) : service := {|
  sv_store := sv_store s; sv_store_problem := sv_store_problem s; sv_artifacts := sv_artifacts s; sv_worker := sv_worker s;
  sv_metrics := sv_metrics s; sv_compacted_s := sv_compacted_s s; sv_clock := Some t |}.

(** [ForecastService.__init__] after the journal was opened, or could not be. *)
Definition new_service (opened : res store) (d : list (string * string)) (w : option worker) (max_autoscalers : Z) : res service :=
  let made st why := Ok {| sv_store := st; sv_store_problem := why; sv_artifacts := d; sv_worker := w;
                           sv_metrics := {| Metrics.max_autoscalers := max_autoscalers; max_series := MAX_SERIES_PER_AUTOSCALER;
                                            _snaps := [] |};
                           sv_compacted_s := None; sv_clock := None |} in
  match opened with
  | Ok st => made (Some st) None
  | Raise (StoreError m | IntegrityConflict m | RetiredKey m | StoreUnavailable m | StoreFull m | StoreCorrupt m) => made None (Some m)
  | Raise e => Raise e
  end.

(** * Status *)

Definition store_healthy (s : service) : bool :=
  match sv_store s with Some st => match problem st with None => true | Some _ => false end | None => false end.

Definition ready (s : service) : bool := store_healthy s.

(** [self.store_problem or (self.store.problem if self.store is not None else None)] *)
Definition state_problem (s : service) : option string :=
  match sv_store_problem s with
  | Some (String _ _ as p) => Some p
  | _ => match sv_store s with Some st => problem st | None => None end
  end.

Definition health (s : service) : json := JObj
  [("status", JStr "healthy"); ("state", JStr (if store_healthy s then "healthy" else "unavailable"));
   ("state_problem", opt_str (state_problem s)); ("forecast_contract", JStr FORECAST_CONTRACT);
   ("release_gates_passed", JBool RELEASE_GATES_PASSED)].

Definition forget (namespace autoscaler : string) (s : service) : service :=
  with_metrics (Metrics.remove (sv_metrics s) namespace autoscaler) s.

(** [close]: the worker closes, its queued fits dropped; the journal's connection is closed and its file stays as it is. *)
Definition close (s : service) : service :=
  match sv_worker s with Some w => with_worker (close_results (close_lock w)) s | None => s end.

(** * Lateness *)

(** A new issuance must still be able to act before its first target. *)
Definition _refuse_late (bound : BoundRequest) (now_ms : Z) : res () :=
  w ← br_window bound; win ← of_option PyTypeError w;
  first ← py_nth (target_timestamps win) 0;
  lead ← of_option PyTypeError (br_lead bound);
  raise_if first * 1000 <=? now_ms + ls_actuation_allowance_seconds lead * 1000
    with ServiceError 503 "LeadInsufficient" "too late to issue for this decision origin; the next origin will be served" ;;
  Ok ().

(** * The state of an epoch *)

Definition _initial (ek : string) : epoch_state := {|
  e_epoch := ek; e_last_outcome_seq := 0; e_last_issuance_seq := 0; e_models := [];
  e_trust := {| ts_hyst := []; ts_selection := None |};
  e_pairs := [("statistical", new_pairs ek "statistical" RECIPE_E1 RECIPE_NAIVE NAIVE)] |}.

Definition set_models (ms : list (string * model_state)) (s : epoch_state) : epoch_state := {|
  e_epoch := e_epoch s; e_last_outcome_seq := e_last_outcome_seq s; e_last_issuance_seq := e_last_issuance_seq s;
  e_models := ms; e_trust := e_trust s; e_pairs := e_pairs s |}.
Definition set_trust (t : trust_state) (s : epoch_state) : epoch_state := {|
  e_epoch := e_epoch s; e_last_outcome_seq := e_last_outcome_seq s; e_last_issuance_seq := e_last_issuance_seq s;
  e_models := e_models s; e_trust := t; e_pairs := e_pairs s |}.

(** The model's state, started over for a recipe it was not made for; the epoch's state keeps it. *)
Definition _model_state (s : epoch_state) (model recipe : string) (policy : CalibrationPolicy) (ek : string) (dt : Z)
    : epoch_state * model_state :=
  let fresh := {| m_recipe := recipe; m_calibration := initial policy ek model recipe; m_ledger := new_ledger ek model recipe dt |} in
  match dget model (e_models s) with
  | Some m => if bool_decide (m_recipe m = recipe) then (s, m) else (set_models (dset model fresh (e_models s)) s, fresh)
  | None => (set_models (dset model fresh (e_models s)) s, fresh)
  end.

Definition put_model (model : string) (m : model_state) (s : epoch_state) : epoch_state :=
  set_models (dset model m (e_models s)) s.

Section recover.
Context (s : ForecastSettings) (ek : string) (policy : CalibrationPolicy).

Definition note_issued (iss : Issuance) (b : list (string * json)) (st : epoch_state) (model : string) : res epoch_state :=
  c ← Maturation.candidate b model;
  recipe ← field "recipe" the_str (JObj c);
  let '(st1, m) := _model_state st model recipe policy ek (sample_interval_seconds s) in
  jm ← getitem "evidence_mode" (JObj b);
  upper ← getitem "upper_window_max_rps" (JObj c);
  let key := i_key iss in
  led ← note_issuance (m_ledger m) (i_seq iss) ek model (JStr recipe) (k_decision_origin key) (k_window_end key)
          (k_window_end key + settlement_seconds s + outcome_grace_seconds s) (p_lead_seconds policy)
          (match jm with JStr md => md | _ => EmptyString end) (negb (is_none upper)) (7 * DAY);
  Ok (put_model model {| m_recipe := m_recipe m; m_calibration := m_calibration m; m_ledger := led |} st1).

Definition fold_issuance (st : epoch_state) (iss : Issuance) : res epoch_state :=
  jb ← i_payload iss; b ← as_dict jb;
  st' ← foldM (note_issued iss b) st (i_models iss);
  Ok {| e_epoch := e_epoch st'; e_last_outcome_seq := e_last_outcome_seq st'; e_last_issuance_seq := i_seq iss;
        e_models := e_models st'; e_trust := e_trust st'; e_pairs := e_pairs st' |}.

Definition fold_outcome (st : epoch_state) (iss : Issuance) (o : Outcome) : res epoch_state :=
  rec ← evidence_from_journal iss o;
  recipe ← the_str (r_recipe (cal rec));
  let '(st1, m) := _model_state st (o_model o) recipe policy ek (sample_interval_seconds s) in
  c ← apply (m_calibration m) (cal rec) policy;
  l ← note_outcome (m_ledger m) rec (p_lead_seconds policy) (nominal_ratio policy)
        (acute_recent_windows (Contracts.trust s)) (7 * DAY);
  p ← of_option PyKeyError (dget "statistical" (e_pairs st1));
  p' ← note_pair p rec (p_lead_seconds policy) (nominal_ratio policy) (7 * DAY);
  let st2 := put_model (o_model o) {| m_recipe := m_recipe m; m_calibration := c; m_ledger := l |} st1 in
  Ok {| e_epoch := e_epoch st2; e_last_outcome_seq := o_seq o; e_last_issuance_seq := e_last_issuance_seq st2;
        e_models := e_models st2; e_trust := e_trust st2; e_pairs := dset "statistical" p' (e_pairs st2) |}.

(** One matured outcome, with the issuance it belongs to read from the journal. *)
Fixpoint fold_outcomes (st : epoch_state) (os : list Outcome) : SE store epoch_state :=
  match os with
  | [] => mret st
  | o :: t =>
      found ← get_issuance_by_id (o_issuance_id o);
      iss ← lift (of_option PyTypeError found);
      st' ← lift (fold_outcome st iss o);
      fold_outcomes st' t
  end.

(** The latest checkpoint (or the state given), then every later issuance, then every later outcome. *)
Definition _recover (given : option epoch_state) : SE store epoch_state :=
  st ← match given with
       | Some st => mret st
       | None => cp ← latest_checkpoint ek;
                 match cp with Some c => lift (state_of (c_state c)) | None => mret (_initial ek) end
       end;
  isss ← issuances_after ek (e_last_issuance_seq st);
  st1 ← lift (foldM fold_issuance st isss);
  os ← outcomes_after ek (e_last_outcome_seq st1);
  fold_outcomes st1 os.
End recover.

(** * Forecasting and the bundle *)

(** A family's forecast: its points, and the fit it came from. *)
Record points_of := { po_points : list f64; po_fit_cutoff : option Z; po_sha : json }.

Definition candidate_json (recipe : string) (p : points_of) (base : f64) (upper : option f64) (info : bound_info) : json := JObj
  [("recipe", JStr recipe); ("point_rps", JArr (JFloat <$> po_points p)); ("base_window_max_rps", JFloat base);
   ("upper_window_max_rps", opt_float upper); ("calibration", info_json info); ("fit_cutoff", opt_int (po_fit_cutoff p));
   ("artifact_sha256", po_sha p)].

Definition verdict_json (v : CandidateVerdict) (evidence_cutoff : option Z) : json := JObj
  [("trusted", JBool (v_trusted v)); ("phase", JStr (v_phase v)); ("reason", JStr (v_reason v));
   ("coverage_gate", opt_float (v_coverage_gate v)); ("availability", opt_float (v_availability v));
   ("prospective_gate_bounds", JInt (v_prospective_gate_bounds v)); ("evidence_cutoff", opt_int evidence_cutoff)].

(** [except KernelUnavailable: pass] *)
Definition unless_unavailable {A} (r : res A) : res (option A) :=
  match r with Ok a => Ok (Some a) | Raise (KernelUnavailable _ _) => Ok None | Raise e => Raise e end.

Section forecasts.
Context (np : NumLib) (ct : Containers) (cfg : ServiceConfig).

(** [load_snapshot], or nothing when the artifact is refused. *)
Definition snapshot (d : list (string * string)) (binding : Binding) (ks : KernelSettings) (input_end : Z)
    : res (option (json * E1Fit)) :=
  match load_snapshot ct d binding ks input_end with
  | Ok (Some (sha, lf)) => fit ← of_option PyTypeError (typed_fit ks lf); Ok (Some (sha, fit))
  | Ok None | Raise (ArtifactRefused _ _) => Ok None
  | Raise e => Raise e
  end.

(** The [try] of the inline mode, with [promote] as a state change. *)
Definition fit_inline (series : Series) (input_end : Z) (ks : KernelSettings) (binding : Binding)
    : SE (list (string * string)) (json * E1Fit) :=
  fit ← lift (fit_e1 np series input_end ks);
  data ← lift (encode_e1 ct fit binding);
  _ ← promote ct binding data ks;
  d ← sget;
  snap ← lift (load_snapshot ct d binding ks input_end);
  p ← lift (of_option PyTypeError snap);
  f ← lift (of_option PyTypeError (typed_fit ks p.2));
  mret (p.1, f).

Definition _fit_for (bound : BoundRequest) (series : Series) (input_end : Z) (ks : KernelSettings)
    : SE service (option (json * E1Fit)) :=
  s ← sget;
  let binding := for_signal (br_signal bound) (br_settings bound) RECIPE_E1 in
  snap ← lift (snapshot (sv_artifacts s) binding ks input_end);
  let due := match snap with None => true | Some (_, fit) => REFIT_SECONDS <=? input_end - cutoff fit end in
  if due && (min_history_days ks * Statistical.DAY <=? input_end - Statistical.start series + Statistical.interval_seconds ks)
  then
    if bool_decide (fit_mode cfg = "inline") then
      match fit_inline series input_end ks binding (sv_artifacts s) with
      | (Ok snap', d) => _ ← sput (with_artifacts d s); mret (Some snap')
      | (Raise (KernelUnavailable _ _ | ArtifactRefused _ _), d) => _ ← sput (with_artifacts d s); mret snap
      | (Raise e, d) => _ ← sput (with_artifacts d s); mthrow e
      end
    else
      match sv_worker s with
      | Some w =>
          if bool_decide (fit_mode cfg = "worker") then
            p ← lift (fit_payload series input_end ks binding);
            match submit FITS MAX_PENDING binding RECIPE_E1
                    {| pl_values := Some (f8_bytes (fp_values p)); pl_binding := JObj (binding_dict (fp_binding p)) |} w with
            | (Ok _, w') => _ ← sput (with_worker w' s); mret snap
            | (Raise (QueueFull _ | FitRefused _), w') => _ ← sput (with_worker w' s); mret snap
            | (Raise e, _) => mthrow e
            end
          else mret snap
      | None => mret snap
      end
  else mret snap.

(** The E1-product forecast of a fit, when it has what it needs. *)
Definition e1_points (series : Series) (input_end : Z) (targets : list Z) (ks : KernelSettings) (sha : json) (fit : E1Fit)
    : res (option points_of) :=
  f ← unless_unavailable (forecast_e1 np fit series input_end targets ks);
  Ok (option_map (λ f, {| po_points := f_points f; po_fit_cutoff := Some (cutoff fit); po_sha := sha |}) f).

(** The families that have what they need, seasonal-naive first. *)
Definition forecast_points (series : Series) (input_end : Z) (targets : list Z) (ks : KernelSettings)
    (snap : option (json * E1Fit)) (naive : option (list f64)) : res (list (string * points_of)) :=
  e1 ← (match snap with Some (sha, fit) => e1_points series input_end targets ks sha fit | None => Ok None end : res _);
  Ok (match naive with Some pts => [("seasonal_naive", {| po_points := pts; po_fit_cutoff := None; po_sha := JNull |})] | None => [] end
      ++ match e1 with Some p => [("statistical", p)] | None => [] end).

(** [next(ts for ts, v in zip(grid.timestamps, grid.values) if v is not None)] *)
Definition first_observed (g : RpsGrid) : option Z :=
  fst <$> List.find (λ tv : Z * option f64, bool_decide (is_Some tv.2)) (zip (timestamps g) (History.values g)).

(** One family of [_build]'s loop: its model's state, its bound, its candidate and its inputs to the gates. *)
Definition build_candidate (bound : BoundRequest) (policy : CalibrationPolicy) (ek : string) (input_end first_obs : Z)
    (acc : epoch_state * list (string * json) * list CandidateInputs) (mp : string * points_of)
    : res (epoch_state * list (string * json) * list CandidateInputs) :=
  let '(st, cands, inputs) := acc in let '(model, p) := mp in
  let dt := sample_interval_seconds (br_settings bound) in
  recipe ← of_option PyKeyError (dget model RECIPES);
  let '(st1, m) := _model_state st model recipe policy ek dt in
  base ← match po_points p with [] => Raise (PyValueError "max() iterable argument is empty") | x :: l => Ok (fmax_list x l) end;
  '(upper, info) ← upper_bound (m_calibration m) policy base (br_decision_origin bound);
  required ← of_option PyKeyError (dget model REQUIRED_HISTORY_SECONDS);
  Ok (st1, cands ++ [(model, candidate_json recipe p base upper info)],
      inputs ++ [{| ci_model := model; ci_ledger := m_ledger m; bound_available := bool_decide (is_Some upper);
                    Trust.calibration_windows := bi_n info; min_calibration_windows := p_min_windows policy;
                    ci_history_seconds := input_end - first_obs + dt; required_history_seconds := required;
                    data_fresh := true; fit_age_seconds := (λ c, input_end - c) <$> po_fit_cutoff p |}]).

(** [max(at for at, v in zip(grid.received_at_ms, grid.values) if v is not None)] *)
Definition received_through (g : RpsGrid) : res Z :=
  py_max (omap (λ av : option Z * option f64, match av.2 with Some _ => av.1 | None => None end)
               (zip (received_at_ms g) (History.values g))).

Definition _build (bound : BoundRequest) (ek : string) (g : RpsGrid) (st : epoch_state) (policy : CalibrationPolicy)
    (now_ms : Z) : SE service (list (string * json) * epoch_state) :=
  let s := br_settings bound in
  let dt := sample_interval_seconds s in
  lead ← lift (of_option PyTypeError (br_lead bound));
  w ← lift (br_window bound); win ← lift (of_option PyTypeError w);
  series ← lift (from_grid g);
  input_end ← lift (of_option PyTypeError (History.latest_observed g));
  ks ← lift (mk_settings (Statistical.default_settings dt));
  let targets := target_timestamps win in
  naive ← lift (unless_unavailable (seasonal_naive series input_end targets ks));
  snap ← _fit_for bound series input_end ks;
  points ← lift (forecast_points series input_end targets ks snap naive);
  raise_if (length points =? 0)%nat
    with ServiceError 503 "HistoryInsufficient" "no forecast family has the history it needs yet" ;;
  first_obs ← lift (of_option PyKeyError (first_observed g));
  '(st1, cands, inputs) ← lift (foldM (build_candidate bound policy ek input_end first_obs) (st, [], []) points);
  srv ← sget;
  let glob := {| now_s := now_ms / 1000; Trust.lead_seconds := ls_lead_seconds lead; nominal_miscoverage := nominal_ratio policy;
                 identity_ok := true; Trust.store_healthy := store_healthy srv; replay_suite_passed := RELEASE_GATES_PASSED;
                 startup_budget_valid := true |} in
  let pairs := if dhas "seasonal_naive" points then e_pairs st1 else [] in
  '(verdict, new_h) ← lift (evaluate inputs (e_trust st1) glob (Contracts.trust s) pairs []);
  let st2 := set_trust new_h st1 in
  through ← lift (received_through g);
  verdicts ← lift (mapM_res (λ mv : string * CandidateVerdict,
                     m ← of_option PyKeyError (dget mv.1 (e_models st2));
                     Ok (mv.1, verdict_json mv.2 (last_prospective_outcome_s (m_ledger m)))) (Trust.candidates verdict));
  mret ([("schema", JStr "forecast-issuance/v1"); ("evidence_mode", JStr "prospective");
         ("forecast_contract", JStr FORECAST_CONTRACT); ("evidence_key", JStr ek);
         ("settings_sha256", JStr (br_settings_sha256 bound)); ("decision_origin", JInt (br_decision_origin bound));
         ("window_start", JInt (window_start win)); ("window_end", JInt (window_end win));
         ("target_timestamps", JArr (JInt <$> targets)); ("sample_interval_seconds", JInt dt);
         ("lead_seconds", JInt (ls_lead_seconds lead)); ("startup_delay_seconds", JInt (ls_startup_delay_seconds lead));
         ("actuation_allowance_seconds", JInt (ls_actuation_allowance_seconds lead));
         ("valid_until", JInt (valid_until win lead)); ("input_end", JInt input_end);
         ("input_received_through_ms", JInt through); ("nominal_miscoverage_bps", JInt (p_nominal_bps policy));
         ("candidates", JObj cands); ("selected", opt_str (Trust.selected verdict));
         ("verdict", JObj [("phase", JStr (Trust.phase verdict)); ("reason", JStr (Trust.reason verdict));
                           ("prediction_ready", JBool (Trust.prediction_ready verdict)); ("candidates", JObj verdicts)])], st2).
End forecasts.

(** * The answer *)

Definition is_statistical (model : string) : bool := bool_decide (model = "statistical").

(** The family a bundle's answer reports. *)
Definition reported (b : json) : res string :=
  sel ← getitem "selected" b;
  if truthy sel then the_str sel
  else cs ← getitem "candidates" b; o ← as_dict cs;
       Ok (if dhas "seasonal_naive" o then "seasonal_naive" else "statistical").

Definition _response (bound : BoundRequest) (ek : string) (b : json) : res json :=
  let sig := br_signal bound in
  rep ← reported b;
  sel ← getitem "selected" b;
  cs ← getitem "candidates" b; c ← getitem rep cs;
  v ← getitem "verdict" b; vcs ← getitem "candidates" v; cv ← getitem rep vcs;
  state_phase ← (if truthy sel then getitem "phase" v else getitem "phase" cv);
  avail ← getitem "availability" cv;
  missing ← (match avail with JNull => Ok JNull | _ => a ← rate_of avail; Ok (JFloat (f1 ⊖ a)) end);
  issuance_id ← getitem "issuance_id" b; issued_at ← field "issued_at_ms" the_int b; input_end ← field "input_end" the_int b;
  through ← field "input_received_through_ms" the_int b; fit_cutoff ← field "fit_cutoff" (the_opt the_int) c;
  recipe ← getitem "recipe" c; artifact ← getitem "artifact_sha256" c; checkpoint ← getitem "checkpoint_sha256" b;
  origin ← field "decision_origin" the_int b; ws ← field "window_start" the_int b; we ← field "window_end" the_int b;
  targets ← field "target_timestamps" (the_list the_int) b; dt ← getitem "sample_interval_seconds" b;
  lead ← getitem "lead_seconds" b; startup ← getitem "startup_delay_seconds" b;
  allowance ← getitem "actuation_allowance_seconds" b; until ← field "valid_until" the_int b;
  points ← field "point_rps" as_list c; base ← getitem "base_window_max_rps" c; upper ← getitem "upper_window_max_rps" c;
  nominal ← getitem "nominal_miscoverage_bps" b; cal ← getitem "calibration" c;
  working ← getitem "working_miscoverage" cal; n ← getitem "n" cal; bounds ← getitem "prospective_gate_bounds" cv;
  coverage ← getitem "coverage_gate" cv; reason ← getitem "reason" v; ready ← getitem "prediction_ready" v;
  evidence ← field "evidence_cutoff" (the_opt the_int) cv;
  let r := {|
    Response.autoscaler_namespace := JStr (br_autoscaler_namespace bound); Response.autoscaler_name := JStr (br_autoscaler_name bound);
    Response.autoscaler_uid := JStr (rs_autoscaler_uid sig); Response.autoscaler_generation := JInt (rs_generation sig);
    Response.target_namespace := JStr (rs_namespace sig); Response.target_name := JStr (rs_name sig); Response.target_uid := JStr (rs_target_uid sig);
    Response.metric_query_sha256 := JStr (rs_sha256 sig); Response.contract := JStr (rs_contract sig);
    Response.settings_sha256 := JStr (br_settings_sha256 bound); Response.forecast_contract := JStr FORECAST_CONTRACT; Response.unit_ := JStr UNIT;
    Response.issuance_id := issuance_id; Response.issued_at_ms := issued_at; Response.input_end := input_end; Response.input_received_through_ms := through;
    Response.fit_cutoff := fit_cutoff; Response.model_family := JStr rep; Response.model_recipe := recipe; Response.artifact_sha256 := artifact;
    Response.calibration_epoch := JStr ek; Response.checkpoint_sha256 := checkpoint; Response.decision_origin := origin; Response.r_window_start := ws;
    Response.r_window_end := we; Response.r_target_timestamps := targets; Response.r_sample_interval_seconds := dt; Response.lead_seconds := lead;
    Response.startup_delay_seconds := startup; Response.actuation_allowance_seconds := allowance; Response.r_valid_until := until;
    Response.point_rps := points; Response.base_window_max_rps := base; Response.upper_window_max_rps := upper;
    Response.nominal_miscoverage_bps := nominal; Response.working_miscoverage_ratio := working; Response.calibration_windows := n;
    Response.prospective_windows := bounds; Response.gate_coverage_ratio := coverage; Response.missing_outcome_ratio := missing;
    Response.selected_candidate := JStr rep; Response.trust_state := state_phase; Response.reason := reason;
    Response.predictive_eligible := JBool (RELEASE_GATES_PASSED && truthy ready && truthy sel && negb (is_none upper));
    Response.evidence_cutoff := evidence |} in
  _ ← check_response r (Some bound);
  JObj <$> to_wire r.

(** * Metrics *)

Definition export_samples (bound : BoundRequest) (st : epoch_state) (failures : list (string * Z)) (first now_s : Z)
    (mm : string * model_state) : string * list Sample :=
  let trusted := match dget mm.1 (ts_hyst (e_trust st)) with
                 | Some h => trusted h && dhas mm.1 RECIPES | None => false end in
  (mm.1, model_samples (m_ledger mm.2) (Some (m_calibration mm.2)) (idiv (miscoverage_bps (risk (br_settings bound))) 10000)
           trusted (Z.max 0 (now_s - first)) now_s None (if is_statistical mm.1 then Some failures else None)).

Definition _export (bound : BoundRequest) (st : epoch_state) (g : RpsGrid) (now_s : Z) : SE service () :=
  s ← sget;
  let failures := match sv_worker s with Some w => w_failures w | None => [] end in
  let first := or_default now_s (first_observed g) in
  fm ← lift (update (sv_metrics s) (rs_namespace (br_signal bound)) (br_autoscaler_name bound)
               {| uid := rs_autoscaler_uid (br_signal bound);
                  Metrics.models := export_samples bound st failures first now_s <$> e_models st |});
  sput (with_metrics fm s).

(** * The request *)

Section request.
Context (np : NumLib) (ct : Containers) (cfg : ServiceConfig).
Context {X : Type} (kget : string → SE X (option json)) (fetch : string → f64 → Z → SE X exchange) (monotonic : SE X f64)
  (wall_clock : SE X json) (disk : SE X (Z * option sql_error)).
Abbreviation W := (service * X)%type.

(** What happens outside, and what happens to the service's own state. *)
Definition outside {A} (m : SE X A) : SE W A := λ w, let '(r, x) := m w.2 in (r, (w.1, x)).
Definition inside {A} (m : SE service A) : SE W A := λ w, let '(r, s) := m w.1 in (r, (s, w.2)).

(** [self.clock.now_ms()] *)
Definition clock_ms : SE W Z :=
  v ← outside wall_clock;
  w ← sget;
  t ← lift (now_ms (sv_clock w.1) v);
  _ ← sput (with_clock t w.1, w.2);
  mret t.

(** An operation of the journal; there is one whenever this is reached. *)
Definition on_store {A} (m : SE store A) : SE W A :=
  λ w, match sv_store w.1 with
       | Some st => let '(r, st') := m st in (r, (with_store st' w.1, w.2))
       | None => (Raise PyTypeError, w)
       end.

(** One that writes, and one that also stamps. *)
Definition writing {A} (m : env → SE store A) : SE W A :=
  d ← outside disk; on_store (m {| e_usage := d.1; e_now := 0; e_sql := d.2 |}).
Definition stamping {A} (m : env → SE store A) : SE W A :=
  d ← outside disk; t ← clock_ms; on_store (m {| e_usage := d.1; e_now := t; e_sql := d.2 |}).

(** [except ... as e: raise ServiceError(...)]: another exception for some, the same for the rest. *)
Definition mapping {A} (f : exn → exn) (m : SE W A) : SE W A :=
  λ w, match m w with (Raise e, w') => (Raise (f e), w') | r => r end.

Fixpoint for_each {A} (f : A → SE W ()) (l : list A) : SE W () :=
  match l with [] => mret () | x :: t => _ ← f x; for_each f t end.

(** The windows of one model that have settled, each closed with its outcome. *)
Definition close_window (s : ForecastSettings) (received : receipts) (now_ms : Z) (model : string) (iss : Issuance) : SE W () :=
  jb ← lift (i_payload iss); b ← lift (as_dict jb);
  res ← lift (issued_outcome b model received now_ms (settlement_seconds s) (outcome_grace_seconds s) None);
  match res with
  | Some (status, payload) => _ ← stamping (λ e, commit_outcome e (i_issuance_id iss) model status payload); mret ()
  | None => mret ()
  end.

Definition settle (s : ForecastSettings) (ek : string) (received : receipts) (now_ms : Z) : SE W () :=
  for_each (λ model, isss ← on_store (open_issuances ek model (now_ms / 1000 - settlement_seconds s));
                     for_each (close_window s received now_ms model) isss) RECIPES.*1.

(** The samples of a grid that were observed. *)
Definition grid_samples (g : RpsGrid) : list (Z * f64 * Z) :=
  omap (λ x : Z * option f64 * option Z, match x with (t, Some v, Some at_) => Some (t, v, at_) | _ => None end)
       (zip (zip (timestamps g) (History.values g)) (received_at_ms g)).

(** A new issuance: the trust transition is checkpointed before anything is issued, and lateness is checked again with the
    time the issuance carries. *)
Definition issue_new (bound : BoundRequest) (ek : string) (g : RpsGrid) (policy : CalibrationPolicy) (key : IssuanceKey)
    (now_ms : Z) (st : epoch_state) : SE W (Issuance * epoch_state) :=
  _ ← lift (_refuse_late bound now_ms);
  t ← clock_ms;
  '(bundle, st1) ← inside (_build np ct cfg bound ek g st policy t);
  decided ← stamping (λ e, write_checkpoint e ek (state_json st1) (e_last_outcome_seq st1));
  issued_at ← clock_ms;
  _ ← lift (_refuse_late bound issued_at);
  let full := bundle ++ [("issued_at_ms", JInt issued_at); ("checkpoint_sha256", JStr (c_payload_sha256 decided))] in
  cs ← lift (getitem "candidates" (JObj full)); o ← lift (as_dict cs);
  r ← stamping (λ e, get_or_issue e key (λ iid, Ok (JObj (full ++ [("issuance_id", JStr iid)]))) (sort_by str_leb o.*1));
  mret (r.1, st1).

(** The first part of [_issue]: what was observed is recorded, what settled is closed, the state is recovered, and the
    issuance of this origin is looked up. *)
Definition look_up (bound : BoundRequest) (g : RpsGrid) (now_ms : Z)
    : SE W (string * CalibrationPolicy * IssuanceKey * epoch_state * option Issuance) :=
  let s := br_settings bound in
  let t := br_decision_origin bound in
  lead ← lift (of_option PyTypeError (br_lead bound));
  oek ← lift (br_evidence_key bound); ek ← lift (of_option PyTypeError oek);
  w ← lift (br_window bound); win ← lift (of_option PyTypeError w);
  policy ← lift (from_settings s (ls_lead_seconds lead));
  let series := "signal:" +:+ ek in
  _ ← writing (λ e, record_observations e series (grid_samples g) (response_sha256 g));
  seen ← on_store (λ st, (Ok (observations_between series (History.start g) (History.end_ g) st), st));
  let received := (λ x : Z * f64 * Z, (x.1.1, (x.1.2, x.2))) <$> seen in
  _ ← settle s ek received now_ms;
  st ← on_store (_recover s ek policy None);
  key ← lift (mk_key ek t t (window_end win) (br_settings_sha256 bound));
  found ← on_store (get_issuance key);
  mret (ek, policy, key, st, found).

(** The last part: what the issuance adds is folded and checkpointed, the journal is compacted when it is time, and the
    answer is read out of the issuance. *)
Definition finish (bound : BoundRequest) (ek : string) (g : RpsGrid) (policy : CalibrationPolicy) (now_ms : Z) (iss : Issuance)
    (st1 : epoch_state) : SE W json :=
  let now_s := now_ms / 1000 in
  st2 ← on_store (_recover (br_settings bound) ek policy (Some st1));
  _ ← stamping (λ e, write_checkpoint e ek (state_json st2) (e_last_outcome_seq st2));
  w ← sget;
  _ ← (if match sv_compacted_s w.1 with None => true | Some c => compact_every_seconds cfg <=? now_s - c end
       then _ ← writing (λ e, compact e now_s);
            w' ← sget; sput (with_compacted now_s w'.1, w'.2)
       else mret ());
  _ ← inside (_export bound st2 g now_s);
  jb ← lift (i_payload iss);
  lift (_response bound ek jb).

Definition _issue (bound : BoundRequest) (g : RpsGrid) (now_ms : Z) : SE W json :=
  '(ek, policy, key, st, found) ← look_up bound g now_ms;
  '(iss, st1) ← match found with
                | Some iss => mret (iss, st)
                | None => issue_new bound ek g policy key now_ms st
                end;
  finish bound ek g policy now_ms iss st1.

(** The exceptions of binding, of the history and of the journal, as the service answers them. *)
Definition bind_error (e : exn) : exn :=
  match e with
  | ContractRefused m | ProvenanceRefused m => ServiceError 422 "IdentityMismatch" m
  | LookupFailed m => ServiceError 503 "IdentityMismatch" ("the autoscaler could not be read: " +:+ m)
  | _ => e
  end.
Definition reserve_error (e : exn) : exn :=
  match e with
  | RegistryFull m => ServiceError 503 "StateUnavailable" ("the service's registration limit is reached: " +:+ m)
  | _ => e
  end.
Definition history_error (e : exn) : exn :=
  match e with
  | HistoryRefused m => ServiceError 422 "DataUnavailable" ("history refused: " +:+ m)
  | HistoryUnavailable m => ServiceError 503 "DataUnavailable" ("history unavailable: " +:+ m)
  | _ => e
  end.
Definition journal_error (e : exn) : exn :=
  match e with
  | StoreUnavailable m | StoreFull m | StoreCorrupt m =>
      ServiceError 503 "StateUnavailable" ("the forecast journal failed: " +:+ m)
  | StoreError m | IntegrityConflict m | RetiredKey m =>
      ServiceError 503 "StateUnavailable" ("the forecast state cannot be journaled: " +:+ m)
  | _ => e
  end.

(** [now_ms / 1000], as the history takes it. *)
Definition seconds_of (ms : Z) : wall := WNumber (JFloat (idiv ms 1000)).

Definition predict (body : json) : SE W json :=
  now ← clock_ms;
  bound ← mapping bind_error (bind_request (λ p, outside (kget p)) body (JInt now));
  let sig := br_signal bound in
  _ ← mapping reserve_error (inside (s ← sget; fm ← lift (reserve (sv_metrics s) (rs_namespace sig) (br_autoscaler_name bound));
                                     sput (with_metrics fm s)));
  w ← sget;
  raise_if negb (store_healthy w.1)
    with ServiceError 503 "StateUnavailable" "the forecast journal is unavailable; no issuance" ;;
  raise_if negb (bool_decide (is_Some (br_lead bound))) with ServiceError 503 "LeadInsufficient" (br_lead_problem bound) ;;
  let s := br_settings bound in
  g ← mapping history_error
        (read_rps_history (λ u l n, outside (fetch u l n)) (outside monotonic) clock_ms (prometheus_url cfg) sig
           (seconds_of now) (sample_interval_seconds s) (history_days s * Statistical.DAY) (settlement_seconds s) DEADLINE_S
           MAX_CHUNK_BYTES MAX_TOTAL_BYTES MAX_POINTS_PER_CHUNK);
  t ← clock_ms;
  fresh ← lift (is_fresh g (seconds_of t) (settlement_seconds s));
  raise_if negb fresh with ServiceError 503 "DataUnavailable" "the newest finalized observation is too old" ;;
  t2 ← clock_ms;
  mapping journal_error (_issue bound g t2).
End request.
