(* ===== verification/ServiceState.v ===== *)
(** The epoch state of the service: every operation on it keeps its dicts well formed, folding the journal into it is
    exactly once, and what a checkpoint holds is what the next request, or the next process, starts from. *)
From stdpp Require Import relations.
From S2P Require Import Prelude Float64 Sha256 Json JsonRoundtrip Identity Contracts Maturation Store Journal Calibration Trust TrustSafety.
From S2P Require Import Statistical State StateRoundtrip Service.

(** * Dicts stay dicts *)

Definition ledger_keys (l : ledger) : Prop := NoDup (buckets l).*1 ∧ NoDup (pending l).*1.

Lemma keys_bucket t f l : ledger_keys l → ledger_keys (in_bucket t f l).
Proof. intros [Hb Hp]. split; [by apply dset_NoDup|done]. Qed.
Lemma keys_pending ps l : NoDup ps.*1 → ledger_keys l → ledger_keys (set_pending ps l).
Proof. intros Hn [Hb Hp]. by split. Qed.
Lemma keys_prune now ret l : ledger_keys l → ledger_keys (_prune now ret l).
Proof. intros [Hb Hp]. split; by apply filter_keys_NoDup. Qed.
Lemma keys_totals t l : ledger_keys l → ledger_keys (set_totals t l).
Proof. done. Qed.
Lemma keys_seqs a b l : ledger_keys l → ledger_keys (set_seqs a b l).
Proof. done. Qed.
Lemma keys_firsts a b l : ledger_keys l → ledger_keys (set_firsts a b l).
Proof. done. Qed.
Lemma keys_recent a b c l : ledger_keys l → ledger_keys (set_recent a b c l).
Proof. done. Qed.
Create HintDb keys.
#[local] Hint Resolve keys_bucket keys_prune keys_totals keys_seqs keys_firsts keys_recent : keys.

Lemma note_issuance_keys l seq ep m rc origin we dl lead md bd ret l' :
  note_issuance l seq ep m rc origin we dl lead md bd ret = Ok l' → ledger_keys l → ledger_keys l'.
Proof.
  intros H Hl. unfold note_issuance in H. ok_inv H. destruct (_ <=? _); [by injection H as <-|]. ok_inv H. subst l'.
  apply keys_prune. destruct (bool_decide (md = "replay")); [by auto with keys|]. apply keys_firsts, keys_pending.
  - apply dset_NoDup, Hl.
  - by auto with keys.
Qed.

Lemma note_outcome_keys l r lead nominal rn ret l' : note_outcome l r lead nominal rn ret = Ok l' → ledger_keys l → ledger_keys l'.
Proof.
  intros H Hl. unfold note_outcome in H. ok_inv H. destruct (_ <=? _); [by injection H as <-|].
  assert (ledger_keys (set_pending (ddel (r_window_end (cal r)) (pending l)) (set_seqs (r_seq (cal r)) (last_issuance_seq l) l))) as Hs.
  { apply keys_pending; [apply filter_keys_NoDup, Hl|done]. }
  destruct (negb (bool_decide (r_status (cal r) = "scored"))).
  - destruct (bool_decide (mode r = "replay")); injection H as <-; by auto with keys.
  - ok_inv H. destruct (bool_decide (mode r = "replay")).
    + destruct (_ && _); injection H as <-; by auto with keys.
    + injection H as <-. apply keys_prune. destruct (_ && _); by auto with keys.
Qed.

Definition pair_keys (p : pair_state) : Prop := NoDup (ps_recipes p).*1 ∧ NoDup (ps_pending p).*1 ∧ NoDup (ps_buckets p).*1.

Lemma pair_up_keys p c loss : pair_keys p → NoDup (pair_up p c loss).1.*1 ∧ NoDup (pair_up p c loss).2.*1.
Proof.
  intros (_ & Hp & Hb). unfold pair_up. assert (NoDup (ddel (r_window_end c) (ps_pending p)).*1) as Hd by (by apply filter_keys_NoDup).
  destruct (dget _ _) as [[[m x] i]|]; [|split; [by apply dset_NoDup|done]].
  destruct (_ || _); [split; [by apply dset_NoDup|done]|]. destruct (bool_decide _); split; try done; by apply dset_NoDup.
Qed.

Lemma note_pair_keys p r lead nominal ret p' : note_pair p r lead nominal ret = Ok p' → pair_keys p → pair_keys p'.
Proof.
  intros H Hp. unfold note_pair in H. destruct (dget _ _) as [recipe|]; [|by injection H as <-].
  destruct (_ || _); [by injection H as <-|]. ok_inv H. destruct (r_upper_rps _) as [u|]; [|by injection H as <-].
  destruct (_ && _); [|by injection H as <-]. ok_inv H.
  match type of H with context [pair_up ?a ?b ?c] => pose proof (pair_up_keys a b c Hp) as [Hpu1 Hpu2]; destruct (pair_up a b c) as [pd bk] end.
  injection H as <-. destruct Hp as (? & _). split_and!; [done|by apply filter_keys_NoDup..].
Qed.

(** ** Evaluation *)

Definition selection_keys (t : trust_state) : Prop := ∀ sel, ts_selection t = Some sel → NoDup (sel_entry_since sel).*1.

Lemma entry_step_keys naive_ok pairs costs now t vs acc : NoDup acc.1.*1 →
  NoDup (foldl (entry_step naive_ok pairs costs now t) acc vs).1.*1.
Proof.
  revert acc. induction vs as [|[m v] vs IH]; intros [since entry] Hn; [done|]. cbn [foldl]. apply IH. unfold entry_step.
  destruct (bool_decide (m = NAIVE)); [done|]. cbn [fst]. destruct (_ && _); [|by apply filter_keys_NoDup].
  destruct (dhas _ _); [done|by apply dset_NoDup].
Qed.

Lemma select_keys sel vs pairs costs now t : NoDup (sel_entry_since sel).*1 →
  NoDup (sel_entry_since (select sel vs pairs costs now t).1).*1.
Proof.
  intros Hn. unfold select. pose proof (entry_step_keys (naive_trusted vs) pairs costs now t vs (sel_entry_since sel, []) Hn) as He.
  destruct (foldl _ _ _) as [since entry]. cbn [fst] in *. by destruct (bool_decide _).
Qed.

Lemma evaluate_wf cands st g t pairs costs v st' : evaluate cands st g t pairs costs = Ok (v, st') →
  selection_keys st → trust_wf st' ∧ selection_keys st'.
Proof.
  intros H Hs. destruct (evaluate_unfold _ _ _ _ _ _ _ _ H) as (prior & _ & _ & _ & Hp & _ & Hsel & _). split.
  - unfold evaluate in H. ok_inv H. rewrite existsb_false in H0. destruct (by_model_ok cands [] ltac:(constructor)) as [Hnd _].
    set (by_model := foldl _ [] cands) in *.
    match type of H with context [{| ts_hyst := ?nh; ts_selection := _ |}] => set (new_h := nh) in * end.
    assert (new_h.*1 = by_model.*1) as Hk by (unfold new_h; rewrite <-!list_fmap_compose; done).
    destruct (select _ _ _ _ _ _) as [sel entry].
    assert (ts_hyst st' = new_h) as Eh.
    { destruct (sel_selected sel); [|destruct (furthest _) as [b|]; [destruct (v_trusted b)|]]; by injection H as _ <-. }
    unfold trust_wf. rewrite Eh, Hk. split; [done|]. intros Hin. specialize (H0 _ Hin). bool_prop.
    unfold FALLBACK_ORDER, SELECTION in *. rewrite !elem_of_cons, elem_of_nil in *. naive_solver.
  - intros sel E. rewrite Hsel in E. injection E as <-. apply select_keys. destruct Hp as [Hp|[_ ->]]; [by apply Hs|constructor].
Qed.

(** ** The operations of the service *)

Definition models_keys (ms : list (string * model_state)) : Prop :=
  NoDup ms.*1 ∧ Forall (λ km, ledger_keys (m_ledger km.2)) ms.

Lemma models_dset m x ms : models_keys ms → ledger_keys (m_ledger x) → models_keys (dset m x ms).
Proof.
  intros [Hn Hf] Hx. split; [by apply dset_NoDup|]. rewrite Forall_forall in *. intros [k y] Hy.
  apply elem_of_dset in Hy as [[-> ->]|Hy]; [done|by apply (Hf (k, y))].
Qed.

Lemma state_wf_alt s : state_wf s ↔ models_keys (e_models s) ∧ trust_wf (e_trust s) ∧ selection_keys (e_trust s)
  ∧ NoDup (e_pairs s).*1 ∧ Forall (λ kp, pair_keys kp.2) (e_pairs s).
Proof. split; [intros []; unfold models_keys; by split_and!|intros ([? ?] & ? & ? & ? & ?); by split]. Qed.

Lemma initial_wf ek : state_wf (_initial ek).
Proof.
  apply state_wf_alt. split_and!; [split; constructor|split; cbn; [constructor|apply not_elem_of_nil]|done|known_keys|].
  constructor; [|constructor]. split_and!; known_keys.
Qed.

Lemma model_state_wf s model recipe policy ek dt : state_wf s →
  let '(s', m) := _model_state s model recipe policy ek dt in
  state_wf s' ∧ ledger_keys (m_ledger m) ∧ e_last_issuance_seq s' = e_last_issuance_seq s
  ∧ e_last_outcome_seq s' = e_last_outcome_seq s ∧ e_pairs s' = e_pairs s ∧ e_trust s' = e_trust s.
Proof.
  intros Hw. pose proof (proj1 (state_wf_alt s) Hw) as (Hm & Ht & Hs & Hn & Hp). unfold _model_state.
  set (fresh := {| m_recipe := recipe; m_calibration := _; m_ledger := _ |}).
  assert (ledger_keys (m_ledger fresh)) as Hf by (split; constructor).
  assert (state_wf (set_models (dset model fresh (e_models s)) s)) as Hw'.
  { apply state_wf_alt. split_and!; try done. by apply models_dset. }
  destruct (dget model (e_models s)) as [m|] eqn:Em; [|done]. case_bool_decide; [|done]. split_and!; try done.
  destruct Hm as [_ Hm]. rewrite Forall_forall in Hm. by apply (Hm _ (dget_elem_of _ _ _ Em)).
Qed.

Lemma put_model_wf model m s : state_wf s → ledger_keys (m_ledger m) → state_wf (put_model model m s).
Proof.
  intros (Hm & Ht & Hs & Hn & Hp)%state_wf_alt Hk. apply state_wf_alt. split_and!; try done. by apply models_dset.
Qed.

(** * Folding the journal *)

Section folds.
Context (s : ForecastSettings) (ek : string) (policy : CalibrationPolicy).

Lemma note_issued_wf iss b st model st' : note_issued s ek policy iss b st model = Ok st' → state_wf st →
  state_wf st' ∧ e_last_issuance_seq st' = e_last_issuance_seq st ∧ e_last_outcome_seq st' = e_last_outcome_seq st.
Proof.
  intros H Hw. unfold note_issued in H. ok_inv H.
  match type of H with context [_model_state ?a ?b ?c ?d ?e ?f] =>
    pose proof (model_state_wf a b c d e f Hw) as Hm; destruct (_model_state a b c d e f) as [st1 m] end.
  destruct Hm as (Hw1 & Hk & Hi & Ho & _). ok_inv H. subst st'.
  match goal with E : note_issuance _ _ _ _ _ _ _ _ _ _ _ _ = Ok _ |- _ => pose proof (note_issuance_keys _ _ _ _ _ _ _ _ _ _ _ _ _ E Hk) end.
  split; [by apply put_model_wf|]. by split.
Qed.

Lemma fold_issuance_wf st iss st' : fold_issuance s ek policy st iss = Ok st' → state_wf st →
  state_wf st' ∧ e_last_issuance_seq st' = i_seq iss ∧ e_last_outcome_seq st' = e_last_outcome_seq st.
Proof.
  intros H Hw. unfold fold_issuance in H. ok_inv H. subst st'. cbn [e_last_issuance_seq e_last_outcome_seq].
  match goal with E : foldM _ _ _ = Ok ?st1 |- _ =>
    assert (state_wf st1 ∧ e_last_outcome_seq st1 = e_last_outcome_seq st) as [Hw1 Ho];
      [refine (foldM_inv (λ x, state_wf x ∧ e_last_outcome_seq x = e_last_outcome_seq st) _ _ _ _ _ _ E); [|done]|] end.
  { intros st1 model st2 _ [Hw1 Ho1] E. destruct (note_issued_wf _ _ _ _ _ E Hw1) as (? & _ & ?). split; [done|congruence]. }
  split; [|done]. apply state_wf_alt. apply state_wf_alt in Hw1. done.
Qed.

Lemma fold_outcome_wf st iss o st' : fold_outcome s ek policy st iss o = Ok st' → state_wf st →
  state_wf st' ∧ e_last_outcome_seq st' = o_seq o ∧ e_last_issuance_seq st' = e_last_issuance_seq st.
Proof.
  intros H Hw. unfold fold_outcome in H. ok_inv H.
  match type of H with context [_model_state ?a ?b ?c ?d ?e ?f] =>
    pose proof (model_state_wf a b c d e f Hw) as Hm; destruct (_model_state a b c d e f) as [st1 m] end.
  destruct Hm as (Hw1 & Hk & Hi & Ho & Ep & _). ok_inv H. subst st'. cbn [e_last_issuance_seq e_last_outcome_seq].
  match goal with E : note_outcome _ _ _ _ _ _ = Ok ?l |- _ => pose proof (note_outcome_keys _ _ _ _ _ _ _ E Hk) as Hl end.
  match goal with E : of_option _ (dget "statistical" _) = Ok _ |- _ => apply of_option_ok in E end.
  match goal with E : dget "statistical" (e_pairs st1) = Some _, F : note_pair _ _ _ _ _ = Ok ?p |- _ =>
    assert (pair_keys p) as Hpk by (eapply note_pair_keys; [exact F|]; apply (proj1 (state_wf_alt _)) in Hw1 as (_ & _ & _ & _ & Hf);
      rewrite Forall_forall in Hf; exact (Hf _ (dget_elem_of _ _ _ E))) end.
  split; [|by split]. apply state_wf_alt in Hw1 as (Hms & Ht & Hs & Hn & Hp). apply state_wf_alt. split_and!; try done.
  - by apply models_dset.
  - by apply dset_NoDup.
  - rewrite Forall_forall in *. intros [k q] Hq. apply elem_of_dset in Hq as [[-> ->]|Hq]; [done|by apply (Hp (k, q))].
Qed.

(** The journal's rows of the epoch. *)
Definition rows_after (n : Z) (st : store) : list issuance_row :=
  filter (λ r, bool_decide (ir_evidence_key r = ek) && (n <? ir_seq r)) (issuances st).
Definition outs_after (n : Z) (st : store) : list Outcome :=
  filter (λ o, bool_decide (o_evidence_key o = ek) && (n <? o_seq o)) (outcomes st).

(** After the newest of the elements beyond a number, none is beyond it. *)
Lemma beyond_newest {A} (f : A → Z) (p : A → bool) n l y : StronglySorted Z.lt (f <$> l) →
  last (filter (λ x, p x && (n <? f x)) l) = Some y → filter (λ x, p x && (f y <? f x)) l = [].
Proof.
  intros Hs Hl. apply list_nil_filter, Forall_forall. intros x Hx. rewrite Is_true_true. intros H. bool_prop.
  apply last_Some in Hl as [l' Hl]. assert (f y ≤ f x ∧ n < f y) as [_ Hny].
  { split; [lia|]. assert (y ∈ filter (λ x, p x && (n <? f x)) l) as Hy by (rewrite Hl; apply elem_of_app; right; left).
    apply list_elem_of_filter in Hy as [Hy _]. apply Is_true_true in Hy. bool_prop. done. }
  assert (x ∈ filter (λ x, p x && (n <? f x)) l) as Hin.
  { apply list_elem_of_filter. split; [|done]. apply Is_true_true, andb_true_iff. split; [done|]. apply Z.ltb_lt. lia. }
  pose proof (SS_fmap_filter Z.lt f (λ x, p x && (n <? f x)) l Hs) as Hsf. cbv beta in Hsf. rewrite Hl in Hsf, Hin.
  apply elem_of_app in Hin as [Hin|Hin%list_elem_of_singleton]; [|subst; lia].
  rewrite fmap_app in Hsf. clear -Hsf Hin H0. induction l' as [|z l' IH]; [by apply elem_of_nil in Hin|]. cbn in Hsf.
  apply StronglySorted_inv in Hsf as [Hsf Hz]. apply elem_of_cons in Hin as [->|Hin]; [|by apply IH].
  rewrite Forall_app in Hz. destruct Hz as [_ Hz]. apply Forall_cons in Hz as [Hz _]. lia.
Qed.

Lemma issuances_after_rows n j l j' : issuances_after ek n j = (Ok l, j') → j' = j ∧ Forall2 decodes (rows_after n j) l.
Proof.
  unfold issuances_after. intros H%guard_ok. ok_inv H. match goal with E : sget _ = _ |- _ => injection E as <- <- end.
  by apply mapM_rows in H.
Qed.

Lemma issuances_after_none n j : rows_after n j = [] → issuances_after ek n j = (Ok [], j).
Proof. intros H. unfold issuances_after, _guard, mbind, se_bind, sget. fold (rows_after n j). by rewrite H. Qed.

Lemma fold_issuances_wf isss st st' : foldM (fold_issuance s ek policy) st isss = Ok st' → state_wf st →
  state_wf st' ∧ e_last_outcome_seq st' = e_last_outcome_seq st
  ∧ e_last_issuance_seq st' = match last isss with Some i => i_seq i | None => e_last_issuance_seq st end.
Proof.
  revert st. induction isss as [|i t IH]; intros st H Hw; [by injection H as <-|]. cbn [foldM] in H. ok_inv H.
  match goal with E : fold_issuance _ _ _ _ _ = Ok _ |- _ => destruct (fold_issuance_wf _ _ _ E Hw) as (Hw1 & Hi & Ho) end.
  destruct (IH _ H Hw1) as (? & Ho2 & Hl). split_and!; [done|congruence|]. rewrite Hl, last_cons. by destruct (last t).
Qed.

Lemma fold_outcomes_wf os st j st' j' : fold_outcomes s ek policy st os j = (Ok st', j') → state_wf st →
  j' = j ∧ state_wf st' ∧ e_last_issuance_seq st' = e_last_issuance_seq st
  ∧ e_last_outcome_seq st' = match last os with Some o => o_seq o | None => e_last_outcome_seq st end.
Proof.
  revert st j. induction os as [|o t IH]; intros st j H Hw; [by injection H as <- <-|]. cbn [fold_outcomes] in H. ok_inv H. lift_inv.
  match goal with E : of_option _ _ = Ok _ |- _ => apply of_option_ok in E; subst end.
  match goal with E : get_issuance_by_id _ _ = _ |- _ => apply get_by_id_ok in E as (-> & _) end.
  match goal with E : fold_outcome _ _ _ _ _ _ = Ok _ |- _ => destruct (fold_outcome_wf _ _ _ _ E Hw) as (Hw1 & Ho & Hi) end.
  destruct (IH _ _ H Hw1) as (-> & ? & Hi2 & Hl). split_and!; [done|done|congruence|]. rewrite Hl, last_cons. by destruct (last t).
Qed.

(** * Checkpoints of the service *)

(** Every checkpoint is one the service wrote: the text of a well-formed state, with its own sequence number. *)
Definition our_checkpoint (c : checkpoint_row) : Prop :=
  ∃ st, canonical_json (state_json st) = Ok (cr_payload c) ∧ state_wf st ∧ e_last_outcome_seq st = cr_last_outcome_seq c.
Definition ours (j : store) : Prop := Forall our_checkpoint (checkpoints j).

Lemma norm_state_wf st : state_wf st → state_wf (norm_state st).
Proof.
  intros (Hm & Ht & Hs & Hn & Hp)%state_wf_alt. apply state_wf_alt. unfold norm_state. cbn [e_models e_trust e_pairs].
  assert (∀ V W (h : V → W) (d : list (string * V)), (map_vals h (by_key id d)).*1 ≡ₚ d.*1) as Hk.
  { intros V W h d. unfold map_vals. rewrite <-list_fmap_compose. change (fst ∘ _) with (fst (A := string) (B := V)). by rewrite by_key_perm. }
  split_and!.
  - destruct Hm as [H1 H2]. split; [by rewrite Hk|]. unfold map_vals. rewrite by_key_perm, Forall_fmap. eapply Forall_impl; [exact H2|].
    intros [k m] [Hb Hpe]. cbn in *. destruct (norm_ledger_same _ Hb Hpe) as (_ & _ & Hperm & _). split; [by rewrite Hperm|].
    cbn [norm_ledger set_pending pending]. by rewrite by_key_perm.
  - destruct Ht as [H1 H2]. split; cbn [norm_trust ts_hyst]; by rewrite by_key_perm.
  - intros sel E. cbn [norm_trust ts_selection] in E. destruct (ts_selection (e_trust st)) as [p|] eqn:Ep; [|discriminate].
    injection E as <-. cbn [norm_selection sel_entry_since]. rewrite by_key_perm. by apply Hs.
  - by rewrite Hk.
  - unfold map_vals. rewrite by_key_perm, Forall_fmap. eapply Forall_impl; [exact Hp|]. intros [k q] (H1 & H2 & H3). cbn in *.
    split_and!; cbn [norm_pair ps_recipes ps_pending ps_buckets]; by rewrite by_key_perm.
Qed.

Lemma our_state c j : our_checkpoint c → loads (cr_payload c) = Ok j → ∃ st, state_wf st ∧ state_of j = Ok (norm_state st)
  ∧ canonical_json (state_json st) = Ok (cr_payload c) ∧ e_last_outcome_seq st = cr_last_outcome_seq c.
Proof.
  intros (st & Ht & Hw & Hn) Hl. exists st. rewrite (loads_canonical_json _ _ (state_distinct st Hw) Ht) in Hl. injection Hl as <-.
  split_and!; [done| |done..]. by apply state_reads, Hw.
Qed.

(** * Exactly once *)

(** What a recovered state has seen: nothing of the epoch is left to fold. *)
Definition caught_up (st : epoch_state) (j : store) : Prop :=
  rows_after (e_last_issuance_seq st) j = [] ∧ outs_after (e_last_outcome_seq st) j = [].

Lemma forall2_last (l : list issuance_row) (k : list Issuance) i : Forall2 decodes l k → last k = Some i → ∃ r, last l = Some r ∧ i_seq i = ir_seq r.
Proof.
  intros Hf Hl. rewrite last_lookup in Hl. rewrite last_lookup, (Forall2_length _ _ _ Hf). destruct (Forall2_lookup_r _ _ _ _ _ Hf Hl) as (r & Hr & Hd).
  exists r. split; [done|]. by apply (de_seq r i).
Qed.

Lemma recover_run_wf given j st j' : journal_ok j → match given with Some st0 => state_wf st0 | None => ours j end →
  _recover s ek policy given j = (Ok st, j') → j' = j ∧ state_wf st ∧ caught_up st j.
Proof.
  intros Hj Hg H. unfold _recover in H. apply se_bind_ok in H as (st0 & j0 & H0 & H).
  assert (j0 = j ∧ state_wf st0) as [-> Hw0].
  { destruct given as [g|]; [injection H0 as <- <-; done|]. ok_inv H0.
    match goal with E : latest_checkpoint _ _ = _ |- _ => apply latest_checkpoint_ok in E as [-> Hl] end.
    destruct (last _) as [c|] eqn:El.
    - destruct Hl as (jc & Hld & _ & ->). apply lift_ok in H0 as [H0 ->]. cbn [c_state] in H0. split; [done|].
      apply last_Some_elem_of, list_elem_of_filter in El as [_ Hin]. unfold ours in Hg. rewrite Forall_forall in Hg.
      destruct (our_state c jc (Hg _ Hin) Hld) as (est & Hwe & He & _). assert (st0 = norm_state est) as -> by congruence.
      by apply norm_state_wf.
    - subst. injection H0 as <- <-. split; [done|]. apply initial_wf. }
  ok_inv H. lift_inv. match goal with E : issuances_after _ _ _ = _ |- _ => apply issuances_after_rows in E as [-> Hrows] end.
  match goal with E : foldM _ _ _ = Ok ?q |- _ => destruct (fold_issuances_wf _ _ _ E Hw0) as (Hw1 & Ho1 & Hi1); rename q into st1 end.
  match goal with E : outcomes_after _ _ _ = _ |- _ => rewrite (outcomes_after_ok j ek _ Hj) in E; injection E as <- <- end.
  apply fold_outcomes_wf in H as (-> & Hw & Hi & Ho); [|done]. split_and!; [done|done|]. split.
  - rewrite Hi, Hi1. match goal with E : Forall2 decodes _ ?l |- _ => destruct (last l) as [i|] eqn:El end.
    + destruct (forall2_last _ _ _ Hrows El) as (r & Hr & ->). unfold rows_after in *.
      apply (beyond_newest ir_seq _ _ _ _ (jo_seqs _ Hj) Hr).
    + apply last_None in El as ->. by apply Forall2_nil_inv_r in Hrows.
  - rewrite Ho. fold (outs_after (e_last_outcome_seq st1) j). destruct (last (outs_after (e_last_outcome_seq st1) j)) as [o|] eqn:El.
    + by apply (beyond_newest o_seq _ _ _ _ (jo_out_seqs _ Hj) El).
    + by apply last_None in El.
Qed.

Lemma recover_caught_up st j : journal_ok j → caught_up st j → _recover s ek policy (Some st) j = (Ok st, j).
Proof.
  intros Hj [Hr Ho]. unfold _recover, mbind, se_bind, lift. cbn [mret se_ret]. rewrite (issuances_after_none _ _ Hr). cbn [foldM].
  rewrite (outcomes_after_ok j ek _ Hj). fold (outs_after (e_last_outcome_seq st) j). by rewrite Ho.
Qed.


(** * Restarts *)

Lemma last_kept (l : list checkpoint_row) (row : checkpoint_row) :
  let rows := l ++ [row] in
  let mine := filter (λ c, bool_decide (cr_evidence_key c = cr_evidence_key row)) rows in
  let keep := cr_seq <$> drop (length mine - CHECKPOINTS_KEPT) mine in
  last (filter (λ c, bool_decide (cr_evidence_key c = cr_evidence_key row))
         (filter (λ c, negb (bool_decide (cr_evidence_key c = cr_evidence_key row)) || bool_decide (cr_seq c ∈ keep)) rows)) = Some row.
Proof.
  intros rows mine keep.
  assert (mine = filter (λ c, bool_decide (cr_evidence_key c = cr_evidence_key row)) l ++ [row]) as Em.
  { unfold mine, rows. rewrite filter_app. f_equal. rewrite filter_cons, decide_True; [done|]. by apply Is_true_true, bool_decide_true. }
  assert (cr_seq row ∈ keep) as Hk.
  { unfold keep. apply list_elem_of_fmap. exists row. split; [done|]. rewrite Em, length_app. cbn [length].
    rewrite drop_app_le by (unfold CHECKPOINTS_KEPT; lia). apply elem_of_app. right. by left. }
  assert (∀ (p : checkpoint_row → bool), p row = true → filter (λ c, p c) [row] = [row]) as Hone.
  { intros p Hp. rewrite filter_cons, decide_True; [done|by apply Is_true_true]. }
  unfold rows. rewrite filter_app, Hone by (apply orb_true_iff; right; by apply bool_decide_true).
  rewrite filter_app, Hone by by apply bool_decide_true. apply last_snoc.
Qed.

(** What writing a checkpoint leaves as the latest of its epoch. *)
Lemma write_checkpoint_latest env payload n j c j' : write_checkpoint env ek payload n j = (Ok c, j') →
  ∃ data row, _encode payload MAX_CHECKPOINT_BYTES = Ok data
  ∧ last (filter (λ c, bool_decide (cr_evidence_key c = ek)) (checkpoints j')) = Some row
  ∧ c_payload_sha256 c = sha256_hex data ∧ cr_payload_sha256 row = sha256_hex data ∧ cr_last_outcome_seq row = n
  ∧ issuances j' = issuances j ∧ outcomes j' = outcomes j
  ∧ ((cr_payload row = data ∧ ∀ x, x ∈ checkpoints j' → x ∈ checkpoints j ∨ x = row) ∨ checkpoints j' = checkpoints j).
Proof.
  intros H. unfold write_checkpoint in H. ok_inv H. lift_inv.
  match goal with E : _encode _ _ = Ok ?d |- _ => rename d into data; rename E into He end. exists data.
  apply guard_ok in H. ok_inv H. match goal with E : _require_healthy _ = _ |- _ => injection E as _ <- end.
  match goal with E : latest_checkpoint _ _ = _ |- _ => apply latest_checkpoint_ok in E as [-> Hl] end.
  assert (∀ s1, mbind (λ _ : (), _ ← _tx env (insert_checkpoint ek data n (e_now env)); c0 ← latest_checkpoint ek; lift (of_option PyTypeError c0))
                  (_check_quota env (Z.of_nat (String.length data))) s1 = (Ok c, j') →
    ∃ row, last (filter (λ c, bool_decide (cr_evidence_key c = ek)) (checkpoints j')) = Some row
    ∧ c_payload_sha256 c = sha256_hex data ∧ cr_payload_sha256 row = sha256_hex data ∧ cr_last_outcome_seq row = n
    ∧ issuances j' = issuances s1 ∧ outcomes j' = outcomes s1 ∧ cr_payload row = data
    ∧ ∀ x, x ∈ checkpoints j' → x ∈ checkpoints s1 ∨ x = row) as Hwrite.
  { intros s1 Hw. ok_inv Hw. lift_inv. match goal with E : _check_quota _ _ _ = _ |- _ => injection E as _ <- end.
    match goal with E : _tx _ _ _ = _ |- _ => apply tx_ok in E; rename E into Hi end.
    unfold insert_checkpoint, mbind, se_bind, sget, sput in Hi. injection Hi as _ <-.
    match goal with E : latest_checkpoint _ _ = _ |- _ => apply latest_checkpoint_ok in E as [-> Hl2] end.
    subst. cbn [checkpoints set_checkpoints issuances outcomes] in *.
    set (row := {| cr_seq := checkpoint_seq s1 + 1; cr_evidence_key := ek; cr_last_outcome_seq := n; cr_schema_version := SCHEMA_VERSION;
                   cr_payload := data; cr_payload_sha256 := sha256_hex data; cr_created_at_ms := e_now env |}) in *.
    pose proof (last_kept (checkpoints s1) row) as Hlast. cbn [cr_evidence_key row] in Hlast. cbv zeta in Hlast. rewrite Hlast in Hl2.
    destruct Hl2 as (jc & _ & _ & [= ->]). exists row. split_and!; try done.
    intros old [_ Hx]%list_elem_of_filter. apply elem_of_app in Hx as [?|Hx%list_elem_of_singleton]; [by left|by right]. }
  destruct (last (filter _ (checkpoints j))) as [cr|] eqn:El.
  - destruct Hl as (jc & Hld & Hsha & ->). ok_inv H. cbn [c_last_outcome_seq c_payload_sha256] in H. destruct (_ && _) eqn:Eb.
    + injection H as <- <-. bool_prop. exists cr. cbn [c_payload_sha256]. split_and!; [done|done|done|done|lia|done|done|by right].
    + destruct (Hwrite _ H) as (row & ? & ? & ? & ? & ? & ? & ? & ?). exists row. split_and!; try done. by left.
  - subst. destruct (Hwrite _ H) as (row & ? & ? & ? & ? & ? & ? & ? & ?). exists row. split_and!; try done. by left.
Qed.

Lemma encode_text payload cap data : _encode payload cap = Ok data → canonical_json payload = Ok data.
Proof. unfold _encode. destruct payload; try discriminate. destruct (canonical_json _); [|discriminate]. intros H. by ok_inv H; subst. Qed.

Lemma write_checkpoint_ours env st j c j' : ours j → state_wf st →
  write_checkpoint env ek (state_json st) (e_last_outcome_seq st) j = (Ok c, j') → ours j'.
Proof.
  intros Ho Hw H. destruct (write_checkpoint_latest _ _ _ _ _ _ H) as (data & row & He & _ & _ & _ & Hn & _ & _ & Hc).
  apply encode_text in He. unfold ours in *. rewrite Forall_forall in *. destruct Hc as [[Hp Hc]|Hc]; [|by rewrite Hc].
  intros x Hx. destruct (Hc x Hx) as [?| ->]; [by apply Ho|]. exists st. rewrite Hp. by split_and!.
Qed.

(** C3: A restart loses nothing: once a request has written the state it ended with, the next recovery that starts from
    the journal alone, in this process or in another, begins with exactly that state (its dicts in the order of their
    keys), with nothing left to fold; the only way to differ is another state whose text collides with it. *)
Theorem restart_recovers env st j c j' : journal_ok j → ours j → state_wf st → caught_up st j →
  write_checkpoint env ek (state_json st) (e_last_outcome_seq st) j = (Ok c, j') →
  _recover s ek policy None j' = (Ok (norm_state st), j') ∨ ∃ est, state_wf est ∧ collides (state_json est) (state_json st).
Proof.
  intros Hj Ho Hw Hc H. pose proof (write_checkpoint_ours _ _ _ _ _ Ho Hw H) as Ho'.
  destruct (write_checkpoint_latest _ _ _ _ _ _ H) as (data & row & He & Hl & Hsha & Hrow & Hn & Hi & Hos & _).
  apply encode_text in He. assert (journal_ok j') as Hj'.
  { eapply evolves_ok; [|exact Hj]. exact (wp_run _ _ _ _ _ (write_checkpoint_evolves _ _ _ _ _ (state_distinct st Hw)) H). }
  destruct (latest_checkpoint_total j' ek Hj') as (o & Hlat & _). pose proof Hlat as Hlat'. apply latest_checkpoint_ok in Hlat' as [_ Hlc].
  rewrite Hl in Hlc. destruct Hlc as (jc & Hld & Hpsha & ->).
  apply last_Some_elem_of, list_elem_of_filter in Hl as [_ Hin]. unfold ours in Ho'. rewrite Forall_forall in Ho'.
  destruct (our_state row jc (Ho' _ Hin) Hld) as (est & Hwe & Hse & Ht & Hne).
  assert (norm_state est = norm_state st ∨ collides (state_json est) (state_json st)) as [E|]; [|left|right; by exists est].
  - destruct (decide (cr_payload row = data)) as [Ed|Ed].
    + left. rewrite Ed in Ht. pose proof (canonical_json_inj _ _ _ (state_distinct _ Hwe) (state_distinct _ Hw) Ht He) as En.
      pose proof (state_reads est (sw_trust _ Hwe)) as R1. rewrite En, (state_reads st (sw_trust _ Hw)) in R1. congruence.
    + right. exists (cr_payload row), data. split_and!; try done. congruence.
  - unfold _recover, mbind, se_bind, lift. rewrite Hlat. cbn [c_state]. rewrite Hse, E.
    assert (caught_up (norm_state st) j') as Hcu.
    { destruct Hc as [H1 H2]. unfold caught_up, rows_after, outs_after in *. by rewrite Hi, Hos. }
    pose proof (recover_caught_up _ _ Hj' Hcu) as Hr. unfold _recover, mbind, se_bind, lift in Hr. cbn [mret se_ret] in Hr. exact Hr.
Qed.
End folds.

(** * One issuance and its outcome

    An epoch of one window: it is issued for both families, comes true for one, and the state is checkpointed. *)
Definition svc_settings : ForecastSettings := Contracts.default_settings.
Definition svc_policy : CalibrationPolicy := demo_policy.
Definition svc_candidate (recipe : string) : json := JObj
  [("recipe", JStr recipe); ("point_rps", JArr [JInt 9; JInt 10]); ("base_window_max_rps", JInt 10); ("upper_window_max_rps", JNull)].
Definition svc_payload : json := JObj
  [("evidence_mode", JStr "prospective"); ("decision_origin", JInt 600); ("sample_interval_seconds", JInt 600);
   ("target_timestamps", JArr (JInt <$> demo_grid));
   ("candidates", JObj [("statistical", svc_candidate RECIPE_E1); (NAIVE, svc_candidate RECIPE_NAIVE)])].
Definition svc_key : IssuanceKey := {| k_evidence_key := zero64; k_decision_origin := 600; k_window_start := 600;
  k_window_end := 1800; k_settings_sha256 := zero64 |}.
Definition svc_came_true : json := JObj
  [("targets", JInt 2); ("targets_sha256", JStr (sha256_hex (demo_text (JArr (JInt <$> demo_grid)))));
   ("values", JArr [JInt 11; JInt 12]); ("y_window_max_rps", JInt 12); ("base_window_max_rps", JInt 10);
   ("upper_window_max_rps", JNull)].
Definition svc_id : string := match issuance_id_for "demo" svc_key with Ok id => id | Raise _ => EmptyString end.
Definition svc1 : store := (commit_issuance demo_env svc_key svc_payload ["statistical"; NAIVE] demo0).2.
Definition svc2 : store := (commit_outcome demo_env svc_id "statistical" "scored" svc_came_true svc1).2.
Definition svc_state : epoch_state := match (_recover svc_settings zero64 svc_policy None svc2).1 with Ok st => st | Raise _ => _initial zero64 end.
Definition svc3 : store := (write_checkpoint demo_env zero64 (state_json svc_state) (e_last_outcome_seq svc_state) svc2).2.

Lemma svc_ok : journal_ok svc2.
Proof.
  apply demo_ok, steps_evolve. apply (rtc_l _ _ svc1); [|apply rtc_once].
  - unfold svc1. apply step_run. intros r s'. apply st_commit_issuance. by vm_compute.
  - unfold svc2. apply step_run. intros r s'. apply st_commit_outcome.
Qed.

Lemma svc_ours : ours svc2.
Proof. assert (checkpoints svc2 = []) as E by (by vm_compute). unfold ours. rewrite E. constructor. Qed.

Lemma svc_run : is_ok (_recover svc_settings zero64 svc_policy None svc2).1 = true.
Proof. by vm_compute. Qed.
Lemma svc_recovered : ∃ j', _recover svc_settings zero64 svc_policy None svc2 = (Ok svc_state, j').
Proof.
  pose proof svc_run as H. unfold svc_state. destruct (_recover _ _ _ _ _) as [[st|e] j']; [by exists j'|discriminate H].
Qed.

(** The recovered state has the issuance of both families, and the outcome of the one. *)
Example svc_state_counts : (e_last_issuance_seq svc_state, e_last_outcome_seq svc_state, (λ m : string * model_state, length (pending (m_ledger m.2))) <$> e_models svc_state) = (1, 1, [1%nat; 0%nat]).
Proof. by vm_compute. Qed.


Lemma svc_written : is_ok (write_checkpoint demo_env zero64 (state_json svc_state) (e_last_outcome_seq svc_state) svc2).1 = true.
Proof. by vm_compute. Qed.

Lemma restart_recovers_witness :
  _recover svc_settings zero64 svc_policy None svc3 = (Ok (norm_state svc_state), svc3)
  ∨ ∃ est, state_wf est ∧ collides (state_json est) (state_json svc_state).
Proof.
  destruct svc_recovered as [j' E].
  destruct (recover_run_wf svc_settings zero64 svc_policy None svc2 svc_state j' svc_ok svc_ours E) as (_ & Hw & Hc).
  pose proof svc_written as H. unfold svc3. destruct (write_checkpoint _ _ _ _ _) as [[c|e] j3] eqn:Ew; [|discriminate H].
  exact (restart_recovers svc_settings zero64 svc_policy demo_env svc_state svc2 c j3 svc_ok svc_ours Hw Hc Ew).
Defined.
