(* ===== verification/ServiceSafety.v ===== *)
(** What the service guarantees across requests, restarts and everything outside it: the journal stays well formed and
    every checkpoint in it is a state of the service, a retry of a request gets the very same answer, and no answer is
    eligible to act. A request is a computation over the service and its world; the proofs are over pre- and
    postconditions of such computations, where what does not touch the journal is [quiet]. *)
From stdpp Require Import relations.
From S2P Require Import Prelude Float64 Sha256 Json JsonRoundtrip Identity Contracts Response Clock Maturation Store Journal.
From S2P Require Import Calibration Trust TrustSafety History Metrics Statistical Artifacts Worker State StateRoundtrip.
From S2P Require Import Service ServiceState.

(** * Journal operations and checkpoints *)

Section kept.
Context (P : checkpoint_row → Prop).

(** [m] leaves only checkpoints that satisfy [P]. *)
Definition kept {A} (m : SE store A) : Prop :=
  ∀ s, Forall P (checkpoints s) → wp m (λ _ s', Forall P (checkpoints s')) s.

Lemma kept_reads {A} (m : SE store A) : reads m → kept m.
Proof. intros Hm s Hs. apply wp_reads; [done|]. intros r s' H _. by destruct (same_horizon _ _ H) as (_ & _ & _ & _ & _ & _ & -> & _). Qed.

Lemma kept_bind {A B} (m : SE store A) (k : A → SE store B) : kept m → (∀ a, kept (k a)) → kept (m ≫= k).
Proof. intros Hm Hk s Hs. apply wp_bind. eapply wp_mono; [|by apply Hm]. intros [a|e] s1 H; [by apply Hk|done]. Qed.

(** What a computation that only reads returned is known afterwards. *)
Lemma kept_bind_eq {A B} (m : SE store A) (k : A → SE store B) : reads m → (∀ a s s', m s = (Ok a, s') → kept (k a)) → kept (m ≫= k).
Proof.
  intros Hm Hk s Hs. apply wp_bind, wp_intro. intros r s1 E. pose proof (wp_run _ _ _ _ _ (kept_reads m Hm s Hs) E) as H.
  destruct r as [a|e]; [by apply (Hk a s s1 E)|done].
Qed.

Lemma kept_guard {A} what (m : SE store A) : kept m → kept (_guard what m).
Proof.
  intros Hm s Hs. specialize (Hm s Hs). unfold wp, _guard in *. destruct (m s) as [[a|e] s']; [done|]. destruct (unavailable e); [|done].
  unfold _fail. by destruct (problem s').
Qed.

Lemma kept_tx {A} env (body : SE store A) : kept body → kept (_tx env body).
Proof.
  intros Hb s Hs. specialize (Hb s Hs). unfold wp, _tx in *. destruct (e_sql env); [done|]. by destruct (body s) as [[a|e] s'].
Qed.

Lemma kept_raise_if {A} (c : bool) e (k : SE store A) : kept k → kept (raise_if c with e ;; k).
Proof. intros Hk s Hs. destruct c; [done|by apply Hk]. Qed.

Lemma kept_insert_issuance id k key bundle text now : kept (insert_issuance id k key bundle text now).
Proof. intros s Hs. unfold wp, insert_issuance, mbind, se_bind, sget, sput, mthrow, se_throw. by repeat case_match; simplify_eq. Qed.

Lemma kept_insert_outcome i model status data now : kept (insert_outcome i model status data now).
Proof. intros s Hs. unfold wp, insert_outcome, mbind, se_bind, sget, sput, mthrow, se_throw. by repeat case_match; simplify_eq. Qed.

Lemma kept_insert_checkpoint ek data n now :
  (∀ seq, P {| cr_seq := seq; cr_evidence_key := ek; cr_last_outcome_seq := n; cr_schema_version := SCHEMA_VERSION; cr_payload := data;
               cr_payload_sha256 := sha256_hex data; cr_created_at_ms := now |}) → kept (insert_checkpoint ek data n now).
Proof.
  intros Hp s Hs. unfold wp, insert_checkpoint, mbind, se_bind, sget, sput. cbn [checkpoints set_checkpoints].
  apply Forall_filter. apply Forall_app. split; [done|]. by constructor.
Qed.

Lemma kept_compact_tx h covered : kept (compact_tx h covered).
Proof.
  intros s Hs. apply wp_intro. intros [c|e] s' E.
  - apply compact_tx_inv in E as (ids & rt & -> & _). done.
  - apply compact_tx_raise in E. by destruct (same_horizon _ _ E) as (_ & _ & _ & _ & _ & _ & -> & _).
Qed.
End kept.

(** Goes through a journal operation: reads, then the one transaction. *)
Ltac kstep :=
  match goal with
  | |- kept _ (_guard _ _) => apply kept_guard
  | |- kept _ (_tx _ _) => apply kept_tx
  | |- kept _ (if _ then mthrow _ else _) => apply kept_raise_if
  | |- kept _ (insert_issuance _ _ _ _ _ _) => apply kept_insert_issuance
  | |- kept _ (insert_outcome _ _ _ _ _) => apply kept_insert_outcome
  | |- kept _ (compact_tx _ _) => apply kept_compact_tx
  | |- kept _ _ => solve [apply kept_reads; first [solve [auto 3 with reads]|reads]]
  | |- kept _ (mbind _ _) => apply kept_bind; [|intros ?]
  | |- kept _ (match ?o with _ => _ end) => destruct o
  end.

Section keeps_checkpoints.
Context (P : checkpoint_row → Prop).

Lemma kept_commit_outcome env id model status payload : kept P (commit_outcome env id model status payload).
Proof. unfold commit_outcome. repeat kstep. Qed.

Lemma kept_get_or_issue env key build models : kept P (get_or_issue env key build models).
Proof. unfold get_or_issue, commit_issuance. repeat kstep. Qed.

Lemma kept_record env series samples source : kept P (record_observations env series samples source).
Proof.
  unfold record_observations. repeat kstep. intros s Hs. apply wp_intro. intros r s' E.
  destruct (foldl _ _ samples) as [n s1] eqn:Ef. injection E as _ <-.
  change s1 with (n, s1).2. rewrite <-Ef. clear Ef. generalize {| new := 0; duplicate := 0; corrected := 0 |}. revert s Hs.
  induction samples as [|[[ts v] at_] l IH]; intros s Hs n0; [done|]. cbn [foldl record_one].
  destruct (List.find _ _) as [o|]; [destruct (feq _ _)|]; by apply IH.
Qed.

Lemma kept_compact env now_s : kept P (compact env now_s).
Proof. unfold compact. repeat kstep. Qed.

Lemma kept_write_checkpoint env ek state n :
  (∀ data, _encode state MAX_CHECKPOINT_BYTES = Ok data → ∀ seq, P {| cr_seq := seq; cr_evidence_key := ek; cr_last_outcome_seq := n;
     cr_schema_version := SCHEMA_VERSION; cr_payload := data; cr_payload_sha256 := sha256_hex data; cr_created_at_ms := e_now env |}) →
  kept P (write_checkpoint env ek state n).
Proof.
  intros Hp. unfold write_checkpoint. apply kept_bind_eq; [reads|]. intros data s s' [E _]%lift_ok. specialize (Hp data E).
  pose proof (kept_insert_checkpoint P ek data n (e_now env) Hp). repeat kstep; by try apply kept_insert_checkpoint.
Qed.
End keeps_checkpoints.

(** * What leaves the journal alone *)

Section quiet.
Context {V : Type} (f : V → option store).

(** [m] does not touch the journal that [f] finds in its state. *)
Definition quiet {A} (m : SE V A) : Prop := ∀ v, f (m v).2 = f v.

Lemma quiet_ret {A} (a : A) : quiet (mret a).
Proof. done. Qed.
Lemma quiet_throw {A} (e : exn) : quiet (A := A) (mthrow e).
Proof. done. Qed.
Lemma quiet_lift {A} (r : res A) : quiet (lift r).
Proof. done. Qed.
Lemma quiet_get : quiet sget.
Proof. done. Qed.
Lemma quiet_bind {A B} (m : SE V A) (k : A → SE V B) : quiet m → (∀ a, quiet (k a)) → quiet (m ≫= k).
Proof. intros Hm Hk v. specialize (Hm v). unfold mbind, se_bind. destruct (m v) as [[a|e] v1]; [by rewrite Hk|done]. Qed.
Lemma quiet_raise_if {A} (c : bool) e (k : SE V A) : quiet k → quiet (raise_if c with e ;; k).
Proof. intros Hk v. destruct c; [done|apply Hk]. Qed.
End quiet.

Create HintDb quiet.
#[local] Hint Resolve quiet_ret quiet_throw quiet_lift quiet_get quiet_raise_if : quiet.

(** Walks through a computation that leaves the journal alone. *)
Ltac quiet :=
  repeat first
    [ progress intros
    | apply quiet_raise_if
    | solve [auto 2 with quiet]
    | apply quiet_bind
    | match goal with |- quiet _ (match ?x with _ => _ end) => destruct x end ].

Section outside.
Context {V : Type} (f : V → option store).

Lemma quiet_bind_request (kget : string → SE V (option json)) body now :
  (∀ p, quiet f (kget p)) → quiet f (bind_request kget body now).
Proof.
  intros Hk. assert (∀ p, quiet (λ v : V * objects, f v.1) (recording_get kget p)) as Hr.
  { intros p [v o]. specialize (Hk p v). unfold recording_get. by destruct (kget p v) as [[a|e] v']. }
  assert (quiet (λ v : V * objects, f v.1) (bind_request_rec kget body now)) as H.
  { unfold bind_request_rec, resolve_signal, resolve_autoscaler. quiet. }
  intros v. specialize (H (v, [])). unfold bind_request. by destruct (bind_request_rec _ _ _ _) as [r [v' o]].
Qed.

Lemma quiet_history fetch monotonic receipt_ms url sig now dt hist settle deadline cap total points :
  (∀ u l n, quiet f (fetch u l n)) → quiet f monotonic → quiet f receipt_ms →
  quiet f (read_rps_history fetch monotonic receipt_ms url sig now dt hist settle deadline cap total points).
Proof.
  intros Hf Hm Hr.
  assert (∀ q start_ t0 plan p, quiet f (read_chunks fetch monotonic receipt_ms url q dt deadline cap total start_ t0 p plan)) as Hc.
  { intros q start_ t0 plan. induction plan as [|c t IH]; intros p; cbn [read_chunks]; [apply quiet_ret|]. apply quiet_bind; [|done].
    unfold read_chunk. quiet. }
  unfold read_rps_history. quiet.
Qed.
End outside.

(** * The service *)

Lemma quiet_fit_for np ct cfg bound series input_end ks : quiet sv_store (_fit_for np ct cfg bound series input_end ks).
Proof.
  intros v. unfold _fit_for, mbind, se_bind, lift, sget, sput, mthrow, se_throw. repeat case_match; simplify_eq; done.
Qed.

Lemma build_candidates_wf bound policy ek input_end first_obs points acc acc' :
  foldM (build_candidate bound policy ek input_end first_obs) acc points = Ok acc' → state_wf acc.1.1 → state_wf acc'.1.1.
Proof.
  intros H Hacc. refine (foldM_inv (λ a : epoch_state * list (string * json) * list CandidateInputs, state_wf a.1.1) _ _ _ _ _ _ H); [|done].
  intros [[st cands] inputs] [model p] [[st2 cands'] inputs'] _ Hw Hc. cbn [fst] in *. unfold build_candidate in Hc. ok_inv Hc.
  match type of Hc with context [_model_state ?a ?b ?c ?d ?e ?g] =>
    pose proof (model_state_wf a b c d e g Hw) as Hm; destruct (_model_state a b c d e g) as [st1 m] end.
  ok_inv Hc. destruct x1 as [upper info]. ok_inv Hc. subst. by destruct Hm.
Qed.

Lemma build_wf np ct cfg bound ek g st policy t sv b st1 sv' :
  _build np ct cfg bound ek g st policy t sv = (Ok (b, st1), sv') → state_wf st → state_wf st1.
Proof.
  intros H Hw. unfold _build in H. ok_inv H. lift_inv.
  match goal with E : foldM _ _ _ = Ok ?x |- _ => pose proof (build_candidates_wf _ _ _ _ _ _ _ _ E Hw) as Hc; destruct x as [[st0 cands] inputs] end.
  ok_inv H. lift_inv.
  match goal with E : evaluate _ _ _ _ _ _ = Ok ?x |- _ => rename E into He; destruct x as [verdict new_h] end. ok_inv H.
  injection H as <- <- <-. apply evaluate_wf in He as [Ht Hs].
  - apply state_wf_alt in Hc as (Hm & _ & _ & Hn & Hp). apply state_wf_alt. exact (conj Hm (conj Ht (conj Hs (conj Hn Hp)))).
  - by apply state_wf_alt in Hc as (_ & _ & ? & _).
Qed.

Lemma quiet_build np ct cfg bound ek g st policy t : quiet sv_store (_build np ct cfg bound ek g st policy t).
Proof. unfold _build. pose proof quiet_fit_for. quiet. Qed.

(** Recovery only reads the journal. *)
Lemma reads_recover_state s ek policy given : reads (_recover s ek policy given).
Proof.
  assert (∀ os st, reads (fold_outcomes s ek policy st os)) as Hf.
  { intros os. induction os as [|o t IH]; intros st; cbn [fold_outcomes]; [apply reads_ret|]. reads. }
  unfold _recover. reads.
Qed.

Lemma mk_key_ok ek o ws we ss k : mk_key ek o ws we ss = Ok k → Journal.key_ok k.
Proof. intros H. pose proof (mk_key_fields _ _ _ _ _ _ H) as [-> _]. exact H. Qed.

(** * Requests *)

Section requests.
Context (np : NumLib) (ct : Containers) (cfg : ServiceConfig).
Context {X : Type} (kget : string → SE X (option json)) (fetch : string → f64 → Z → SE X exchange) (monotonic : SE X f64)
  (wall_clock : SE X json) (disk : SE X (Z * option sql_error)).
Abbreviation W := (service * X)%type.

Definition journal_of (w : W) : option store := sv_store w.1.
Definition good (w : W) : Prop := ∀ st, journal_of w = Some st → journal_ok st ∧ ours st.
Definition advances (w w' : W) : Prop :=
  match journal_of w, journal_of w' with Some st, Some st' => evolves st st' | None, None => True | _, _ => False end.

(** From a good world, [m] leads to one its journal evolved to, and what it returns satisfies [Q]. *)
Definition safe {A} (m : SE W A) (Q : A → Prop) : Prop :=
  ∀ w r w', good w → m w = (r, w') → good w' ∧ advances w w' ∧ ∀ a, r = Ok a → Q a.

Lemma advances_refl w : advances w w.
Proof. unfold advances. destruct (journal_of w); [apply rtc_refl|done]. Qed.
Lemma advances_trans w1 w2 w3 : advances w1 w2 → advances w2 w3 → advances w1 w3.
Proof. unfold advances. destruct (journal_of w1), (journal_of w2), (journal_of w3); try done. by etrans. Qed.
Lemma advances_same w w' : journal_of w' = journal_of w → advances w w'.
Proof. unfold advances. intros ->. destruct (journal_of w); [apply rtc_refl|done]. Qed.

Lemma safe_quiet {A} (m : SE W A) : quiet journal_of m → safe m (λ _, True).
Proof.
  intros Hm w r w' Hg E. specialize (Hm w). rewrite E in Hm. cbn [snd] in Hm. split_and!; [|by apply advances_same|done].
  intros st Hst. apply Hg. by rewrite <-Hm.
Qed.
Lemma safe_ret {A} (a : A) (Q : A → Prop) : Q a → safe (mret a) Q.
Proof. intros Ha w r w' Hg [= <- <-]. split_and!; [done|apply advances_refl|]. by intros ? [= <-]. Qed.
Lemma safe_throw {A} (e : exn) (Q : A → Prop) : safe (mthrow e) Q.
Proof. intros w r w' Hg [= <- <-]. split_and!; [done|apply advances_refl|done]. Qed.
Lemma safe_lift {A} (x : res A) (Q : A → Prop) : (∀ a, x = Ok a → Q a) → safe (lift x) Q.
Proof. intros Hx w r w' Hg [= <- <-]. split_and!; [done|apply advances_refl|done]. Qed.
Lemma safe_mono {A} (m : SE W A) (Q R : A → Prop) : (∀ a, Q a → R a) → safe m Q → safe m R.
Proof. intros HQ Hm w r w' Hg E. destruct (Hm _ _ _ Hg E) as (? & ? & ?). split_and!; auto. Qed.
Lemma safe_bind {A B} (m : SE W A) (k : A → SE W B) Q R : safe m Q → (∀ a, Q a → safe (k a) R) → safe (m ≫= k) R.
Proof.
  intros Hm Hk w r w' Hg E. unfold mbind, se_bind in E. destruct (m w) as [[a|e] w1] eqn:Em.
  - destruct (Hm _ _ _ Hg Em) as (Hg1 & Ha1 & Hq). destruct (Hk a (Hq a eq_refl) _ _ _ Hg1 E) as (Hg2 & Ha2 & Hr).
    split_and!; [done|by eapply advances_trans|done].
  - injection E as <- <-. destruct (Hm _ _ _ Hg Em) as (? & ? & _). by split_and!.
Qed.
Lemma safe_raise_if {A} (c : bool) e (k : SE W A) Q : (c = false → safe k Q) → safe (raise_if c with e ;; k) Q.
Proof. intros Hk. destruct c; [apply safe_throw|by apply Hk]. Qed.

(** An operation of the journal. *)
Lemma safe_store {A} (m : SE store A) (Q : A → Prop) :
  (∀ st, journal_ok st → ours st → wp m (λ r st', evolves st st' ∧ ours st' ∧ ∀ a, r = Ok a → Q a) st) → safe (on_store m) Q.
Proof.
  intros Hm [sv x] r w' Hg E. unfold on_store in E. cbn [fst snd] in E. destruct (sv_store sv) as [st|] eqn:Es.
  - destruct (Hg st Es) as [Hj Ho]. specialize (Hm st Hj Ho). unfold wp in Hm. destruct (m st) as [r1 st1]. injection E as <- <-.
    destruct Hm as (Hev & Ho1 & Hq). split_and!; [|by unfold advances, journal_of; cbn; rewrite Es|done].
    intros st' [= <-]. split; [by eapply evolves_ok|done].
  - injection E as <- <-. split_and!; [done|apply advances_refl|done].
Qed.

Lemma quiet_outside {A} (m : SE X A) : quiet journal_of (outside m).
Proof. intros [sv x]. unfold outside. cbn. by destruct (m x). Qed.
Lemma quiet_inside {A} (m : SE service A) : quiet sv_store m → quiet journal_of (inside m).
Proof. intros Hm [sv x]. specialize (Hm sv). unfold inside. cbn in *. by destruct (m sv). Qed.
Lemma quiet_mapping {A} g (m : SE W A) : quiet journal_of m → quiet journal_of (mapping g m).
Proof. intros Hm w. specialize (Hm w). unfold mapping. by destruct (m w) as [[a|e] w']. Qed.
Lemma quiet_clock : quiet journal_of (clock_ms wall_clock).
Proof.
  unfold clock_ms. apply quiet_bind; [apply quiet_outside|]. intros v w. unfold mbind, se_bind, sget, lift, sput. by destruct (now_ms _ _).
Qed.
#[local] Hint Resolve quiet_outside quiet_clock : quiet.

Lemma safe_clock : safe (clock_ms wall_clock) (λ _, True).
Proof. apply safe_quiet, quiet_clock. Qed.

Lemma safe_writing {A} (m : env → SE store A) (Q : A → Prop) :
  (∀ e st, journal_ok st → ours st → wp (m e) (λ r st', evolves st st' ∧ ours st' ∧ ∀ a, r = Ok a → Q a) st) → safe (writing disk m) Q.
Proof.
  intros Hm. unfold writing. apply (safe_bind _ _ (λ _, True)); [apply safe_quiet, quiet_outside|]. intros d _. apply safe_store. intros st. apply Hm.
Qed.
Lemma safe_stamping {A} (m : env → SE store A) (Q : A → Prop) :
  (∀ e st, journal_ok st → ours st → wp (m e) (λ r st', evolves st st' ∧ ours st' ∧ ∀ a, r = Ok a → Q a) st) → safe (stamping wall_clock disk m) Q.
Proof.
  intros Hm. unfold stamping. apply (safe_bind _ _ (λ _, True)); [apply safe_quiet, quiet_outside|]. intros d _.
  apply (safe_bind _ _ (λ _, True)); [apply safe_clock|]. intros t _. apply safe_store. intros st. apply Hm.
Qed.

(** An operation that evolves the journal, and whose checkpoints are ours. *)
Lemma wp_service {A} (m : SE store A) st : wp m (λ _ st', evolves st st') st → kept our_checkpoint m → ours st →
  wp m (λ r st', evolves st st' ∧ ours st' ∧ ∀ a, r = Ok a → True) st.
Proof.
  intros H1 H2 Ho. apply wp_intro. intros r st' E. split_and!; [by apply (wp_run _ _ _ _ _ H1 E)|by apply (wp_run _ _ _ _ _ (H2 st Ho) E)|done].
Qed.
Lemma wp_reading {A} (m : SE store A) (Q : A → Prop) st : reads m → ours st → (∀ a st', m st = (Ok a, st') → Q a) →
  wp m (λ r st', evolves st st' ∧ ours st' ∧ ∀ a, r = Ok a → Q a) st.
Proof.
  intros Hm Ho Hq. apply wp_reads; [done|]. intros r st' Hs E. split_and!; [by apply evolves_mark| |intros a ->; by eapply Hq].
  unfold ours in *. by destruct (same_horizon _ _ Hs) as (_ & _ & _ & _ & _ & _ & -> & _).
Qed.

Lemma safe_checkpoint ek st : state_wf st →
  safe (stamping wall_clock disk (λ e, write_checkpoint e ek (state_json st) (e_last_outcome_seq st))) (λ _, True).
Proof.
  intros Hw. apply safe_stamping. intros e j Hj Ho. apply wp_service; [apply write_checkpoint_evolves, state_distinct, Hw| |done].
  apply kept_write_checkpoint. intros data Hd seq. exists st. split_and!; [by eapply encode_text|done|done].
Qed.

Lemma safe_recover s ek policy given : match given with Some st0 => state_wf st0 | None => True end →
  safe (on_store (_recover s ek policy given)) state_wf.
Proof.
  intros Hg. apply safe_store. intros j Hj Ho. apply wp_reading; [apply reads_recover_state|done|]. intros st j' E.
  eapply recover_run_wf; [exact Hj| |exact E]. by destruct given.
Qed.

Lemma safe_for_each {A} (g : A → SE W ()) l : (∀ x, safe (g x) (λ _, True)) → safe (for_each g l) (λ _, True).
Proof.
  intros Hg. induction l as [|x t IH]; cbn [for_each]; [by apply safe_ret|]. by apply (safe_bind _ _ (λ _, True)); [apply Hg|intros].
Qed.

(** Steps through a computation: what only reads or stays outside first, an operation of the journal by its own lemma. *)
Lemma safe_lift_bind {A B} (x : res A) (k : A → SE W B) Q : (∀ a, x = Ok a → safe (k a) Q) → safe (lift x ≫= k) Q.
Proof. intros Hk. apply (safe_bind _ _ (λ a, x = Ok a)); [by apply safe_lift|done]. Qed.
Lemma safe_quiet_bind {A B} (m : SE W A) (k : A → SE W B) Q : quiet journal_of m → (∀ a, safe (k a) Q) → safe (m ≫= k) Q.
Proof. intros Hm Hk. apply (safe_bind _ _ (λ _, True)); [by apply safe_quiet|auto]. Qed.

Ltac sstep :=
  match goal with
  | |- safe (mret _) _ => by apply safe_ret
  | |- safe (if _ then mthrow _ else _) _ => apply safe_raise_if; intros ?
  | |- safe (lift _ ≫= _) _ => apply safe_lift_bind; intros ? ?
  | |- safe (clock_ms _ ≫= _) _ => apply safe_quiet_bind; [apply quiet_clock|intros ?]
  | |- safe (outside _ ≫= _) _ => apply safe_quiet_bind; [apply quiet_outside|intros ?]
  | |- safe (sget ≫= _) _ => apply safe_quiet_bind; [apply quiet_get|intros ?]
  end.

Lemma safe_settle s ek received now_ms : safe (settle wall_clock disk s ek received now_ms) (λ _, True).
Proof.
  unfold settle. apply safe_for_each. intros model. apply (safe_bind _ _ (λ _, True)).
  - apply safe_store. intros j Hj Ho. by apply wp_reading; [apply reads_open|..].
  - intros isss _. apply safe_for_each. intros iss. unfold close_window. repeat sstep.
    match goal with |- safe (match ?o with _ => _ end) _ => destruct o as [[status payload]|] end; [|by apply safe_ret].
    apply (safe_bind _ _ (λ _, True)); [|by intros; apply safe_ret]. apply safe_stamping. intros e j Hj Ho.
    apply wp_service; [apply commit_outcome_evolves|apply kept_commit_outcome|done].
Qed.

Lemma safe_issue_new bound ek g policy key now_ms st : Journal.key_ok key → state_wf st →
  safe (issue_new np ct cfg wall_clock disk bound ek g policy key now_ms st) (λ p, state_wf p.2).
Proof.
  intros Hk Hw. unfold issue_new. repeat sstep. apply (safe_bind _ _ (λ p, state_wf p.2)).
  - intros [sv x] r w' Hg E. destruct (safe_quiet _ (quiet_inside _ (quiet_build np ct cfg bound ek g st policy a0)) _ _ _ Hg E) as (? & ? & _).
    split_and!; [done|done|]. intros [b st1] ->. unfold inside in E. cbn in E. destruct (_build _ _ _ _ _ _ _ _ _ sv) as [r1 sv'] eqn:Eb.
    injection E as -> _. by eapply build_wf.
  - intros [b st1] Hw1. cbn [snd] in Hw1. apply (safe_bind _ _ (λ _, True)); [by apply safe_checkpoint|]. intros decided _. repeat sstep.
    apply (safe_bind _ _ (λ _, True)); [|by intros; apply safe_ret]. apply safe_stamping. intros e j Hj Ho.
    apply wp_service; [by apply get_or_issue_evolves|apply kept_get_or_issue|done].
Qed.

Lemma quiet_export bound st g now_s : quiet sv_store (_export bound st g now_s).
Proof. intros sv. unfold _export, mbind, se_bind, sget, lift, sput. by destruct (update _ _ _ _). Qed.

Lemma safe_look_up bound g now_ms : safe (look_up wall_clock disk bound g now_ms) (λ x, ∃ ek win,
  x.1.1.1.1 = ek ∧ br_evidence_key bound = Ok (Some ek) ∧ br_window bound = Ok (Some win)
  ∧ mk_key ek (br_decision_origin bound) (br_decision_origin bound) (window_end win) (br_settings_sha256 bound) = Ok x.1.1.2
  ∧ state_wf x.1.2).
Proof.
  unfold look_up. repeat sstep. apply (safe_bind _ _ (λ _, True)).
  { apply safe_writing. intros e j Hj Ho. apply wp_service; [apply record_observations_evolves|apply kept_record|done]. }
  intros _ _. apply (safe_bind _ _ (λ _, True)).
  { apply safe_store. intros j Hj Ho. apply wp_reading; [intros s; apply same_refl|done|done]. }
  intros seen _. apply (safe_bind _ _ (λ _, True)); [apply safe_settle|]. intros _ _.
  apply (safe_bind _ _ state_wf); [by apply safe_recover|]. intros st Hw. sstep.
  apply (safe_bind _ _ (λ _, True)).
  { apply safe_store. intros j Hj Ho. by apply wp_reading; [apply reads_get_issuance|..]. }
  intros found _. apply safe_ret.
  repeat match goal with E : of_option _ ?o = Ok _ |- _ => apply of_option_ok in E; subst end.
  do 2 eexists. by split_and!.
Qed.

Lemma safe_finish bound ek g policy now_ms iss st1 : state_wf st1 →
  safe (finish cfg wall_clock disk bound ek g policy now_ms iss st1) (λ a, ∃ jb, i_payload iss = Ok jb ∧ _response bound ek jb = Ok a).
Proof.
  intros Hw1. unfold finish. apply (safe_bind _ _ state_wf); [by apply safe_recover|]. intros st2 Hw2.
  apply (safe_bind _ _ (λ _, True)); [by apply safe_checkpoint|]. intros _ _. repeat sstep.
  apply (safe_bind _ _ (λ _, True)).
  { match goal with |- safe (if ?c then _ else _) _ => destruct c end; [|by apply safe_ret]. apply (safe_bind _ _ (λ _, True)).
    - apply safe_writing. intros e j Hj Ho. apply wp_service; [apply compact_evolves|apply kept_compact|done].
    - intros _ _. apply safe_quiet. intros w'. done. }
  intros _ _. apply safe_quiet_bind; [apply quiet_inside, quiet_export|]. intros _. repeat sstep. apply safe_lift. intros. eauto.
Qed.

Lemma safe_issue bound g now_ms : safe (_issue np ct cfg wall_clock disk bound g now_ms) (λ _, True).
Proof.
  unfold _issue. eapply safe_bind; [apply safe_look_up|]. intros [[[[ek policy] key] st] found] (ek' & win & _ & _ & _ & Hk & Hw).
  apply (safe_bind _ _ (λ p, state_wf p.2)).
  { destruct found as [iss|]; [by apply safe_ret|]. apply safe_issue_new; [by eapply mk_key_ok|done]. }
  intros [iss st1] Hw1. eapply safe_mono; [|by apply safe_finish]. done.
Qed.

Lemma safe_mapping {A} g (m : SE W A) Q : safe m Q → safe (mapping g m) Q.
Proof.
  intros Hm w r w' Hg E. unfold mapping in E. destruct (m w) as [[a|e] w1] eqn:Em; injection E as <- <-; [by apply (Hm w)|].
  destruct (Hm w _ _ Hg Em) as (? & ? & _). by split_and!.
Qed.

Lemma safe_predict body : safe (predict np ct cfg kget fetch monotonic wall_clock disk body) (λ _, True).
Proof.
  unfold predict. sstep. apply safe_quiet_bind.
  { apply quiet_mapping, quiet_bind_request. intros p. apply quiet_outside. }
  intros bound. apply safe_quiet_bind.
  { apply quiet_mapping, quiet_inside. intros sv. unfold mbind, se_bind, sget, lift, sput. by destruct (reserve _ _ _). }
  intros _. repeat sstep. apply safe_quiet_bind.
  { apply quiet_mapping, quiet_history; [intros; apply quiet_outside|apply quiet_outside|apply quiet_clock]. }
  intros g. repeat sstep. apply safe_mapping, safe_issue.
Qed.

(** * The service over time *)

(** What may happen: a request, an autoscaler forgotten, the process restarted over the same file (whatever it opens it
    with), and anything outside the journal: the fit worker publishing an artifact, the world moving on. *)
Inductive served : W → W → Prop :=
| sv_request body r w w' : predict np ct cfg kget fetch monotonic wall_clock disk body w = (r, w') → served w w'
| sv_forget namespace autoscaler sv x : served (sv, x) (forget namespace autoscaler sv, x)
| sv_restart st id keep obs quota cap opened d wk n sv sv' x : sv_store sv = Some st → reopen id keep obs quota cap true st = Ok opened →
    new_service (Ok opened) d wk n = Ok sv' → served (sv, x) (sv', x)
| sv_elsewhere w w' : journal_of w' = journal_of w → served w w'.

Lemma served_good w w' : served w w' → good w → good w' ∧ advances w w'.
Proof.
  intros [body r w1 w2 E|ns a sv x|st id keep obs quota cap opened d wk n sv sv' x Es Ho Hn|w1 w2 E] Hg.
  - destruct (safe_predict body _ _ _ Hg E) as (? & ? & _). done.
  - split; [intros st; apply Hg|by apply advances_same].
  - injection Hn as <-. unfold good, advances, journal_of in *. cbn [fst sv_store] in *. destruct (Hg st Es) as [Hj Hour]. rewrite Es.
    split; [|by eapply rtc_once, ch_reopen]. intros st' [= <-]. split; [by eapply ok_reopen|].
    unfold reopen in Ho. ok_inv Ho. by subst.
  - split; [|by apply advances_same]. intros st Hst. apply Hg. by rewrite <-E.
Qed.

Lemma serves_good w w' : rtc served w w' → good w → good w' ∧ advances w w'.
Proof.
  intros Hs Hg. refine (rtc_ind_r (λ w', good w' ∧ advances w w') w _ _ w' Hs).
  - split; [done|apply advances_refl].
  - intros y z _ Hy [Hgy Hay]. destruct (served_good _ _ Hy Hgy) as [? ?]. split; [done|by eapply advances_trans].
Qed.

(** C1: Whatever the service is asked and whatever it meets outside (requests of any form, clock, Kubernetes and metrics
    answers, full or failing disks, restarts, artifacts published in between), its journal stays well formed and every
    checkpoint in it is the text of a state of the service with its own sequence number, so that recovery always has a
    state to start from. *)
Theorem service_invariant id keep obs quota cap st d wk n sv x w : create id keep obs quota cap = Ok st →
  new_service (Ok st) d wk n = Ok sv → rtc served (sv, x) w →
  ∃ st', sv_store w.1 = Some st' ∧ journal_ok st' ∧ ours st' ∧ evolves st st'.
Proof.
  intros Hc [= <-] Hs. assert (journal_ok st ∧ ours st) as [Hj Ho].
  { split; [by eapply create_ok|]. unfold create in Hc. ok_inv Hc. subst. constructor. }
  destruct (serves_good _ _ Hs) as [Hg Ha].
  { intros st' [= <-]. done. }
  unfold advances, journal_of in Ha. cbn [fst sv_store] in Ha. destruct (sv_store w.1) as [st'|] eqn:Es; [|done].
  exists st'. destruct (Hg st' Es). done.
Qed.

(** * The answer *)

Lemma wire_ms_other w kn w' k : wire_ms w kn = Ok w' → k ≠ kn.1 → k ≠ kn.2 → dget k w' = dget k w.
Proof. unfold wire_ms. destruct kn as [a b]. intros H H1 H2. ok_inv H. subst. by rewrite dget_dset_ne, dget_ddel, decide_False. Qed.
Lemma wire_ts_other w n w' k : wire_ts w n = Ok w' → k ≠ n → dget k w' = dget k w.
Proof. unfold wire_ts. intros H H1. ok_inv H. subst. by rewrite dget_dset_ne. Qed.

Lemma to_wire_eligible r o : to_wire r = Ok o → dget "predictive_eligible" o = Some (predictive_eligible r).
Proof.
  unfold to_wire. intros H. ok_inv H. subst. rewrite !dget_dset_ne by done. cbn [foldM] in *.
  repeat match goal with E : (_ ← _; _) = Ok _ |- _ => ok_inv E end. subst.
  repeat match goal with
  | E : wire_ts _ _ = Ok ?x |- dget _ ?x = _ => rewrite (wire_ts_other _ _ _ _ E) by done
  | E : wire_ms _ _ = Ok ?x |- dget _ ?x = _ => rewrite (wire_ms_other _ _ _ _ E) by done
  end. reflexivity.
Qed.

Lemma response_checked bound ek b j : _response bound ek b = Ok j → ∃ r o, check_response r (Some bound) = Ok () ∧ to_wire r = Ok o
  ∧ j = JObj o ∧ dget "predictive_eligible" o = Some (JBool false) ∧ calibration_epoch r = JStr ek.
Proof.
  unfold _response. intros H. ok_inv H. match goal with E : check_response ?r _ = Ok ?u |- _ => destruct u; exists r end.
  match goal with E : to_wire _ = Ok ?o |- _ => pose proof (to_wire_eligible _ _ E); exists o end. split_and!; done.
Qed.

Lemma issue_answer bound g now_ms w j w' : _issue np ct cfg wall_clock disk bound g now_ms w = (Ok j, w') →
  ∃ ek jb, br_evidence_key bound = Ok (Some ek) ∧ _response bound ek jb = Ok j.
Proof.
  unfold _issue. intros H. apply se_bind_ok in H as ([[[[ek policy] key] st] found] & w1 & E & H).
  apply se_bind_ok in H as ([iss st1] & w2 & _ & H). unfold finish in H. ok_inv H. lift_inv.
  unfold look_up in E. ok_inv E. lift_inv. injection E as -> _ _ _ _ _.
  match goal with E : of_option _ ?o = Ok ek, F : br_evidence_key _ = Ok ?o |- _ => apply of_option_ok in E; subst o end.
  exists ek. eexists. by split.
Qed.

(** C17: Every answer is a response that passed the contract's own check against the request as it was bound to the live
    autoscaler, on its evidence epoch, printed for the wire, and none is eligible to act: no answer of the service can
    cause a write until its release gates are passed. *)
Theorem answers_checked body w j w' : predict np ct cfg kget fetch monotonic wall_clock disk body w = (Ok j, w') →
  ∃ now w1 bound w2 ek r o, clock_ms wall_clock w = (Ok now, w1)
  ∧ bind_request (λ p, outside (kget p)) body (JInt now) w1 = (Ok bound, w2)
  ∧ br_evidence_key bound = Ok (Some ek) ∧ calibration_epoch r = JStr ek
  ∧ check_response r (Some bound) = Ok () ∧ to_wire r = Ok o ∧ j = JObj o
  ∧ dget "predictive_eligible" o = Some (JBool false).
Proof.
  unfold predict. intros H. ok_inv H. unfold mapping in H.
  match type of H with context [_issue ?a ?b ?c ?d ?e ?f ?g ?h ?w0] => destruct (_issue a b c d e f g h w0) as [[a1|e1] w3] eqn:Ei end; [|discriminate].
  injection H as -> ->. match goal with E : mapping bind_error _ ?w1 = (Ok ?bd, ?w2) |- _ =>
    unfold mapping in E; destruct (bind_request _ _ _ w1) as [[a2|e2] w4] eqn:Eb; [|discriminate]; injection E as -> -> end.
  apply issue_answer in Ei as (ek & jb & Hek & Hr). destruct (response_checked _ _ _ _ Hr) as (r & o & Hc & Hw & -> & He & Hcal).
  do 7 eexists. split_and!; [eassumption|exact Eb|exact Hek|exact Hcal|exact Hc|exact Hw|done|exact He].
Qed.

(** * Retries *)

Lemma on_store_ok {A} (m : SE store A) w a w' : on_store m w = (Ok a, w') →
  ∃ st st', journal_of w = Some st ∧ m st = (Ok a, st') ∧ journal_of w' = Some st'.
Proof.
  unfold on_store, journal_of. destruct (sv_store w.1) as [st|]; [|discriminate]. destruct (m st) as [r st'] eqn:E. intros [= -> <-]. eauto.
Qed.

Lemma stamping_ok {A} (m : env → SE store A) w a w' : stamping wall_clock disk m w = (Ok a, w') →
  ∃ e st st', journal_of w = Some st ∧ m e st = (Ok a, st') ∧ journal_of w' = Some st'.
Proof.
  unfold stamping. intros H. apply se_bind_ok in H as (d & w1 & H1 & H). apply se_bind_ok in H as (t & w2 & H2 & H).
  apply on_store_ok in H as (st & st' & Hw & Hm & Hj). pose proof (quiet_outside disk w) as Q1. pose proof (quiet_clock w1) as Q2.
  rewrite H1 in Q1. rewrite H2 in Q2. cbn [snd] in *. do 3 eexists. split_and!; [|exact Hm|exact Hj]. congruence.
Qed.

Lemma get_issuance_same key j j' : get_issuance key j = (Ok None, j) → issuances j' = issuances j → get_issuance key j' = (Ok None, j').
Proof.
  intros H Hi. apply get_issuance_ok in H as (k & Hk & _ & Hf). unfold get_issuance, _guard, find_issuance, mbind, se_bind, sget, lift.
  by rewrite Hk, Hi, Hf.
Qed.

(** The row of an issuance in a journal. *)
Definition row_of (key : IssuanceKey) (iss : Issuance) (st : store) : Prop :=
  ∃ r, r ∈ issuances st ∧ decodes r iss ∧ key_sha256 key = Ok (ir_key_sha256 r).

Lemma issue_new_row bound ek g policy key now_ms st w iss st1 w' :
  issue_new np ct cfg wall_clock disk bound ek g policy key now_ms st w = (Ok (iss, st1), w') → ∃ j, journal_of w' = Some j ∧ row_of key iss j.
Proof.
  unfold issue_new. intros H. ok_inv H. match type of H with (let '(_, _) := ?p in _) _ = _ => destruct p as [b st2] end.
  ok_inv H. match goal with E : stamping _ _ (λ e, get_or_issue _ _ _ _) _ = (Ok ?r, _) |- _ => apply stamping_ok in E as (e & j & jn & _ & F & Hj); destruct r as [i c] end.
  apply get_or_issue_committed in F as (r & Hr & Hd & Hk & _). injection H as <- _ <-. exists jn. split; [done|]. by exists r.
Qed.

Lemma found_row key j iss j' : get_issuance key j = (Ok (Some iss), j') → row_of key iss j.
Proof.
  intros E. apply get_issuance_ok in E as (k & Hk & _ & r & Hf & Hd). apply List.find_some in Hf as [Hin Hp]. bool_prop. subst k.
  exists r. split_and!; [by apply list_elem_of_In|done|done].
Qed.

Lemma row_of_evolves key iss j j' : evolves j j' → journal_ok j → row_of key iss j → horizon j' ≤ k_window_end (i_key iss) → row_of key iss j'.
Proof.
  intros He Hj (r & Hr & Hd & Hk) Hh. exists r. split_and!; [|done|done]. apply (evolves_keeps _ _ He Hj); [done|].
  by rewrite <-(proj1 (decodes_window_end _ _ Hd)).
Qed.

(** What one request does to the journal and what it answers: after some steps it looks the key up; it answers with the
    issuance found, or with one it commits. *)
Lemma issue_trace bound g now_ms w a w' : good w → _issue np ct cfg wall_clock disk bound g now_ms w = (Ok a, w') →
  ∃ ek win key found iss jb j0 j1 j2 j3,
  br_evidence_key bound = Ok (Some ek) ∧ br_window bound = Ok (Some win)
  ∧ mk_key ek (br_decision_origin bound) (br_decision_origin bound) (window_end win) (br_settings_sha256 bound) = Ok key
  ∧ journal_of w = Some j0 ∧ evolves j0 j1 ∧ get_issuance key j1 = (Ok found, j1) ∧ evolves j1 j2 ∧ journal_ok j2 ∧ row_of key iss j2 ∧ evolves j2 j3
  ∧ journal_of w' = Some j3 ∧ (∀ i, found = Some i → i = iss) ∧ i_payload iss = Ok jb ∧ _response bound ek jb = Ok a.
Proof.
  intros Hg H. unfold _issue in H. apply se_bind_ok in H as ([[[[ek policy] key] st] found] & w1 & E1 & H).
  apply se_bind_ok in H as ([iss st1] & w2 & E2 & E3).
  destruct (safe_look_up _ _ _ _ _ _ Hg E1) as (Hg1 & Ha1 & Hq). destruct (Hq _ eq_refl) as (ek' & win & <- & Hek & Hwin & Hk & Hw). clear Hq. cbn [fst snd] in *.
  assert (∃ j1, journal_of w1 = Some j1 ∧ get_issuance key j1 = (Ok found, j1)) as (j1 & Hj1 & Hget).
  { unfold look_up in E1. ok_inv E1. injection E1 as _ _ -> _ -> ->.
    match goal with E : on_store (get_issuance key) _ = _ |- _ => apply on_store_ok in E as (ja & jb & _ & F & Hb) end.
    destruct (get_issuance_ok _ _ _ _ F) as (_ & _ & -> & _). by exists ja. }
  assert (state_wf st1 ∧ good w2 ∧ advances w1 w2 ∧ ∃ j2, journal_of w2 = Some j2 ∧ row_of key iss j2 ∧ ∀ i, found = Some i → i = iss)
    as (Hw1 & Hg2 & Ha2 & j2 & Hj2 & Hrow & Hfound).
  { destruct found as [i|].
    - injection E2 as <- <- <-. split_and!; [done|done|apply advances_refl|]. exists j1. split_and!; [done|by eapply found_row|by intros ? [= ->]].
    - destruct (safe_issue_new _ _ _ _ _ _ _ (mk_key_ok _ _ _ _ _ _ Hk) Hw _ _ _ Hg1 E2) as (? & ? & Hq). split_and!; [by apply (Hq _ eq_refl)|done..|].
      apply issue_new_row in E2 as (j2 & ? & ?). exists j2. by split_and!. }
  destruct (safe_finish _ _ _ _ _ _ _ Hw1 _ _ _ Hg2 E3) as (Hg3 & Ha3 & Hq). destruct (Hq _ eq_refl) as (jb & Hjb & Hr).
  unfold advances in *. destruct (journal_of w) as [j0|] eqn:Hj0; [|by rewrite Hj1 in Ha1]. rewrite Hj1, Hj2 in *. destruct (journal_of w') as [j3|] eqn:Hj3; [|done].
  pose proof (proj1 (Hg2 _ Hj2)). do 10 eexists. split_and!; eauto.
Qed.

(** Only a collision lets an issuance be found under another key. *)
Lemma row_of_key key iss j : journal_ok j → row_of key iss j → i_key iss = key ∨ collides (key_body key) (key_body (i_key iss)).
Proof.
  intros Hj (r & Hr & Hd & Hk). destruct (rows_ok _ _ Hj Hr) as [(i & Hdi & Hki & _) _].
  pose proof (decodes_row _ _ j Hd) as E1. rewrite (decodes_row _ _ j Hdi) in E1. injection E1 as ->. destruct (key_sha256_inj key (i_key iss) _ Hk Hki); [by left|by right].
Qed.


(** * What is issued *)

Lemma commit_issuance_created env key payload models j i c j' : commit_issuance env key payload models j = (Ok (i, c), j') →
  get_issuance key j = (Ok None, j) → canonical_json payload = Ok (i_bundle i).
Proof.
  unfold commit_issuance. intros H Hn. ok_inv H. lift_inv. apply guard_ok in H. ok_inv H.
  match goal with E : sget _ = _ |- _ => injection E as <- <- end. match goal with E : _require_healthy _ = _ |- _ => injection E as _ <- end.
  match goal with E : get_issuance key j = (Ok ?o, ?s) |- _ => assert (o = None) as -> by congruence; apply get_issuance_ok in E as (k & Hk & -> & Hf) end.
  ok_inv H. injection H as <- <- <-. lift_inv. simplify_eq.
    match goal with E : _tx _ _ _ = (Ok ?u, _) |- _ => apply tx_ok in E; destruct u end.
    match goal with E : insert_issuance _ _ _ _ _ _ _ = _ |- _ => apply insert_issuance_inv in E as (Hnew & _ & ->) end.
    match goal with E : get_issuance key (set_issuances _ _ _) = _ |- _ => apply get_issuance_ok in E as (k' & Hk' & -> & Hf') end.
    simplify_eq. match goal with E : of_option _ ?o = Ok _ |- _ => apply of_option_ok in E; subst o end.
    destruct Hf' as (r & Hf' & Hd). apply List.find_some in Hf' as [Hin Hp]. bool_prop. apply list_elem_of_In in Hin. cbn [issuances set_issuances] in Hin.
    apply elem_of_app in Hin as [Hin|Hin%list_elem_of_singleton]; [destruct (Hnew r Hin); congruence|]. subst r.
    rewrite (de_bundle _ _ Hd). cbn [ir_bundle]. by eapply encode_text.
Qed.

Lemma get_or_issue_created env key build models j i c j' : get_or_issue env key build models j = (Ok (i, c), j') →
  get_issuance key j = (Ok None, j) → ∃ iid payload, build iid = Ok payload ∧ canonical_json payload = Ok (i_bundle i).
Proof.
  unfold get_or_issue. intros H%guard_ok Hn. ok_inv H. match goal with E : _require_healthy _ = _ |- _ => injection E as _ <- end.
  rewrite Hn in *. match goal with E : (Ok None, _) = (Ok ?o, _) |- _ => injection E as <- <- end. ok_inv H. lift_inv.
  match goal with E : _refuse_retired _ _ = _ |- _ => injection E as _ <- end. match goal with E : sget _ = _ |- _ => injection E as <- <- end.
  do 2 eexists. split; [eassumption|]. by eapply commit_issuance_created.
Qed.

Lemma refuse_late_ok bound t : _refuse_late bound t = Ok () → ∃ win lead first, br_window bound = Ok (Some win) ∧ br_lead bound = Some lead
  ∧ target_timestamps win !! 0%nat = Some first ∧ t + ls_actuation_allowance_seconds lead * 1000 < first * 1000.
Proof.
  unfold _refuse_late. intros H. ok_inv H. bool_prop.
  repeat match goal with E : of_option _ ?o = Ok _ |- _ => apply of_option_ok in E; try subst o end.
  match goal with E : py_nth _ 0 = Ok ?x |- _ => change (of_option PyIndexError (target_timestamps x0 !! 0%nat) = Ok x) in E; apply of_option_ok in E end.
  do 3 eexists. split_and!; [eassumption..|lia].
Qed.

End requests.
