(* ===== verification/ServiceDemo.v ===== *)
(** One service end to end, inside the kernel: the autoscaler of [Contracts], a metrics backend that answers one day's
    samples, a clock that stands still, a new journal. A request is answered, the process restarts over its file, and the
    request is answered again. *)
From stdpp Require Import relations.
From S2P Require Import Prelude Float64 Sha256 Json JsonRoundtrip Identity Contracts Response Clock Maturation Store Journal.
From S2P Require Import Calibration Trust TrustSafety History Metrics Statistical StatisticalFacts Artifacts ArtifactFacts.
From S2P Require Import Worker State StateRoundtrip Service ServiceState ServiceSafety.

(** The samples a seasonal-naive forecast of the origin needs, and the newest one. *)
Definition day_answer : string :=
  q "{'status':'success','data':{'resultType':'matrix','result':[{'metric':{},'values':[[1709078700,'11'],[1709079000,'12.5'],[1709079300,12],[1709164500,'10']]}]}}".
#[local] Opaque predict _issue issue_new.

Definition now : Z := 1709164830000.
Definition live_fetch (_ : string) (_ : f64) (_ : Z) : SE () exchange := mret (Answer 200 day_answer).
Definition live_mono : SE () f64 := mret f0.
Definition live_clock : SE () json := mret (JInt now).
Definition live_disk : SE () (Z * option sql_error) := mret (0, None).
Definition live_cfg : ServiceConfig := {| prometheus_url := "http://vm/"; fit_mode := "inline"; compact_every_seconds := 3600 |}.

Definition started (st : store) : service := {|
  sv_store := Some st; sv_store_problem := None; sv_artifacts := []; sv_worker := None;
  sv_metrics := {| Metrics.max_autoscalers := 10; max_series := MAX_SERIES_PER_AUTOSCALER; _snaps := [] |};
  sv_compacted_s := None; sv_clock := None |}.
Definition live_start : service * () := (started demo0, ()).
Definition live_predict : SE (service * ()) json :=
  predict demo_np demo_ct live_cfg demo_get live_fetch live_mono live_clock live_disk demo_body.
Definition live_served := served demo_np demo_ct live_cfg demo_get live_fetch live_mono live_clock live_disk.

Lemma ok_run {S A} (m : SE S A) s : is_ok (m s).1 = true → ∃ a, m s = (Ok a, (m s).2).
Proof. destruct (m s) as [[a|e] s']; [by exists a|discriminate]. Qed.

Lemma request_served w : live_served w (live_predict w).2.
Proof. apply (sv_request _ _ _ _ _ _ _ _ demo_body (live_predict w).1). fold live_predict. apply surjective_pairing. Qed.

Lemma live_answers : is_ok (live_predict live_start).1 = true.
Proof. by vm_compute. Qed.

(** The answer: the window's maximum of the same hour yesterday, and no bound yet. *)
Example live_answer : (r ← (live_predict live_start).1; o ← as_dict r; Ok (dget "base_window_max_rps" o, dget "reason" o))
  = Ok (Some (JFloat (f64_of_dec false 125 (-1))), Some (JStr "HistoryInsufficient")).
Proof. by vm_compute. Qed.

Lemma service_invariant_witness : ∃ st, sv_store (live_predict live_start).2.1 = Some st ∧ journal_ok st ∧ ours st.
Proof.
  destruct (service_invariant demo_np demo_ct live_cfg demo_get live_fetch live_mono live_clock live_disk "demo" 86400 172800 1000000 65536
    demo0 [] None 10 (started demo0) () (live_predict live_start).2) as (st & H1 & H2 & H3 & _).
  - apply demo_created.
  - reflexivity.
  - exact (rtc_once _ _ (request_served live_start)).
  - exists st. split; [exact H1|]. split; [exact H2|exact H3].
Defined.

Lemma answers_checked_witness : ∃ o, (live_predict live_start).1 = Ok (JObj o) ∧ dget "predictive_eligible" o = Some (JBool false).
Proof.
  destruct (ok_run _ _ live_answers) as [j E].
  destruct (answers_checked demo_np demo_ct live_cfg demo_get live_fetch live_mono live_clock live_disk demo_body live_start j _ E)
    as (_ & _ & _ & _ & _ & _ & o & _ & _ & _ & _ & _ & _ & -> & H).
  exists o. split; [by rewrite E|exact H].
Defined.

(** * Twice, with a restart in between *)

(** A history with nothing in it. *)
Definition no_grid : RpsGrid := {| query_sha256 := zero64; History.interval_seconds := 300; History.start := 1709164500;
  History.end_ := 1709164500; History.values := [None]; received_at_ms := [None]; read_completed_ms := now;
  response_sha256 := zero64; chunks := 1 |}.
Definition live_grid : RpsGrid :=
  match read_rps_history live_fetch live_mono (mret now) "http://vm/" demo_signal (WNumber (JInt 1709164830)) 300 (14 * 86400) 120
          DEADLINE_S MAX_CHUNK_BYTES MAX_TOTAL_BYTES MAX_POINTS_PER_CHUNK () with
  | (Ok g, _) => g | (Raise _, _) => no_grid end.
Definition live_issue (g : RpsGrid) : SE (service * ()) json := _issue demo_np demo_ct live_cfg live_clock live_disk demo_bound g now.

Definition first_run := live_issue live_grid live_start.
Definition file (w : service * ()) : store := or_default demo0 (sv_store w.1).
Definition reopened : store := match reopen None 86400 172800 1000000 65536 true (file first_run.2) with Ok st => st | Raise _ => demo0 end.
Definition second_run := live_issue no_grid (started reopened, ()).

Lemma first_ok : is_ok first_run.1 && bool_decide (is_Some (sv_store first_run.2.1)) = true.
Proof. by vm_compute. Qed.
Lemma second_ok : is_ok second_run.1 && bool_decide (is_Some (sv_store second_run.2.1)) && (horizon (file second_run.2) <=? 1709165700) = true.
Proof. by vm_compute. Qed.

Lemma ran (m : SE (service * ()) json) w : is_ok (m w).1 && bool_decide (is_Some (sv_store (m w).2.1)) = true →
  ∃ a, m w = (Ok a, (m w).2) ∧ journal_of (m w).2 = Some (file (m w).2).
Proof.
  intros [H1 H2%bool_decide_eq_true]%andb_true_iff. destruct (ok_run m w H1) as [a E]. exists a. split; [exact E|].
  unfold journal_of, file. by destruct H2 as [st ->].
Qed.

Lemma live_good : good live_start.
Proof. intros st [= <-]. split; [|constructor]. eapply create_ok, demo_created. Qed.

Lemma reopened_ok : is_ok (reopen None 86400 172800 1000000 65536 true (file first_run.2)) = true.
Proof. by vm_compute. Qed.
Lemma restart_served : journal_of first_run.2 = Some (file first_run.2) → live_served first_run.2 (started reopened, ()).
Proof.
  intros H. pose proof reopened_ok as Hr. unfold reopened. destruct (reopen _ _ _ _ _ _ _) as [st|e] eqn:E; [|discriminate Hr].
  destruct first_run.2 as [sv []]. exact (sv_restart _ _ _ _ _ _ _ _ _ _ _ _ _ _ st [] None 10 sv (started st) () H E eq_refl).
Qed.

Lemma demo_window : ∃ win, br_window demo_bound = Ok (Some win) ∧ window_end win = 1709165700.
Proof. eexists. split; vm_compute; reflexivity. Qed.


(** * One issuance *)

Definition live_key : res (string * CalibrationPolicy * IssuanceKey) :=
  oek ← br_evidence_key demo_bound; ek ← of_option PyTypeError oek;
  policy ← from_settings Contracts.default_settings (ls_lead_seconds demo_lead);
  key ← mk_key ek 1709164800 1709164800 1709165700 demo_settings_sha;
  Ok (ek, policy, key).
Definition live_keys : string * CalibrationPolicy * IssuanceKey :=
  match live_key with Ok k => k | Raise _ => (zero64, demo_policy, svc_key) end.
Definition new_run := issue_new demo_np demo_ct live_cfg live_clock live_disk demo_bound live_keys.1.1 live_grid live_keys.1.2 live_keys.2
  now (_initial live_keys.1.1) live_start.

Lemma new_ok : is_ok new_run.1 = true.
Proof. by vm_compute. Qed.
Lemma nothing_issued : get_issuance live_keys.2 demo0 = (Ok None, demo0).
Proof. by vm_compute. Qed.

