(* ===== verification/Auth.v ===== *)
(** [ml-engine/api/auth.py]: who may call the forecasting service. The configuration read from the environment, the expiry
    read from a token, the bounded cache of positive reviews, TokenReview and what its answers mean, and the middleware in
    front of the app. The API server's exchange, the files of the service account and the clocks are computations over a
    state [X] of the outside world. Text and bytes are sequences of code points below 256; a token's payload that is not
    UTF-8 of such text is taken for unusable. *)
From Stdlib Require Import Ascii.
From stdpp Require Import gmap.
From S2P Require Import Prelude Float64 Sha256 Json Numbers History Identity.

Definition DEFAULT_AUDIENCE : string := "predictive-autoscaler-forecaster".
Definition MAX_BEARER : Z := 8192.
Definition MAX_BODY : Z := Z.shiftl 1 20.
Definition CACHE_TTL_S : f64 := f64_of_Z 60.

(** * Configuration *)

Record AuthConfig := {
  ac_mode : string; ac_audience : string; ac_subjects : gset string; ac_metrics_subjects : gset string;
  ac_allow_plaintext : bool; ac_open_paths : gset string;
}.

Definition default_config : AuthConfig := {|
  ac_mode := "off"; ac_audience := DEFAULT_AUDIENCE; ac_subjects := ∅; ac_metrics_subjects := ∅; ac_allow_plaintext := false;
  ac_open_paths := {["/health"; "/ready"; "/metrics"]} |}.

Definition enabled (c : AuthConfig) : bool := bool_decide (ac_mode c = "tokenreview").

Definition str_strip (s : string) : string := text (strip str_space (chars s)).
Definition str_lower (s : string) : string := text (lower <$> chars s).

(** [SUBJECT]: a namespace label and a name in which dots may stand where dashes may. *)
Definition account_char (c : ascii) : bool := label_char c || is_char 46 c.
Definition account_name (l : list ascii) : bool :=
  match l with
  | [] => false
  | c :: t => lower_alnum c && forallb account_char l && match last l with Some d => lower_alnum d | None => false end
  end.
Definition subject_text (s : string) : bool :=
  match strip_prefix (chars "system:serviceaccount:") (dollar (chars s)) with
  | Some r => match split_on 58 [] r with [ns; name] => dns_label ns && account_name name | _ => false end
  | None => false
  end.

Definition nonempty (s : string) : bool := negb (bool_decide (s = EmptyString)).

Definition _subjects (raw : string) : res (gset string) :=
  let subjects := filter nonempty ((λ l, text (strip str_space l)) <$> split_on 44 [] (chars raw)) in
  raise_if negb (forallb subject_text subjects) with AuthMisconfigured "not service account subjects" ;;
  Ok (list_to_set subjects).

(** [env.get(name, default)] *)
Definition env_get (name default : string) (env : list (string * string)) : string := or_default default (dget name env).
Definition env_true (name : string) (env : list (string * string)) : bool :=
  bool_decide (str_lower (str_strip (env_get name "false" env)) = "true").
(** [x.strip() or default] *)
Definition strip_or (s default : string) : string := if nonempty (str_strip s) then str_strip s else default.

Definition config_from_env (isfile : string → bool) (env : list (string * string)) : res AuthConfig :=
  let mode := strip_or (env_get "FORECASTER_AUTH" "off" env) "off" in
  if bool_decide (mode = "off") then Ok default_config else
  raise_if negb (bool_decide (mode = "tokenreview")) with AuthMisconfigured "FORECASTER_AUTH must be off or tokenreview" ;;
  subjects ← _subjects (env_get "FORECASTER_AUTH_SUBJECTS" EmptyString env);
  raise_if bool_decide (subjects = ∅) with AuthMisconfigured "FORECASTER_AUTH=tokenreview needs FORECASTER_AUTH_SUBJECTS" ;;
  let metrics := env_true "FORECASTER_AUTH_METRICS" env in
  metrics_subjects ← _subjects (env_get "FORECASTER_AUTH_METRICS_SUBJECTS" EmptyString env);
  raise_if metrics && bool_decide (metrics_subjects = ∅)
    with AuthMisconfigured "FORECASTER_AUTH_METRICS=true needs FORECASTER_AUTH_METRICS_SUBJECTS" ;;
  let allow_plaintext := env_true "FORECASTER_AUTH_ALLOW_PLAINTEXT" env in
  let cert := env_get "FORECASTER_TLS_CERT" EmptyString env in
  let key := env_get "FORECASTER_TLS_KEY" EmptyString env in
  raise_if negb allow_plaintext && negb (nonempty cert && nonempty key && isfile cert && isfile key)
    with AuthMisconfigured "FORECASTER_AUTH=tokenreview needs TLS" ;;
  Ok {| ac_mode := mode;
        ac_audience := strip_or (env_get "FORECASTER_AUTH_AUDIENCE" DEFAULT_AUDIENCE env) DEFAULT_AUDIENCE;
        ac_subjects := subjects; ac_metrics_subjects := if metrics then metrics_subjects else ∅;
        ac_allow_plaintext := allow_plaintext;
        ac_open_paths := {["/health"; "/ready"]} ∪ (if metrics then ∅ else {["/metrics"]}) |}.

(** * The expiry a token claims *)

Definition base64_value (c : ascii) : option Z :=
  let n := Z.of_nat (nat_of_ascii c) in
  if (65 <=? n) && (n <=? 90) then Some (n - 65)
  else if (97 <=? n) && (n <=? 122) then Some (n - 71)
  else if (48 <=? n) && (n <=? 57) then Some (n + 4)
  else if n =? 43 then Some 62 else if n =? 47 then Some 63 else None.

Definition byte_of (z : Z) : ascii := ascii_of_nat (Z.to_nat (Z.land z 255)).

(** [binascii.a2b_base64] outside its strict mode: characters off the alphabet are skipped, and a complete padding ends
    the data. [left] holds the bits a started quad has left over. *)
Fixpoint a2b_base64 (quad : Z) (left pads : Z) (l : list ascii) : option (list ascii) :=
  match l with
  | [] => if quad =? 0 then Some [] else None
  | c :: t =>
      if is_char 61 c then
        if 2 <=? quad then (if 4 <=? quad + (pads + 1) then Some [] else a2b_base64 quad left (pads + 1) t)
        else a2b_base64 quad left pads t
      else match base64_value c with
           | None => a2b_base64 quad left pads t
           | Some v =>
               if quad =? 0 then a2b_base64 1 v 0 t
               else if quad =? 1 then cons (byte_of (Z.lor (Z.shiftl left 2) (Z.shiftr v 4))) <$> a2b_base64 2 (Z.land v 15) 0 t
               else if quad =? 2 then cons (byte_of (Z.lor (Z.shiftl left 4) (Z.shiftr v 2))) <$> a2b_base64 3 (Z.land v 3) 0 t
               else cons (byte_of (Z.lor (Z.shiftl left 6) v)) <$> a2b_base64 0 0 0 t
           end
  end.

Definition is_ascii (c : ascii) : bool := (nat_of_ascii c <? 128)%nat.

(** [base64.urlsafe_b64decode] of a text *)
Definition urlsafe_b64decode (l : list ascii) : option (list ascii) :=
  if forallb is_ascii l
  then a2b_base64 0 0 0 ((λ c, if is_char 45 c then "+"%char else if is_char 95 c then "/"%char else c) <$> l)
  else None.

(** [bytes.decode("utf-8")] of a text whose code points are below 256 *)
Fixpoint utf8_decode (l : list ascii) : option (list ascii) :=
  match l with
  | [] => Some []
  | c :: t =>
      if is_ascii c then cons c <$> utf8_decode t
      else match t with
           | d :: t' =>
               if in_range 194 195 c && in_range 128 191 d
               then cons (ascii_of_nat ((nat_of_ascii c - 192) * 64 + (nat_of_ascii d - 128))) <$> utf8_decode t'
               else None
           | [] => None
           end
  end.

(** What is read of a token: its [exp] claim. An integer too large for a float escapes as [OverflowError]. *)
Definition token_exp (token : string) : option json :=
  match split_on 46 [] (chars token) with
  | _ :: payload :: _ =>
      let padding := replicate (Z.to_nat ((- Z.of_nat (length payload)) mod 4)) "="%char in
      raw ← urlsafe_b64decode (payload ++ padding);
      decoded ← utf8_decode raw;
      match loads (text decoded) with
      | Ok (JObj claims) => Some (oget "exp" claims)
      | Ok _ => Some JNull
      | Raise _ => None
      end
  | _ => None
  end.

Definition _jwt_exp (token : string) : res (option f64) :=
  match token_exp token with
  | Some exp =>
      match number exp with
      | Some n => finite ← isfinite n;
                  Ok (if finite : bool then Some (match n with inl z => f64_of_Z z | inr x => x end) else None)
      | None => Ok None
      end
  | None => Ok None
  end.

(** * Token review *)

Definition str_in (v : json) (l : list json) : bool := existsb (py_eq v) l.
Definition is_str (v : json) : bool := match v with JStr _ => true | _ => false end.

(** What [_review_remote] makes of the API server's answer. *)
Definition judge (audience : string) (answer : fetched) : res string :=
  match answer with
  | TransportFailed | TooLarge => Raise (AuthUnavailable "TokenReview failed")
  | Answer status body =>
      raise_if negb ((status =? 200) || (status =? 201)) with AuthUnavailable "TokenReview answered HTTP" ;;
      match loads body with
      | Raise _ => Raise (AuthUnavailable "TokenReview answer is not JSON")
      | Ok review =>
          match get "status" review with
          | Some (JObj st) =>
              match oget_default "error" (JStr EmptyString) st with
              | JStr error =>
                  raise_if nonempty error with AuthUnavailable "TokenReview reported an error" ;;
                  match oget_default "authenticated" (JBool false) st, oget_default "audiences" (JArr []) st with
                  | JBool authenticated, JArr audiences =>
                      raise_if negb (forallb is_str audiences)
                        with AuthUnavailable "TokenReview audiences field is malformed" ;;
                      raise_if negb authenticated with Unauthenticated "the token is not authenticated for this service" ;;
                      raise_if negb (str_in (JStr audience) audiences)
                        with Unauthenticated "the token is not for this service's audience" ;;
                      let username := or_default JNull (get "username" (oget "user" st)) in
                      raise_if negb (nonempty_str username) with AuthUnavailable "TokenReview answer has no username" ;;
                      Ok (str_of username)
                  | JBool _, _ => Raise (AuthUnavailable "TokenReview audiences field is malformed")
                  | _, _ => Raise (AuthUnavailable "TokenReview authenticated field is malformed")
                  end
              | _ => Raise (AuthUnavailable "TokenReview error field is malformed")
              end
          | _ => Raise (AuthUnavailable "TokenReview answer has no status")
          end
      end
  end.

(** The document a review posts. *)
Definition review_body (audience token : string) : json :=
  JObj [("apiVersion", JStr "authentication.k8s.io/v1"); ("kind", JStr "TokenReview");
        ("spec", JObj [("token", JStr token); ("audiences", JArr [JStr audience])])].

(** The cache: digest of a token, the subject, when the entry expires; in the order of an [OrderedDict]. *)
Definition cache : Type := list (string * (string * f64)).

Definition move_to_end (key : string) (c : cache) : cache :=
  match dget key c with Some v => ddel key c ++ [(key, v)] | None => c end.

(** [while len(cache) > max_entries: cache.popitem(last=False)] *)
Fixpoint trim (max_entries : Z) (c : cache) : cache :=
  match c with
  | _ :: t => if max_entries <? Z.of_nat (length c) then trim max_entries t else c
  | [] => []
  end.

(** The locked part of [_cached] for an entry that is there, with the clock it reads. *)
Definition lookup_at (key : string) (now : f64) (c : cache) : option string * cache :=
  match dget key c with
  | None => (None, c)
  | Some (username, expires) => if fle expires now then (None, ddel key c) else (Some username, move_to_end key c)
  end.

(** How long a positive answer is kept, and how it is kept. *)
Definition time_to_live (exp wall : f64) : f64 := fmin CACHE_TTL_S (exp ⊖ wall).
Definition remember_entry (max_entries : Z) (key username : string) (expires : f64) (c : cache) : cache :=
  trim max_entries (move_to_end key (dset key (username, expires) c)).

Section reviewer.
Context (config : AuthConfig) (host : string) (max_entries : Z).
Context {X : Type} (own_token : SE X (option string)) (ca_usable : SE X bool) (post : string → string → json → SE X fetched)
  (monotonic wall : SE X f64).
Abbreviation R := (cache * X)%type.

Definition world {A} (m : SE X A) : SE R A := λ w, let '(r, x) := m w.2 in (r, (w.1, x)).
Definition caching {A} (f : cache → A * cache) : SE R A := λ w, let '(a, c) := f w.1 in (Ok a, (c, w.2)).

(** The lock is held from the lookup to the reading of the clock and the change of the cache. *)
Definition _cached (key : string) : SE R (option string) :=
  w ← sget;
  match dget key w.1 with
  | None => mret None
  | Some _ => now ← world monotonic; caching (lookup_at key now)
  end.

Definition _remember (key username token : string) : SE R () :=
  exp ← lift (_jwt_exp token);
  match exp with
  | None => mret ()
  | Some exp =>
      now ← world wall;
      let ttl := time_to_live exp now in
      if fle ttl f0 then mret ()
      else t ← world monotonic; caching (λ c, ((), remember_entry max_entries key username (t ⊕ ttl) c))
  end.

Definition _review_remote (token : string) : SE R string :=
  raise_if bool_decide (host = EmptyString) with AuthUnavailable "not running in a cluster" ;;
  own ← world own_token;
  match own with
  | None => mthrow (AuthUnavailable "own service account token unreadable")
  | Some own =>
      usable ← world ca_usable;
      raise_if negb usable with AuthUnavailable "TokenReview CA is unreadable or invalid" ;;
      answer ← world (post (host +:+ "/apis/authentication.k8s.io/v1/tokenreviews") own (review_body (ac_audience config) token));
      lift (judge (ac_audience config) answer)
  end.

Definition review (token : string) (allowed : gset string) : SE R string :=
  let key := sha256_hex (utf8 token) in
  hit ← _cached key;
  username ← match hit with
             | Some u => mret u
             | None => u ← _review_remote token;
                       _ ← (if bool_decide (u ∈ allowed) then _remember key u token else mret ());
                       mret u
             end;
  raise_if negb (bool_decide (username ∈ allowed)) with Forbidden "the caller may not call this endpoint" ;;
  mret username.
End reviewer.

(** * The middleware *)

Record Scope := {
  sc_type : string; sc_path : string; sc_scheme : string; sc_headers : list (string * string);
  sc_subject : option string;                    (* state["auth_subject"] *)
}.

(** What [receive] gives. *)
Inductive incoming :=
| Disconnect
| Body (chunk : string) (more_body : bool).

(** What a request comes to: a refused websocket, an answer of the middleware, nothing (the caller left, or its body has
    not arrived yet), or the app, on the scope and the body it is given. An open path's body is read by the app itself. *)
Inductive action :=
| CloseWebsocket
| Respond (status : Z) (error message : string) (challenge : bool)
| Gone
| Waiting
| CallApp (scope : Scope) (body : option string).

Definition ascii_lower (s : string) : string := str_lower s.

Definition with_subject (u : string) (s : Scope) : Scope := {|
  sc_type := sc_type s; sc_path := sc_path s; sc_scheme := sc_scheme s; sc_headers := sc_headers s; sc_subject := Some u |}.

(** The body through its cap: the chunks read so far, joined, and their size. *)
Fixpoint read_body (max_body : Z) (acc : string) (size : Z) (ms : list incoming) : string + action :=
  match ms with
  | [] => inr Waiting
  | Disconnect :: _ => inr Gone
  | Body chunk more :: ms =>
      let size := size + Z.of_nat (String.length chunk) in
      if max_body <? size then inr (Respond 413 "BodyTooLarge" "the request body exceeds the limit" false)
      else if more then read_body max_body (acc +:+ chunk) size ms else inl (acc +:+ chunk)
  end.

(** The bearer token of the headers, or the middleware's refusal. *)
Definition bearer (headers : list (string * string)) : string + action :=
  match filter (λ kv : string * string, ascii_lower kv.1 = "authorization") headers with
  | [(_, value)] =>
      match strip_prefix (chars "Bearer ") (chars value) with
      | Some token =>
          if (MAX_BEARER <? Z.of_nat (String.length value)) || (length token =? 0)%nat || negb (forallb is_ascii token)
          then inr (Respond 401 "Unauthenticated" "a bearer token is required" true)
          else inl (text token)
      | None => inr (Respond 401 "Unauthenticated" "a bearer token is required" true)
      end
  | _ => inr (Respond 401 "Unauthenticated" "exactly one Authorization header is required" true)
  end.

Section middleware.
Context {W : Type} (config : AuthConfig) (max_body : Z) (authenticate : string → gset string → SE W string).

Definition refusal (e : exn) : option action :=
  match e with
  | Unauthenticated m => Some (Respond 401 "Unauthenticated" m true)
  | Forbidden _ => Some (Respond 403 "Forbidden" "this caller may not use this endpoint" false)
  | AuthUnavailable _ => Some (Respond 503 "AuthUnavailable" "authentication is temporarily unavailable" false)
  | _ => None
  end.

(** [AuthMiddleware.__call__], up to the call of the app. *)
Definition admit_request (scope : Scope) (ms : list incoming) : SE W action :=
  if bool_decide (sc_type scope = "websocket") then mret CloseWebsocket else
  if negb (bool_decide (sc_type scope = "http")) || bool_decide (sc_path scope ∈ ac_open_paths config)
  then mret (CallApp scope None) else
  if negb (bool_decide (sc_scheme scope = "https")) && negb (ac_allow_plaintext config)
  then mret (Respond 500 "TLSRequired" "authentication is served only over TLS" false) else
  match bearer (sc_headers scope) with
  | inr a => mret a
  | inl token =>
      let allowed := if bool_decide (sc_path scope = "/metrics") then ac_metrics_subjects config else ac_subjects config in
      λ w, match authenticate token allowed w with
           | (Ok subject, w') =>
               (Ok match read_body max_body EmptyString 0 ms with
                   | inl body => CallApp (with_subject subject scope) (Some body)
                   | inr a => a
                   end, w')
           | (Raise e, w') => match refusal e with Some a => (Ok a, w') | None => (Raise e, w') end
           end
  end.
End middleware.
