(* ===== verification/AuthSafety.v ===== *)
(** What authentication guarantees: reviews running side by side over one cache, in every interleaving, answer only with a
    subject the API server vouched for and never from an expired entry; and the app is reached only on an open path or by a
    configured subject, whatever the headers, the body and the API server's answers are. *)
From Stdlib Require Import Ascii.
From stdpp Require Import gmap relations.
From S2P Require Import Prelude Float64 Sha256 Json History Identity Auth.

(** * The cache *)

Definition token_key (token : string) : string := sha256_hex (utf8 token).

#[local] Opaque token_key.

Lemma trim_suffix n c : trim n c `suffix_of` c.
Proof.
  induction c as [|kv t IH]; [done|]. cbn [trim]. destruct (_ <? _); [|done].
  etrans; [apply IH|]. by exists [kv].
Qed.

Lemma trim_length n c : 0 ≤ n → Z.of_nat (length (trim n c)) ≤ n.
Proof. intros Hn. induction c as [|kv t IH]; [done|]. cbn [trim]. destruct (_ <? _) eqn:E; [done|]. bool_prop. lia. Qed.

Lemma move_to_end_perm key c : NoDup c.*1 → move_to_end key c ≡ₚ c.
Proof.
  intros Hn. unfold move_to_end. destruct (dget key c) as [v|] eqn:Hv; [|done]. apply dget_elem_of in Hv.
  apply elem_of_Permutation in Hv as [c' Hc]. rewrite Hc in Hn. cbn in Hn. apply NoDup_cons in Hn as [Hk _].
  unfold ddel. rewrite Hc at 1. rewrite filter_cons, decide_False by (cbn; tauto). rewrite Hc.
  rewrite Permutation_app_comm. cbn. f_equiv. rewrite filter_true; [done|].
  apply Forall_forall. intros [k w] Hin E. cbn in E. subst k. apply Hk. apply list_elem_of_fmap. by exists (key, w).
Qed.

(** A cache: one entry per token, never more than the limit. *)
Definition cache_ok (n : Z) (c : cache) : Prop := NoDup c.*1 ∧ Z.of_nat (length c) ≤ n.

Lemma suffix_keys (c c' : cache) : c' `suffix_of` c → NoDup c.*1 → NoDup c'.*1.
Proof. intros [l ->]. rewrite fmap_app. intros (_ & _ & ?)%NoDup_app. done. Qed.

Lemma remember_ok n key u e c : 0 ≤ n → cache_ok n c → cache_ok n (remember_entry n key u e c).
Proof.
  intros Hn [Hk Hl]. split; [|by apply trim_length]. eapply suffix_keys; [apply trim_suffix|].
  rewrite move_to_end_perm; by apply dset_NoDup.
Qed.

Lemma remember_elem n key u e c kv : NoDup c.*1 → kv ∈ remember_entry n key u e c → kv = (key, (u, e)) ∨ kv ∈ c.
Proof.
  intros Hk H. destruct (trim_suffix n (move_to_end key (dset key (u, e) c))) as [l E]. assert (kv ∈ dset key (u, e) c) as Hin.
  { rewrite <-(move_to_end_perm key) by by apply dset_NoDup. rewrite E. apply elem_of_app. by right. }
  destruct kv as [k v]. apply elem_of_dset in Hin. naive_solver.
Qed.

Lemma lookup_ok n key now c : cache_ok n c → cache_ok n (lookup_at key now c).2 ∧ (lookup_at key now c).2 ⊆ c.
Proof.
  intros [Hk Hl]. unfold lookup_at. destruct (dget key c) as [[u e]|]; [|done]. destruct (fle e now); cbn.
  - unfold ddel. split; [split|].
    + by apply filter_keys_NoDup.
    + etrans; [|exact Hl]. apply Nat2Z.inj_le. apply length_filter.
    + intros x Hx. by apply list_elem_of_filter in Hx as [_ ?].
  - split; [split|]; rewrite move_to_end_perm; done.
Qed.

(** * Reviews side by side

    Each request's review runs on a thread of its own; the cache's lock makes the lookup one step and the storing another,
    and between them the thread waits for the API server. The log is the model's own: what was answered, stored and served,
    with the clock. *)

Inductive phase :=
| Arrived
| Missed
| Accepted (username : string)
| Done (at_ : f64) (r : res string).

Record job := Job { jb_token : string; jb_allowed : gset string; jb_phase : phase }.

Inductive event :=
| Reviewed (token username : string) (answer : fetched) (at_ : f64)
| Stored (token username : string) (exp wall at_ : f64)
| Served (token username : string) (at_ : f64).

Record reviews := { rv_cache : cache; rv_jobs : list job; rv_now : f64; rv_log : list event }.

Definition no_reviews (now : f64) : reviews := {| rv_cache := []; rv_jobs := []; rv_now := now; rv_log := [] |}.

Definition verdict (u : string) (allowed : gset string) : res string :=
  if bool_decide (u ∈ allowed) then Ok u else Raise (Forbidden "the caller may not call this endpoint").

Definition at_time (now : f64) (s : reviews) : reviews :=
  {| rv_cache := rv_cache s; rv_jobs := rv_jobs s; rv_now := now; rv_log := rv_log s |}.
Definition arrive (token : string) (allowed : gset string) (s : reviews) : reviews :=
  {| rv_cache := rv_cache s; rv_jobs := rv_jobs s ++ [Job token allowed Arrived]; rv_now := rv_now s; rv_log := rv_log s |}.
Definition advance (c : cache) (i : nat) (j : job) (es : list event) (s : reviews) : reviews :=
  {| rv_cache := c; rv_jobs := <[i := j]> (rv_jobs s); rv_now := rv_now s; rv_log := es ++ rv_log s |}.

Section steps.
Context (audience : string) (n : Z).

Inductive step (s : reviews) : reviews → Prop :=
| step_tick now : fle (rv_now s) now = true → is_finite now = true →
    step s (at_time now s)
| step_arrive token allowed : step s (arrive token allowed s)
| step_hit i token allowed u c : rv_jobs s !! i = Some (Job token allowed Arrived) →
    lookup_at (token_key token) (rv_now s) (rv_cache s) = (Some u, c) →
    step s (advance c i (Job token allowed (Done (rv_now s) (verdict u allowed))) [Served token u (rv_now s)] s)
| step_miss i token allowed c : rv_jobs s !! i = Some (Job token allowed Arrived) →
    lookup_at (token_key token) (rv_now s) (rv_cache s) = (None, c) →
    step s (advance c i (Job token allowed Missed) [] s)
| step_answer i token allowed answer u : rv_jobs s !! i = Some (Job token allowed Missed) → judge audience answer = Ok u →
    step s (advance (rv_cache s) i
              (Job token allowed (if bool_decide (u ∈ allowed) then Accepted u else Done (rv_now s) (verdict u allowed)))
              [Reviewed token u answer (rv_now s)] s)
| step_fail i token allowed e : rv_jobs s !! i = Some (Job token allowed Missed) →
    (∃ answer, judge audience answer = Raise e) ∨ (∃ m, e = AuthUnavailable m) →
    step s (advance (rv_cache s) i (Job token allowed (Done (rv_now s) (Raise e))) [] s)
| step_store i token allowed u exp wall : rv_jobs s !! i = Some (Job token allowed (Accepted u)) →
    _jwt_exp token = Ok (Some exp) → is_finite wall = true → fle (time_to_live exp wall) f0 = false →
    step s (advance (remember_entry n (token_key token) u (rv_now s ⊕ time_to_live exp wall) (rv_cache s)) i
              (Job token allowed (Done (rv_now s) (Ok u))) [Stored token u exp wall (rv_now s)] s)
| step_keep i token allowed u r : rv_jobs s !! i = Some (Job token allowed (Accepted u)) →
    (_jwt_exp token = Ok None ∧ r = Ok u) ∨
    (∃ exp wall, _jwt_exp token = Ok (Some exp) ∧ fle (time_to_live exp wall) f0 = true ∧ r = Ok u) ∨
    (∃ e, _jwt_exp token = Raise e ∧ r = Raise e) →
    step s (advance (rv_cache s) i (Job token allowed (Done (rv_now s) r)) [] s).

(** ** What every reachable state satisfies *)

(** A positive answer behind an entry: the API server named this subject for a token of the same digest, and that token's
    own expiry and the limit of a minute cut the entry's life. *)
Definition vouched (log : list event) (key u : string) (upto : f64) (expires : option f64) : Prop :=
  ∃ token answer t, token_key token = key ∧ Reviewed token u answer t ∈ log ∧ judge audience answer = Ok u ∧
    match expires with
    | None => fle t upto = true
    | Some e => ∃ exp wall t0, _jwt_exp token = Ok (Some exp) ∧ Stored token u exp wall t0 ∈ log ∧ fle t t0 = true ∧
                  fle t0 upto = true ∧ is_finite t0 = true ∧ is_finite wall = true ∧
                  fle (time_to_live exp wall) f0 = false ∧ e = t0 ⊕ time_to_live exp wall
    end.

Definition job_ok (now : f64) (log : list event) (j : job) : Prop :=
  match jb_phase j with
  | Accepted u => u ∈ jb_allowed j ∧ ∃ answer t, Reviewed (jb_token j) u answer t ∈ log ∧ judge audience answer = Ok u ∧ fle t now = true
  | Done at_ (Ok u) =>
      u ∈ jb_allowed j ∧
      ((∃ answer t, Reviewed (jb_token j) u answer t ∈ log ∧ judge audience answer = Ok u ∧ fle t at_ = true) ∨
       ∃ e, vouched log (token_key (jb_token j)) u at_ (Some e) ∧ fle e at_ = false)
  | _ => True
  end.

Record reviews_ok (s : reviews) : Prop := {
  ro_cache : cache_ok n (rv_cache s);
  ro_now : is_finite (rv_now s) = true;
  ro_entries : ∀ k u e, (k, (u, e)) ∈ rv_cache s → vouched (rv_log s) k u (rv_now s) (Some e);
  ro_jobs : Forall (job_ok (rv_now s) (rv_log s)) (rv_jobs s);
}.

Lemma vouched_mono log log' key u t t' e : log ⊆ log' → fle t t' = true → vouched log key u t e → vouched log' key u t' e.
Proof.
  intros Hl Ht (token & answer & t1 & Hk & Hr & Hj & He). exists token, answer, t1. repeat split; auto.
  destruct e as [e|]; [|by eapply fle_trans]. destruct He as (exp & wall & t0 & ? & ? & ? & ? & ?).
  exists exp, wall, t0. repeat split; auto; [by eapply fle_trans|tauto..].
Qed.

Lemma job_ok_mono now now' log log' j : log ⊆ log' → fle now now' = true → job_ok now log j → job_ok now' log' j.
Proof.
  intros Hl Ht. unfold job_ok. destruct (jb_phase j) as [| |u|at_ [u|e]]; try done.
  - intros (? & a & t & ? & ? & ?). split; [done|]. exists a, t. repeat split; auto. by eapply fle_trans.
  - intros [? [(a & t & ? & ? & ?)|(e & Hv & ?)]]; (split; [done|]); [left; exists a, t; auto|right].
    exists e. split; [|done]. eapply vouched_mono; [exact Hl| |exact Hv]. destruct Hv as (? & ? & ? & ? & ? & ? & ? & ? & t0 & Hv).
    destruct Hv as (_ & _ & _ & Hv & _). by apply fle_refl, (fle_nan_r _ _ Hv).
Qed.

Lemma now_refl s : reviews_ok s → fle (rv_now s) (rv_now s) = true.
Proof. intros H. apply fle_refl, finite_not_nan, H. Qed.

(** A step of one job that leaves the clock. *)
Lemma advance_ok s c i j es : reviews_ok s → cache_ok n c →
  (∀ k u e, (k, (u, e)) ∈ c → vouched (es ++ rv_log s) k u (rv_now s) (Some e)) →
  job_ok (rv_now s) (es ++ rv_log s) j → reviews_ok (advance c i j es s).
Proof.
  intros Hok Hc He Hj. split; cbn; [done|apply Hok|done|]. apply Forall_insert; [|done].
  eapply Forall_impl; [apply Hok|]. intros j' Hj'. eapply job_ok_mono; [|by apply now_refl|exact Hj'].
  intros x Hx. apply elem_of_app. by right.
Qed.

Lemma kept_entries s (c : cache) es : reviews_ok s → c ⊆ rv_cache s →
  ∀ k u e, (k, (u, e)) ∈ c → vouched (es ++ rv_log s) k u (rv_now s) (Some e).
Proof.
  intros Hok Hc k u e Hin. eapply vouched_mono; [|by apply now_refl|apply (ro_entries _ Hok), Hc, Hin].
  intros x Hx. apply elem_of_app. by right.
Qed.

Lemma lookup_kept s key o c : reviews_ok s → lookup_at key (rv_now s) (rv_cache s) = (o, c) → cache_ok n c ∧ c ⊆ rv_cache s.
Proof. intros Hok Hl. pose proof (lookup_ok n key (rv_now s) (rv_cache s) (ro_cache _ Hok)) as H. by rewrite Hl in H. Qed.

Lemma hit_entry key now c u c' : lookup_at key now c = (Some u, c') → ∃ e, (key, (u, e)) ∈ c ∧ fle e now = false.
Proof.
  unfold lookup_at. destruct (dget key c) as [[u' e]|] eqn:E; [|done]. destruct (fle e now) eqn:F; [done|].
  intros [= <- _]. exists e. split; [by apply dget_elem_of|done].
Qed.

Lemma review_step_ok s s' : 0 ≤ n → reviews_ok s → step s s' → reviews_ok s'.
Proof.
  intros Hn Hok Hs. pose proof (now_refl s Hok) as Hr.
  destruct Hs as [now Hle Hf|token allowed|i token allowed u c Hj Hl|i token allowed c Hj Hl|i token allowed answer u Hj Ha
                 |i token allowed e Hj _|i token allowed u exp wall Hj He Hw Ht|i token allowed u r Hj Hor].
  - split; cbn; [apply Hok|done| |].
    + intros k u e Hin. eapply vouched_mono; [done|exact Hle|by apply Hok].
    + eapply Forall_impl; [apply Hok|]. intros j Hj. by eapply job_ok_mono.
  - split; cbn; [apply Hok..|]. apply Forall_app_2; [apply Hok|]. by repeat constructor.
  - destruct (lookup_kept _ _ _ _ Hok Hl) as [Hc Hsub].
    apply advance_ok; [done|done|by apply kept_entries|]. unfold job_ok, verdict. cbn. case_bool_decide; [|done]. split; [done|right].
    apply hit_entry in Hl as (e & Hin & He). exists e. split; [|done]. by apply (kept_entries s (rv_cache s) [_]).
  - destruct (lookup_kept _ _ _ _ Hok Hl) as [Hc Hsub].
    apply advance_ok; [done|done|by apply (kept_entries s c [])|done].
  - apply advance_ok; [done|apply Hok|by apply kept_entries|]. unfold job_ok, verdict. cbn. case_bool_decide; cbn; [|done].
    split; [done|]. exists answer, (rv_now s). repeat split; [left|done..].
  - apply advance_ok; [done|apply Hok|by apply (kept_entries s _ [])|done].
  - pose proof (proj1 (Forall_lookup _ _) (ro_jobs _ Hok) _ _ Hj) as Hjob. cbn in Hjob. destruct Hjob as (Hin & answer & t & Hrev & Hjd & Htl).
    apply advance_ok; [done|by apply remember_ok, Hok| |].
    + intros k u' e' Hin'. apply remember_elem in Hin' as [[= -> -> ->]|Hin']; [|by apply (kept_entries s (rv_cache s) [_])|apply Hok].
      exists token, answer, t. split; [done|]. split; [by right|]. split; [done|].
      exists exp, wall, (rv_now s). repeat split; try done; [left|apply Hok].
    + split; [done|left]. exists answer, t. repeat split; [by right|done..].
  - pose proof (proj1 (Forall_lookup _ _) (ro_jobs _ Hok) _ _ Hj) as Hjob. cbn in Hjob. destruct Hjob as (Hin & answer & t & Hrev & Hjd & Htl).
    apply advance_ok; [done|apply Hok|by apply (kept_entries s _ [])|]. destruct Hor as [[_ ->]|[(? & ? & _ & _ & ->)|(e & _ & ->)]]; [| |done];
      (split; [done|left]; by exists answer, t).
Qed.
Lemma no_reviews_ok now : 0 ≤ n → is_finite now = true → reviews_ok (no_reviews now).
Proof. intros Hn Hf. split; cbn; [by repeat split; try constructor|done| |constructor]. intros k u e H. by apply elem_of_nil in H. Qed.
End steps.

(** An entry's life is at most a minute, and its end is a number. *)
Lemma time_to_live_max exp wall : fle (time_to_live exp wall) CACHE_TTL_S = true.
Proof. unfold time_to_live, fmin. destruct (_ <ᶠ _) eqn:E; [by apply flt_le|by apply fle_refl]. Qed.

Lemma positive_bounded_finite x : is_nan x = false → fle x f0 = false → flt x CACHE_TTL_S = true → is_finite x = true.
Proof. destruct x as [b|[]| |b m e]; done. Qed.

Lemma expires_number t exp wall : is_finite t = true → fle (time_to_live exp wall) f0 = false →
  is_nan (t ⊕ time_to_live exp wall) = false.
Proof.
  intros Ht Hp. apply fadd_not_nan; [done|]. unfold time_to_live, fmin in *. destruct (_ <ᶠ _) eqn:E; [|done].
  apply positive_bounded_finite; [|done|done]. by apply flt_key in E as [E _].
Qed.

(** C18: However many reviews run side by side, and whatever the API server and the clocks answer: the cache keeps at most
    its limit, with one entry per token; and a review that answers with a subject answers with an allowed one, which the API
    server named for this very token during this review, or for a token of the same SHA-256 digest whose review was stored
    and whose entry, cut to a minute and to the token's own expiry, has not expired at the moment it is served. *)
Theorem reviews_sound audience n now s : 0 ≤ n → is_finite now = true → rtc (step audience n) (no_reviews now) s →
  NoDup (rv_cache s).*1 ∧ Z.of_nat (length (rv_cache s)) ≤ n ∧
  ∀ token allowed at_ u, Job token allowed (Done at_ (Ok u)) ∈ rv_jobs s →
    u ∈ allowed ∧
    ∃ token' answer t, token_key token' = token_key token ∧ Reviewed token' u answer t ∈ rv_log s ∧ judge audience answer = Ok u ∧
      fle t at_ = true ∧
      (token' = token ∨
       ∃ exp wall stored, _jwt_exp token' = Ok (Some exp) ∧ Stored token' u exp wall stored ∈ rv_log s ∧ fle t stored = true ∧
         fle stored at_ = true ∧ flt at_ (stored ⊕ time_to_live exp wall) = true ∧
         fle (time_to_live exp wall) CACHE_TTL_S = true).
Proof.
  intros Hn Hf Hs. assert (reviews_ok audience n s) as Hok.
  { apply (rtc_ind_r (reviews_ok audience n)) in Hs; [done|by apply no_reviews_ok|]. intros y z _ Hyz Hy. by eapply review_step_ok. }
  split; [apply Hok|]. split; [apply Hok|]. intros token allowed at_ u Hin.
  pose proof (proj1 (Forall_forall _ _) (ro_jobs _ _ _ Hok) _ Hin) as (Hu & Hor). cbn in Hu, Hor. split; [done|].
  destruct Hor as [(a & t & ? & ? & ?)|(e & (token' & a & t & Hk & Hr & Hj & exp & wall & t0 & H1 & H2 & H3 & H4 & H5 & H6 & H7 & ->) & He)].
  - exists token, a, t. auto 10.
  - exists token', a, t. repeat split; [done..|by eapply fle_trans|right].
    exists exp, wall, t0. repeat split; try done; [|apply time_to_live_max].
    rewrite flt_not_le, He; [done|by eapply fle_nan_r|by apply expires_number].
Qed.

(** * One review is a path of those steps

    The world outside keeps a time, which no exchange with it turns back; [monotonic] answers it. *)
Section runs.
Context (config : AuthConfig) (host : string) (n : Z).
Context {X : Type} (own_token : SE X (option string)) (ca_usable : SE X bool) (post : string → string → json → SE X fetched)
  (monotonic wall : SE X f64) (time : X → f64).

Definition later (x x' : X) : Prop := fle (time x) (time x') = true ∧ is_finite (time x') = true.

Context (Hown : ∀ x, ∃ o x', own_token x = (Ok o, x') ∧ later x x') (Hca : ∀ x, ∃ b x', ca_usable x = (Ok b, x') ∧ later x x')
  (Hpost : ∀ u o b x, ∃ a x', post u o b x = (Ok a, x') ∧ later x x')
  (Hmono : ∀ x, ∃ x', monotonic x = (Ok (time x'), x') ∧ later x x')
  (Hwall : ∀ x, ∃ w x', wall x = (Ok w, x') ∧ is_finite w = true ∧ later x x').

Abbreviation steps := (rtc (step (ac_audience config) n)).

(** The job of this review, started in [s0], has come to [ph] while the cache is [c] and the world [x]. *)
Definition stands (s0 : reviews) (token : string) (allowed : gset string) (ph : phase) (c : cache) (x : X) : Prop :=
  ∃ s, steps (arrive token allowed s0) s ∧ rv_jobs s = rv_jobs s0 ++ [Job token allowed ph] ∧ rv_cache s = c ∧ rv_now s = time x.

Lemma stands_later s0 token allowed ph c x x' : stands s0 token allowed ph c x → later x x' → stands s0 token allowed ph c x'.
Proof.
  intros (s & H1 & H2 & H3 & H4) [Hle Hf]. exists (at_time (time x') s). split; [|done]. eapply rtc_r; [exact H1|].
  apply step_tick; [by rewrite H4|done].
Qed.

Lemma stands_step s0 token allowed ph c x ph' c' :
  stands s0 token allowed ph c x →
  (∀ s i, rv_jobs s !! i = Some (Job token allowed ph) → rv_cache s = c → rv_now s = time x →
     ∃ es, step (ac_audience config) n s (advance c' i (Job token allowed ph') es s)) →
  stands s0 token allowed ph' c' x.
Proof.
  intros (s & H1 & H2 & H3 & H4) Hs. destruct (Hs s (length (rv_jobs s0))) as [es He]; [|done..|].
  { by rewrite H2, list_lookup_middle. }
  exists (advance c' (length (rv_jobs s0)) (Job token allowed ph') es s). split; [by eapply rtc_r|]. cbn. rewrite H2.
  by rewrite insert_app_r_alt, Nat.sub_diag.
Qed.

Lemma lookup_runs s0 token allowed c x : stands s0 token allowed Arrived c x →
  ∃ o c' x', _cached monotonic (token_key token) (c, x) = (Ok o, (c', x')) ∧
    stands s0 token allowed (match o with Some u => Done (time x') (verdict u allowed) | None => Missed end) c' x'.
Proof.
  intros Hs. unfold _cached. rewrite se_bind_eq. cbn [sget fst]. destruct (dget (token_key token) c) as [v|] eqn:Hd.
  - destruct (Hmono x) as (x' & Hx & Hl). rewrite se_bind_eq. unfold world at 1. cbn [snd fst]. rewrite Hx. unfold caching. cbn [fst snd].
    destruct (lookup_at (token_key token) (time x') c) as [o c'] eqn:El. exists o, c', x'. split; [done|].
    eapply stands_step; [by eapply stands_later|]. intros s i Hi Hc Ht. rewrite <-Hc, <-Ht in El. rewrite <-Ht. destruct o as [u|].
    + eexists. by apply step_hit.
    + eexists. by apply step_miss.
  - exists None, c, x. split; [done|]. eapply stands_step; [exact Hs|]. intros s i Hi Hc Ht. eexists. apply step_miss; [done|].
    unfold lookup_at. by rewrite Hc, Hd.
Qed.

Definition judged (allowed : gset string) (now : f64) (r : res string) : phase :=
  match r with
  | Ok u => if bool_decide (u ∈ allowed) then Accepted u else Done now (verdict u allowed)
  | Raise e => Done now (Raise e)
  end.

Lemma remote_runs s0 token allowed c x : stands s0 token allowed Missed c x →
  ∃ r x', _review_remote config host own_token ca_usable post token (c, x) = (r, (c, x')) ∧
    stands s0 token allowed (judged allowed (time x') r) c x'.
Proof.
  intros Hs. assert (∀ m x', stands s0 token allowed Missed c x' →
    stands s0 token allowed (judged allowed (time x') (Raise (AuthUnavailable m))) c x') as Hfail.
  { intros m x' H. eapply stands_step; [exact H|]. intros s i Hi Hc Ht. exists []. rewrite <-Ht, <-Hc. apply step_fail; eauto. }
  unfold _review_remote. case_bool_decide; [eexists _, _; split; [done|by apply Hfail]|].
  destruct (Hown x) as (o & x1 & E1 & L1). rewrite se_bind_eq. unfold world at 1. cbn [snd fst]. rewrite E1.
  apply stands_later with (x' := x1) in Hs; [|done].
  destruct o as [own|]; [|eexists _, _; split; [done|by apply Hfail]].
  destruct (Hca x1) as (b & x2 & E2 & L2). rewrite se_bind_eq. unfold world at 1. cbn [snd fst]. rewrite E2.
  apply stands_later with (x' := x2) in Hs; [|done].
  destruct b; cbn [negb]; [|eexists _, _; split; [done|by apply Hfail]].
  rewrite se_bind_eq. unfold world at 1. cbn [snd fst].
  match goal with |- context [post ?u ?o ?b x2] => destruct (Hpost u o b x2) as (a & x3 & E3 & L3) end. rewrite E3.
  apply stands_later with (x' := x3) in Hs; [|done]. cbn [fst snd]. eexists _, _. split; [reflexivity|].
  eapply stands_step; [exact Hs|]. intros s i Hi Hc Ht. rewrite <-Hc, <-Ht. destruct (judge _ a) as [u|e] eqn:Ej; eexists.
  - by eapply step_answer.
  - apply step_fail; eauto.
Qed.

Lemma remember_runs s0 token allowed u c x : stands s0 token allowed (Accepted u) c x →
  ∃ r c' x', _remember n monotonic wall (token_key token) u token (c, x) = (r, (c', x')) ∧
    stands s0 token allowed (Done (time x') (_ ← r; Ok u)) c' x'.
Proof.
  intros Hs. unfold _remember. rewrite se_bind_eq. unfold lift. destruct (_jwt_exp token) as [[exp|]|e] eqn:He.
  - destruct (Hwall x) as (w & x1 & E1 & Fw & L1). rewrite se_bind_eq. unfold world at 1. cbn [snd fst]. rewrite E1.
    apply stands_later with (x' := x1) in Hs; [|done]. destruct (fle (time_to_live exp w) f0) eqn:Hp.
    + cbn [fst snd]. eexists _, _, _. split; [reflexivity|]. cbn [fst snd]. eapply stands_step; [exact Hs|]. intros s i Hi Hc Ht. rewrite <-Hc, <-Ht. eexists.
      eapply step_keep; [done|]. right. left. eauto.
    + destruct (Hmono x1) as (x2 & E2 & L2). rewrite se_bind_eq. unfold world at 1. cbn [snd fst]. rewrite E2.
      apply stands_later with (x' := x2) in Hs; [|done]. cbn [fst snd]. eexists _, _, _. split; [reflexivity|]. cbn [fst snd]. eapply stands_step; [exact Hs|].
      intros s i Hi Hc Ht. rewrite <-Hc, <-Ht. eexists. by apply step_store.
  - cbn [fst snd]. eexists _, _, _. split; [reflexivity|]. cbn [fst snd]. eapply stands_step; [exact Hs|]. intros s i Hi Hc Ht. rewrite <-Hc, <-Ht. eexists.
    eapply step_keep; [done|]. by left.
  - cbn [fst snd]. eexists _, _, _. split; [reflexivity|]. cbn [fst snd]. eapply stands_step; [exact Hs|]. intros s i Hi Hc Ht. rewrite <-Hc, <-Ht. eexists.
    eapply step_keep; [done|]. right. right. eauto.
Qed.

(** A review run on its own is a path of the interleaved system: from its arrival to its answer, with the same answer
    and the same cache. *)
Theorem review_runs token allowed s0 c x : rv_cache s0 = c → rv_now s0 = time x →
  ∃ r c' x', review config host n own_token ca_usable post monotonic wall token allowed (c, x) = (r, (c', x')) ∧
    stands s0 token allowed (Done (time x') r) c' x'.
Proof.
  intros Hc Ht. assert (stands s0 token allowed Arrived c x) as H0 by (exists (arrive token allowed s0); by split; [apply rtc_refl|]).
  unfold review. change (sha256_hex (utf8 token)) with (token_key token). destruct (lookup_runs _ _ _ _ _ H0) as ([u|] & c1 & x1 & E1 & H1); rewrite se_bind_eq, E1.
  - rewrite se_bind_eq. cbn. unfold verdict in H1. destruct (bool_decide (u ∈ allowed)); (eexists _, _, _; split; [reflexivity|exact H1]).
  - rewrite se_bind_eq, se_bind_eq. destruct (remote_runs _ _ _ _ _ H1) as ([u|e] & x2 & E2 & H2); rewrite E2; [|(eexists _, _, _; split; [reflexivity|exact H2])].
    cbn [judged] in H2. unfold verdict in H2. rewrite se_bind_eq. destruct (bool_decide (u ∈ allowed)) eqn:Hin; [|cbn; rewrite Hin; (eexists _, _, _; split; [reflexivity|exact H2])].
    destruct (remember_runs _ _ _ _ _ _ H2) as ([[]|e] & c3 & x3 & E3 & H3); rewrite E3; cbn; [rewrite Hin|]; (eexists _, _, _; split; [reflexivity|exact H3]).
Qed.
End runs.

(** * Who reaches the app

    What the middleware needs of a reviewer: a subject it names is an allowed one. *)
Class Authenticator {W} (authenticate : string → gset string → SE W string) : Prop :=
  authenticate_allowed token allowed w u w' : authenticate token allowed w = (Ok u, w') → u ∈ allowed.

#[export] Instance review_authenticator {X} config host n own_token ca_usable post (monotonic wall : SE X f64) :
  Authenticator (review config host n own_token ca_usable post monotonic wall).
Proof.
  intros token allowed w u w' H. unfold review in H. ok_inv H. cbn in H. injection H as <- _. by bool_prop.
Qed.

Lemma subjects_text raw ss : _subjects raw = Ok ss → ∀ u, u ∈ ss → subject_text u = true.
Proof.
  unfold _subjects. intros H. ok_inv H. subst ss. bool_prop. intros u Hu. apply elem_of_list_to_set in Hu.
  match goal with E : forallb _ _ = true |- _ => rewrite forallb_forall in E; apply E, list_elem_of_In, Hu end.
Qed.

(** What an accepted configuration with authentication is. *)
Record guarded (isfile : string → bool) (c : AuthConfig) : Prop := {
  gd_subjects : ac_subjects c ≠ ∅;
  gd_accounts : ∀ u, u ∈ ac_subjects c ∪ ac_metrics_subjects c → subject_text u = true;
  gd_open : ∀ p, p ∈ ac_open_paths c ↔ p = "/health" ∨ p = "/ready" ∨ p = "/metrics" ∧ ac_metrics_subjects c = ∅;
  gd_tls : ac_allow_plaintext c = true ∨ ∃ cert key, isfile cert = true ∧ isfile key = true;
}.

Lemma config_guarded isfile env c : config_from_env isfile env = Ok c → enabled c = true → guarded isfile c.
Proof.
  unfold config_from_env. case_bool_decide; [by intros [= <-]|]. intros H' _. ok_inv H'. subst c. bool_prop.
  match goal with E : _subjects _ = Ok ?s, F : _subjects _ = Ok ?t |- _ =>
    pose proof (subjects_text _ _ E) as Hs; pose proof (subjects_text _ _ F) as Ht end.
  split; cbn.
  - done.
  - intros u [Hu|Hu]%elem_of_union; [by auto|]. destruct (env_true _ _); [by auto|set_solver].
  - intros p. destruct (env_true "FORECASTER_AUTH_METRICS" env); cbn in *; [|set_solver].
    match goal with E : bool_decide (_ = ∅) = false |- _ => apply bool_decide_eq_false in E end. set_solver.
  - destruct (env_true "FORECASTER_AUTH_ALLOW_PLAINTEXT" env); [by left|right].
    match goal with E : negb false && negb _ = false |- _ => cbn [negb andb] in E; bool_prop end. eauto.
Qed.

(** The chunks of a body, joined. *)
Definition joined (cs : list string) : string := foldr String.append EmptyString cs.

Lemma read_body_spec m ms : ∀ acc size body, read_body m acc size ms = inl body → size = Z.of_nat (String.length acc) →
  Z.of_nat (String.length body) ≤ m ∧
  ∃ cs last rest, ms = ((λ c, Body c true) <$> cs) ++ Body last false :: rest ∧ body = acc +:+ (joined cs +:+ last).
Proof.
  induction ms as [|[|chunk more] ms IH]; intros acc size body H Hs; [done..|]. cbn [read_body] in H.
  destruct (m <? _) eqn:Hm; [done|]. bool_prop. destruct more.
  - apply IH in H as (Hl & cs & last & rest & -> & ->); [|rewrite string_length_app; lia]. split; [done|].
    exists (chunk :: cs), last, rest. split; [done|]. cbn [joined foldr]. by rewrite !string_app_assoc.
  - injection H as <-. split; [rewrite string_length_app; lia|]. by exists [], chunk, ms.
Qed.

(** Nothing that refuses a request calls the app. *)
Definition calls_app (a : action) : bool := match a with CallApp _ _ => true | _ => false end.

Lemma bearer_refuses hs a : bearer hs = inr a → calls_app a = false.
Proof.
  unfold bearer. destruct (filter _ hs) as [|[k v] [|]]; [by intros [= <-]| |by intros [= <-]].
  destruct (strip_prefix _ _); [|by intros [= <-]]. destruct (_ || _); [by intros [= <-]|done].
Qed.

Lemma read_body_refuses m ms : ∀ acc size a, read_body m acc size ms = inr a → calls_app a = false.
Proof.
  induction ms as [|[|chunk more] ms IH]; intros acc size a H; [by injection H as <-..|]. cbn [read_body] in H.
  destruct (m <? _); [by injection H as <-|]. destruct more; [by eapply IH|done].
Qed.

Lemma refusal_refuses e a : refusal e = Some a → calls_app a = false.
Proof. destruct e; cbn; naive_solver. Qed.

(** With authentication configured, an HTTP request reaches the app only on an open path (health and readiness, and
    metrics when no scraper is configured), or over TLS (unless plain text was asked for), with exactly one bearer token, after
    a review of it named a subject configured for that path, a service account; the app then gets the subject and the whole
    body, which is within the limit. *)
Theorem app_gate {W} isfile env config max_body authenticate `{!Authenticator authenticate} scope ms (w : W) sc body w' :
  config_from_env isfile env = Ok config → enabled config = true → sc_type scope = "http" →
  admit_request config max_body authenticate scope ms w = (Ok (CallApp sc body), w') →
  let allowed := if bool_decide (sc_path scope = "/metrics") then ac_metrics_subjects config else ac_subjects config in
  ((sc_path scope = "/health" ∨ sc_path scope = "/ready" ∨ sc_path scope = "/metrics" ∧ ac_metrics_subjects config = ∅) ∧
   sc = scope ∧ body = None ∧ w' = w) ∨
  ∃ token u cs last rest,
    (sc_scheme scope = "https" ∨ ac_allow_plaintext config = true) ∧ bearer (sc_headers scope) = inl token ∧
    authenticate token allowed w = (Ok u, w') ∧ u ∈ allowed ∧ subject_text u = true ∧ sc = with_subject u scope ∧
    ms = ((λ c, Body c true) <$> cs) ++ Body last false :: rest ∧ body = Some (joined cs +:+ last) ∧
    Z.of_nat (String.length (joined cs +:+ last)) ≤ max_body.
Proof.
  intros Hc He Ht H allowed. destruct (config_guarded _ _ _ Hc He) as [_ Ha Ho _]. unfold admit_request in H.
  rewrite Ht in H. cbn [bool_decide decide_rel negb orb] in H. rewrite bool_decide_eq_false_2, bool_decide_eq_true_2 in H by done.
  cbn [negb orb] in H. case_bool_decide as Hp.
  { left. injection H as <- <- <-. by apply Ho in Hp. }
  right. destruct (negb _ && negb _) eqn:Htls; [done|]. destruct (bearer _) as [token|a] eqn:Hbr; [|apply bearer_refuses in Hbr; by injection H as -> _].
  fold allowed in H. destruct (authenticate token allowed w) as [[u|e] w2] eqn:Ha'; [|].
  2:{ destruct (refusal e) as [a|] eqn:Hr; [|done]. apply refusal_refuses in Hr. by injection H as -> _. }
  destruct (read_body _ _ _ _) as [b|a] eqn:Hb; [|apply read_body_refuses in Hb; by injection H as -> _].
  injection H as <- <- <-.
  apply read_body_spec in Hb as (Hl & cs & last & rest & -> & ->); [|done]. pose proof (authenticate_allowed _ _ _ _ _ Ha') as Hu.
  exists token, u, cs, last, rest. repeat split; try done.
  - apply andb_false_iff in Htls as [E|E]; apply negb_false_iff in E; [left; by apply bool_decide_eq_true in E|by right].
  - apply Ha. unfold allowed in Hu. case_bool_decide; set_solver.
Qed.

(** * A world: one token, one answer, a clock that moves when the API server is asked *)

Definition demo_subject : string := "system:serviceaccount:pa-system:operator".
Definition demo_token : string := "eyJhbGciOiJSUzI1NiJ9.eyJleHAiOjE3MDAwMDAwMDAsImF1ZCI6WyJ4Il19.c2ln".
Definition demo_env : list (string * string) :=
  [("FORECASTER_AUTH", "tokenreview"); ("FORECASTER_AUTH_SUBJECTS", demo_subject); ("FORECASTER_TLS_CERT", "/tls/tls.crt");
   ("FORECASTER_TLS_KEY", "/tls/tls.key")].
Definition demo_config : AuthConfig :=
  match config_from_env (λ _, true) demo_env with Ok c => c | Raise _ => default_config end.
Definition demo_answer : fetched :=
  Answer 201 (match canonical_json (JObj [("status", JObj [("audiences", JArr [JStr DEFAULT_AUDIENCE]); ("authenticated", JBool true);
                                                       ("user", JObj [("username", JStr demo_subject)])])]) with
              | Ok s => s | Raise _ => EmptyString end).

Definition demo_time (asked : bool) : f64 := f64_of_Z (if asked then 130 else 100).
Definition demo_wall : f64 := f64_of_Z 1699999970.
Definition demo_review := review demo_config "https://10.0.0.1:443" 1024 (λ x : bool, (Ok (Some "own"), x)) (λ x, (Ok true, x))
  (λ _ _ _ _, (Ok demo_answer, true)) (λ x, (Ok (demo_time x), x)) (λ x, (Ok demo_wall, x)).

(** The first review is stored until the token expires in thirty seconds, the second is served from the cache. *)
Example demo_reviewed :
  demo_review demo_token (ac_subjects demo_config) ([], false) =
    (Ok demo_subject, ([(sha256_hex demo_token, (demo_subject, f64_of_Z 160))], true)).
Proof. vm_compute. reflexivity. Qed.

Example demo_refused :
  (demo_review demo_token {["system:serviceaccount:pa-system:scraper"]} ([], false)).1 =
    Raise (Forbidden "the caller may not call this endpoint").
Proof. vm_compute. reflexivity. Qed.

Lemma review_runs_witness : ∃ r c' x',
  demo_review demo_token (ac_subjects demo_config) ([], false) = (r, (c', x')) ∧
  stands demo_config 1024 demo_time (no_reviews (f64_of_Z 100)) demo_token (ac_subjects demo_config) (Done (demo_time x') r) c' x'.
Proof.
  apply (review_runs demo_config "https://10.0.0.1:443" 1024 _ _ _ _ _ demo_time); try reflexivity.
  - intros x. eexists _, _. split; [reflexivity|]. destruct x; split; reflexivity.
  - intros x. eexists _, _. split; [reflexivity|]. destruct x; split; reflexivity.
  - intros u o b x. eexists _, _. split; [reflexivity|]. destruct x; split; reflexivity.
  - intros x. eexists. split; [reflexivity|]. destruct x; split; reflexivity.
  - intros x. eexists _, _. split; [reflexivity|]. split; [reflexivity|]. destruct x; split; reflexivity.
Defined.

(** The same token twice, side by side with a third review that has only arrived: the second answer comes from the cache. *)
Definition demo_exp : f64 := f64_of_Z 1700000000.
Definition demo_ready : reviews := arrive demo_token ∅ (arrive demo_token {[demo_subject]} (no_reviews (f64_of_Z 100))).
Definition demo_asked : reviews :=
  advance [] 0 (Job demo_token {[demo_subject]} (Accepted demo_subject)) [Reviewed demo_token demo_subject demo_answer (f64_of_Z 100)]
    (advance [] 0 (Job demo_token {[demo_subject]} Missed) [] demo_ready).
Definition demo_cache : cache := [(token_key demo_token, (demo_subject, f64_of_Z 130))].
Definition demo_stored : reviews :=
  arrive demo_token {[demo_subject]} (at_time (f64_of_Z 110)
    (advance demo_cache 0 (Job demo_token {[demo_subject]} (Done (f64_of_Z 100) (Ok demo_subject)))
      [Stored demo_token demo_subject demo_exp demo_wall (f64_of_Z 100)] demo_asked)).
Definition demo_served : reviews :=
  advance demo_cache 2 (Job demo_token {[demo_subject]} (Done (f64_of_Z 110) (Ok demo_subject)))
    [Served demo_token demo_subject (f64_of_Z 110)] demo_stored.

Lemma demo_judged : judge DEFAULT_AUDIENCE demo_answer = Ok demo_subject.
Proof. vm_compute. reflexivity. Qed.
Lemma demo_cached : remember_entry 1024 (token_key demo_token) demo_subject (f64_of_Z 100 ⊕ time_to_live demo_exp demo_wall) [] = demo_cache.
Proof. vm_compute. reflexivity. Qed.
Lemma demo_hit : lookup_at (token_key demo_token) (f64_of_Z 110) demo_cache = (Some demo_subject, demo_cache).
Proof. vm_compute. reflexivity. Qed.
Lemma demo_allowed : bool_decide (demo_subject ∈ ({[demo_subject]} : gset string)) = true.
Proof. vm_compute. reflexivity. Qed.

Lemma demo_path : rtc (step DEFAULT_AUDIENCE 1024) (no_reviews (f64_of_Z 100)) demo_served.
Proof.
  eapply rtc_l; [apply (step_arrive _ _ _ demo_token {[demo_subject]})|]. eapply rtc_l; [apply (step_arrive _ _ _ demo_token ∅)|].
  eapply rtc_l; [apply (step_miss _ _ _ 0 demo_token {[demo_subject]} []); reflexivity|].
  eapply rtc_l; [apply (step_answer _ _ _ 0 demo_token {[demo_subject]} demo_answer demo_subject); [reflexivity|apply demo_judged]|].
  rewrite demo_allowed. change (advance _ 0 _ _ (advance _ _ _ _ _)) with demo_asked.
  eapply rtc_l; [apply (step_store _ _ _ 0 demo_token {[demo_subject]} demo_subject demo_exp demo_wall); [reflexivity|vm_compute; reflexivity..]|].
  change (rv_cache demo_asked) with ([] : cache). change (rv_now demo_asked) with (f64_of_Z 100). rewrite demo_cached.
  eapply rtc_l; [apply (step_tick _ _ _ (f64_of_Z 110)); vm_compute; reflexivity|].
  eapply rtc_l; [apply (step_arrive _ _ _ demo_token {[demo_subject]})|]. fold demo_stored.
  eapply rtc_l; [apply (step_hit _ _ _ 2 demo_token {[demo_subject]} demo_subject demo_cache); [reflexivity|apply demo_hit]|].
  unfold verdict. rewrite demo_allowed. apply rtc_refl.
Qed.

Lemma reviews_sound_witness : Z.of_nat (length (rv_cache demo_served)) ≤ 1024 ∧
  demo_subject ∈ ({[demo_subject]} : gset string).
Proof.
  destruct (reviews_sound DEFAULT_AUDIENCE 1024 (f64_of_Z 100) demo_served) as (_ & H & Hj); [lia|reflexivity|apply demo_path|].
  split; [exact H|]. apply (Hj demo_token {[demo_subject]} (f64_of_Z 110) demo_subject). right. right. left.
Defined.

Definition demo_scope (path : string) (headers : list (string * string)) : Scope := {|
  sc_type := "http"; sc_path := path; sc_scheme := "https"; sc_headers := headers; sc_subject := None |}.
Definition demo_request : Scope := demo_scope "/v2/predict" [("Host", "forecaster"); ("Authorization", "Bearer " +:+ demo_token)].
Definition demo_messages : list incoming := [Body "{" true; Body "}" false; Disconnect].

Lemma demo_accepted : config_from_env (λ _, true) demo_env = Ok demo_config.
Proof. vm_compute. reflexivity. Qed.
Lemma demo_admitted : admit_request demo_config MAX_BODY demo_review demo_request demo_messages ([], false) =
  (Ok (CallApp (with_subject demo_subject demo_request) (Some "{}")), (demo_review demo_token (ac_subjects demo_config) ([], false)).2).
Proof. vm_compute. reflexivity. Qed.

Lemma app_gate_witness : ∃ token u, bearer (sc_headers demo_request) = inl token ∧ u ∈ ac_subjects demo_config ∧ subject_text u = true.
Proof.
  destruct (app_gate (λ _, true) demo_env demo_config MAX_BODY demo_review demo_request demo_messages ([], false) _ _ _
              demo_accepted eq_refl eq_refl demo_admitted) as [[H _]|(token & u & cs & last & rest & _ & H1 & _ & H2 & H3 & _)].
  - destruct H as [H|[H|[H _]]]; vm_compute in H; discriminate H.
  - exists token, u. split; [exact H1|split; [exact H2|exact H3]].
Defined.

(** What is refused, and how. *)
Definition admit_demo (scope : Scope) (ms : list incoming) : res action := (admit_request demo_config 4 demo_review scope ms ([], false)).1.
Example refused_without_token : admit_demo (demo_scope "/v2/predict" []) [] =
  Ok (Respond 401 "Unauthenticated" "exactly one Authorization header is required" true).
Proof. reflexivity. Qed.
Example refused_path_variant : admit_demo (demo_scope "/metrics/" []) [] =
  Ok (Respond 401 "Unauthenticated" "exactly one Authorization header is required" true).
Proof. vm_compute. reflexivity. Qed.
Example refused_long_body : admit_demo demo_request [Body "abc" true; Body "de" true] =
  Ok (Respond 413 "BodyTooLarge" "the request body exceeds the limit" false).
Proof. vm_compute. reflexivity. Qed.
Example open_health : admit_demo (demo_scope "/health" []) [] = Ok (CallApp (demo_scope "/health" []) None).
Proof. vm_compute. reflexivity. Qed.

(** A claimed expiry too large for a float is not taken for unusable: the exception escapes the review, after the API server
    accepted the token. *)
Definition huge_token : string := "e30.eyJleHAiOjEwMDAwMDAwMDAwMDAwMDAwMDAwMDAwMDAwMDAwMDAwMDAwMDAwMDAwMDAwMDAwMDAwMDAwMDAwMDAwMDAwMDAwMDAwMDAwMDAwMDAwMDAwMDAwMDAwMDAwMDAwMDAwMDAwMDAwMDAwMDAwMDAwMDAwMDAwMDAwMDAwMDAwMDAwMDAwMDAwMDAwMDAwMDAwMDAwMDAwMDAwMDAwMDAwMDAwMDAwMDAwMDAwMDAwMDAwMDAwMDAwMDAwMDAwMDAwMDAwMDAwMDAwMDAwMDAwMDAwMDAwMDAwMDAwMDAwMDAwMDAwMDAwMDAwMDAwMDAwMDAwMDAwMDAwMDAwMDAwMDAwMDAwMDAwMDAwMDAwMDAwMDAwMDAwMDAwMDAwMDAwMDAwMDAwMDAwMDAwMDAwMDAwMDAwMDB9.c2ln".
Example huge_expiry_escapes : (demo_review huge_token (ac_subjects demo_config) ([], false)).1 = Raise PyOverflowError.
Proof. vm_compute. reflexivity. Qed.
