(* ===== verification/Registry.v ===== *)
(** [ml-engine/api/registry.py]: the loaded models of the serving API. [load_record] accepts an artifact only with the full
    provenance of its sidecar; the registry replaces records under its lock, and a record that was replaced is cleaned up by
    whoever lets go of it last. A record is an object with an identity, so the heap is a list and a reference its index;
    unpickling ([joblib]) is the argument [loader], and the bytes of the two files are arguments too. *)
From Stdlib Require Import Ascii.
From stdpp Require Import gmultiset relations.
From S2P Require Import Prelude Float64 Sha256 Json Numbers History Identity.

Definition REQUIRED_META : list string :=
  ["namespace"; "name"; "metric"; "metric_query_sha256"; "contract"; "pa_uid"; "target_uid"; "artifact_sha256"].

Definition model_key (namespace name metric : string) : string :=
  String.substring 0 32 (sha256_hex (utf8 (namespace +:+ "/" +:+ name +:+ "/" +:+ metric))).

(** [_KEY], and the two names of an artifact. *)
Definition key_text (l : list ascii) : bool := (length l =? 32)%nat && forallb is_hex l.
Definition artifact_paths (key : string) : res (string * string) :=
  raise_if negb (key_text (dollar (chars key))) with PyValueError "malformed model key" ;;
  Ok ("lstm_" +:+ key +:+ ".pkl", "lstm_" +:+ key +:+ ".meta.json").

(** [re.match(r"^lstm_([0-9a-f]{32})\.pkl$", name)] and its group. *)
Definition artifact_key (name : string) : option string :=
  rest ← strip_prefix (chars "lstm_") (dollar (chars name));
  let key := take 32 rest in
  if key_text key && bool_decide (text (drop 32 rest) = ".pkl") then Some (text key) else None.

Section registry.
Context {M : Type}.

Record life := { lf_refs : Z; lf_installed : bool; lf_retired : bool }.
Definition new_life : life := {| lf_refs := 0; lf_installed := false; lf_retired := false |}.

Record ModelRecord := {
  mr_key : string; mr_namespace : string; mr_name : string; mr_metric : string; mr_model : M;
  mr_meta : list (string * json); mr_artifact_sha256 : string; mr_life : life;
}.

Definition with_life (l : life) (r : ModelRecord) : ModelRecord := {|
  mr_key := mr_key r; mr_namespace := mr_namespace r; mr_name := mr_name r; mr_metric := mr_metric r; mr_model := mr_model r;
  mr_meta := mr_meta r; mr_artifact_sha256 := mr_artifact_sha256 r; mr_life := l |}.

(** [ModelRecord.incompatibility]: the first field that differs. *)
Definition checks (r : ModelRecord) (s : ResolvedSignal) : list (string * (json * string)) :=
  [("namespace", (JStr (mr_namespace r), rs_namespace s)); ("name", (JStr (mr_name r), rs_name s));
   ("metric", (JStr (mr_metric r), rs_metric s)); ("metric_query_sha256", (oget "metric_query_sha256" (mr_meta r), rs_sha256 s));
   ("contract", (oget "contract" (mr_meta r), rs_contract s)); ("pa_uid", (oget "pa_uid" (mr_meta r), rs_autoscaler_uid s));
   ("target_uid", (oget "target_uid" (mr_meta r), rs_target_uid s))].
Definition incompatibility (r : ModelRecord) (s : ResolvedSignal) : option string :=
  fst <$> List.find (λ c : string * (json * string), negb (py_eq c.2.1 (JStr c.2.2))) (checks r s).

(** [load_record] for an artifact of that file name and bytes; the sidecar's text, when there is one. *)
Definition load_record (loader : string → res M) (name data : string) (sidecar : option string) : res ModelRecord :=
  match artifact_key name with
  | None => Raise (ModelIncompatible "not a namespace-aware artifact name")
  | Some key =>
      let digest := sha256_hex data in
      match sidecar with
      | None => Raise (ModelIncompatible "no provenance sidecar")
      | Some t =>
          match loads t with
          | Raise _ => Raise (ModelIncompatible "unreadable provenance sidecar")
          | Ok (JObj meta) =>
              let field k := str_of (oget k meta) in
              raise_if negb (forallb (λ k, nonempty_str (oget k meta)) REQUIRED_META)
                with ModelIncompatible "provenance lacks required fields" ;;
              let ns := field "namespace" in let nm := field "name" in let metric := field "metric" in
              raise_if negb (valid_namespace (JStr ns) && valid_name (JStr nm) && bool_decide (metric = "requests"))
                with ModelIncompatible "malformed identity" ;;
              raise_if negb (bool_decide (model_key ns nm metric = key))
                with ModelIncompatible "sidecar identity does not match the file key" ;;
              raise_if negb (bool_decide (field "contract" = CONTRACT) && sha256_text (field "metric_query_sha256"))
                with ModelIncompatible "unsupported contract or malformed query hash" ;;
              raise_if negb (bool_decide (field "artifact_sha256" = digest))
                with ModelIncompatible "artifact digest does not match its sidecar" ;;
              model ← loader data;
              Ok {| mr_key := key; mr_namespace := ns; mr_name := nm; mr_metric := metric; mr_model := model; mr_meta := meta;
                    mr_artifact_sha256 := digest; mr_life := new_life |}
          | Ok _ => Raise (ModelIncompatible "provenance sidecar is not an object")
          end
      end
  end.

(** * The registry *)

(** [rg_heap] holds every record ever loaded. [rg_pins] are the references running requests hold, [rg_disposing] the records
    whose cleanup was decided under the lock and has not run yet, [rg_cleaned] those it has run on. *)
Record registry := {
  rg_heap : list ModelRecord; rg_records : list (string * nat); rg_pins : gmultiset nat; rg_disposing : list nat; rg_cleaned : list nat;
}.

Definition empty_registry : registry := {| rg_heap := []; rg_records := []; rg_pins := ∅; rg_disposing := []; rg_cleaned := [] |}.

Definition put (i : nat) (f : life → life) (h : list ModelRecord) : list ModelRecord := alter (λ r, with_life (f (mr_life r)) r) i h.

Definition set_refs (d : Z) (l : life) : life := {| lf_refs := lf_refs l + d; lf_installed := lf_installed l; lf_retired := lf_retired l |}.
Definition set_installed (l : life) : life := {| lf_refs := lf_refs l; lf_installed := true; lf_retired := lf_retired l |}.
Definition set_retired (l : life) : life := {| lf_refs := lf_refs l; lf_installed := lf_installed l; lf_retired := true |}.

Definition life_of (i : nat) (h : list ModelRecord) : life := or_default new_life (mr_life <$> h !! i).

(** [_retire]: the heap afterwards, and the record when it can be cleaned up now. *)
Definition _retire (i : nat) (h : list ModelRecord) : list ModelRecord * list nat :=
  let h' := put i set_retired h in (h', if lf_refs (life_of i h') =? 0 then [i] else []).

Definition retire_old (old : option nat) (h : list ModelRecord) : list ModelRecord * list nat :=
  match old with Some o => _retire o h | None => (h, []) end.

(** A loaded record becomes an object. *)
Definition load (r : ModelRecord) (g : registry) : registry := {|
  rg_heap := rg_heap g ++ [with_life new_life r]; rg_records := rg_records g; rg_pins := rg_pins g; rg_disposing := rg_disposing g;
  rg_cleaned := rg_cleaned g |}.

(** The locked part of [install]. *)
Definition install (i : nat) : SE registry () :=
  g ← sget;
  match rg_heap g !! i with
  | None => mthrow PyTypeError
  | Some r =>
      raise_if lf_retired (mr_life r) || lf_installed (mr_life r) with PyValueError "the record was already installed once" ;;
      let old := dget (mr_key r) (rg_records g) in
      let '(h, dispose) := retire_old old (put i set_installed (rg_heap g)) in
      sput {| rg_heap := h; rg_records := dset (mr_key r) i (rg_records g); rg_pins := rg_pins g;
              rg_disposing := rg_disposing g ++ dispose; rg_cleaned := rg_cleaned g |}
  end.

Definition remove (key : string) (g : registry) : registry :=
  let '(h, dispose) := retire_old (dget key (rg_records g)) (rg_heap g) in
  {| rg_heap := h; rg_records := ddel key (rg_records g); rg_pins := rg_pins g; rg_disposing := rg_disposing g ++ dispose;
     rg_cleaned := rg_cleaned g |}.

(** The two locked parts of [pin]. *)
Definition pin (key : string) (g : registry) : option nat * registry :=
  match dget key (rg_records g) with
  | None => (None, g)
  | Some i => (Some i, {| rg_heap := put i (set_refs 1) (rg_heap g); rg_records := rg_records g; rg_pins := {[+ i +]} ⊎ rg_pins g;
                          rg_disposing := rg_disposing g; rg_cleaned := rg_cleaned g |})
  end.

Definition unpin (i : nat) (g : registry) : registry :=
  let h := put i (set_refs (-1)) (rg_heap g) in
  let l := life_of i h in
  {| rg_heap := h; rg_records := rg_records g; rg_pins := rg_pins g ∖ {[+ i +]};
     rg_disposing := rg_disposing g ++ (if lf_retired l && (lf_refs l =? 0) then [i] else []); rg_cleaned := rg_cleaned g |}.
(** The call of [cleanup], outside the lock. *)
Definition cleanup (p i : nat) (g : registry) : registry := {|
  rg_heap := rg_heap g; rg_records := rg_records g; rg_pins := rg_pins g; rg_disposing := delete p (rg_disposing g);
  rg_cleaned := rg_cleaned g ++ [i] |}.

(** [key in registry], and the provenance it reports. *)
Definition contains (key : string) (g : registry) : bool := dhas key (rg_records g).
Definition snapshot (g : registry) : list (string * string * string * string * string * list (string * json)) :=
  omap (λ e : string * nat, (λ r, (mr_key r, mr_namespace r, mr_name r, mr_metric r, mr_artifact_sha256 r, mr_meta r)) <$> rg_heap g !! e.2)
    (rg_records g).

(** Every interleaving of loads, installs, removals, requests and cleanups. *)
Inductive rstep (g : registry) : registry → Prop :=
| rs_load r : rstep g (load r g)
| rs_install i g' : install i g = (Ok (), g') → rstep g g'
| rs_remove key : rstep g (remove key g)
| rs_pin key i g' : pin key g = (Some i, g') → rstep g g'
| rs_unpin i : i ∈ rg_pins g → rstep g (unpin i g)
| rs_cleanup p i : rg_disposing g !! p = Some i → rstep g (cleanup p i g).

(** * The life of a record *)

#[local] Arguments gmultiset_disj_union : simpl never.
#[local] Arguments gmultiset_difference : simpl never.
#[local] Arguments gmultiset_singleton : simpl never.

Definition disposed (g : registry) : list nat := rg_disposing g ++ rg_cleaned g.

(** A record counts the requests that hold it; it is in the registry from its installation to its retirement; and its
    cleanup is decided when it is retired and nobody holds it. *)
Record record_ok (g : registry) (i : nat) (r : ModelRecord) : Prop := {
  rk_refs : lf_refs (mr_life r) = Z.of_nat (multiplicity i (rg_pins g));
  rk_new : lf_installed (mr_life r) = false → lf_retired (mr_life r) = false ∧ lf_refs (mr_life r) = 0;
  rk_entry : dget (mr_key r) (rg_records g) = Some i ↔ lf_installed (mr_life r) = true ∧ lf_retired (mr_life r) = false;
  rk_disposed : i ∈ disposed g ↔ lf_retired (mr_life r) = true ∧ lf_refs (mr_life r) = 0;
}.

Record registry_ok (g : registry) : Prop := {
  gk_records : ∀ i r, rg_heap g !! i = Some r → record_ok g i r;
  gk_entries : ∀ k i, dget k (rg_records g) = Some i → ∃ r, rg_heap g !! i = Some r ∧ mr_key r = k;
  gk_pins : ∀ i, i ∈ rg_pins g → is_Some (rg_heap g !! i);
  gk_bound : ∀ i, i ∈ disposed g → is_Some (rg_heap g !! i);
  gk_once : NoDup (disposed g);
}.

Lemma lookup_put i f h j : put i f h !! j = (if decide (i = j) then (λ r, with_life (f (mr_life r)) r) <$> h !! j else h !! j).
Proof.
  unfold put. case_decide as E; [subst j; apply list_lookup_alter_eq|by apply list_lookup_alter_ne].
Qed.

Lemma put_some i f h j : is_Some (put i f h !! j) ↔ is_Some (h !! j).
Proof. rewrite lookup_put. case_decide; [apply fmap_is_Some|done]. Qed.
(** A change of the heap and of the other parts that leaves the records' own data. *)
Lemma load_ok r g : registry_ok g → registry_ok (load r g).
Proof.
  intros [H1 H2 H3 H4 H5]. assert (∀ i, rg_heap (load r g) !! i = if decide (i = length (rg_heap g)) then Some (with_life new_life r) else rg_heap g !! i) as Hl.
  { intros i. cbn. case_decide as E; [subst i; by apply list_lookup_middle|]. destruct (decide (i < length (rg_heap g))%nat).
    - by rewrite lookup_app_l.
    - rewrite !lookup_ge_None_2; [done|lia|rewrite length_app; cbn; lia]. }
  assert (∀ i, is_Some (rg_heap g !! i) → is_Some (rg_heap (load r g) !! i)) as Hs.
  { intros i Hi. rewrite Hl. case_decide; [done|exact Hi]. }
  assert (rg_heap g !! length (rg_heap g) = None) as Hn by (apply lookup_ge_None_2; lia).
  split; [|..|done].
  - intros i r'. rewrite Hl. case_decide as E; [|intros Hi; destruct (H1 i r' Hi) as [? ? ? ?]; by split].
    intros [= <-]. subst i. split; cbn.
    + destruct (multiplicity (length (rg_heap g)) (rg_pins g)) eqn:Em; [done|]. exfalso.
      assert (length (rg_heap g) ∈ rg_pins g) as Hin by (apply elem_of_multiplicity; lia). apply H3 in Hin. rewrite Hn in Hin. by destruct Hin.
    + done.
    + split; [|by intros [? _]]. intros Hd. apply H2 in Hd as (r2 & Hr & _). by rewrite Hn in Hr.
    + split; [|by intros [? _]]. intros Hd. apply H4 in Hd. rewrite Hn in Hd. by destruct Hd.
  - intros k i Hk. destruct (H2 k i Hk) as (r' & Hr & Hkey). exists r'. split; [|done]. rewrite Hl. case_decide as E; [|done].
    subst i. by rewrite Hn in Hr.
  - intros i Hi. by apply Hs, H3.
  - intros i Hi. by apply Hs, H4.
Qed.

Lemma cleanup_ok p i g : registry_ok g → rg_disposing g !! p = Some i → registry_ok (cleanup p i g).
Proof.
  intros [H1 H2 H3 H4 H5] Hp. assert (disposed (cleanup p i g) ≡ₚ disposed g) as Hd.
  { unfold disposed, cleanup. cbn. rewrite (delete_Permutation (rg_disposing g) p i Hp) at 2. cbn.
    rewrite (app_assoc (delete p (rg_disposing g))). by rewrite <-Permutation_cons_append. }
  split; cbn; [|done|done| |].
  - intros j r Hj. destruct (H1 j r Hj) as [? ? ? ?]. split; try done. by rewrite Hd.
  - intros j. rewrite Hd. by apply H4.
  - by rewrite Hd.
Qed.

Lemma pin_ok key i g g' : registry_ok g → pin key g = (Some i, g') → registry_ok g'.
Proof.
  intros [H1 H2 H3 H4 H5] H. unfold pin in H. destruct (dget key (rg_records g)) as [i'|] eqn:Hk; [|done]. injection H as -> <-.
  split; cbn; [| | | |done].
  - intros j r. rewrite lookup_put. case_decide as E; [|].
    + subst j. intros (r0 & Hr & ->)%fmap_Some. destruct (H1 i r0 Hr) as [A B C D]. destruct (H2 _ _ Hk) as (r1 & Hr1 & Hkey).
      rewrite Hr in Hr1. injection Hr1 as <-. rewrite Hkey in C. destruct (proj1 C Hk) as [Hi Hret]. split; cbn.
      * rewrite multiplicity_disj_union, multiplicity_singleton, decide_True by done. lia.
      * by rewrite Hi.
      * rewrite Hkey. tauto.
      * rewrite Hret in *. split; [intros Hd; by apply D in Hd as [? _]|by intros [? _]].
    + intros Hj. destruct (H1 j r Hj) as [A B C D]. split; cbn; [|done..].
      rewrite multiplicity_disj_union, multiplicity_singleton_ne by done. lia.
  - intros k j Hkj. destruct (H2 k j Hkj) as (r & Hr & Hkey). rewrite lookup_put. case_decide as E; [|by eauto].
    subst j. rewrite Hr. cbn. by eexists.
  - intros j Hj. apply put_some. apply gmultiset_elem_of_disj_union in Hj as [Hj|Hj]; [|by apply H3].
    apply gmultiset_elem_of_singleton in Hj as ->. destruct (H2 _ _ Hk) as (r & -> & _). done.
  - intros j Hj. by apply put_some, H4.
Qed.
(** Letting go of a record: its count goes down by one, and if it was retired and this was the last reference, its cleanup is
    decided, for the first time. *)
Lemma NoDup_extend (a b : list nat) i : NoDup (a ++ b) → i ∉ a ++ b → NoDup ((a ++ [i]) ++ b).
Proof. intros Hn Hi. rewrite <-app_assoc. cbn. rewrite <-Permutation_middle. by constructor. Qed.

Lemma unpin_ok i g : registry_ok g → i ∈ rg_pins g → registry_ok (unpin i g).
Proof.
  intros [H1 H2 H3 H4 H5] Hpin. destruct (H3 i Hpin) as [r0 Hr0]. destruct (H1 i r0 Hr0) as [A B C D].
  assert (0 < multiplicity i (rg_pins g))%nat as Hm by by apply elem_of_multiplicity.
  assert (lf_refs (mr_life r0) ≠ 0) as Hn by lia. assert (lf_installed (mr_life r0) = true) as Hins.
  { destruct (lf_installed (mr_life r0)); [done|]. destruct (B eq_refl). lia. }
  assert (i ∉ disposed g) as Hd by (intros Hd; apply D in Hd as [_ ?]; lia).
  assert (life_of i (put i (set_refs (-1)) (rg_heap g)) = set_refs (-1) (mr_life r0)) as Hlife.
  { unfold life_of. rewrite lookup_put, decide_True, Hr0 by done. done. }
  set (dispose := lf_retired (mr_life r0) && (lf_refs (mr_life r0) + -1 =? 0)).
  assert (disposed (unpin i g) = (rg_disposing g ++ (if dispose then [i] else [])) ++ rg_cleaned g) as Hdis.
  { unfold disposed, unpin. rewrite Hlife. done. }
  assert (∀ j, j ∈ disposed (unpin i g) ↔ j ∈ disposed g ∨ j = i ∧ dispose = true) as Hin.
  { intros j. rewrite Hdis. unfold disposed. destruct dispose; set_solver. }
  split.
  - intros j r. unfold unpin at 1. cbn. rewrite lookup_put. case_decide as E.
    + subst j. rewrite Hr0. intros [= <-]. split; cbn.
      * rewrite multiplicity_difference, multiplicity_singleton, decide_True by done. lia.
      * by rewrite Hins.
      * done.
      * rewrite Hin. unfold dispose. rewrite andb_true_iff, Z.eqb_eq. tauto.
    + intros Hj. destruct (H1 j r Hj) as [A' B' C' D']. split; cbn; try done.
      * rewrite multiplicity_difference, multiplicity_singleton_ne by done. lia.
      * rewrite Hin. naive_solver.
  - intros k j Hkj. destruct (H2 k j Hkj) as (r & Hr & Hkey). unfold unpin. cbn. rewrite lookup_put. case_decide as E; [|by eauto].
    subst j. rewrite Hr. cbn. by eexists.
  - intros j Hj. apply put_some. apply H3. unfold unpin in Hj. cbn in Hj. multiset_solver.
  - intros j Hj. apply put_some. apply Hin in Hj as [Hj|[-> _]]; [by apply H4|by eexists].
  - rewrite Hdis. destruct dispose; [by apply NoDup_extend|by rewrite app_nil_r].
Qed.
(** Dicts that answer alike, and heaps that hold the same records, make registries alike. *)
Lemma registry_ext g g' : (∀ j, rg_heap g' !! j = rg_heap g !! j) → (∀ k, dget k (rg_records g') = dget k (rg_records g)) →
  rg_pins g' = rg_pins g → disposed g' = disposed g → registry_ok g → registry_ok g'.
Proof.
  intros Eh Er Ep Ed [H1 H2 H3 H4 H5]. split.
  - intros i r. rewrite Eh. intros Hi. destruct (H1 i r Hi) as [? ? ? ?]. split; rewrite ?Er, ?Ep, ?Ed; done.
  - intros k i. rewrite Er. intros Hk. destruct (H2 k i Hk) as (r & ? & ?). exists r. by rewrite Eh.
  - intros i. rewrite Ep, Eh. apply H3.
  - intros i. rewrite Ed, Eh. apply H4.
  - by rewrite Ed.
Qed.

Lemma retire_life i h r : h !! i = Some r → (_retire i h).2 = if lf_refs (mr_life r) =? 0 then [i] else [].
Proof. intros Hi. unfold _retire, life_of. cbn [snd]. rewrite lookup_put, decide_True, Hi by done. done. Qed.

Lemma remove_ok key g : registry_ok g → registry_ok (remove key g).
Proof.
  intros Hok. unfold remove. destruct (dget key (rg_records g)) as [o|] eqn:Hk.
  2:{ eapply registry_ext; [..|exact Hok]; [done| |done|by unfold disposed; cbn; rewrite app_nil_r].
      intros k. cbn. rewrite dget_ddel. case_decide; [by subst|done]. }
  destruct Hok as [H1 H2 H3 H4 H5]. destruct (H2 _ _ Hk) as (r0 & Hr0 & Hkey). destruct (H1 _ _ Hr0) as [A B C D].
  rewrite Hkey in C. destruct (proj1 C Hk) as [Hins Hret]. cbn [retire_old]. destruct (_retire o (rg_heap g)) as [h d] eqn:E.
  pose proof (retire_life _ _ _ Hr0) as Ed. rewrite E in Ed. cbn in Ed. unfold _retire in E. injection E as <- _. subst d.
  set (dispose := lf_refs (mr_life r0) =? 0). match goal with |- registry_ok ?x => set (g' := x) end.
  assert (disposed g' = (rg_disposing g ++ if dispose then [o] else []) ++ rg_cleaned g) as Hdis by done.
  assert (o ∉ disposed g) as Hd by (intros Hd; apply D in Hd as [? _]; congruence).
  assert (∀ j, j ∈ disposed g' ↔ j ∈ disposed g ∨ j = o ∧ dispose = true) as Hin.
  { intros j. rewrite Hdis. unfold disposed. destruct dispose; set_solver. }
  split.
  - intros j r. cbn. rewrite lookup_put. case_decide as E.
    + subst j. rewrite Hr0. intros [= <-]. split; cbn [mr_life with_life set_retired lf_refs lf_installed lf_retired mr_key]; [done|by rewrite Hins| |].
      * unfold g'. cbn [rg_records]. rewrite Hkey, dget_ddel, decide_True by done. naive_solver.
      * rewrite Hin. unfold dispose. rewrite Z.eqb_eq. tauto.
    + intros Hj. destruct (H1 j r Hj) as [A' B' C' D']. split; [done..| |].
      * unfold g'. cbn [rg_records]. rewrite dget_ddel. case_decide as Ek; [|done]. rewrite Ek, Hk in C'. split; [done|]. intros Hl. apply C' in Hl. congruence.
      * rewrite Hin. naive_solver.
  - intros k j. cbn. rewrite dget_ddel. case_decide; [done|]. intros Hkj. destruct (H2 k j Hkj) as (r & Hr & Hrk).
    rewrite lookup_put. case_decide as E; [|by eauto]. subst j. rewrite Hr. cbn. by eexists.
  - intros j Hj. apply put_some. by apply H3.
  - intros j Hj. apply put_some. apply Hin in Hj as [Hj|[-> _]]; [by apply H4|by eexists].
  - rewrite Hdis. destruct dispose; [by apply NoDup_extend|by rewrite app_nil_r].
Qed.

(** A new record takes the place of a key that is free. *)
Lemma add_ok i r g : registry_ok g → rg_heap g !! i = Some r → dget (mr_key r) (rg_records g) = None →
  lf_installed (mr_life r) = false →
  registry_ok {| rg_heap := put i set_installed (rg_heap g); rg_records := dset (mr_key r) i (rg_records g); rg_pins := rg_pins g;
                 rg_disposing := rg_disposing g; rg_cleaned := rg_cleaned g |}.
Proof.
  intros [H1 H2 H3 H4 H5] Hi Hk Hn. destruct (H1 i r Hi) as [A B C D]. destruct (B Hn) as [Hret Hz]. split; [| | | |done].
  - intros j r'. cbn. rewrite lookup_put. case_decide as E.
    + subst j. rewrite Hi. intros [= <-]. split; cbn; [done|done| |done]. rewrite dget_dset, decide_True by done. naive_solver.
    + intros Hj. destruct (H1 j r' Hj) as [A' B' C' D']. split; cbn; [done..| |done]. rewrite dget_dset. case_decide as Ek; [|done].
      rewrite <-C', Ek, Hk. naive_solver.
  - intros k j. cbn. rewrite dget_dset. case_decide as Ek.
    + intros [= <-]. rewrite lookup_put, decide_True, Hi by done. cbn. by eexists.
    + intros Hkj. destruct (H2 k j Hkj) as (r' & Hr & Hrk). rewrite lookup_put. case_decide as E; [|by eauto]. subst j. rewrite Hr. cbn. by eexists.
  - intros j Hj. apply put_some. by apply H3.
  - intros j Hj. apply put_some. by apply H4.
Qed.

Lemma install_ok i g g' : registry_ok g → install i g = (Ok (), g') → registry_ok g'.
Proof.
  intros Hok H. unfold install in H. rewrite se_bind_eq in H. cbn [sget] in H. destruct (rg_heap g !! i) as [r|] eqn:Hi; [|done].
  ok_inv H. bool_prop. match goal with E : _ || _ = false |- _ => apply orb_false_iff in E as [? Hn] | _ => idtac end.
  assert (lf_installed (mr_life r) = false) as Hn' by done. pose proof (remove_ok (mr_key r) g Hok) as Hrm.
  assert (rg_heap (remove (mr_key r) g) !! i = Some r) as Hi2.
  { unfold remove. destruct (dget (mr_key r) (rg_records g)) as [o|] eqn:Hk; [|done]. cbn. rewrite lookup_put. case_decide as E; [|done].
    subst o. destruct (gk_records _ Hok i r Hi) as [_ _ C _]. apply C in Hk as [? _]. congruence. }
  assert (dget (mr_key r) (rg_records (remove (mr_key r) g)) = None) as Hk2.
  { unfold remove. destruct (retire_old (dget (mr_key r) (rg_records g)) (rg_heap g)). cbn [rg_records]. by rewrite dget_ddel, decide_True. }
  pose proof (add_ok i r _ Hrm Hi2 Hk2 Hn') as Hadd. eapply registry_ext; [..|exact Hadd]; unfold remove in *;
    destruct (dget (mr_key r) (rg_records g)) as [o|] eqn:Hk; cbn [retire_old _retire] in H |- *; unfold sput in H; injection H as <-; cbn [rg_heap rg_records rg_pins rg_disposing rg_cleaned].
  all: try done.
  all: try (intros k; rewrite !dget_dset, dget_ddel; repeat case_decide; done).
  - intros j. rewrite !lookup_put. destruct (gk_records _ Hok i r Hi) as [_ _ C _].
    assert (o ≠ i) by (intros ->; apply C in Hk as [? _]; congruence). repeat case_decide; subst; done.
  - unfold disposed. cbn. unfold life_of. rewrite !lookup_put.
    destruct (gk_records _ Hok i r Hi) as [_ _ C _]. assert (i ≠ o) by (intros ->; apply C in Hk as [? _]; congruence).
    by repeat case_decide.
Qed.
Lemma rstep_ok g g' : registry_ok g → rstep g g' → registry_ok g'.
Proof.
  intros Hok []; [by apply load_ok|by eapply install_ok|by apply remove_ok|by eapply pin_ok|by apply unpin_ok|by apply cleanup_ok].
Qed.

Lemma empty_ok : registry_ok empty_registry.
Proof.
  split; try done; [intros i Hi; cbn in Hi; multiset_solver|intros i Hi; by apply elem_of_nil in Hi|constructor].
Qed.

(** C21: In every interleaving of loads, installations, removals and requests: a key is served by one record, of that key,
    installed and never retired; a record's cleanup is decided at most once, never while a request holds it or a key still
    names it, so no request ever runs on a model that was cleaned up; and every retired record nobody holds is cleaned up. *)
Theorem registry_lifecycle g : rtc rstep empty_registry g →
  NoDup (rg_disposing g ++ rg_cleaned g) ∧
  (∀ i, i ∈ rg_disposing g ++ rg_cleaned g → (i ∉ rg_pins g) ∧ (∀ k, dget k (rg_records g) ≠ Some i)) ∧
  (∀ i r, rg_heap g !! i = Some r → lf_retired (mr_life r) = true → i ∉ rg_pins g → i ∈ rg_disposing g ++ rg_cleaned g) ∧
  (∀ k i, dget k (rg_records g) = Some i → ∃ r, rg_heap g !! i = Some r ∧ mr_key r = k ∧ lf_retired (mr_life r) = false) ∧
  (∀ i r, rg_heap g !! i = Some r → lf_refs (mr_life r) = Z.of_nat (multiplicity i (rg_pins g))).
Proof.
  intros Hs. assert (registry_ok g) as Hok.
  { apply (rtc_ind_r registry_ok) in Hs; [done|apply empty_ok|]. intros y z _ Hyz Hy. by eapply rstep_ok. }
  assert (∀ i, (multiplicity i (rg_pins g) = 0)%nat ↔ (i ∉ rg_pins g)) as Hm.
  { intros i. rewrite elem_of_multiplicity. lia. }
  split; [apply Hok|]. split; [|split; [|split]].
  - intros i Hd. destruct (gk_bound _ Hok i Hd) as [r Hr]. destruct (gk_records _ Hok i r Hr) as [A B C D].
    destruct (proj1 D Hd) as [Hret Hz]. split; [apply Hm; lia|]. intros k Hk. destruct (gk_entries _ Hok k i Hk) as (r2 & Hr2 & Hkey).
    rewrite Hr in Hr2. injection Hr2 as <-. rewrite <-Hkey in Hk. destruct (proj1 C Hk). congruence.
  - intros i r Hr Hret Hp. destruct (gk_records _ Hok i r Hr) as [A B C D]. apply D. split; [done|]. rewrite A. apply Hm in Hp. lia.
  - intros k i Hk. destruct (gk_entries _ Hok k i Hk) as (r & Hr & Hkey). exists r. split; [done|]. split; [done|].
    destruct (gk_records _ Hok i r Hr) as [A B C D]. rewrite <-Hkey in Hk. by destruct (proj1 C Hk).
  - intros i r Hr. by destruct (gk_records _ Hok i r Hr).
Qed.

(** ** Loading *)

Lemma py_eq_str_iff v t : py_eq v (JStr t) = true ↔ v = JStr t.
Proof. split; [apply py_eq_str_r|intros ->; by apply bool_decide_eq_true]. Qed.

Lemma compatible_iff r s : incompatibility r s = None ↔ ∀ k v w, (k, (v, w)) ∈ checks r s → v = JStr w.
Proof.
  unfold incompatibility. rewrite fmap_None, find_None. split.
  - intros H k v w Hin. apply H in Hin. cbn in Hin. apply negb_false_iff in Hin. by apply py_eq_str_iff.
  - intros H [k [v w]] Hin. apply H in Hin. cbn. apply negb_false_iff. by apply py_eq_str_iff.
Qed.

(** A record is loaded only from the file its identity names, from exactly the bytes its sidecar's digest covers, and it
    serves a request only when the namespace, the name, the metric, the query's hash, the contract and the objects' UIDs are
    those it was trained for. *)
Theorem loaded_record_sound (loader : string → res M) name data sidecar r s : load_record loader name data sidecar = Ok r → incompatibility r s = None →
  artifact_key name = Some (model_key (rs_namespace s) (rs_name s) (rs_metric s)) ∧ mr_key r = model_key (rs_namespace s) (rs_name s) (rs_metric s) ∧
  rs_metric s = "requests" ∧ rs_contract s = CONTRACT ∧
  loader data = Ok (mr_model r) ∧
  oget "artifact_sha256" (mr_meta r) = JStr (sha256_hex data) ∧ oget "metric_query_sha256" (mr_meta r) = JStr (rs_sha256 s) ∧
  oget "pa_uid" (mr_meta r) = JStr (rs_autoscaler_uid s) ∧ oget "target_uid" (mr_meta r) = JStr (rs_target_uid s) ∧
  mr_life r = new_life.
Proof.
  unfold load_record. destruct (artifact_key name) as [key|]; [|done]. destruct sidecar as [t|]; [|done].
  destruct (loads t) as [[| | | | | |meta]|]; try done. intros H Hc. ok_inv H. bool_prop. subst r.
  pose proof (proj1 (compatible_iff _ _) Hc) as Hf. cbn [checks mr_namespace mr_name mr_metric mr_meta] in Hf.
  assert (∀ k, k ∈ REQUIRED_META → oget k meta = JStr (str_of (oget k meta))) as Hstr.
  { intros k Hk. match goal with E : forallb _ REQUIRED_META = true |- _ => rewrite forallb_forall in E; apply list_elem_of_In in Hk; specialize (E k Hk) end.
    by destruct (oget k meta). }
  assert (JStr (str_of (oget "namespace" meta)) = JStr (rs_namespace s)) as [= E1] by (eapply Hf; list_member).
  assert (JStr (str_of (oget "name" meta)) = JStr (rs_name s)) as [= E2] by (eapply Hf; list_member).
  assert (JStr (str_of (oget "metric" meta)) = JStr (rs_metric s)) as [= E3] by (eapply Hf; list_member).
  assert (oget "contract" meta = JStr (rs_contract s)) as E4 by (eapply Hf; list_member).
  assert (oget "artifact_sha256" meta = JStr (sha256_hex data)) as E5 by (rewrite Hstr by list_member; congruence).
  cbn [mr_key mr_model mr_meta mr_life]. rewrite E1, E2, E3, E4 in *. cbn [str_of] in *.
  repeat split; try done; try (eapply Hf; list_member); congruence.
Qed.
End registry.

(** * Two versions of one model, and a request that outlives the first *)

Definition demo_bytes : string := "pickled model, first version".
Definition demo_key : string := model_key "shop" "web" "requests".
Definition demo_sha : string := sha256_hex "sum(rate(http_requests_total[1m]))".
Definition demo_meta : list (string * json) :=
  [("namespace", JStr "shop"); ("name", JStr "web"); ("metric", JStr "requests"); ("metric_query_sha256", JStr demo_sha);
   ("contract", JStr CONTRACT); ("pa_uid", JStr "pa-1"); ("target_uid", JStr "deploy-1");
   ("artifact_sha256", JStr (sha256_hex demo_bytes))].
Definition demo_sidecar : string := match canonical_json (JObj demo_meta) with Ok s => s | Raise _ => EmptyString end.
Definition demo_signal : ResolvedSignal := {|
  rs_namespace := "shop"; rs_name := "web"; rs_metric := "requests"; rs_query := "sum(rate(http_requests_total[1m]))";
  rs_sha256 := demo_sha; rs_contract := CONTRACT; rs_autoscaler_uid := "pa-1"; rs_target_uid := "deploy-1"; rs_generation := 3 |}.
Definition demo_file : string := "lstm_" +:+ demo_key +:+ ".pkl".
Definition demo_record : ModelRecord (M := string) :=
  match load_record Ok demo_file demo_bytes (Some demo_sidecar) with
  | Ok r => r
  | Raise _ => {| mr_key := EmptyString; mr_namespace := EmptyString; mr_name := EmptyString; mr_metric := EmptyString;
                  mr_model := EmptyString; mr_meta := []; mr_artifact_sha256 := EmptyString; mr_life := new_life |}
  end.

Lemma demo_loads : load_record Ok demo_file demo_bytes (Some demo_sidecar) = Ok demo_record.
Proof. vm_compute. reflexivity. Qed.
Lemma demo_compatible : incompatibility demo_record demo_signal = None.
Proof. vm_compute. reflexivity. Qed.

Example replaced_during_loading :
  load_record (M := string) Ok demo_file "other bytes" (Some demo_sidecar) =
    Raise (ModelIncompatible "artifact digest does not match its sidecar").
Proof. vm_compute. reflexivity. Qed.
Example another_signal :
  incompatibility demo_record {| rs_namespace := "shop"; rs_name := "web"; rs_metric := "requests"; rs_query := EmptyString;
    rs_sha256 := sha256_hex EmptyString; rs_contract := CONTRACT; rs_autoscaler_uid := "pa-1"; rs_target_uid := "deploy-1";
    rs_generation := 4 |} = Some "metric_query_sha256".
Proof. vm_compute. reflexivity. Qed.

Lemma loaded_record_sound_witness : artifact_key demo_file = Some (model_key "shop" "web" "requests").
Proof. apply (loaded_record_sound Ok demo_file demo_bytes (Some demo_sidecar) demo_record demo_signal demo_loads demo_compatible). Defined.

Definition demo_first : registry := (install 0 (load demo_record empty_registry)).2.
Definition demo_pinned : registry := (pin demo_key demo_first).2.
Definition demo_second : registry := (install 1 (load demo_record demo_pinned)).2.
Definition demo_done : registry := cleanup 0 0 (unpin 0 demo_second).

(** Replaced under the request, the first record waits for it. *)
Example not_under_a_request : (rg_disposing demo_second, rg_disposing (unpin 0 demo_second)) = ([], [0%nat]).
Proof. vm_compute. reflexivity. Qed.
Example never_again : (install 0 demo_done).1 = Raise (PyValueError "the record was already installed once").
Proof. vm_compute. reflexivity. Qed.

Lemma demo_lifecycle : rtc (rstep (M := string)) empty_registry demo_done.
Proof.
  eapply rtc_l; [apply (rs_load _ demo_record)|]. eapply rtc_l; [apply (rs_install _ 0 demo_first); vm_compute; reflexivity|].
  eapply rtc_l; [apply (rs_pin _ demo_key 0 demo_pinned); vm_compute; reflexivity|].
  eapply rtc_l; [apply (rs_load _ demo_record)|]. eapply rtc_l; [apply (rs_install _ 1 demo_second); vm_compute; reflexivity|].
  eapply rtc_l; [apply (rs_unpin _ 0); apply (bool_decide_unpack _); vm_compute; reflexivity|].
  eapply rtc_l; [apply (rs_cleanup _ 0 0); vm_compute; reflexivity|]. apply rtc_refl.
Qed.

Lemma registry_lifecycle_witness : NoDup (rg_disposing demo_done ++ rg_cleaned demo_done) ∧ 0%nat ∉ rg_pins demo_done.
Proof.
  destruct (registry_lifecycle demo_done demo_lifecycle) as (H1 & H2 & _). split; [exact H1|].
  apply (H2 0%nat). apply (bool_decide_unpack _). vm_compute. reflexivity.
Defined.
