(* ===== verification/Accuracy.v ===== *)
(** [ml-engine/api/accuracy.py]: how forecasts are scored against what was observed. A time is a number of microseconds since
    the epoch, with the offset of its zone when it has one; rates are floats. The clock that stamps an entry is an argument. *)
From Stdlib Require Import SpecFloat.
From S2P Require Import Prelude Float64 Sha256 Json Datetimes.

Definition WINDOW_SIZE : Z := 144.
Definition MIN_TRAFFIC_RPM : f64 := f64_of_Z 1000.
Definition PENDING_SIZE : Z := 512.

Definition cents : f64 := f64_of_dec false 1 (-2).

(** ** The tracker *)

Definition series : Type := string * string * string.
Definition queue_key : Type := series * option string.
Definition comparison : Type := Z * f64 * f64.             (* timestamp, predicted, actual *)

Record AccuracyTracker := {
  at_history : list (series * list comparison);
  at_last_predictions : list (series * (Z * f64));
  at_component_history : list (series * string * list comparison);
  at_pending : list (queue_key * list (Z * f64));
}.

Definition new_tracker : AccuracyTracker :=
  {| at_history := []; at_last_predictions := []; at_component_history := []; at_pending := [] |}.

(** [deque(maxlen=n).append(x)] *)
Definition push {A} (n : Z) (l : list A) (x : A) : list A := last_n n (l ++ [x]).

Definition record (key : series) (now : Z) (predicted actual : f64) (t : AccuracyTracker) : AccuracyTracker := {|
  at_history := dset key (push WINDOW_SIZE (or_default [] (dget key (at_history t))) (now, predicted, actual)) (at_history t);
  at_last_predictions := at_last_predictions t; at_component_history := at_component_history t; at_pending := at_pending t |}.

Definition record_component (key : series) (component : string) (now : Z) (predicted actual : f64) (t : AccuracyTracker) : AccuracyTracker := {|
  at_history := at_history t; at_last_predictions := at_last_predictions t;
  at_component_history := dset (key, component) (push WINDOW_SIZE (or_default [] (dget (key, component) (at_component_history t)))
                                                   (now, predicted, actual)) (at_component_history t);
  at_pending := at_pending t |}.

Record stats := { st_value : option f64; st_scored : Z; st_recorded : Z; st_availability : option f64; st_measured : bool }.

(** The error over the entries whose traffic counts, [mape_stats] and [component_mape_stats] alike. *)
Definition mape_of (entries : list comparison) : res stats :=
  let valid := filter (λ c : comparison, fle MIN_TRAFFIC_RPM c.2 = true) entries in
  let recorded := Z.of_nat (length entries) in let scored := Z.of_nat (length valid) in
  availability ← (if recorded =? 0 then Ok None else Some <$> py_round (int_div scored recorded) 4);
  let out v m := {| st_value := v; st_scored := scored; st_recorded := recorded; st_availability := availability; st_measured := m |} in
  if scored <? 1 then Ok (out None false) else
  let denominator := py_sum ((λ c : comparison, c.2) <$> valid) in
  if flt denominator cents then Ok (out None false) else
  let numerator := py_sum ((λ c : comparison, fabs (c.2 ⊖ c.1.2)) <$> valid) in
  value ← py_round ((numerator ⊘ denominator) ⊗ f64_of_Z 100) 2;
  Ok (out (Some value) true).

Definition mape_stats (key : series) (t : AccuracyTracker) : res stats := mape_of (or_default [] (dget key (at_history t))).
Definition get_mape (key : series) (t : AccuracyTracker) : res (option f64) := st_value <$> mape_stats key t.
Definition component_mape_stats (key : series) (component : string) (t : AccuracyTracker) : res stats :=
  mape_of (or_default [] (dget (key, component) (at_component_history t))).
Definition get_component_mape (key : series) (component : string) (t : AccuracyTracker) : res (option f64) :=
  st_value <$> component_mape_stats key component t.

Definition mae_stats (key : series) (t : AccuracyTracker) : res stats :=
  let entries := or_default [] (dget key (at_history t)) in
  let n := Z.of_nat (length entries) in
  let out v m := {| st_value := v; st_scored := n; st_recorded := n;
                    st_availability := if n =? 0 then None else Some f1; st_measured := m |} in
  if n <? 1 then Ok (out None false) else
  value ← py_round (py_sum ((λ c : comparison, fabs (c.2 ⊖ c.1.2)) <$> entries) ⊘ f64_of_Z n) 2;
  Ok (out (Some value) true).
Definition get_mae (key : series) (t : AccuracyTracker) : res (option f64) := st_value <$> mae_stats key t.

Definition record_and_update (key : series) (now : Z) (predicted actual : f64) (t : AccuracyTracker)
    : res (option f64 * option f64) * AccuracyTracker :=
  let t' := record key now predicted actual t in
  (mape ← get_mape key t'; mae ← get_mae key t'; Ok (mape, mae), t').

Definition store_prediction (key : series) (now : Z) (v : f64) (t : AccuracyTracker) : AccuracyTracker := {|
  at_history := at_history t; at_last_predictions := dset key (now, v) (at_last_predictions t);
  at_component_history := at_component_history t; at_pending := at_pending t |}.
Definition get_last_prediction (key : series) (t : AccuracyTracker) : option f64 := snd <$> dget key (at_last_predictions t).

(** ** Forecasts waiting for their target *)

(** Times stay within the years that a [datetime] can hold when their zone is taken off. *)
Definition _as_utc (d : datetime) : Z := dt_local d - or_default 0 (dt_offset d).

Definition set_pending (key : queue_key) (q : list (Z * f64)) (t : AccuracyTracker) : AccuracyTracker := {|
  at_history := at_history t; at_last_predictions := at_last_predictions t; at_component_history := at_component_history t;
  at_pending := dset key q (at_pending t) |}.
Definition queued (key : queue_key) (t : AccuracyTracker) : list (Z * f64) := or_default [] (dget key (at_pending t)).

Definition store_forecast (key : queue_key) (target_at : datetime) (v : f64) (t : AccuracyTracker) : AccuracyTracker :=
  set_pending key (push PENDING_SIZE (queued key t) (_as_utc target_at, v)) t.

(** [(obs - target_at).total_seconds()] *)
Definition delta (obs target_at : Z) : f64 := int_div (obs - target_at) 1000000.

(** One queued forecast: not due, due and scored, or due too long ago. *)
Definition due (obs tolerance : Z) (p : Z * f64) : bool := negb (flt (delta obs p.1) f0).
Definition fresh (obs tolerance : Z) (p : Z * f64) : bool := fle (delta obs p.1) (f64_of_Z tolerance).

Fixpoint sort_out (obs tolerance : Z) (pend : list (Z * f64)) (matured : list f64) (keep : list (Z * f64)) : list f64 * list (Z * f64) :=
  match pend with
  | [] => (matured, keep)
  | p :: rest =>
      if negb (due obs tolerance p) then sort_out obs tolerance rest matured (push PENDING_SIZE keep p)
      else if fresh obs tolerance p then sort_out obs tolerance rest (matured ++ [p.2]) keep
      else sort_out obs tolerance rest matured keep
  end.

Definition take_matured (key : queue_key) (observation_at : datetime) (tolerance : Z) (t : AccuracyTracker) : list f64 * AccuracyTracker :=
  match queued key t with
  | [] => ([], t)
  | pend => let '(matured, keep) := sort_out (_as_utc observation_at) tolerance pend [] [] in (matured, set_pending key keep t)
  end.

(** * What scoring guarantees *)

#[local] Arguments push : simpl never.

Lemma push_length {A} n (l : list A) x : 0 < n → Z.of_nat (length (push n l x)) ≤ n.
Proof. intros Hn. unfold push. pose proof (last_n_length n (l ++ [x]) Hn). lia. Qed.

Lemma push_all {A} n (l : list A) x : Z.of_nat (length l) < n → push n l x = l ++ [x].
Proof. intros Hn. apply last_n_all. rewrite length_app. cbn. lia. Qed.

Lemma push_submseteq {A} n (l : list A) x : push n l x ⊆+ x :: l.
Proof. rewrite Permutation_cons_append. destruct (last_n_suffix n (l ++ [x])) as [p Hp]. rewrite Hp at 1. apply submseteq_inserts_l. done. Qed.

(** The forecasts an observation scores, and those it leaves waiting. *)
Definition scored (obs tolerance : Z) (q : list (Z * f64)) : list (Z * f64) := filter (λ p, due obs tolerance p && fresh obs tolerance p) q.
Definition waiting (obs tolerance : Z) (q : list (Z * f64)) : list (Z * f64) := filter (λ p, negb (due obs tolerance p)) q.

Lemma sort_out_exact obs tolerance q : ∀ m k, Z.of_nat (length k) + Z.of_nat (length q) ≤ PENDING_SIZE →
  sort_out obs tolerance q m k = (m ++ (scored obs tolerance q).*2, k ++ waiting obs tolerance q).
Proof.
  unfold scored, waiting. induction q as [|p q IH]; intros m k Hl; [by rewrite !app_nil_r|]. cbn [sort_out]. rewrite !filter_bool_cons.
  cbn [length] in Hl. destruct (due obs tolerance p); cbn [negb andb].
  - destruct (fresh obs tolerance p); rewrite IH by lia; [|done]. cbn. by rewrite <-app_assoc.
  - rewrite push_all by lia. rewrite IH by (rewrite length_app; cbn; lia). by rewrite <-app_assoc.
Qed.

Lemma scored_waiting obs tolerance q : scored obs tolerance q ++ waiting obs tolerance q ⊆+ q.
Proof.
  unfold scored, waiting. induction q as [|p q IH]; [done|]. rewrite !filter_bool_cons. destruct (due obs tolerance p); cbn [negb andb].
  - destruct (fresh obs tolerance p); cbn; [by constructor|by apply submseteq_cons].
  - rewrite <-Permutation_middle. by constructor.
Qed.

(** What callers do with a tracker. *)
Inductive op :=
| OpRecord (key : series) (now : Z) (predicted actual : f64)
| OpComponent (key : series) (component : string) (now : Z) (predicted actual : f64)
| OpPrediction (key : series) (now : Z) (v : f64)
| OpStore (key : queue_key) (target_at : datetime) (v : f64)
| OpTake (key : queue_key) (observation_at : datetime) (tolerance : Z).

Definition apply_op (o : op) (t : AccuracyTracker) : AccuracyTracker :=
  match o with
  | OpRecord key now p a => record key now p a t
  | OpComponent key c now p a => record_component key c now p a t
  | OpPrediction key now v => store_prediction key now v t
  | OpStore key target v => store_forecast key target v t
  | OpTake key obs tolerance => (take_matured key obs tolerance t).2
  end.
Definition run (ops : list op) (t : AccuracyTracker) : AccuracyTracker := foldl (λ t o, apply_op o t) t ops.

(** The forecasts stored under a key, and those an operation scores. *)
Definition stored_by (key : queue_key) (o : op) : list (Z * f64) :=
  match o with OpStore key' target v => if bool_decide (key' = key) then [(_as_utc target, v)] else [] | _ => [] end.
Definition scored_by (key : queue_key) (o : op) (t : AccuracyTracker) : list (Z * f64) :=
  match o with
  | OpTake key' obs tolerance => if bool_decide (key' = key) then scored (_as_utc obs) tolerance (queued key t) else []
  | _ => []
  end.
Fixpoint all_scored (key : queue_key) (ops : list op) (t : AccuracyTracker) : list (Z * f64) :=
  match ops with [] => [] | o :: ops => scored_by key o t ++ all_scored key ops (apply_op o t) end.

Record tracker_ok (t : AccuracyTracker) : Prop := {
  tk_history : Forall (λ kv, Z.of_nat (length (snd kv)) ≤ WINDOW_SIZE) (at_history t);
  tk_component : Forall (λ kv, Z.of_nat (length (snd kv)) ≤ WINDOW_SIZE) (at_component_history t);
  tk_pending : Forall (λ kv, Z.of_nat (length (snd kv)) ≤ PENDING_SIZE) (at_pending t);
}.

Lemma Forall_dset {K V} `{EqDecision K} (P : K * V → Prop) k v d : Forall P d → P (k, v) → Forall P (dset k v d).
Proof.
  intros Hd Hv. apply Forall_forall. intros [k' v'] H. apply elem_of_dset in H as [[-> ->]|H]; [done|].
  by apply (proj1 (Forall_forall _ _) Hd).
Qed.

Lemma queued_bounded key t : tracker_ok t → Z.of_nat (length (queued key t)) ≤ PENDING_SIZE.
Proof.
  intros Hok. unfold queued. destruct (dget key (at_pending t)) as [q|] eqn:E; [|done]. apply dget_elem_of in E.
  exact (proj1 (Forall_forall _ _) (tk_pending _ Hok) _ E).
Qed.

Lemma take_exact key obs tolerance t : tracker_ok t →
  (take_matured key obs tolerance t).1 = (scored (_as_utc obs) tolerance (queued key t)).*2 ∧
  ∀ key', queued key' (take_matured key obs tolerance t).2 =
            if decide (key' = key) then waiting (_as_utc obs) tolerance (queued key t) else queued key' t.
Proof.
  intros Hok. pose proof (queued_bounded key t Hok) as Hl. unfold take_matured. destruct (queued key t) as [|p q] eqn:Hq.
  - split; [done|]. intros key'. cbn. case_decide; [by subst|done].
  - rewrite sort_out_exact by (cbn [length] in *; lia). split; [done|]. intros key'. unfold queued, set_pending. cbn. rewrite dget_dset. by case_decide.
Qed.

Lemma apply_op_ok o t : tracker_ok t → tracker_ok (apply_op o t).
Proof.
  intros Hok. pose proof Hok as [H1 H2 H3].
  destruct o; cbn [apply_op].
  1-4: split; cbn; try done; (apply Forall_dset; [done|]); cbn [snd]; by apply push_length.
  pose proof (queued_bounded key t Hok) as Hl. unfold take_matured. destruct (queued key t) as [|p q] eqn:E; [done|].
  rewrite sort_out_exact by (cbn [length] in *; lia). split; [done..|]. apply Forall_dset; [done|]. cbn [snd app].
  etrans; [|exact Hl]. apply inj_le, length_filter.
Qed.

Lemma scored_step key o t : tracker_ok t → scored_by key o t ++ queued key (apply_op o t) ⊆+ stored_by key o ++ queued key t.
Proof.
  intros Hok. destruct o as [| | |key' target v|key' obs tolerance]; cbn [scored_by stored_by app]; try done.
  - cbn. unfold queued at 1, store_forecast, set_pending. cbn. rewrite dget_dset. case_bool_decide as E.
    + subst. rewrite decide_True by done. apply push_submseteq.
    + by rewrite decide_False by done.
  - cbn. rewrite (proj2 (take_exact key' obs tolerance t Hok) key). case_bool_decide as E.
    + subst. rewrite decide_True by done. apply scored_waiting.
    + by rewrite decide_False by done.
Qed.

(** Whatever is stored, recorded and observed, from a new tracker on: the windows and queues stay within their sizes; no
    forecast is scored twice, or without having been stored, whatever is still waiting included; and the next observation
    scores exactly the forecasts in the queue whose target is not after it and at most the tolerance before it, leaves those
    whose target is still to come, and touches no other queue. *)
Theorem scored_once ops key obs tolerance : let t := run ops new_tracker in
  tracker_ok t ∧
  all_scored key ops new_tracker ++ queued key t ⊆+ concat (stored_by key <$> ops) ∧
  (take_matured key obs tolerance t).1 = (filter (λ p, due (_as_utc obs) tolerance p && fresh (_as_utc obs) tolerance p) (queued key t)).*2 ∧
  queued key (take_matured key obs tolerance t).2 = filter (λ p, negb (due (_as_utc obs) tolerance p)) (queued key t) ∧
  ∀ key', key' ≠ key → queued key' (take_matured key obs tolerance t).2 = queued key' t.
Proof.
  intros t. assert (∀ ops t0, tracker_ok t0 → tracker_ok (run ops t0) ∧
    all_scored key ops t0 ++ queued key (run ops t0) ⊆+ concat (stored_by key <$> ops) ++ queued key t0) as H.
  { clear. induction ops as [|o ops IH]; intros t0 Ht; [done|]. destruct (IH _ (apply_op_ok o _ Ht)) as [H1 H2]. split; [exact H1|].
    cbn [run foldl all_scored fmap list_fmap concat]. rewrite <-!app_assoc. etrans; [apply submseteq_skips_l, H2|].
    rewrite Permutation_app_swap_app. etrans; [apply submseteq_skips_l, scored_step, Ht|]. by rewrite Permutation_app_swap_app. }
  destruct (H ops new_tracker) as [Hok Hs]; [by split|]. fold t in Hok, Hs. split; [done|].
  split; [by rewrite app_nil_r in Hs|]. destruct (take_exact key obs tolerance t Hok) as [E1 E2]. split; [exact E1|].
  split; [by rewrite E2, decide_True|]. intros key' Hne. by rewrite E2, decide_False.
Qed.

(** An error figure is there only when something was measured: never zero for lack of data. *)
Lemma measured_iff l s : mape_of l = Ok s → (st_measured s = true ↔ is_Some (st_value s)) ∧ (st_measured s = true → 1 ≤ st_scored s).
Proof.
  unfold mape_of. intros H. ok_inv H. cbn beta zeta in H.
  destruct (Z.of_nat (length (filter _ l)) <? 1) eqn:Hn; [injection H as <-; split; [by split; [|intros [? [=]]]|done]|].
  destruct (flt _ cents); [injection H as <-; split; [by split; [|intros [? [=]]]|done]|]. ok_inv H. subst s.
  cbn [st_measured st_value st_scored]. bool_prop. split; [by split|lia].
Qed.

Definition demo_series : series := ("web", "shop", "requests").
Definition at_utc (s : Z) : datetime := {| dt_local := s * 1000000; dt_offset := None |}.
Definition demo_tracker : AccuracyTracker :=
  run [OpStore (demo_series, None) (at_utc 600) (f64_of_Z 1200); OpStore (demo_series, None) {| dt_local := 4500000000; dt_offset := Some 3600000000 |} (f64_of_Z 1300);
       OpStore (demo_series, None) (at_utc 1200) (f64_of_Z 1400)] new_tracker.

(** At 15:00 after the epoch: the forecast of 10:00 is as old as the tolerance allows, that of 15:00 (an hour ahead of UTC) is
    due, that of 20:00 waits; five seconds later the first would have been dropped. *)
Example demo_taken : (take_matured (demo_series, None) (at_utc 900) 300 demo_tracker).1 = [f64_of_Z 1200; f64_of_Z 1300].
Proof. vm_compute. reflexivity. Qed.
Example demo_dropped : (take_matured (demo_series, None) (at_utc 905) 300 demo_tracker).1 = [f64_of_Z 1300].
Proof. vm_compute. reflexivity. Qed.
Example demo_early : (take_matured (demo_series, None) (at_utc 599) 300 demo_tracker).1 = [].
Proof. vm_compute. reflexivity. Qed.
Example demo_mape : st_value <$> mape_of [(0, f64_of_Z 1100, f64_of_Z 1000); (1, f64_of_Z 1, f64_of_Z 2)] = Ok (Some (f64_of_Z 10)).
Proof. vm_compute. reflexivity. Qed.
