(* ===== verification/Gapfill.v ===== *)
(** [ml-engine/data/gapfill.py]: the validity mask and the bounded filling of interior gaps in a ten-minute series. Times
    are epoch seconds: where the record holds an ISO text, the model holds the time it stands for, and a mask is given with
    its times already read. *)
From Stdlib Require Import SpecFloat.
From S2P Require Import Prelude Float64.

Definition ALGORITHM : string := "linear-v1".
Definition GRID_S : Z := 600.
Definition MAX_MISSING_SLOTS : Z := 3.
Definition MAX_ENDPOINT_GAP_S : Z := (MAX_MISSING_SLOTS + 1) * GRID_S.
Definition MAX_FILL_FRACTION : f64 := f64_of_dec false 5 (-2).

Definition point : Type := Z * f64.

(** The order of [sorted] on pairs. *)
Definition point_lt (a b : point) : bool := (a.1 <? b.1) || ((a.1 =? b.1) && (a.2 <ᶠ b.2)).
Definition point_leb (a b : point) : bool := negb (point_lt b a).

(** * The validity mask *)

Record mask := { mk_version : Z; mk_source : option string; mk_intervals : list (Z * Z * string); mk_history_start : option Z }.

(** [load_mask(None)] *)
Definition no_mask : mask := {| mk_version := 0; mk_source := None; mk_intervals := []; mk_history_start := None |}.

Record mask_info := {
  mi_version : Z; mi_source : option string; mi_role : string; mi_history_start : option Z; mi_dropped_before : Z;
  mi_dropped_in : Z; mi_intervals : list (Z * Z * string * Z);
}.

Definition inside (t : Z) (i : Z * Z * string) : bool := (i.1.1 <=? t) && (t <=? i.1.2).

Record masking := { ms_kept : list point; ms_before : Z; ms_in : Z; ms_per : list Z }.

Definition mask_step (start : option Z) (intervals : list (Z * Z * string)) (st : masking) (p : point) : masking :=
  if match start with Some s => p.1 <? s | None => false end
  then {| ms_kept := ms_kept st; ms_before := ms_before st + 1; ms_in := ms_in st; ms_per := ms_per st |}
  else match list_find (λ i, inside p.1 i) intervals with
       | Some (k, _) => {| ms_kept := ms_kept st; ms_before := ms_before st; ms_in := ms_in st + 1; ms_per := alter (λ n, n + 1) k (ms_per st) |}
       | None => {| ms_kept := ms_kept st ++ [p]; ms_before := ms_before st; ms_in := ms_in st; ms_per := ms_per st |}
       end.

Definition apply_mask (points : list point) (m : mask) (role : string) : list point * mask_info :=
  let benchmark := bool_decide (role = "benchmark") in
  let start := if benchmark then mk_history_start m else None in
  let st := foldl (mask_step start (mk_intervals m))
              {| ms_kept := []; ms_before := 0; ms_in := 0; ms_per := replicate (length (mk_intervals m)) 0 |}
              (sort_by point_leb points) in
  (ms_kept st,
   {| mi_version := mk_version m; mi_source := mk_source m; mi_role := role; mi_history_start := start;
      mi_dropped_before := ms_before st; mi_dropped_in := ms_in st; mi_intervals := combine (mk_intervals m) (ms_per st) |}).

Definition mask_intervals (m : mask) : list (Z * Z) := fst <$> mk_intervals m.

(** * Runs *)

Definition _partition (t : Z) (boundaries : list Z) : Z := Z.of_nat (length (filter (λ b, b <=? t) boundaries)).

Section runs.
Context (grid_s : Z).

(** Walking back from a point through its predecessors, nearest first, while they are one slot apart. *)
Fixpoint back (p : point) (before : list point) : list point :=
  match before with
  | q :: t => if p.1 - q.1 =? grid_s then back q t ++ [p] else [p]
  | [] => [p]
  end.

(** The predecessors of the last point at a time, nearest first, with that point. *)
Fixpoint seek (end_at : Z) (l : list point) : list point :=
  match l with p :: t => if p.1 =? end_at then l else seek end_at t | [] => [] end.

Definition _run_ending_at (series : list point) (end_at : Z) : list point :=
  match seek end_at (rev series) with p :: before => back p before | [] => [] end.

(** [_longest_run]'s loop, with [best] and [cur]. *)
Fixpoint longest_from (best cur series : list point) : list point :=
  match series with
  | [] => if (length best <? length cur)%nat then cur else best
  | p :: t =>
      match last cur with
      | Some q =>
          if p.1 - q.1 =? grid_s then longest_from best (cur ++ [p]) t
          else longest_from (if (length best <? length cur)%nat then cur else best) [p] t
      | None => longest_from best [p] t
      end
  end.
Definition _longest_run (series : list point) : list point := longest_from [] [] series.
End runs.

(** * Filling *)

Record gap := {
  g_start : Z; g_end : Z; g_missing : Z; g_left : point; g_right : point; g_endpoint_gap : Z; g_filled : bool;
  g_reason : option string; g_values : list point; g_algorithm : option string;
}.

Record fill_record := {
  fr_algorithm : string; fr_grid_seconds : Z; fr_max_missing_slots : Z; fr_max_endpoint_gap_s : Z; fr_max_fill_fraction : f64;
  fr_cutoff : option Z; fr_boundaries : list Z; fr_gaps_considered : list gap; fr_gaps_filled : Z; fr_slots_filled : Z;
  fr_window_points : Z; fr_fill_fraction : f64; fr_cap_removed : list Z; fr_window_start : option Z; fr_window_end : option Z;
}.

Section fill.
Context (cutoff : option Z) (boundaries : list Z) (grid_s max_missing : Z) (max_fill_fraction : f64).
Context (forbidden : list (Z * Z)) (end_at : option Z).

(** Why the gap between two observations is left alone. *)
Definition refusal (t0 t1 missing : Z) : option string :=
  if negb ((t1 - t0) mod grid_s =? 0) then Some "endpoints off grid"
  else if max_missing <? missing then Some "gap longer than the allowed slots"
  else if match cutoff with Some c => c <? t1 | None => false end then Some "right endpoint after the training cutoff"
  else if negb (bool_decide (boundaries = [])) && negb (_partition t0 boundaries =? _partition t1 boundaries)
    then Some "gap crosses a partition boundary"
  else if existsb (λ ab, (ab.1 <=? t1 - grid_s) && (t0 + grid_s <=? ab.2)) forbidden then Some "gap overlaps a validity-mask interval"
  else None.

Definition interpolate (p0 p1 : point) (missing k : Z) : point :=
  (p0.1 + k * grid_s, p0.2 ⊕ ((p1.2 ⊖ p0.2) ⊗ int_div k (missing + 1))).

Definition rounded (p : point) : res point := v ← py_round p.2 3; Ok (p.1, v).

(** One pair of neighbours: the slots between them that are filled, and what the record says. *)
Definition consider (st : list point * list gap) (ends : point * point) : res (list point * list gap) :=
  let '(filled, gaps) := st in let '(p0, p1) := ends in
  let '(t0, t1) := (p0.1, p1.1) in
  if t1 - t0 <=? grid_s then Ok st
  else
    raise_if grid_s =? 0 with ZeroDivisionError ;;
    let missing := (t1 - t0) / grid_s - 1 in
    let rec filled_ reason values algorithm :=
      {| g_start := t0 + grid_s; g_end := t1 - grid_s; g_missing := missing; g_left := p0; g_right := p1; g_endpoint_gap := t1 - t0;
         g_filled := filled_; g_reason := reason; g_values := values; g_algorithm := algorithm |} in
    match refusal t0 t1 missing with
    | Some why => Ok (filled, gaps ++ [rec false (Some why) [] None])
    | None =>
        let slots := interpolate p0 p1 missing <$> range 1 (missing + 1) 1 in
        shown ← mapM_res rounded slots;
        Ok (foldl (λ d p, dset p.1 p.2 d) filled slots, gaps ++ [rec true None shown (Some ALGORITHM)])
    end.

Definition _select (series : list point) : list point :=
  match end_at with Some e => _run_ending_at grid_s series e | None => _longest_run grid_s series end.

Definition merged (by_t filled : list point) : list point := sort_by point_leb (by_t ++ filled).

Definition count_filled (filled run : list point) : Z := Z.of_nat (length (filter (λ p, dhas p.1 filled) run)).

Definition latest_filled (filled run : list point) : option Z :=
  match filter (λ t, dhas t filled) run.*1 with [] => None | t :: l => Some (foldl Z.max t l) end.

Definition over_cap (filled run : list point) : bool :=
  negb (bool_decide (run = [])) && (max_fill_fraction ⊗ f64_of_Z (Z.of_nat (length run)) <ᶠ f64_of_Z (count_filled filled run)).

Definition holds_slot (t : Z) (g : gap) : bool := g_filled g && existsb (λ x, x.1 =? t) (g_values g).

Definition remove_gap (g : gap) : gap :=
  {| g_start := g_start g; g_end := g_end g; g_missing := g_missing g; g_left := g_left g; g_right := g_right g;
     g_endpoint_gap := g_endpoint_gap g; g_filled := false; g_reason := Some "removed: filled slots would exceed the cap";
     g_values := g_values g; g_algorithm := g_algorithm g |}.

(** [next(g for g in ...)], updated in place. *)
Fixpoint update_first {A} (p : A → bool) (f : A → A) (l : list A) : list A :=
  match l with x :: t => if p x then f x :: t else x :: update_first p f t | [] => [] end.

Record filling := { fi_filled : list point; fi_gaps : list gap; fi_removed : list Z; fi_run : list point }.

(** The cap's loop. *)
Fixpoint enforce (fuel : nat) (by_t : list point) (st : filling) : res filling :=
  match fuel with
  | O => Ok st
  | S n =>
      if over_cap (fi_filled st) (fi_run st) then
        t ← of_option (PyValueError "max() iterable argument is empty") (latest_filled (fi_filled st) (fi_run st));
        g ← of_option StopIteration (List.find (holds_slot t) (fi_gaps st));
        let filled := foldl (λ d x, ddel x.1 d) (fi_filled st) (g_values g) in
        enforce n by_t {| fi_filled := filled; fi_gaps := update_first (holds_slot t) remove_gap (fi_gaps st);
                          fi_removed := fi_removed st ++ [g_start g]; fi_run := _select (merged by_t filled) |}
      else Ok st
  end.

Definition fill_interior_gaps (points : list point) : res (list point * list bool * fill_record) :=
  let pts := sort_by point_leb points in
  let by_t := foldl (λ d p, dset p.1 p.2 d) [] pts in
  '(filled, gaps) ← foldM consider ([] : list point, [] : list gap) (combine pts (tail pts));
  st ← enforce (S (length gaps)) by_t {| fi_filled := filled; fi_gaps := gaps; fi_removed := []; fi_run := _select (merged by_t filled) |};
  let run := fi_run st in
  let n := count_filled (fi_filled st) run in
  fraction ← match run with [] => Ok f0 | _ => py_round (int_div n (Z.of_nat (length run))) 4 end;
  Ok (run, (λ p, dhas p.1 (fi_filled st)) <$> run,
      {| fr_algorithm := ALGORITHM; fr_grid_seconds := grid_s; fr_max_missing_slots := max_missing;
         fr_max_endpoint_gap_s := (max_missing + 1) * grid_s; fr_max_fill_fraction := max_fill_fraction; fr_cutoff := cutoff;
         fr_boundaries := boundaries; fr_gaps_considered := fi_gaps st;
         fr_gaps_filled := Z.of_nat (length (filter (λ g, g_filled g) (fi_gaps st))); fr_slots_filled := n;
         fr_window_points := Z.of_nat (length run); fr_fill_fraction := fraction; fr_cap_removed := fi_removed st;
         fr_window_start := fst <$> head run; fr_window_end := fst <$> last run |}).
End fill.

(** * The input window of a forecast *)

Record window_record := { wr_fill : fill_record; wr_latest_observed : Z; wr_latest_is_imputed : bool; wr_imputed : Z; wr_slots : Z }.

Definition check_inference_window (points : list point) (now sequence_length grid_s max_age_s : Z) (forbidden : list (Z * Z))
    : res (list point * window_record) :=
  let pts := sort_by point_leb points in
  last_p ← of_option (PyValueError "no input observations") (last pts);
  let last_t := last_p.1 in
  raise_if max_age_s <? now - last_t with PyValueError "latest observation is stale" ;;
  '(run, flags, rec) ← fill_interior_gaps (Some last_t) [] grid_s MAX_MISSING_SLOTS MAX_FILL_FRACTION forbidden (Some last_t) pts;
  raise_if match last run with Some p => negb (p.1 =? last_t) | None => true end
    with PyValueError "latest observation is not on the ten-minute grid" ;;
  raise_if Z.of_nat (length run) <? sequence_length with PyValueError "input window has too few contiguous slots" ;;
  let window := last_n sequence_length run in
  let wflags := last_n sequence_length flags in
  imputed ← of_option PyIndexError (last wflags);
  raise_if (imputed : bool) with PyValueError "latest input slot is imputed; refusing to forecast from an imputed endpoint" ;;
  Ok (window, {| wr_fill := rec; wr_latest_observed := last_t; wr_latest_is_imputed := imputed;
                 wr_imputed := Z.of_nat (length (filter (λ b : bool, b) wflags)); wr_slots := sequence_length |}).
