(* ===== verification/GapfillSafety.v ===== *)
(** What gap filling guarantees: a run is contiguous, its unflagged points are observations, a flagged one is a slot between
    two neighbouring observations that the rule allows, and the share of filled slots stays under the cap. *)
From Stdlib Require Import SpecFloat.
From S2P Require Import Prelude Float64 Gapfill.

(** * Order *)

Definition by_time (l : list point) : Prop := StronglySorted (λ a b : point, a.1 ≤ b.1) l.

Lemma insert_by_time p l : by_time l → by_time (insert_by point_leb p l).
Proof.
  unfold by_time. induction 1 as [|q t Hs IH Hq]; cbn [insert_by]; [by repeat constructor|].
  unfold point_leb at 1, point_lt. destruct (_ || _) eqn:E; cbn [negb].
  - constructor; [done|]. rewrite insert_by_perm. constructor; [|done].
    apply orb_true_iff in E as [E|[E _]%andb_true_iff]; bool_prop; lia.
  - apply orb_false_iff in E as [E _]. bool_prop. constructor; [by constructor|]. constructor; [done|].
    eapply Forall_impl; [exact Hq|]. cbn. lia.
Qed.

Lemma sort_by_time l : by_time (sort_by point_leb l).
Proof. induction l as [|p t IH]; cbn; [constructor|by apply insert_by_time]. Qed.

Lemma neighbours_split (l : list point) p q : (p, q) ∈ combine l (tail l) → ∃ l1 l2, l = l1 ++ p :: q :: l2.
Proof.
  destruct l as [|x l]; [by intros ?%elem_of_nil|]. cbn [tail]. revert x. induction l as [|y l IH]; intros x H; [by apply elem_of_nil in H|].
  cbn [combine] in H. apply elem_of_cons in H as [[= -> ->]|H]; [by exists [], l|].
  destruct (IH y H) as (l1 & l2 & ->). by exists (x :: l1), l2.
Qed.

(** Two observations with no other between them. *)
Record neighbours (points : list point) (p q : point) : Prop := {
  nb_left : p ∈ points; nb_right : q ∈ points; nb_between : ∀ o, o ∈ points → o.1 ≤ p.1 ∨ q.1 ≤ o.1;
}.

Lemma sorted_neighbours l p q : (p, q) ∈ combine (sort_by point_leb l) (tail (sort_by point_leb l)) → neighbours l p q.
Proof.
  intros (l1 & l2 & E)%neighbours_split. pose proof (sort_by_time l) as Hs.
  split; [rewrite <-(elem_of_sort_by point_leb), E, elem_of_app; right; left|rewrite <-(elem_of_sort_by point_leb), E, elem_of_app; right; right; left|].
  intros o Ho. rewrite <-(elem_of_sort_by point_leb), E in Ho. rewrite E in Hs. clear E.
  apply elem_of_app in Ho as [Ho|Ho].
  - left. induction l1 as [|x l1 IH]; [by apply elem_of_nil in Ho|]. apply StronglySorted_inv in Hs as [Hs Hx].
    apply elem_of_cons in Ho as [->|Ho]; [|by apply IH]. rewrite Forall_forall in Hx. apply Hx, elem_of_app. right. left.
  - induction l1 as [|x l1 IH]; [|apply StronglySorted_inv in Hs as [Hs _]; by apply IH].
    apply StronglySorted_inv in Hs as [Hs _]. apply StronglySorted_inv in Hs as [_ Hq]. rewrite Forall_forall in Hq.
    apply elem_of_cons in Ho as [->|[->|Ho]%elem_of_cons]; [by left|by right|right; by apply Hq].
Qed.

(** * Dictionaries of points *)

Lemma elem_of_dsets p (l d : list point) : p ∈ foldl (λ d q, dset q.1 q.2 d) d l → p ∈ d ∨ p ∈ l.
Proof.
  revert d. induction l as [|q t IH]; intros d H; [by left|]. cbn [foldl] in H. apply IH in H as [H|H]; [|right; by right].
  destruct p as [k v]. apply elem_of_dset in H as [[-> ->]|H]; [right; destruct q; left|by left].
Qed.

Lemma dsets_keys t (l d : list point) : t ∈ (foldl (λ d q, dset q.1 q.2 d) d l).*1 ↔ t ∈ d.*1 ∨ t ∈ l.*1.
Proof.
  revert d. induction l as [|q l IH]; intros d; cbn [foldl fmap list_fmap]; [rewrite elem_of_nil; tauto|].
  rewrite IH, elem_of_cons, dset_keys. case_decide as Hq; [|rewrite elem_of_app, list_elem_of_singleton; tauto].
  split; [tauto|]. intros [?|[->|?]]; tauto.
Qed.

Lemma ddels_elem p (xs d : list point) : p ∈ foldl (λ d x, ddel x.1 d) d xs ↔ p ∈ d ∧ p.1 ∉ xs.*1.
Proof.
  revert d. induction xs as [|x xs IH]; intros d; cbn [foldl fmap list_fmap]; [split; [intros; split; [done|apply not_elem_of_nil]|by intros [? _]]|].
  rewrite IH, not_elem_of_cons. unfold ddel. rewrite list_elem_of_filter. tauto.
Qed.

Lemma dhas_keys t (d : list point) : dhas t d = true ↔ t ∈ d.*1.
Proof.
  unfold dhas. rewrite bool_decide_eq_true. destruct (dget t d) as [v|] eqn:E.
  - split; [intros _|by eexists]. apply dget_elem_of in E. apply list_elem_of_fmap. by exists (t, v).
  - apply dget_None in E. split; [by intros [? ?]|done].
Qed.

(** * Runs *)

(** Points one slot apart. *)
Fixpoint contiguous (grid : Z) (l : list point) : Prop :=
  match l with
  | p :: t => match t with q :: _ => q.1 - p.1 = grid ∧ contiguous grid t | [] => True end
  | [] => True
  end.

Lemma contiguous_snoc grid l p : contiguous grid (l ++ [p]) ↔ contiguous grid l ∧ ∀ q, last l = Some q → p.1 - q.1 = grid.
Proof.
  induction l as [|x l IH]; [by split|]. destruct l as [|y l]; cbn [app contiguous].
  - split; [intros [H _]; split; [done|by intros ? [= <-]]|intros [_ H]; split; [by apply H|done]].
  - change (y :: l ++ [p]) with ((y :: l) ++ [p]). rewrite IH. cbn [last]. tauto.
Qed.

Lemma contiguous_drop grid n l : contiguous grid l → contiguous grid (drop n l).
Proof.
  revert l. induction n as [|n IH]; intros l H; [by rewrite drop_0|]. destruct l as [|x l]; [done|]. cbn [drop]. apply IH.
  destruct l; [done|]. by destruct H.
Qed.

Lemma back_spec grid p before : contiguous grid (back grid p before) ∧ last (back grid p before) = Some p ∧
  ∀ o, o ∈ back grid p before → o ∈ p :: before.
Proof.
  revert p. induction before as [|q t IH]; intros p; cbn [back]; [split_and!; [done|done|auto]|].
  destruct (IH q) as (Hc & Hl & Hi). destruct (Z.eqb_spec (p.1 - q.1) grid) as [E|].
  2:{ split_and!; [done|done|]. intros o Ho. apply list_elem_of_singleton in Ho as ->. left. }
  rewrite contiguous_snoc, last_snoc. split_and!; [done|by rewrite Hl; intros ? [= <-]|done|].
  intros o [Ho|Ho]%elem_of_app; [right; by apply Hi|]. apply list_elem_of_singleton in Ho as ->. left.
Qed.

Lemma seek_elem e l o : o ∈ seek e l → o ∈ l.
Proof. induction l as [|p t IH]; cbn [seek]; [done|]. destruct (p.1 =? e); [done|]. intros H. right. by apply IH. Qed.
Lemma seek_found e l : match seek e l with p :: _ => p.1 = e | [] => e ∉ l.*1 end.
Proof.
  induction l as [|p t IH]; cbn [seek]; [apply not_elem_of_nil|]. destruct (Z.eqb_spec p.1 e) as [|Hne]; [done|].
  destruct (seek e t); [|done]. cbn. apply not_elem_of_cons. split; [congruence|done].
Qed.

Lemma run_ending_at_spec grid series e :
  let run := _run_ending_at grid series e in
  contiguous grid run ∧ (∀ o, o ∈ run → o ∈ series) ∧
  match last run with Some p => p.1 = e | None => e ∉ series.*1 end.
Proof.
  cbv zeta. unfold _run_ending_at. pose proof (seek_found e (rev series)) as Hf.
  assert (∀ o, o ∈ seek e (rev series) → o ∈ series) as Hi.
  { intros o Ho%seek_elem. apply list_elem_of_In in Ho. apply in_rev in Ho. by apply list_elem_of_In. }
  destruct (seek e (rev series)) as [|p before].
  - split_and!; [done|by intros o ?%elem_of_nil|]. intros H. apply Hf.
    apply list_elem_of_fmap in H as (o & -> & Ho). apply list_elem_of_fmap. exists o. split; [done|].
    apply list_elem_of_In. apply in_rev. rewrite rev_involutive. by apply list_elem_of_In.
  - destruct (back_spec grid p before) as (? & Hl & Hb). split_and!; [done|by intros o Ho; apply Hi, Hb|by rewrite Hl].
Qed.

(** The longest contiguous stretch of a list. *)
Definition stretch (grid : Z) (r l : list point) : Prop := contiguous grid r ∧ ∃ l1 l2, l = l1 ++ r ++ l2.

Lemma contiguous_app_l grid l1 l2 : contiguous grid (l1 ++ l2) → contiguous grid l1.
Proof.
  induction l2 as [|x l2 IH] using rev_ind; [by rewrite app_nil_r|]. rewrite app_assoc, contiguous_snoc. intros [H _]. by apply IH.
Qed.

(** The loop keeps the longest stretch of what it has read, and the stretch that ends where it stands. *)
Record scanning (grid : Z) (best cur read : list point) : Prop := {
  sc_best : stretch grid best read; sc_cur : contiguous grid cur; sc_here : ∃ l1, read = l1 ++ cur;
  sc_long : ∀ r, stretch grid r read → (length r ≤ length best ∨ length r ≤ length cur)%nat;
  sc_tail : ∀ r l1, contiguous grid r → read = l1 ++ r → (length r ≤ length cur)%nat;
}.

Lemma longest_spec grid best cur read series : scanning grid best cur read →
  let run := longest_from grid best cur series in
  stretch grid run (read ++ series) ∧ ∀ r, stretch grid r (read ++ series) → (length r ≤ length run)%nat.
Proof.
  revert best cur read. induction series as [|p t IH]; intros best cur read [Hb Hc [l1 Hh] Hl Ht]; cbn [longest_from].
  - rewrite app_nil_r. destruct (Nat.ltb_spec (length best) (length cur)).
    + split; [split; [done|]; exists l1, []; by rewrite app_nil_r|]. intros r Hr. destruct (Hl r Hr); lia.
    + split; [done|]. intros r Hr. destruct (Hl r Hr); lia.
  - replace (read ++ p :: t) with ((read ++ [p]) ++ t) by (by rewrite <-app_assoc). set (best' := if (length best <? length cur)%nat then cur else best).
    assert (stretch grid best (read ++ [p])) as Hbp by (destruct Hb as (? & k1 & k2 & E); split; [done|]; exists k1, (k2 ++ [p]); by rewrite E, !app_assoc).
    assert (stretch grid cur (read ++ [p])) as Hcp by (split; [done|]; exists l1, [p]; by rewrite Hh, app_assoc).
    (* a stretch of what is now read ends at the new point or was there before *)
    assert (∀ r, stretch grid r (read ++ [p]) → stretch grid r read ∨ ∃ k1, read ++ [p] = k1 ++ r) as Hsplit.
    { intros r (Hr & k1 & k2 & E). destruct k2 as [|x k2 _] using rev_ind; [right; exists k1; by rewrite app_nil_r in E|].
      left. rewrite !app_assoc in E. apply app_inj_tail in E as [E _]. split; [done|]. exists k1, k2. by rewrite app_assoc. }
    (* and if it ends there, without it a stretch ended where the loop stood *)
    assert (∀ r k1, contiguous grid r → read ++ [p] = k1 ++ r → r = [] ∨ ∃ r', r = r' ++ [p] ∧ read = k1 ++ r' ∧ contiguous grid r' ∧
      ∀ q, last r' = Some q → p.1 - q.1 = grid) as Hend.
    { intros r k1 Hr E. destruct r as [|x r' _] using rev_ind; [by left|right]. rewrite app_assoc in E. apply app_inj_tail in E as [-> <-].
      apply contiguous_snoc in Hr as [? ?]. by exists r'. }
    destruct (last cur) as [q|] eqn:Eq.
    + destruct (Z.eqb_spec (p.1 - q.1) grid) as [Ed|Ed]; apply IH.
      * split; [done|by rewrite contiguous_snoc, Eq; split; [|by intros ? [= <-]]|exists l1; by rewrite Hh, app_assoc| |].
        -- intros r Hr. rewrite length_app. destruct (Hsplit r Hr) as [H|[k1 E]]; [destruct (Hl r H); lia|].
           destruct (Hend r k1 (proj1 Hr) E) as [->|(r' & -> & E' & Hr' & _)]; [cbn; lia|]. right. rewrite length_app. specialize (Ht r' k1 Hr' E'). lia.
        -- intros r k1 Hr E. rewrite length_app. destruct (Hend r k1 Hr E) as [->|(r' & -> & E' & Hr' & _)]; [cbn; lia|].
           rewrite length_app. specialize (Ht r' k1 Hr' E'). lia.
      * assert (∀ r k1, contiguous grid r → read ++ [p] = k1 ++ r → (length r ≤ 1)%nat) as Hone.
        { intros r k1 Hr E. destruct (Hend r k1 Hr E) as [->|(r' & -> & E' & Hr' & Hq)]; [cbn; lia|].
          destruct r' as [|x r' _] using rev_ind; [done|]. exfalso. apply Ed. apply Hq. rewrite last_snoc.
          destruct cur as [|y c _] using rev_ind; [done|]. rewrite last_snoc in Eq. injection Eq as ->.
          rewrite Hh, !app_assoc in E'. by apply app_inj_tail in E' as [_ ->]. }
        split; [by unfold best'; destruct (_ <? _)%nat|done|by exists read| |by intros r k1; apply Hone].
        intros r Hr. destruct (Hsplit r Hr) as [H|[k1 E]]; [|right; by apply (Hone r k1 (proj1 Hr))].
        left. unfold best'. destruct (Nat.ltb_spec (length best) (length cur)); destruct (Hl r H); lia.
    + apply last_None in Eq as ->. apply IH. assert (read = []) as ->.
      { destruct read as [|x rd _] using rev_ind; [done|]. specialize (Ht [x] rd ltac:(done) eq_refl). cbn in Ht. lia. }
      split; [done|done|by exists []| |].
      * intros r (_ & k1 & k2 & E). right. apply (f_equal length) in E. rewrite !length_app in E. cbn in *. lia.
      * intros r k1 _ E. apply (f_equal length) in E. rewrite !length_app in E. cbn in *. lia.
Qed.

Lemma longest_run_longest_aux grid series :
  stretch grid (_longest_run grid series) series ∧
  ∀ r, stretch grid r series → (length r ≤ length (_longest_run grid series))%nat.
Proof.
  apply (longest_spec grid [] [] [] series). split; [split; [done|by exists [], []]|done|by exists []| |].
  - intros r (_ & k1 & k2 & E). left. apply (f_equal length) in E. rewrite !length_app in E. cbn in *. lia.
  - intros r k1 _ E. apply (f_equal length) in E. rewrite !length_app in E. cbn in *. lia.
Qed.

(** * The gaps *)

Section filled.
Context (cutoff : option Z) (boundaries : list Z) (grid max_missing : Z) (cap : f64) (forbidden : list (Z * Z)) (end_at : option Z).
Context (Hgrid : 0 < grid) (points : list point).
Abbreviation pts := (sort_by point_leb points).
Abbreviation by_t := (foldl (λ d p, dset p.1 p.2 d) [] pts).
Abbreviation refused := (refusal cutoff boundaries grid max_missing forbidden).
Abbreviation select := (_select grid end_at).

(** A slot the rule fills: inside a gap of at most [max_missing] slots between neighbouring observations, both by the
    cutoff and in one partition, that no forbidden interval touches, with the value of the line between the two. *)
Record filled_slot (x : point) : Prop := {
  fs_where : ∃ p q k, neighbours points p q ∧ 1 ≤ k ≤ max_missing ∧ q.1 - p.1 = grid * ((q.1 - p.1) / grid) ∧
    k < (q.1 - p.1) / grid ≤ max_missing + 1 ∧ x = interpolate grid p q ((q.1 - p.1) / grid - 1) k ∧
    (∀ c, cutoff = Some c → q.1 ≤ c) ∧ (boundaries ≠ [] → _partition p.1 boundaries = _partition q.1 boundaries) ∧
    (∀ a b, (a, b) ∈ forbidden → b < p.1 + grid ∨ q.1 - grid < a);
}.

Lemma refusal_none t0 t1 m : refused t0 t1 m = None → (t1 - t0) mod grid = 0 ∧ m ≤ max_missing ∧ (∀ c, cutoff = Some c → t1 ≤ c) ∧
  (boundaries ≠ [] → _partition t0 boundaries = _partition t1 boundaries) ∧ (∀ a b, (a, b) ∈ forbidden → b < t0 + grid ∨ t1 - grid < a).
Proof.
  unfold refusal. destruct (negb (_ =? 0)) eqn:E1; [done|]. destruct (max_missing <? m) eqn:E2; [done|].
  destruct (match cutoff with Some c => _ | None => _ end) eqn:E3; [done|]. destruct (negb (bool_decide _) && _) eqn:E4; [done|].
  destruct (existsb _ _) eqn:E5; [done|]. intros _. bool_prop. split_and!; [done|done|by intros c ->; bool_prop| |].
  - intros Hb. rewrite bool_decide_false in E4 by done. cbn in E4. by bool_prop.
  - intros a b Hab. rewrite existsb_false in E5. specialize (E5 _ Hab). cbn in E5. apply andb_false_iff in E5 as [?|?]; bool_prop; lia.
Qed.

(** A filled slot lies strictly between two neighbours, so it is no observation. *)
Lemma filled_unobserved x : filled_slot x → x.1 ∉ points.*1.
Proof.
  intros [(p & q & k & Hn & Hk & Hm & Hl & -> & _)] (o & E & Ho)%list_elem_of_fmap. cbn in E.
  set (m := (q.1 - p.1) / grid) in *. destruct (nb_between _ _ _ Hn o Ho); nia.
Qed.

(** What the dictionary of filled slots and the gaps of the record say of each other. *)
Record accounted (filled : list point) (gaps : list gap) : Prop := {
  ac_slots : ∀ x, x ∈ filled → filled_slot x;
  ac_gap : ∀ t, t ∈ filled.*1 → ∃ g, g ∈ gaps ∧ holds_slot t g = true;
}.

Lemma mapM_rounded l l' : mapM_res rounded l = Ok l' → l'.*1 = l.*1.
Proof.
  revert l'. induction l as [|x l IH]; intros l' H; [by injection H as <-|]. cbn in H. apply bind_ok in H as (y & Hy & H).
  apply bind_ok in H as (ys & Hys & H). injection H as <-. cbn. rewrite (IH _ Hys). f_equal.
  unfold rounded in Hy. ok_inv Hy. by subst.
Qed.

Lemma consider_accounted filled gaps p q filled' gaps' : neighbours points p q → accounted filled gaps →
  consider cutoff boundaries grid max_missing forbidden (filled, gaps) (p, q) = Ok (filled', gaps') → accounted filled' gaps'.
Proof.
  intros Hn [Hs Hg] H. unfold consider in H. cbv zeta in H. destruct (Z.leb_spec (q.1 - p.1) grid) as [|Hgap]; [by injection H as <- <-|].
  apply raise_if_ok in H as [_ H]. destruct (refused _ _ _) as [why|] eqn:Er.
  { injection H as <- <-. split; [done|]. intros t (g & ? & ?)%Hg. exists g. split; [apply elem_of_app; by left|done]. }
  apply bind_ok in H as (shown & Hsh & H). injection H as <- <-. apply refusal_none in Er as (Hm & Hmax & Hcut & Hpart & Hforb).
  split.
  - intros x [Hx|Hx]%elem_of_dsets; [by apply Hs|]. apply list_elem_of_fmap in Hx as (k & -> & [Hk _]%elem_of_range); [|lia].
    split. exists p, q, k. pose proof (Z.div_mod (q.1 - p.1) grid ltac:(lia)). split_and!; try done; lia.
  - intros t [Ht|Ht]%dsets_keys; [destruct (Hg t Ht) as (g & ? & ?); exists g; split; [apply elem_of_app; by left|done]|].
    eexists. split; [apply elem_of_app; right; left|]. unfold holds_slot. cbn [g_filled g_values]. rewrite andb_true_l. apply existsb_exists.
    rewrite <-(mapM_rounded _ _ Hsh) in Ht. apply list_elem_of_fmap in Ht as (x & -> & Hx). exists x. split; [by apply list_elem_of_In|apply Z.eqb_refl].
Qed.

Lemma considered filled gaps : foldM (consider cutoff boundaries grid max_missing forbidden) ([], []) (combine pts (tail pts)) = Ok (filled, gaps) →
  accounted filled gaps.
Proof.
  apply (foldM_inv (λ st, accounted st.1 st.2)).
  - intros [f g] [p q] [f' g'] Hpq Ha H. eapply consider_accounted; [by apply sorted_neighbours|exact Ha|exact H].
  - split; [by intros x ?%elem_of_nil|by intros t ?%elem_of_nil].
Qed.

(** * The cap *)

Lemma removed_gap t g gaps : List.find (holds_slot t) gaps = Some g →
  length (filter (λ g, g_filled g) (update_first (holds_slot t) remove_gap gaps)) = pred (length (filter (λ g, g_filled g) gaps)) ∧
  (0 < length (filter (λ g, g_filled g) gaps))%nat ∧
  ∀ g', g' ∈ gaps → g' = g ∨ g' ∈ update_first (holds_slot t) remove_gap gaps.
Proof.
  induction gaps as [|h gaps IH]; [done|]. cbn [List.find update_first]. destruct (holds_slot t h) eqn:E.
  - intros [= ->]. unfold holds_slot in E. apply andb_true_iff in E as [E _]. rewrite !filter_bool_cons, E. cbn. split_and!; [done|lia|].
    intros g' [->|]%elem_of_cons; [by left|right; by right].
  - intros H. destruct (IH H) as (Hl & Hp & Hi). rewrite !filter_bool_cons. destruct (g_filled h); cbn [length].
    + split_and!; [lia|lia|]. intros g' [->|Hg]%elem_of_cons; [right; left|]. destruct (Hi _ Hg); [by left|right; by right].
    + split_and!; [done|done|]. intros g' [->|Hg]%elem_of_cons; [right; left|]. destruct (Hi _ Hg); [by left|right; by right].
Qed.

Lemma remove_accounted t g filled gaps : accounted filled gaps → List.find (holds_slot t) gaps = Some g →
  accounted (foldl (λ d x, ddel x.1 d) filled (g_values g)) (update_first (holds_slot t) remove_gap gaps).
Proof.
  intros [Hs Hg] Hf. destruct (removed_gap _ _ _ Hf) as (_ & _ & Hi). split; [by intros x [Hx _]%ddels_elem; apply Hs|].
  intros t' (x & -> & [Hx Hn]%ddels_elem)%list_elem_of_fmap. destruct (Hg x.1 (list_elem_of_fmap_2 fst _ _ Hx)) as (g' & Hg' & Hh).
  destruct (Hi g' Hg') as [->|]; [|by exists g']. exfalso. apply Hn. unfold holds_slot in Hh. apply andb_true_iff in Hh as [_ Hh].
  apply existsb_exists in Hh as (y & Hy & E). apply Z.eqb_eq in E as <-. apply list_elem_of_fmap_2. by apply list_elem_of_In.
Qed.

(** Not a number below zero, by its sign. *)
Definition unsigned (x : f64) : Prop := match x with S754_zero s | S754_infinity s | S754_finite s _ _ => s = false | S754_nan => True end.

Lemma round_unsigned m e l : unsigned (binary_round_aux prec emax false m e l).
Proof.
  unfold binary_round_aux. destruct (shr_fexp prec emax m e l) as [r1 e1].
  destruct (shr_fexp prec emax _ e1 loc_Exact) as [r2 e2]. destruct (shr_m r2); [done| |done]. by destruct (_ <=? _).
Qed.

Lemma product_nonneg x n : (f0 ≤ᶠ x) = true → 0 ≤ n → (x ⊗ f64_of_Z n <ᶠ f0) = false.
Proof.
  intros Hx Hn. assert (unsigned (f64_of_Z n)) as Hz.
  { unfold f64_of_Z, binary_normalize. destruct n as [|k|k]; [done| |lia]. unfold binary_round. destruct (shl_align _ _ _) as [m e].
    apply round_unsigned. }
  assert (∀ y, unsigned y → (y <ᶠ f0) = false) as Hu by (intros [[]|[]| |[] ? ?]; done).
  unfold fmul, SFmul. destruct x as [[]|[]| |[] mx ex]; try discriminate Hx;
    destruct (f64_of_Z n) as [s|s| |s m e]; cbn in Hz; subst; try done; apply Hu, round_unsigned.
Qed.

Lemma count_filled_none run : count_filled [] run = 0.
Proof. unfold count_filled. rewrite list_nil_filter; [done|]. apply Forall_forall. intros x _. by intros H. Qed.

(** While the cap is exceeded there is a filled slot to take back, and its gap. *)
Lemma over_cap_some filled gaps run : (f0 ≤ᶠ cap) = true → accounted filled gaps → over_cap cap filled run = true →
  ∃ t g, latest_filled filled run = Some t ∧ List.find (holds_slot t) gaps = Some g.
Proof.
  intros Hcap Ha H. unfold over_cap in H. apply andb_true_iff in H as [_ H].
  assert (filter (λ x, dhas x.1 filled) run ≠ []) as Hne.
  { intros E. unfold count_filled in H. rewrite E in H. rewrite product_nonneg in H by (done || lia). done. }
  assert (∃ x, x ∈ run ∧ dhas x.1 filled = true) as (x & Hx & Hf).
  { destruct (filter _ run) as [|x l] eqn:E; [done|]. exists x. assert (x ∈ filter (λ x, dhas x.1 filled) run) as Hin by (rewrite E; left).
    apply list_elem_of_filter in Hin as [Hd Hi]. split; [done|by apply Is_true_true]. }
  assert (∀ (l : list Z) z, foldl Z.max z l ∈ z :: l) as Hmax.
  { induction l as [|y l IH]; intros z; cbn [foldl]; [left|]. destruct (Z.max_spec z y) as [[_ ->]|[_ ->]].
    - right. apply IH.
    - specialize (IH z). apply elem_of_cons in IH as [->|]; [left|right; by right]. }
  assert (∃ t, latest_filled filled run = Some t ∧ t ∈ filled.*1) as (t & Ht & Hin).
  { unfold latest_filled. assert (x.1 ∈ filter (λ t, dhas t filled) run.*1) as Hx1.
    { apply list_elem_of_filter. split; [by apply Is_true_true|by apply list_elem_of_fmap_2]. }
    destruct (filter _ run.*1) as [|z l] eqn:E; [by apply elem_of_nil in Hx1|]. exists (foldl Z.max z l). split; [done|].
    specialize (Hmax l z). rewrite <-E in Hmax. apply list_elem_of_filter in Hmax as [Hd _]. by apply dhas_keys, Is_true_true. }
  destruct (ac_gap _ _ Ha t Hin) as (g & Hg & Hh). exists t. destruct (List.find (holds_slot t) gaps) as [g'|] eqn:E; [by exists g'|].
  rewrite find_None in E. by rewrite (E g Hg) in Hh.
Qed.

(** The cap's loop ends, within as many rounds as there are filled gaps, with the cap respected. *)
Lemma enforce_ok n st : (f0 ≤ᶠ cap) = true → accounted (fi_filled st) (fi_gaps st) → fi_run st = select (merged by_t (fi_filled st)) →
  (length (filter (λ g, g_filled g) (fi_gaps st)) < n)%nat →
  ∃ st', enforce grid cap end_at n by_t st = Ok st' ∧ accounted (fi_filled st') (fi_gaps st') ∧
    fi_run st' = select (merged by_t (fi_filled st')) ∧ over_cap cap (fi_filled st') (fi_run st') = false.
Proof.
  intros Hcap. revert st. induction n as [|n IH]; intros st Ha Hr Hn; [lia|]. cbn [enforce].
  destruct (over_cap cap (fi_filled st) (fi_run st)) eqn:E; [|by exists st].
  destruct (over_cap_some _ _ _ Hcap Ha E) as (t & g & -> & Hg). cbn [of_option mbind res_bind]. rewrite Hg. cbn [of_option mbind res_bind].
  destruct (removed_gap _ _ _ Hg) as (Hl & Hp & _). apply IH; cbn [fi_filled fi_gaps fi_run]; [by apply remove_accounted|done|lia].
Qed.

(** * The result *)

Lemma select_spec l : contiguous grid (select l) ∧ (∀ x, x ∈ select l → x ∈ l) ∧
  match end_at with Some e => match last (select l) with Some p => p.1 = e | None => e ∉ l.*1 end | None => True end.
Proof.
  unfold _select. destruct end_at as [e|]; [apply run_ending_at_spec|]. destruct (longest_run_longest_aux grid l) as [[Hc (l1 & l2 & E)] _].
  split_and!; [done| |done]. intros x Hx. rewrite E. apply elem_of_app. right. apply elem_of_app. by left.
Qed.

Lemma by_t_points x : x ∈ by_t → x ∈ points.
Proof. intros [H|H]%elem_of_dsets; [by apply elem_of_nil in H|by rewrite elem_of_sort_by in H]. Qed.

(** A point of the merged series is flagged exactly when it is a filled slot. *)
Lemma merged_point filled gaps x : accounted filled gaps → x ∈ merged by_t filled →
  if dhas x.1 filled then filled_slot x else x ∈ points.
Proof.
  intros Ha Hx. unfold merged in Hx. rewrite elem_of_sort_by in Hx. destruct (dhas x.1 filled) eqn:E.
  - apply dhas_keys, list_elem_of_fmap in E as (y & Ey & Hy). apply elem_of_app in Hx as [Hx|Hx]; [|by apply (ac_slots _ _ Ha)].
    exfalso. apply (filled_unobserved y (ac_slots _ _ Ha y Hy)). rewrite <-Ey. by apply list_elem_of_fmap_2, by_t_points.
  - apply elem_of_app in Hx as [Hx|Hx]; [by apply by_t_points|]. exfalso.
    assert (dhas x.1 filled = true) by (by apply dhas_keys, list_elem_of_fmap_2). congruence.
Qed.

Lemma rounded_raises x e : rounded x = Raise e → e = PyOverflowError.
Proof.
  unfold rounded, py_round. destruct x.2; try done. cbn [mbind res_bind]. by destruct (negb _); intros [= <-].
Qed.

Lemma considered_raises l st e : foldM (consider cutoff boundaries grid max_missing forbidden) st l = Raise e → e = PyOverflowError.
Proof.
  revert st. induction l as [|[p q] l IH]; intros [f g] H; [discriminate H|]. cbn [foldM] in H.
  match type of H with context [consider ?a ?b ?c ?d ?f0 ?s ?x] => destruct (consider a b c d f0 s x) as [st'|e'] eqn:E end; [by apply (IH st')|].
  injection H as <-. unfold consider in E. cbv zeta in E. destruct (_ <=? grid); [done|]. rewrite (proj2 (Z.eqb_neq grid 0)) in E by lia.
  cbn [mbind res_bind] in E. destruct (refused _ _ _); [done|].
  match type of E with context [mapM_res rounded ?l] => destruct (mapM_res rounded l) as [|e2] eqn:Em; [done|] end. injection E as <-.
  match type of Em with mapM_res rounded ?l = _ => generalize dependent l end. clear. intros l. induction l as [|x l IH]; [done|]. cbn.
  destruct (rounded x) eqn:E; cbn [mbind res_bind]; [|intros [= <-]; by eapply rounded_raises].
  destruct (mapM_res rounded l); cbn [mbind res_bind]; [done|]. intros [= <-]. by apply IH.
Qed.
End filled.

Section whole.
Context (cutoff : option Z) (boundaries : list Z) (grid max_missing : Z) (cap : f64) (forbidden : list (Z * Z)) (end_at : option Z).
Context (points : list point) (Hgrid : 0 < grid) (Hcap : (f0 ≤ᶠ cap) = true).
Abbreviation fill := (fill_interior_gaps cutoff boundaries grid max_missing cap forbidden end_at).
Abbreviation slot := (filled_slot cutoff boundaries grid max_missing forbidden points).
Abbreviation flagged := (λ (x : point) (imputed : bool), if imputed then slot x ∧ x.1 ∉ points.*1 else x ∈ points).

(** Every pass through the function comes to an end: with its result, or because a value could not be rounded. *)
Lemma fill_ends : match fill points with
  | Raise e => e = PyOverflowError
  | Ok (run, flags, rec) =>
      contiguous grid run ∧ Forall2 flagged run flags ∧
      (run = [] ∨ (cap ⊗ f64_of_Z (Z.of_nat (length run)) <ᶠ f64_of_Z (Z.of_nat (length (filter (λ b : bool, b) flags)))) = false) ∧
      match end_at with Some e => match last run with Some p => p.1 = e | None => e ∉ points.*1 end | None => True end
  end.
Proof.
  unfold fill_interior_gaps. cbv zeta. destruct (foldM _ _ _) as [[filled gaps]|e] eqn:Ef; cbn [mbind res_bind]; [|by eapply considered_raises].
  apply considered in Ef; [|done].
  match goal with |- context [enforce _ _ _ _ ?b ?s] => destruct (enforce_ok cutoff boundaries grid max_missing cap forbidden end_at points (S (length gaps)) s Hcap Ef eq_refl) as (st & E & Ha & Hr & Ho) end.
  { cbn [fi_gaps]. apply Nat.lt_succ_r, length_filter. }
  rewrite E. cbn [mbind res_bind]. set (run := fi_run st) in *.
  match goal with |- context [mbind ?k ?r] => destruct r as [fr|e] eqn:Er end; cbn [mbind res_bind].
  2:{ destruct run; [discriminate|]. unfold py_round in Er. destruct (int_div _ _); try discriminate. cbn [mbind res_bind] in Er. destruct (negb _); [by injection Er as <-|discriminate]. }
  set (l := merged _ (fi_filled st)) in *. pose proof (select_spec grid end_at l) as (Hc & Hi & He). rewrite <-Hr in Hc, Hi, He.
  assert (length (filter (λ b : bool, b) ((λ p, dhas p.1 (fi_filled st)) <$> run)) = length (filter (λ p, dhas p.1 (fi_filled st)) run)) as Hlen.
  { generalize run, (fi_filled st). clear. intros r d. induction r as [|x r IH]; [done|]. cbn [fmap list_fmap].
    rewrite (filter_bool_cons (λ b : bool, b)), (filter_bool_cons (λ p : point, dhas p.1 d)). destruct (dhas x.1 d); cbn [length]; [by f_equal|done]. }
  split_and!; [done| | |].
  - apply Forall2_fmap_r, Forall_Forall2_diag, Forall_forall. intros x Hx.
    pose proof (merged_point cutoff boundaries grid max_missing forbidden Hgrid points _ _ x Ha (Hi x Hx)) as Hm.
    unfold compose. destruct (dhas x.1 (fi_filled st)); [|exact Hm]. split; [exact Hm|]. by eapply filled_unobserved.
  - rewrite Hlen. unfold over_cap in Ho. fold (count_filled (fi_filled st) run). apply andb_false_iff in Ho as [Ho|Ho]; [|by right]. left. by bool_prop.
  - destruct end_at as [e|]; [|done]. destruct (last run); [done|]. intros Hin. apply He. unfold l, merged.
    apply list_elem_of_fmap in Hin as (o & -> & Hin).
    assert (o.1 ∈ (foldl (λ d p, dset p.1 p.2 d) [] (sort_by point_leb points)).*1) as (b & Eb & Hb)%list_elem_of_fmap.
    { apply dsets_keys. right. apply list_elem_of_fmap_2. by rewrite elem_of_sort_by. }
    rewrite Eb. apply list_elem_of_fmap_2. rewrite elem_of_sort_by. apply elem_of_app. by left.
Qed.
End whole.

(** * With the mask *)

Definition kept_by (start : option Z) (intervals : list (Z * Z * string)) (p : point) : bool :=
  negb match start with Some s => p.1 <? s | None => false end && forallb (λ i, negb (inside p.1 i)) intervals.

Lemma list_find_none (p : Z * Z * string → bool) l : list_find (λ i, p i) l = None ↔ forallb (λ i, negb (p i)) l = true.
Proof.
  rewrite list_find_None, forallb_forall, Forall_forall. split; intros H i Hi.
  - specialize (H i (proj2 (list_elem_of_In _ _) Hi)). cbv beta in H. destruct (p i); [by destruct H|done].
  - specialize (H i (proj1 (list_elem_of_In _ _) Hi)). cbv beta in H. destruct (p i); [discriminate H|by intros []].
Qed.

Lemma sumZ_alter k l : (k < length l)%nat → sumZ (alter (λ n, n + 1) k l) = sumZ l + 1.
Proof.
  revert l. induction k as [|k IH]; intros [|x l] H; cbn in H; try lia; [cbn; lia|].
  change (alter _ (S k) (x :: l)) with (x :: alter (λ n, n + 1) k l). rewrite !sumZ_cons, IH by lia. lia.
Qed.

(** The mask keeps exactly the samples outside its intervals, from its start on, and counts every other one once. *)
Lemma masking_exact start intervals l : let st := foldl (mask_step start intervals)
    {| ms_kept := []; ms_before := 0; ms_in := 0; ms_per := replicate (length intervals) 0 |} l in
  ms_kept st = filter (λ p, kept_by start intervals p) l ∧ Z.of_nat (length (ms_kept st)) + ms_before st + ms_in st = Z.of_nat (length l) ∧
  sumZ (ms_per st) = ms_in st ∧ length (ms_per st) = length intervals.
Proof.
  induction l as [|p l IH] using rev_ind.
  { cbn [foldl ms_kept ms_before ms_in ms_per length]. rewrite length_replicate. split_and!; [done|done| |done].
    induction (length intervals) as [|n IH]; [done|exact IH]. }
  cbv zeta in *. rewrite foldl_app. cbn [foldl]. set (st := foldl _ _ l) in *. destruct IH as (Hk & Hn & Hs & Hl).
  rewrite filter_app, filter_bool_cons, length_app, filter_nil. cbn [length]. unfold mask_step, kept_by.
  destruct (match start with Some s => _ | None => false end) eqn:Eb; cbn [negb andb ms_kept ms_before ms_in ms_per].
  { rewrite app_nil_r. split_and!; [done|lia|done|done]. }
  destruct (list_find (λ i, inside p.1 i) intervals) as [[k i]|] eqn:Ef; cbn [ms_kept ms_before ms_in ms_per].
  - destruct (forallb _ intervals) eqn:Ea; [by apply (list_find_none (inside p.1)) in Ea; congruence|]. rewrite app_nil_r.
    apply list_find_Some in Ef as (Hi & _). apply lookup_lt_Some in Hi.
    split_and!; [done|lia|rewrite sumZ_alter by lia; lia|by rewrite length_alter].
  - apply (list_find_none (inside p.1)) in Ef. rewrite Ef, length_app. cbn [length]. split_and!; [by f_equal|lia|done|done].
Qed.

Lemma masked_points points m role x : x ∈ (apply_mask points m role).1 → x ∈ points ∧ ∀ i, i ∈ mk_intervals m → inside x.1 i = false.
Proof.
  unfold apply_mask. cbn [fst]. destruct (masking_exact (if bool_decide (role = "benchmark") then mk_history_start m else None) (mk_intervals m)
    (sort_by point_leb points)) as (-> & _). intros [Hk Hx]%list_elem_of_filter. rewrite elem_of_sort_by in Hx. split; [done|].
  apply Is_true_true in Hk. unfold kept_by in Hk. apply andb_true_iff in Hk as [_ Hk]. rewrite forallb_forall in Hk.
  intros i Hi. apply list_elem_of_In in Hi. apply Hk in Hi. by apply negb_true_iff in Hi.
Qed.

(** C26: What training and forecasting read from a masked series. The function ends, with a run or, when a filled value cannot be
    rounded, an overflow; the run is a sequence of consecutive slots; a point not flagged is an observation the mask kept; a
    flagged one is no observation but a slot strictly between two neighbouring ones, in a gap of at most the allowed slots,
    neither end of it after the cutoff, both in one partition, and has the value of the line between them; the flagged points are
    at most the allowed share of the run; and nothing in the run, observed or filled, lies in an interval of the mask. *)
Theorem masked_fill_sound points m role cutoff boundaries grid max_missing cap end_at : 0 < grid → (f0 ≤ᶠ cap) = true →
  let kept := (apply_mask points m role).1 in
  match fill_interior_gaps cutoff boundaries grid max_missing cap (mask_intervals m) end_at kept with
  | Raise e => e = PyOverflowError
  | Ok (run, flags, rec) =>
      contiguous grid run ∧
      Forall2 (λ (x : point) (imputed : bool),
        if imputed then filled_slot cutoff boundaries grid max_missing (mask_intervals m) kept x ∧ x.1 ∉ kept.*1 else x ∈ kept) run flags ∧
      (run = [] ∨ (cap ⊗ f64_of_Z (Z.of_nat (length run)) <ᶠ f64_of_Z (Z.of_nat (length (filter (λ b : bool, b) flags)))) = false) ∧
      ∀ x i, x ∈ run → i ∈ mk_intervals m → inside x.1 i = false
  end.
Proof.
  intros Hgrid Hcap kept. pose proof (fill_ends cutoff boundaries grid max_missing cap (mask_intervals m) end_at kept Hgrid Hcap) as H.
  destruct (fill_interior_gaps _ _ _ _ _ _ _ _) as [[[run flags] rec]|e]; [|done]. destruct H as (Hc & Hf & Hn & _). split_and!; try done.
  intros x [[a b] why] Hx Hi. apply list_elem_of_lookup in Hx as [k Hx]. destruct (Forall2_lookup_l _ _ _ _ _ Hf Hx) as ([] & _ & Hb).
  2:{ by apply (masked_points points m role). }
  destruct Hb as [[(p & q & j & _ & Hj & Hm & Hl & -> & _ & _ & Hforb)] _]. unfold inside. cbn [fst snd interpolate].
  destruct (Hforb a b) as [?|?]; [by apply list_elem_of_fmap; exists (a, b, why)| |]; apply andb_false_iff; rewrite !Z.leb_gt; nia.
Qed.

(** * The input window *)

Lemma filled_slot_sorted cutoff boundaries grid max_missing forbidden points x :
  filled_slot cutoff boundaries grid max_missing forbidden (sort_by point_leb points) x →
  filled_slot cutoff boundaries grid max_missing forbidden points x.
Proof.
  intros [(p & q & k & [Hp Hq Hb] & H)]. split. exists p, q, k. split; [|exact H]. rewrite elem_of_sort_by in Hp, Hq. split; [done|done|].
  intros o Ho. apply Hb. by rewrite elem_of_sort_by.
Qed.

Lemma by_time_last l p : by_time l → last l = Some p → ∀ q, q ∈ l → q.1 ≤ p.1.
Proof.
  intros Hs. revert p. induction Hs as [|x l Hs IH Hx]; intros p Hl q Hq; [by apply elem_of_nil in Hq|].
  destruct l as [|y l]; [injection Hl as <-; by apply list_elem_of_singleton in Hq as ->|]. cbn [last] in Hl.
  apply elem_of_cons in Hq as [->|Hq]; [|by apply IH]. rewrite Forall_forall in Hx. apply Hx. by apply last_Some_elem_of in Hl.
Qed.

Lemma last_n_Forall2 {A B} (R : A → B → Prop) n l k : Forall2 R l k → Forall2 R (last_n n l) (last_n n k).
Proof.
  intros H. unfold last_n. pose proof (Forall2_length _ _ _ H) as ->. destruct (n =? 0); [done|]. by destruct (n <? 0); apply Forall2_drop.
Qed.

Lemma last_n_last {A} n (l : list A) : 0 < n → last (last_n n l) = last l ∧ (n ≤ Z.of_nat (length l) → Z.of_nat (length (last_n n l)) = n).
Proof.
  intros Hn. unfold last_n. rewrite (proj2 (Z.eqb_neq n 0)), (proj2 (Z.ltb_ge n 0)) by lia. rewrite length_drop. split; [|lia].
  destruct l as [|x l _] using rev_ind; [done|]. rewrite drop_app_le by (rewrite length_app; cbn; lia). by rewrite !last_snoc.
Qed.

Lemma capped : (f0 ≤ᶠ MAX_FILL_FRACTION) = true.
Proof. by vm_compute. Qed.

(** C27: The window a forecast reads. The function answers with a window or refuses: there is nothing, the newest sample is
    stale, too few slots are contiguous, or a value cannot be rounded; it never finds the newest slot off the run or filled in. An
    answered window has the slots asked for, consecutive, and ends in the newest observation itself, which is fresh; every other
    point is an observation or a slot between two neighbouring ones that the filling rule allows. *)
Theorem inference_window_sound points now n grid max_age forbidden : 0 < grid → 0 < n →
  match check_inference_window points now n grid max_age forbidden with
  | Ok (window, rec) =>
      Z.of_nat (length window) = n ∧ contiguous grid window ∧
      ∃ p, last window = Some p ∧ p ∈ points ∧ (∀ q, q ∈ points → q.1 ≤ p.1) ∧ now - p.1 ≤ max_age ∧
        (∀ x, x ∈ window → x ∈ points ∨ filled_slot (Some p.1) [] grid MAX_MISSING_SLOTS forbidden points x) ∧
        wr_latest_observed rec = p.1 ∧ wr_latest_is_imputed rec = false
  | Raise e => e ∈ [PyValueError "no input observations"; PyValueError "latest observation is stale";
                    PyValueError "input window has too few contiguous slots"; PyOverflowError]
  end.
Proof.
  intros Hgrid Hn. unfold check_inference_window. cbv zeta. set (pts := sort_by point_leb points).
  assert (by_time pts) as Hs by apply sort_by_time. destruct (last pts) as [p|] eqn:El; cbn [of_option mbind res_bind]; [|left].
  destruct (Z.ltb_spec max_age (now - p.1)) as [|Hfresh]; cbn [mbind res_bind]; [right; left|].
  assert (∀ x, x ∈ pts ↔ x ∈ points) as Hpts by (intros x; apply elem_of_sort_by).
  pose proof (by_time_last pts p Hs El) as Hmax. apply last_Some_elem_of in El.
  pose proof (fill_ends (Some p.1) [] grid MAX_MISSING_SLOTS MAX_FILL_FRACTION forbidden (Some p.1) pts Hgrid capped) as H.
  destruct (fill_interior_gaps _ _ _ _ _ _ _ _) as [[[run flags] rec]|e]; cbn [mbind res_bind]; [|subst; by do 3 right; left].
  change (Z * f64)%type with point in *. destruct H as (Hc & Hf & _ & He). destruct (last run) as [o|] eqn:Er; [|by destruct He; apply list_elem_of_fmap_2].
  rewrite He, Z.eqb_refl. cbn [negb]. destruct (Z.ltb_spec (Z.of_nat (length run)) n) as [|Hlen]; cbn [mthrow res_throw]; [by do 2 right; left|].
  pose proof (last_n_Forall2 _ n _ _ Hf) as Hw. destruct (last_n_last n run Hn) as [Hl Hlw]. specialize (Hlw Hlen).
  destruct (last_n_last n flags Hn) as [Hlf _]. rewrite Hlf.
  assert (∃ b, last flags = Some b ∧ (if b then filled_slot (Some p.1) [] grid MAX_MISSING_SLOTS forbidden pts o ∧ o.1 ∉ pts.*1 else o ∈ pts)) as (b & Hb & Hob).
  { rewrite last_lookup in Er. rewrite last_lookup. rewrite <-(Forall2_length _ _ _ Hf). by apply (Forall2_lookup_l _ _ _ _ _ Hf). }
  rewrite Hb. cbn [of_option mbind res_bind]. destruct b; [destruct Hob as [_ Ho]; destruct Ho; rewrite He; by apply list_elem_of_fmap_2|].
  split; [done|]. split.
  { unfold last_n. destruct (n =? 0); [done|]. destruct (n <? 0); by apply contiguous_drop. }
  exists o. rewrite Hl, Er, He. split_and!; [done|by apply Hpts|by intros q Hq; apply Hmax, Hpts|lia| |done|done].
  intros x Hx. apply list_elem_of_lookup in Hx as [i Hx]. destruct (Forall2_lookup_l _ _ _ _ _ Hw Hx) as ([] & _ & Hxb).
  - right. by apply filled_slot_sorted, Hxb.
  - left. by apply Hpts.
Qed.

(** An hour and twenty minutes of samples, one missing: the window is filled where the sample is missing. *)
Definition demo_points : list point := (λ k, (k * 600, f64_of_Z (100 + k))) <$> [0; 1; 2; 3; 5; 6; 7; 8; 9; 10; 11; 12; 13; 14; 15; 16; 17; 18; 19; 20; 21; 22].
Definition demo_mask : mask :=
  {| mk_version := 1; mk_source := None; mk_intervals := [(6600, 6600, "node roll"%string)]; mk_history_start := None |}.

Example demo_filling : match check_inference_window demo_points 13300 22 600 1200 [] with
  | Ok (w, r) => bool_decide (fst <$> w = range 600 13201 600) && (wr_imputed r =? 1) && (fr_gaps_filled (wr_fill r) =? 1)
  | Raise _ => false end = true.
Proof. by vm_compute. Qed.

(** A mask turns the gap it makes into a break. *)
Example demo_masked : match fill_interior_gaps None [] 600 3 MAX_FILL_FRACTION (mask_intervals demo_mask) None (apply_mask demo_points demo_mask "training").1 with
  | Ok (run, flags, r) => bool_decide (fst <$> run = range 7200 13201 600) && forallb negb flags && (length (fr_gaps_considered r) =? 2)%nat
  | Raise _ => false end = true.
Proof. by vm_compute. Qed.

Lemma masked_fill_sound_witness : ∃ run flags rec,
  fill_interior_gaps None [] 600 3 MAX_FILL_FRACTION (mask_intervals demo_mask) None (apply_mask demo_points demo_mask "training").1 = Ok (run, flags, rec) ∧
  ∀ x i, x ∈ run → i ∈ mk_intervals demo_mask → inside x.1 i = false.
Proof.
  pose proof demo_masked as Hd. pose proof (masked_fill_sound demo_points demo_mask "training" None [] 600 3 MAX_FILL_FRACTION None eq_refl capped) as H.
  cbv zeta in H. destruct (fill_interior_gaps _ _ _ _ _ _ _ _) as [[[run flags] rec]|e]; [|discriminate Hd].
  exists run, flags, rec. split; [done|]. exact (proj2 (proj2 (proj2 H))).
Defined.

Lemma inference_window_sound_witness : ∃ window rec,
  check_inference_window demo_points 13300 22 600 1200 [] = Ok (window, rec) ∧ Z.of_nat (length window) = 22 ∧ contiguous 600 window.
Proof.
  pose proof demo_filling as Hd. pose proof (inference_window_sound demo_points 13300 22 600 1200 [] eq_refl eq_refl) as H.
  destruct (check_inference_window _ _ _ _ _ _) as [[window rec]|e]; [|discriminate Hd].
  exists window, rec. destruct H as (Hl & Hc & _). by split_and!.
Defined.
