(* ===== verification/LegacyHistory.v ===== *)
(** [ml-engine/data/history.py]: the history of the older API. One query of a week on the ten-minute grid, through a fetch that is
    an argument, and one complete series of finite rates or a refusal; the rates leave it per minute. *)
From Stdlib Require Import SpecFloat Ascii.
From S2P Require Import Prelude Float64 Json Timestamps Datetimes Numbers Identity Contracts History.

Definition STEP_SECONDS : Z := 600.
Definition HISTORY_HOURS : Z := 168.
Definition DEADLINE_S : f64 := f64_of_Z 20.
Definition MAX_RESPONSE_BYTES : Z := Z.shiftl 8 20.

(** [datetime.fromtimestamp(epoch, tz=utc)], a whole second. *)
Definition from_epoch (epoch : Z) : res Z :=
  raise_if (epoch <? min_epoch) || (max_epoch <? epoch) with out_of_range ;; Ok epoch.

Definition _grid_end (now : datetime) : res Z :=
  us ← utc_of now; epoch ← py_trunc (timestamp us); from_epoch (epoch / STEP_SECONDS * STEP_SECONDS).

(** [end - timedelta(hours=hours)] *)
Definition grid_start (fin hours : Z) : res Z :=
  let s := fin - hours * 3600 in raise_if (s <? min_epoch) || (max_epoch <? s) with PyOverflowError ;; Ok s.

Record sample := { sm_timestamp : string; sm_value : f64 }.

(** A sample's time, a whole second of the grid. *)
Definition grid_time (ts : json) : res Z :=
  match number ts with
  | None => Raise (HistoryRefused "malformed sample timestamp")
  | Some n =>
      ok ← isfinite n;
      raise_if negb ok with HistoryRefused "malformed sample timestamp" ;;
      let off := HistoryRefused "sample is off the grid" in
      z ← of_option off match n with inl z => Some z | inr x => f64_to_int x end;
      raise_if negb (z mod STEP_SECONDS =? 0) with off ;; Ok z
  end.

(** The one conversion from a second's rate to a minute's. *)
Definition per_minute (rps : f64) : f64 := rps ⊗ f64_of_Z 60.

Definition read_sample (lo hi : Z) (last : option Z) (v : json) : res (Z * f64) :=
  match v with
  | JArr [t; raw] =>
      ts ← grid_time t;
      raise_if negb ((lo <=? ts) && (ts <=? hi)) with HistoryRefused "sample is outside the requested window" ;;
      raise_if match last with Some l => ts <=? l | None => false end with HistoryRefused "duplicate or unordered sample" ;;
      rps ← raw_rate raw;
      let rpm := per_minute rps in
      raise_if negb (is_finite rps) || (rps <ᶠ f0) || negb (is_finite rpm)
        with HistoryRefused "sample is not a finite, non-negative rate" ;;
      Ok (ts, rpm)
  | _ => Raise (HistoryRefused "malformed sample")
  end.

Fixpoint read_samples (lo hi : Z) (last : option Z) (l : list json) : res (list (Z * f64)) :=
  match l with
  | [] => Ok []
  | v :: t => s ← read_sample lo hi last v; r ← read_samples lo hi (Some s.1) t; Ok (s :: r)
  end.

Definition as_sample (s : Z * f64) : sample := {| sm_timestamp := isoformat (s.1 * SECOND); sm_value := s.2 |}.

Definition is_object (v : json) : bool := match v with JObj _ => true | _ => false end.

Definition _parse_series (doc : json) (lo hi : Z) : res (list (Z * f64)) :=
  raise_if negb (is_object doc && py_eq (get_or_null "status" doc) (JStr "success")) with HistoryRefused "history query status" ;;
  raise_if truthy (get_or_null "isPartial" doc) with HistoryRefused "partial history answer" ;;
  let data := get_or_null "data" doc in
  raise_if negb (is_object data && py_eq (get_or_null "resultType" data) (JStr "matrix")) with HistoryRefused "the answer is not a matrix" ;;
  match get_or_null "result" data with
  | JArr [JObj series] =>
      match get_or_null "values" (JObj series) with
      | JArr values => read_samples lo hi None values
      | _ => Raise (HistoryRefused "series without values")
      end
  | _ => Raise (HistoryRefused "want exactly one series")
  end.

Section query.
Context {W : Type} (fetch : string → f64 → Z → SE W exchange).

(** What the exchange answered, read as a document. *)
Definition answer_of (reply : exchange) : res json :=
  match reply with
  | BodyTooLarge => Raise (HistoryRefused "the answer exceeds its cap")
  | TransportFailure => Raise (HistoryUnavailable "history query failed")
  | Answer status body =>
      raise_if (500 <=? status) || bool_decide (status ∈ [401; 403; 429]) with HistoryUnavailable "metrics backend answered" ;;
      raise_if negb (status =? 200) with HistoryRefused "metrics backend refused the query" ;;
      match loads_body body with
      | Raise (PyValueError _) => Raise (HistoryRefused "history answer is not JSON")
      | r => r
      end
  end.

(** [query_history], with the times of its samples still as seconds. *)
Definition query_series (base_url : string) (query : json) (now : datetime) (hours : Z) (deadline_s : f64) (max_bytes : Z)
    : SE W (list (Z * f64)) :=
  match query with
  | JStr q =>
      raise_if bool_decide (strip str_space (chars q) = []) with HistoryRefused "empty query" ;;
      fin ← lift (_grid_end now);
      start_ ← lift (grid_start fin hours);
      reply ← fetch (range_url base_url q start_ fin STEP_SECONDS) deadline_s max_bytes;
      doc ← lift (answer_of reply);
      lift (_parse_series doc start_ fin)
  | _ => mthrow (HistoryRefused "empty query")
  end.

Definition query_history (base_url : string) (query : json) (now : datetime) (hours : Z) (deadline_s : f64) (max_bytes : Z)
    : SE W (list sample) :=
  l ← query_series base_url query now hours deadline_s max_bytes; mret (as_sample <$> l).
End query.

(** * What an accepted series is *)

(** A sample of the answer and what it is read as. *)
Record reads_as (lo hi : Z) (v : json) (s : Z * f64) : Prop := {
  ra_shape : ∃ t raw rps, v = JArr [t; raw] ∧ grid_time t = Ok s.1 ∧ raw_rate raw = Ok rps
             ∧ is_finite rps = true ∧ (rps <ᶠ f0) = false ∧ s.2 = per_minute rps;
  ra_window : lo ≤ s.1 ≤ hi;
  ra_finite : is_finite s.2 = true;
}.

(** Later than the sample before. *)
Definition after (last : option Z) (l : list (Z * f64)) : Prop :=
  StronglySorted (λ a b : Z * f64, a.1 < b.1) l ∧ ∀ t, last = Some t → Forall (λ s, t < s.1) l.

Lemma after_cons last s l : after last (s :: l) ↔ (∀ t, last = Some t → t < s.1) ∧ after (Some s.1) l.
Proof.
  unfold after. split.
  - intros [Hs Hl]. apply StronglySorted_inv in Hs as [Hs Hf]. split; [|split; [done|by intros t [= <-]]].
    intros t Ht. by apply (Forall_inv (Hl t Ht)).
  - intros [Hl [Hs Hf]]. specialize (Hf s.1 eq_refl). split; [by constructor|]. intros t Ht. constructor; [by apply Hl|].
    eapply Forall_impl; [exact Hf|]. intros x Hx. cbn in Hx. specialize (Hl t Ht). lia.
Qed.

Lemma read_sample_ok lo hi last v s : read_sample lo hi last v = Ok s ↔ reads_as lo hi v s ∧ ∀ t, last = Some t → t < s.1.
Proof.
  split.
  - destruct v as [| | | | |l|]; try discriminate. destruct l as [|t [|raw [|]]]; try discriminate. cbn. intros H.
    apply bind_ok in H as (ts & Ht & H). apply raise_if_ok in H as [Hw H]. apply raise_if_ok in H as [Hl H].
    apply bind_ok in H as (rps & Hr & H). apply raise_if_ok in H as [Hf H]. injection H as <-. bool_prop. split; [split|]; cbn.
    + exists t, raw, rps. by split_and!.
    + lia.
    + by destruct (is_finite (per_minute rps)).
    + intros x ->. lia.
  - intros [[(t & raw & rps & -> & Ht & Hr & Hf & Hn & Hv) Hw Hfin] Hl]. destruct s as [ts rpm]. cbn in *. rewrite Ht. cbn [mbind res_bind].
    destruct (Z.leb_spec lo ts), (Z.leb_spec ts hi); try lia. cbn [andb negb mbind res_bind].
    replace (match last with Some l => ts <=? l | None => false end) with false
      by (destruct last as [l|]; [specialize (Hl l eq_refl); symmetry; apply Z.leb_gt; lia|done]).
    cbn [mbind res_bind]. rewrite Hr. cbn [mbind res_bind]. rewrite <-Hv, Hf, Hn, Hfin. done.
Qed.

Lemma read_samples_ok lo hi l : ∀ last s, read_samples lo hi last l = Ok s ↔ Forall2 (reads_as lo hi) l s ∧ after last s.
Proof.
  induction l as [|v l IH]; intros last s; cbn [read_samples].
  - split; [intros [= <-]; split; [constructor|by split; [constructor|]]|]. intros [H _]. apply Forall2_nil_inv_l in H as ->. done.
  - split.
    + intros H. apply bind_ok in H as (x & Hx & H). apply bind_ok in H as (r & Hr & H). injection H as <-.
      apply read_sample_ok in Hx as [Hx Hl]. apply IH in Hr as [Hr Ha]. split; [by constructor|]. by apply after_cons.
    + intros [H Ha]. apply Forall2_cons_inv_l in H as (x & r & Hx & Hr & ->). apply after_cons in Ha as [Hl Ha].
      rewrite (proj2 (read_sample_ok lo hi last v x)) by done. cbn [mbind res_bind].
      by rewrite (proj2 (IH (Some x.1) r)).
Qed.

(** The answer of a metrics backend that is accepted: one series, complete, of samples that are all read. *)
Definition accepted (lo hi : Z) (doc : json) (s : list (Z * f64)) : Prop :=
  is_object doc = true ∧ get_or_null "status" doc = JStr "success" ∧ truthy (get_or_null "isPartial" doc) = false
  ∧ is_object (get_or_null "data" doc) = true ∧ get_or_null "resultType" (get_or_null "data" doc) = JStr "matrix"
  ∧ ∃ series values, get_or_null "result" (get_or_null "data" doc) = JArr [JObj series] ∧ get_or_null "values" (JObj series) = JArr values
      ∧ Forall2 (reads_as lo hi) values s ∧ after None s.

Lemma parse_series_ok doc lo hi s : _parse_series doc lo hi = Ok s ↔ accepted lo hi doc s.
Proof.
  unfold _parse_series, accepted. split.
  - intros H. apply raise_if_ok in H as [H1 H]. apply raise_if_ok in H as [H2 H]. cbv zeta in H. apply raise_if_ok in H as [H3 H].
    apply negb_false_iff, andb_true_iff in H1 as [H1 H1']. apply negb_false_iff, andb_true_iff in H3 as [H3 H3'].
    apply py_eq_str_r in H1', H3'. split_and!; try done.
    destruct (get_or_null "result" _) as [| | | | |[|[] [|]]|] eqn:Er; try discriminate H.
    destruct (get_or_null "values" _) as [| | | | |values|] eqn:Ev; try discriminate H. eexists _, values. split; [done|].
    split; [exact Ev|]. by apply read_samples_ok.
  - intros (H1 & H1' & H2 & H3 & H3' & series & values & Hr & Hv & Hs). rewrite H1, H1', H2, H3, H3'.
    change (py_eq (JStr "success") (JStr "success")) with true. change (py_eq (JStr "matrix") (JStr "matrix")) with true.
    cbn [andb negb mbind res_bind]. rewrite Hr, Hv. by apply read_samples_ok.
Qed.

Lemma grid_count hi l : ∀ t, t mod STEP_SECONDS = 0 → after (Some t) l → Forall (λ s : Z * f64, s.1 mod STEP_SECONDS = 0 ∧ s.1 ≤ hi) l →
  l = [] ∨ STEP_SECONDS * Z.of_nat (length l) ≤ hi - t.
Proof.
  unfold STEP_SECONDS. induction l as [|s l IH]; intros t Ht Ha Hg; [by left|right]. apply after_cons in Ha as [Hl Ha]. specialize (Hl t eq_refl).
  apply Forall_cons in Hg as [[Hs Hhi] Hg]. assert (t + 600 ≤ s.1) as Hstep by (Z.to_euclidean_division_equations; lia).
  destruct (IH s.1 Hs Ha Hg) as [->|IH']; cbn [length]; [cbn; lia|lia].
Qed.

Lemma grid_end_ok now fin : _grid_end now = Ok fin → fin mod STEP_SECONDS = 0 ∧ min_epoch ≤ fin ≤ max_epoch.
Proof.
  unfold _grid_end, from_epoch, STEP_SECONDS. intros H. ok_inv H. subst. bool_prop.
  split; [apply Z.mod_mul; lia|lia].
Qed.

Lemma answer_of_ok reply doc : answer_of reply = Ok doc ↔ ∃ body, reply = Answer 200 body ∧ loads_body body = Ok doc.
Proof.
  split; [|by intros (body & -> & H); cbn; rewrite H]. destruct reply as [status body| |]; try discriminate. cbn. intros H.
  apply raise_if_ok in H as [_ H]. apply raise_if_ok in H as [Hs H]. apply negb_false_iff, Z.eqb_eq in Hs as ->. exists body.
  split; [done|]. by destruct (loads_body body) as [?|[]].
Qed.

Section answers.
Context {W : Type} (fetch : string → f64 → Z → SE W exchange).
Context (base_url : string) (query : json) (now : datetime) (hours : Z) (deadline_s : f64) (max_bytes : Z) (w : W).

(** The one exchange of the read. *)
Record exchanged (q : string) (fin : Z) (w' : W) (doc : json) : Prop := {
  ex_query : query = JStr q ∧ strip str_space (chars q) ≠ [];
  ex_end : _grid_end now = Ok fin;
  ex_start : grid_start fin hours = Ok (fin - hours * 3600);
  ex_answer : ∃ body, fetch (range_url base_url q (fin - hours * 3600) fin STEP_SECONDS) deadline_s max_bytes w = (Ok (Answer 200 body), w')
                ∧ loads_body body = Ok doc;
}.

Lemma query_series_ok s w' : query_series fetch base_url query now hours deadline_s max_bytes w = (Ok s, w') ↔
  ∃ q fin doc, exchanged q fin w' doc ∧ accepted (fin - hours * 3600) fin doc s.
Proof.
  split.
  - intros H. destruct query as [| | | |q| |] eqn:Eq; try discriminate H. cbn [query_series] in H.
    apply se_raise_if_ok in H as [Hq H]. apply bool_decide_eq_false in Hq. apply se_bind_ok in H as (fin & w0 & He & H).
    apply lift_ok in He as [He ->]. apply se_bind_ok in H as (st & w0 & Hst & H). apply lift_ok in Hst as [Hst ->].
    assert (st = fin - hours * 3600) as -> by (unfold grid_start in Hst; by ok_inv Hst).
    apply se_bind_ok in H as (reply & w1 & Hf & H). apply se_bind_ok in H as (doc & w2 & Hd & H). apply lift_ok in Hd as [Hd ->].
    apply lift_ok in H as [Hp ->]. apply answer_of_ok in Hd as (body & -> & Hb). apply parse_series_ok in Hp.
    exists q, fin, doc. split; [|done]. split; [by rewrite Eq|done|done|by exists body].
  - intros (q & fin & doc & [[Hq Hq'] He Hst (body & Hf & Hb)] & Ha). rewrite Hq. cbn [query_series]. rewrite bool_decide_false by done.
    rewrite se_bind_eq. unfold lift at 1. rewrite He, se_bind_eq. unfold lift at 1. rewrite Hst, se_bind_eq, Hf, se_bind_eq. unfold lift at 1.
    rewrite (proj2 (answer_of_ok _ doc)) by (by exists body). unfold lift. by rewrite (proj2 (parse_series_ok _ _ _ s)).
Qed.
End answers.

(** The refusals of an answer: of the document, or of a number no float holds. *)
Definition refused (e : exn) : Prop := e = PyOverflowError ∨ ∃ why, e = HistoryRefused why.

Lemma refused_why why : refused (HistoryRefused why).
Proof. right. by exists why. Qed.
Lemma refused_overflow : refused PyOverflowError.
Proof. by left. Qed.
#[local] Hint Resolve refused_why refused_overflow : core.

Ltac refusals :=
  repeat first [apply fails_raise_if; [by auto|intros ?] | apply fails_bind; [|intros ? ?] | apply fails_of_option; by auto
                | apply fails_raise; by auto | exact I | by auto | progress cbv zeta beta].

Lemma read_sample_refuses lo hi last v : fails_by refused (read_sample lo hi last v).
Proof.
  destruct v as [| | | | |l|]; try by cbn; auto. destruct l as [|t [|raw [|]]]; try by cbn; auto. cbn [read_sample].
  assert (fails_by refused (grid_time t)) by (unfold grid_time, isfinite; destruct (number t) as [[z|x]|]; refusals).
  assert (fails_by refused (raw_rate raw)) by (unfold raw_rate; destruct raw; refusals).
  refusals.
Qed.

Lemma read_samples_refuses lo hi l : ∀ last, fails_by refused (read_samples lo hi last l).
Proof.
  induction l as [|v l IH]; intros last; cbn [read_samples]; [done|]. pose proof (read_sample_refuses lo hi last v). refusals.
Qed.

Lemma parse_series_refuses doc lo hi : fails_by refused (_parse_series doc lo hi).
Proof.
  unfold _parse_series. refusals. destruct (get_or_null "result" _) as [| | | | |[|[] [|]]|]; try by cbn; auto.
  destruct (get_or_null "values" _); try by cbn; auto. apply read_samples_refuses.
Qed.

Lemma loads_body_raises body : fails_by (λ e, ∃ why, e = PyValueError why) (loads_body body).
Proof.
  unfold loads_body, loads. destruct (utf8_decode _); [|by eexists]. destruct (value _ _) as [[v r]|]; [|by eexists].
  destruct (_ =? _)%nat; [done|by eexists].
Qed.

(** C23: The history the older API forecasts from. The read gives a history exactly when one exchange, for the compiled query and the
    week that ends on the grid, answers 200 with one complete series of finite, non-negative rates on the grid, inside the
    window and in order; then every sample of the answer is in it, once, with its own time and its rate per minute, and there
    are no more samples than grid points. It says that the backend is unavailable only when the exchange failed or the backend
    answered that it cannot serve now. *)
Theorem legacy_history_exact {W} (fetch : string → f64 → Z → SE W exchange) base_url query now hours deadline_s max_bytes (w : W) :
  let '(r, w') := query_history fetch base_url query now hours deadline_s max_bytes w in
  (∀ l, r = Ok l ↔ ∃ q fin doc s, exchanged fetch base_url query now hours deadline_s max_bytes w q fin w' doc
      ∧ accepted (fin - hours * 3600) fin doc s ∧ l = as_sample <$> s) ∧
  (∀ l, r = Ok l → Z.of_nat (length l) ≤ Z.max 0 (hours * 6 + 1)) ∧
  (∀ why, r = Raise (HistoryUnavailable why) → ∃ url, match fetch url deadline_s max_bytes w with
      | (Ok TransportFailure, _) => True
      | (Ok (Answer status _), _) => 500 ≤ status ∨ status ∈ [401; 403; 429]
      | (Ok BodyTooLarge, _) => False
      | (Raise e, _) => e = HistoryUnavailable why
      end).
Proof.
  destruct (query_history _ _ _ _ _ _ _ _) as [r w'] eqn:E. unfold query_history in E. rewrite se_bind_eq in E.
  pose proof (query_series_ok fetch base_url query now hours deadline_s max_bytes w) as Hok.
  destruct (query_series _ _ _ _ _ _ _ _) as [[s|e] w1] eqn:Es; cbn in E; injection E as <- <-.
  - split; [|split; [|discriminate]].
    + intros l. split.
      * intros [= <-]. destruct (proj1 (Hok s w1) eq_refl) as (q & fin & doc & Hx & Ha). by exists q, fin, doc, s.
      * intros (q & fin & doc & s' & Hx & Ha & ->). assert ((Ok s, w1) = (Ok s', w1)) as [= ->] by (apply Hok; by exists q, fin, doc).
        done.
    + intros l [= <-]. rewrite length_fmap. destruct (proj1 (Hok s w1) eq_refl) as (q & fin & doc & [_ He _ _] & Ha).
      destruct Ha as (_ & _ & _ & _ & _ & series & values & _ & _ & Hs & Hsorted). apply grid_end_ok in He as [Hfin _].
      assert (Forall (λ x : Z * f64, x.1 mod STEP_SECONDS = 0 ∧ fin - hours * 3600 ≤ x.1 ≤ fin) s) as Hg.
      { clear -Hs. induction Hs as [|v x ? ? [(t & raw & rps & _ & Ht & _) Hw _] _ IH]; [constructor|]. constructor; [|done].
        split; [|done]. unfold grid_time in Ht. destruct (number t); [|done]. ok_inv Ht. subst. by bool_prop. }
      destruct s as [|x s]; [cbn; lia|]. apply after_cons in Hsorted as [_ Hsorted]. apply Forall_cons in Hg as [[Hx Hw] Hg].
      assert (Forall (λ x : Z * f64, x.1 mod STEP_SECONDS = 0 ∧ x.1 ≤ fin) s) as Hg' by (eapply Forall_impl; [exact Hg|]; naive_solver).
      pose proof (grid_count fin s x.1 Hx Hsorted Hg') as Hc. unfold STEP_SECONDS in *. cbn [length]. destruct Hc as [->|Hc]; [|lia].
      cbn. Z.to_euclidean_division_equations. lia.
  - split; [|split; [done|]].
    + intros l. split; [done|]. intros (q & fin & doc & s' & Hx & Ha & ->).
      assert ((Raise e, w1) = (Ok s', w1)) as [=] by (apply Hok; by exists q, fin, doc).
    + intros why [= ->]. destruct query as [| | | |q| |]; try discriminate Es. cbn [query_series] in Es. case_bool_decide; [discriminate Es|].
      rewrite se_bind_eq in Es. unfold lift at 1 in Es. destruct (_grid_end now) as [fin|e] eqn:He.
      2:{ exfalso. injection Es as -> _. assert (fails_by (λ e, e ≠ HistoryUnavailable why) (_grid_end now)) as Hn; [|by rewrite He in Hn].
          unfold _grid_end, utc_of, py_trunc, from_epoch. apply fails_bind; [|intros us _; apply fails_bind; [|intros ep _]].
          - destruct (dt_offset now); [apply fails_raise_if; [congruence|done]|done].
          - destruct (if timestamp us <ᶠ f0 then _ else _); [done|]. cbn. by destruct (is_nan _).
          - apply fails_raise_if; [unfold out_of_range; congruence|done]. }
      rewrite se_bind_eq in Es. unfold lift at 1, grid_start in Es. destruct (_ || _); [discriminate Es|].
      rewrite se_bind_eq in Es. exists (range_url base_url q (fin - hours * 3600) fin STEP_SECONDS).
      cbn [mret res_ret] in Es.
      destruct (fetch _ _ _ w) as [[reply|e] w2] eqn:Ef; [|by injection Es as ->].
      rewrite se_bind_eq in Es. unfold lift at 1 in Es. destruct (answer_of reply) as [doc|e] eqn:Ea.
      * exfalso. unfold lift in Es. injection Es as Ep _. pose proof (parse_series_refuses doc (fin - hours * 3600) fin) as Hr.
        rewrite Ep in Hr. destruct Hr as [?|[??]]; discriminate.
      * injection Es as -> _. destruct reply as [status body| |]; cbn in Ea; [|discriminate Ea|done].
        destruct (500 <=? status) eqn:E5; [left; lia|]. cbn [orb] in Ea. case_bool_decide; [by right|].
        destruct (negb _); [discriminate Ea|]. pose proof (loads_body_raises body) as Hl.
        destruct (loads_body body) as [d|e]; [discriminate Ea|]. destruct Hl as [? ->]. discriminate Ea.
Qed.

(** A week's answer with one sample missing, in a window of one hour that ends at 12:00 on 9 October 2026. *)
Definition demo_now : datetime := {| dt_local := 1791547500 * SECOND; dt_offset := None |}.
Definition demo_series : string :=
  q "{'status':'success','data':{'resultType':'matrix','result':[{'metric':{},'values':[[1791546000,'5'],[1791547200,0.5]]}]}}".
Definition demo_answers (_ : string) (_ : f64) (_ : Z) : SE exchange exchange := λ w, (Ok w, w).
Definition demo_query (w : exchange) : res (list sample) * exchange :=
  query_history demo_answers "http://vm" (JStr "sum(rate(web[1m]))") demo_now 1 DEADLINE_S MAX_RESPONSE_BYTES w.

Example demo_history : demo_query (Answer 200 demo_series) =
  (Ok [{| sm_timestamp := "2026-10-09T11:40:00"; sm_value := f64_of_Z 300 |}; {| sm_timestamp := "2026-10-09T12:00:00"; sm_value := f64_of_Z 30 |}],
   Answer 200 demo_series).
Proof. vm_compute. reflexivity. Qed.

Lemma legacy_history_exact_witness : ∃ l w', demo_query (Answer 200 demo_series) = (Ok l, w') ∧ Z.of_nat (length l) ≤ 7.
Proof.
  pose proof (legacy_history_exact demo_answers "http://vm" (JStr "sum(rate(web[1m]))") demo_now 1 DEADLINE_S MAX_RESPONSE_BYTES
                (Answer 200 demo_series)) as H.
  fold (demo_query (Answer 200 demo_series)) in H. rewrite demo_history in H. destruct H as (_ & H & _).
  eexists _, _. split; [apply demo_history|]. exact (H _ eq_refl).
Defined.

(** A sample that is an integer no float holds escapes as an [OverflowError], where the module says that anything but one valid
    series is refused. *)
Example huge_sample_escapes : fst (demo_query (Answer 200 (String.string_of_list_ascii (chars
  (q "{'status':'success','data':{'resultType':'matrix','result':[{'values':[[1791547200,1") ++ replicate 400 "0"%char ++ chars (q "]]}]}}")))))
  = Raise PyOverflowError.
Proof. vm_compute. reflexivity. Qed.
