(* ===== verification/Serving.v ===== *)
(** [ml-engine/api/main.py]: the older API's forecasts. A request is resolved to its compiled query ([Identity]), the history is
    read ([LegacyHistory]), the model record of its key is reloaded when its files changed and pinned ([Registry]), the window is
    checked ([Gapfill]), the model runs, and the answer attests the query and the record it was computed with; afterwards the
    forecast is queued for scoring ([Accuracy]). This is the path of a deployment without benchmark experiments, which are
    refused unless a switch allows them. The model object, the files, the clocks and the cluster are operations of any outcome on
    an outside world; other requests run between any two steps. The calls of [prometheus_client] are a list of events. *)
From Stdlib Require Import SpecFloat Ascii.
From stdpp Require Import gmultiset relations.
From S2P Require Import Prelude Float64 Sha256 Json Timestamps Datetimes Numbers Identity Contracts History LegacyHistory.
From S2P Require Import Registry Accuracy Gapfill.

(** * Times and numbers of a request *)

(** [gapfill._ts] of a text. *)
Definition _ts (s : string) : res Z :=
  d ← fromisoformat (zulu s); py_trunc (timestamp (dt_local d - or_default 0 (dt_offset d))).

(** A naive time in UTC, or nothing. *)
Definition _parse_iso (v : json) : option Z :=
  match v with
  | JStr s =>
      if bool_decide (s = EmptyString) then None
      else match (d ← fromisoformat (zulu s); utc_of d) with Ok us => Some us | Raise _ => None end
  | _ => None
  end.

(** A finite float, or nothing; an integer no float holds raises. *)
Definition _finite_or_none (v : json) : res (option f64) :=
  let keep x := if is_finite x then Some x else None in
  match v with
  | JInt z => raise_if negb (is_finite (f64_of_Z z)) with PyOverflowError ;; Ok (Some (f64_of_Z z))
  | JFloat x => Ok (keep x)
  | JBool b => Ok (Some (if b then f1 else f0))
  | JStr s => Ok (x ← py_float (chars s); keep x)
  | _ => Ok None
  end.

(** Non-finite floats become null. *)
Fixpoint _json_safe (v : json) : json :=
  match v with
  | JFloat x => if is_finite x then v else JNull
  | JArr l => JArr (map _json_safe l)
  | JObj o => JObj (map (λ kv, (kv.1, _json_safe kv.2)) o)
  | _ => v
  end.

(** The tracker's name of one signal. *)
Definition accuracy_scope (s : ResolvedSignal) : string :=
  let ident := rs_autoscaler_uid s +:+ "|" +:+ rs_target_uid s +:+ "|" +:+ rs_sha256 s +:+ "|" +:+ rs_contract s in
  rs_name s +:+ "#" +:+ String.substring 0 16 (sha256_hex (utf8 ident)).

(** The error the floor is computed from: of the blended component when it was measured, else of the forecast, else none. *)
Definition resolve_floor_mape (key : series) (t : AccuracyTracker) : f64 :=
  match (c ← get_component_mape key "blended" t; match c with Some x => Ok (Some x) | None => get_mape key t end) with
  | Ok (Some x) => x
  | _ => f0
  end.

(** * The process and the world *)

Inductive metric_event :=
| Inc (name : string) (labels : list string)
| IncError (e : exn)                                          (* labelled with the exception's class *)
| SetTo (name : string) (labels : list string) (v : f64)
| RemoveSeries (name : string) (labels : list string).

Definition stamp_ns : Type := Z * Z.

(** What a model is asked for, and what it answers. A model without a scaler keeps the sequence it had. *)
Record model_call := {
  mc_sequence : option (list f64); mc_steps : Z; mc_floor : f64; mc_origin : Z; mc_timestamps : list Z; mc_history : option (list point);
}.
Record forecast := {
  fc_predictions : list f64; fc_confidence : f64; fc_components : json; fc_floor_pct : f64; fc_targets : list string;
}.

Record Outside (M X : Type) := {
  ou_kget : string → SE X (option json);
  ou_fetch : string → f64 → Z → SE X exchange;
  ou_now : X → Z * X;                                         (* [datetime.now(utc)], microseconds *)
  ou_monotonic : X → f64 * X;
  ou_mtime : string → SE X (option Z);                        (* [None]: no such file *)
  ou_read : string → SE X string;
  ou_sidecar : string → SE X (option string);
  ou_admit : X → bool * X;                                    (* a slot of the admission *)
  ou_inference : f64 → X → bool * X;                          (* a slot of inference within a time *)
  ou_free_inference : X → X;
  ou_predict : nat → M → model_call → SE X forecast;
}.
Arguments ou_kget {M X} _ _ _.
Arguments ou_fetch {M X} _ _ _ _ _.
Arguments ou_now {M X} _ _.
Arguments ou_monotonic {M X} _ _.
Arguments ou_mtime {M X} _ _ _.
Arguments ou_read {M X} _ _ _.
Arguments ou_sidecar {M X} _ _ _.
Arguments ou_admit {M X} _ _.
Arguments ou_inference {M X} _ _ _.
Arguments ou_free_inference {M X} _ _.
Arguments ou_predict {M X} _ _ _ _ _.

Section serving.
Context {M X : Type} (O : Outside M X).
Context (loader : string → res M) (old_format has_scaler : M → bool) (sequence_length : M → Z).
Context (validity_mask : mask) (prometheus_url : string).

(** [ps_held] is the record of the running [with registry.pin(...)]. *)
Record process := {
  ps_registry : registry (M := M); ps_stamps : list (string * stamp_ns); ps_retry : list (string * (f64 * f64 * stamp_ns));
  ps_loading : list string; ps_tracker : AccuracyTracker; ps_metrics : list metric_event; ps_held : option nat;
}.

Definition set_registry (g : registry) (p : process) : process := {|
  ps_registry := g; ps_stamps := ps_stamps p; ps_retry := ps_retry p; ps_loading := ps_loading p; ps_tracker := ps_tracker p;
  ps_metrics := ps_metrics p; ps_held := ps_held p |}.
Definition set_seen (stamps : list (string * stamp_ns)) (retry : list (string * (f64 * f64 * stamp_ns))) (p : process) : process := {|
  ps_registry := ps_registry p; ps_stamps := stamps; ps_retry := retry; ps_loading := ps_loading p; ps_tracker := ps_tracker p;
  ps_metrics := ps_metrics p; ps_held := ps_held p |}.
Definition set_loading (l : list string) (p : process) : process := {|
  ps_registry := ps_registry p; ps_stamps := ps_stamps p; ps_retry := ps_retry p; ps_loading := l; ps_tracker := ps_tracker p;
  ps_metrics := ps_metrics p; ps_held := ps_held p |}.
Definition set_tracker (t : AccuracyTracker) (p : process) : process := {|
  ps_registry := ps_registry p; ps_stamps := ps_stamps p; ps_retry := ps_retry p; ps_loading := ps_loading p; ps_tracker := t;
  ps_metrics := ps_metrics p; ps_held := ps_held p |}.
Definition set_metrics (l : list metric_event) (p : process) : process := {|
  ps_registry := ps_registry p; ps_stamps := ps_stamps p; ps_retry := ps_retry p; ps_loading := ps_loading p; ps_tracker := ps_tracker p;
  ps_metrics := l; ps_held := ps_held p |}.
Definition set_held (h : option nat) (p : process) : process := {|
  ps_registry := ps_registry p; ps_stamps := ps_stamps p; ps_retry := ps_retry p; ps_loading := ps_loading p; ps_tracker := ps_tracker p;
  ps_metrics := ps_metrics p; ps_held := h |}.

Abbreviation W := (process * X)%type.
Context (others : W → W).

(** One indivisible step of this request, after whatever the others did. *)
Definition step {A} (m : process → res A * process) : SE W A :=
  λ w, let w1 := others w in let '(r, p) := m w1.1 in (r, (p, w1.2)).
Definition look : SE W process := step (λ p, (Ok p, p)).
Definition update (f : process → process) : SE W () := step (λ p, (Ok (), f p)).
Definition out {A} (m : SE X A) : SE W A := λ w, let w1 := others w in let '(r, x) := m w1.2 in (r, (w1.1, x)).
Definition asks {A} (m : X → A * X) : SE W A := out (λ x, let '(a, x') := m x in (Ok a, x')).
Definition emit (e : metric_event) : SE W () := update (λ p, set_metrics (ps_metrics p ++ [e]) p).
(** [try: m], with what it raised as a value. *)
Definition attempt {A} (m : SE W A) : SE W (res A) := λ w, let '(r, w') := m w in (Ok r, w').
Fixpoint each {A} (f : A → SE W ()) (l : list A) : SE W () :=
  match l with [] => mret () | x :: t => _ ← f x; each f t end.

(** * Reloading a model *)

Definition RELOAD_BACKOFF_FIRST : f64 := f64_of_Z 15.
Definition RELOAD_BACKOFF_CAP : f64 := f64_of_Z 300.

Definition _artifact_stamp (key : string) : SE W (option stamp_ns) :=
  '(pkl, meta) ← lift (artifact_paths key);
  a ← out (ou_mtime O pkl);
  match a with
  | None => mret None
  | Some x => b ← out (ou_mtime O meta); mret ((λ y, (x, y)) <$> b)
  end.

Definition load_artifact (key : string) : SE W ModelRecord :=
  '(pkl, meta) ← lift (artifact_paths key);
  data ← out (ou_read O pkl);
  sidecar ← out (ou_sidecar O meta);
  lift (load_record loader pkl data sidecar).

(** The cleanup that a locked part of the registry decided, run after it. *)
Definition run_cleanup (n : nat) (g : registry (M := M)) : registry := match rg_disposing g !! n with Some i => cleanup n i g | None => g end.

(** A record just built, and [registry.install] of it. *)
Definition install_record (r : ModelRecord) (p : process) : res () * process :=
  let g := ps_registry p in
  match install (length (rg_heap g)) (load r g) with
  | (Ok _, g') => (Ok (), set_registry (run_cleanup (length (rg_disposing g)) g') p)
  | (Raise e, _) => (Raise e, p)
  end.

(** The wait before the next try of the same files: doubled, up to the cap. *)
Definition next_backoff (stamp : stamp_ns) (retry : option (f64 * f64 * stamp_ns)) : f64 :=
  match retry with
  | Some (_, b, s) => if bool_decide (s = stamp) then fmin RELOAD_BACKOFF_CAP (b ⊗ f64_of_Z 2) else RELOAD_BACKOFF_FIRST
  | None => RELOAD_BACKOFF_FIRST
  end.

(** Whether a failure of these very files is still being waited out. *)
Definition backing_off (stamp : stamp_ns) (retry : option (f64 * f64 * stamp_ns)) : SE W bool :=
  match retry with
  | Some (not_before, _, s) => if bool_decide (s = stamp) then now ← asks (ou_monotonic O); mret (now <ᶠ not_before) else mret false
  | None => mret false
  end.

Definition seen (key : string) (stamp : stamp_ns) (p : process) : process :=
  set_seen (dset key stamp (ps_stamps p)) (ddel key (ps_retry p)) p.

Definition _reload_locked (key : string) : SE W () :=
  stamp ← _artifact_stamp key;
  p ← look;
  match stamp with
  | None => mret ()
  | Some s =>
      if bool_decide (dget key (ps_stamps p) = Some s) then mret () else
      let retry := dget key (ps_retry p) in
      wait ← backing_off s retry;
      if (wait : bool) then mret () else
      r ← attempt (load_artifact key);
      match r with
      | Raise (ModelIncompatible _) => update (seen key s)
      | Raise _ =>
          let backoff := next_backoff s retry in
          now ← asks (ou_monotonic O);
          update (λ p, set_seen (ps_stamps p) (dset key (now ⊕ backoff, backoff, s) (ps_retry p)) p)
      | Ok rec =>
          s' ← _artifact_stamp key;
          if negb (bool_decide (s' = Some s)) then mret () else
          _ ← update (seen key s);
          if old_format (mr_model rec) then mret () else step (install_record rec)
      end
  end.

(** One reload of a key at a time; a second caller goes on with the record that is there. *)
Definition lock_reload (key : string) (p : process) : res bool * process :=
  if bool_decide (key ∈ ps_loading p) then (Ok false, p) else (Ok true, set_loading (key :: ps_loading p) p).
Definition unlock_reload (key : string) (p : process) : process := set_loading (filter (λ k, k ≠ key) (ps_loading p)) p.

Definition _reload_if_changed (key : string) : SE W () :=
  got ← step (lock_reload key);
  if (got : bool) then r ← attempt (_reload_locked key); _ ← update (unlock_reload key); lift r else mret ().

(** At the start: every artifact whose name carries a key; [names] are the files [lstm_*.pkl], in order. *)
Definition _load_pretrained_models (names : list string) : SE W () :=
  each (λ name,
    let stem := list.take (length (chars name) - 9) (drop 5 (chars name)) in
    if key_text stem then _reload_if_changed (text stem) else mret ()) names.

(** * One forecast *)

(** [with registry.pin(key) as rec: body] *)
Definition take_record (key : string) (p : process) : res (option (nat * ModelRecord)) * process :=
  match pin key (ps_registry p) with
  | (Some i, g) => (Ok ((λ r, (i, r)) <$> rg_heap g !! i), set_held (Some i) (set_registry g p))
  | (None, _) => (Ok None, p)
  end.
Definition drop_record (i : nat) (p : process) : process :=
  let g := ps_registry p in set_held None (set_registry (run_cleanup (length (rg_disposing g)) (unpin i g)) p).
Definition with_pin {A} (key : string) (body : option (nat * ModelRecord) → SE W A) : SE W A :=
  r ← step (take_record key);
  match r with
  | None => body None
  | Some (i, rec) => x ← attempt (body (Some (i, rec))); _ ← update (drop_record i); lift x
  end.

(** The samples whose time can be read. *)
Definition points_of (l : list sample) : list point :=
  omap (λ s, match _ts (sm_timestamp s) with Ok t => Some (t, sm_value s) | Raise _ => None end) l.

(** [(now - then).total_seconds() / 3600] *)
Definition hours_between (now then_ : Z) : f64 := int_div (now - then_) SECOND ⊘ f64_of_Z 3600.

Definition steps_ahead (horizon_minutes : Z) : Z := Z.max 1 (horizon_minutes / 10).

(** What a served step must be: a number. *)
Definition served (l : list f64) : res (list f64) := mapM_res (λ x, py_round x 2) l.

Definition json_of_option {A} (f : A → json) (o : option A) : json := match o with Some a => f a | None => JNull end.

Definition window_json (info : mask_info) (rec : window_record) : res json :=
  latest ← format_ts (JInt (wr_latest_observed rec));
  Ok (JObj [("window_slots", JInt (wr_slots rec)); ("imputed_in_window", JInt (wr_imputed rec)); ("latest_observed", JStr latest);
            ("latest_is_imputed", JBool (wr_latest_is_imputed rec)); ("gaps_filled", JInt (fr_gaps_filled (wr_fill rec)));
            ("mask", JObj [("mask_version", JInt (mi_version info)); ("dropped_in_intervals", JInt (mi_dropped_in info))])]).

Definition TARGET_TIMESTAMPS : string := "target_timestamps".

(** [_predict_with_record] for a resolved signal and the pinned record [i]. *)
Definition _predict_with_record (i : nat) (rec : ModelRecord) (signal : ResolvedSignal) (metric_data : list sample)
    (horizon_minutes : Z) : SE W (list (string * json)) :=
  let application := rs_name signal in
  let metric := rs_metric signal in
  let model := mr_model rec in
  let trained := _parse_iso (oget "trained_at" (mr_meta rec)) in
  age ← match trained with
        | Some t => now ← asks (ou_now O); mret (hours_between now t)
        | None => mret (f64_of_Z (-1))
        end;
  _ ← emit (SetTo "predictive_autoscaler_model_age_hours" [application; metric] (if f0 ≤ᶠ age then age else f64_of_Z (-1)));
  let '(pts, info) := apply_mask (points_of metric_data) validity_mask "inference" in
  now ← asks (ou_now O);
  now_s ← lift (py_trunc (timestamp now));
  '(window, fill) ← lift (check_inference_window pts now_s (sequence_length model) GRID_S (2 * GRID_S) (mask_intervals validity_mask));
  first ← lift (of_option PyIndexError (last window));
  let values := window.*2 in
  let fresh := has_scaler model && (sequence_length model <=? Z.of_nat (length values)) in
  let steps := steps_ahead horizon_minutes in
  p ← look;
  let floor := resolve_floor_mape (accuracy_scope signal, rs_namespace signal, metric) (ps_tracker p) in
  f ← out (ou_predict O i model {|
        mc_sequence := if fresh then Some (last_n (sequence_length model) values) else None; mc_steps := steps; mc_floor := floor;
        mc_origin := first.1; mc_timestamps := window.*1; mc_history := match pts with [] => None | _ => Some pts end |});
  predictions ← lift (served (fc_predictions f));
  raise_if negb (forallb is_finite predictions) with HTTPError 422 "forecast refused: no finite value for a step" ;;
  _ ← emit (Inc "ml_api_prediction_requests_total" [application]);
  raise_if (length predictions =? 0)%nat with PyValueError "min() arg is an empty sequence" ;;
  input_end ← lift (format_ts (JInt first.1));
  window_ ← lift (window_json info fill);
  confidence ← lift (py_round (fc_confidence f) 3);
  now2 ← asks (ou_now O);
  age_r ← lift (py_round age 2);
  floor_pct ← lift (py_round (fc_floor_pct f) 2);
  let sha := mr_artifact_sha256 rec in
  mret [("application", JStr application); ("metric_type", JStr metric);
        ("model_version", JStr (mr_key rec +:+ "@" +:+ String.substring 0 12 sha));
        ("model_trained_at", JStr (match trained with Some t => isoformat t +:+ "Z" | None => EmptyString end));
        ("training_cutoff", (let c := oget "training_cutoff" (mr_meta rec) in if truthy c then c else JStr EmptyString));
        ("artifact_sha256", JStr sha); ("sequence_length", JInt (sequence_length model)); ("inference_input_end", JStr input_end);
        ("inference_window", window_); ("provenance", JStr "sidecar"); ("predictions", JArr (JFloat <$> predictions));
        (TARGET_TIMESTAMPS, JArr (JStr <$> fc_targets f)); ("confidence", JFloat confidence); ("model_name", JStr ("lstm_" +:+ mr_key rec));
        ("model_identity", JObj [("namespace", JStr (mr_namespace rec)); ("name", JStr (mr_name rec)); ("metric", JStr (mr_metric rec))]);
        ("timestamp", JStr (isoformat now2)); ("horizon_minutes", JInt horizon_minutes);
        ("data_points_used", JInt (Z.of_nat (length metric_data))); ("model_age_hours", JFloat age_r); ("components", fc_components f);
        ("floor_pct", JFloat floor_pct); ("metric_query_sha256", JStr (rs_sha256 signal)); ("contract", JStr (rs_contract signal))].

(** [LSTMPredictor.predict] of a resolved signal. *)
Definition predict (signal : ResolvedSignal) (metric_data : list sample) (horizon_minutes : Z) : SE W (list (string * json)) :=
  r ← attempt (
    raise_if (length metric_data =? 0)%nat with PyValueError "No metric data provided" ;;
    let key := model_key (rs_namespace signal) (rs_name signal) (rs_metric signal) in
    _ ← _reload_if_changed key;
    with_pin key (λ pinned,
      match pinned with
      | None => mthrow (HTTPError 422 "forecast refused: ModelUnavailable")
      | Some (i, rec) =>
          match incompatibility rec signal with
          | Some why => mthrow (HTTPError 422 ("forecast refused: ModelQueryMismatch: " +:+ why))
          | None => _predict_with_record i rec signal metric_data horizon_minutes
          end
      end));
  match r with
  | Ok a => mret a
  | Raise e => _ ← emit (IncError e); mthrow e
  end.

Definition INFERENCE_WAIT_S : f64 := f64_of_Z 20.

(** [_serve_forecast]: the whole job of a worker thread. *)
Definition _serve_forecast (request : json) (horizon_minutes : Z) : SE W (list (string * json) * ResolvedSignal * list sample) :=
  signal ← resolve_signal (λ path, out (ou_kget O path)) request;
  now ← asks (ou_now O);
  history ← query_history (λ url d n, out (ou_fetch O url d n)) prometheus_url (JStr (rs_query signal))
              {| dt_local := now; dt_offset := Some 0 |} HISTORY_HOURS DEADLINE_S MAX_RESPONSE_BYTES;
  got ← asks (ou_inference O INFERENCE_WAIT_S);
  raise_if negb got with ServiceBusy "inference capacity busy" ;;
  r ← attempt (predict signal history horizon_minutes);
  _ ← asks (λ x, ((), ou_free_inference O x));
  prediction ← lift r;
  mret (prediction, signal, history).

(** [_run_admitted] of the job, and what the endpoint makes of its refusals. *)
Definition admitted (request : json) (horizon_minutes : Z) : SE W (list (string * json) * ResolvedSignal * list sample) :=
  r ← attempt (
    got ← asks (ou_admit O);
    raise_if negb got with HTTPError 503 "forecast unavailable: the service is at capacity" ;;
    _serve_forecast request horizon_minutes);
  match r with
  | Ok a => mret a
  | Raise (ProvenanceRefused m) | Raise (HistoryRefused m) | Raise (PyValueError m) => mthrow (HTTPError 422 ("forecast refused: " +:+ m))
  | Raise (LookupFailed m) | Raise (HistoryUnavailable m) | Raise (ServiceBusy m) => mthrow (HTTPError 503 ("forecast unavailable: " +:+ m))
  | Raise e => mthrow e
  end.

(** * The endpoint *)

Definition update_tracker (f : AccuracyTracker → AccuracyTracker) : SE W () := update (λ p, set_tracker (f (ps_tracker p)) p).
Definition taken (key : queue_key) (obs : datetime) : SE W (list f64) :=
  step (λ p, let '(l, t) := take_matured key obs 300 (ps_tracker p) in (Ok l, set_tracker t p)).

Definition _set_error_gauge (gauge : string) (s : stats) (labels : list string) : SE W () :=
  emit match st_value s with Some v => if st_measured s then SetTo gauge labels v else RemoveSeries gauge labels | None => RemoveSeries gauge labels end.

(** The newest sample: its time and its rate, when it can score a forecast. *)
Definition newest (l : list sample) : option (Z * f64) :=
  s ← last l; at_ ← _parse_iso (JStr (sm_timestamp s)); if f0 <ᶠ sm_value s then Some (at_, sm_value s) else None.

Definition naive (us : Z) : datetime := {| dt_local := us; dt_offset := None |}.

(** The forecasts whose target the newest sample is are scored, and the error's gauges follow. *)
Definition score_forecasts (key : series) (labels : list string) (at_ : Z) (actual : f64) : SE W () :=
  matured ← taken (key, None) (naive at_);
  _ ← each (λ predicted, now ← asks (ou_now O); update_tracker (record key now predicted actual)) matured;
  if (length matured =? 0)%nat then mret () else
  p ← look;
  mape ← lift (mape_stats key (ps_tracker p));
  mae ← lift (mae_stats key (ps_tracker p));
  _ ← _set_error_gauge "predictive_autoscaler_mape" mape labels;
  _ ← _set_error_gauge "predictive_autoscaler_mae" mae labels;
  emit (SetTo "predictive_autoscaler_accuracy_scored_forecasts" labels (f64_of_Z (st_scored mape))).

(** The list a component's name holds, and its value at a step. *)
Definition component_list (components : json) (comp : string) : list json :=
  match get_or_null comp components with JArr l => l | _ => [] end.
Definition component_value (components : json) (comp : string) (i : nat) : res (option f64) :=
  match component_list components comp !! i with Some v => _finite_or_none v | None => Ok None end.

Definition COMPONENTS : list string := ["lstm"; "pattern"; "blended"].

(** One step of the forecast, and its components, wait for the step's target. *)
Definition queue_step (key : series) (components : json) (s : nat * (json * json)) : SE W () :=
  let '(i, (value, target)) := s in
  match _parse_iso target with
  | None => mret ()
  | Some t =>
      final ← lift (_finite_or_none value);
      _ ← match final with Some x => update_tracker (store_forecast (key, None) (naive t) x) | None => mret () end;
      each (λ comp,
        v ← lift (component_value components comp i);
        match v with Some x => update_tracker (store_forecast (key, Some comp) (naive t) x) | None => mret () end) COMPONENTS
  end.

Definition response_list (k : string) (prediction : list (string * json)) : list json :=
  match oget k prediction with JArr l => l | _ => [] end.

(** The accuracy block of the endpoint. *)
Definition track_accuracy (key : series) (labels : list string) (prediction : list (string * json)) (metric_data : list sample) : SE W () :=
  _ ← match newest metric_data with Some (at_, actual) => score_forecasts key labels at_ actual | None => mret () end;
  each (queue_step key (oget "components" prediction))
    (imap pair (zip (response_list "predictions" prediction) (response_list TARGET_TIMESTAMPS prediction))).

Definition step_gauge (application namespace comp : string) (s : nat * json) : SE W () :=
  let labels := [application; namespace; comp; text_of_Z (Z.of_nat s.1 + 1)] in
  v ← lift (_finite_or_none s.2);
  emit match v with Some x => SetTo "ml_api_prediction_rpm" labels x | None => RemoveSeries "ml_api_prediction_rpm" labels end.

Definition score_component (key : series) (application namespace : string) (at_ : Z) (actual : f64) (comp : string) : SE W () :=
  matured ← taken (key, Some comp) (naive at_);
  each (λ predicted,
    now ← asks (ou_now O);
    _ ← update_tracker (record_component key comp now predicted actual);
    p ← look;
    s ← lift (component_mape_stats key comp (ps_tracker p));
    _ ← _set_error_gauge "ml_api_component_mape" s [application; namespace; comp];
    emit (SetTo "predictive_autoscaler_component_accuracy_scored_forecasts" [application; namespace; comp] (f64_of_Z (st_scored s)))) matured.

(** The gauges of the forecast's components, and their scores. *)
Definition track_components (key : series) (application namespace : string) (prediction : list (string * json)) (metric_data : list sample)
    : SE W () :=
  let components := oget "components" prediction in
  _ ← (if truthy components
       then each (λ comp, each (step_gauge application namespace comp) (imap pair (component_list components comp))) (COMPONENTS ++ ["final"])
       else mret ());
  _ ← match oget "floor_pct" prediction with JFloat x => emit (SetTo "ml_api_floor_pct" [application; namespace] x) | _ => mret () end;
  match newest metric_data with
  | Some (at_, actual) =>
      if truthy components then each (score_component key application namespace at_ actual) COMPONENTS else mret ()
  | None => mret ()
  end.

Definition not_measured : stats := {| st_value := None; st_scored := 0; st_recorded := 0; st_availability := None; st_measured := false |}.

(** The error figures, which travel with the number of forecasts behind them. *)
Definition accuracy_of (key : series) (t : AccuracyTracker) : list (string * json) :=
  let '(mape, mae) := match (a ← mape_stats key t; b ← mae_stats key t; Ok (a, b)) with Ok s => s | Raise _ => (not_measured, not_measured) end in
  let rate := json_of_option JFloat in
  [("mape", rate (st_value mape)); ("mape_measured", JBool (st_measured mape)); ("mape_scored", JInt (st_scored mape));
   ("mape_recorded", JInt (st_recorded mape)); ("mape_availability", rate (st_availability mape));
   ("mae", rate (st_value mae)); ("mae_measured", JBool (st_measured mae)); ("mae_scored", JInt (st_scored mae))].

(** The checks of the body that come first: the horizon it asks for. *)
Definition check_request (request : json) : res Z :=
  match request with
  | JObj r =>
      raise_if negb (truthy (oget "application" r)) with HTTPError 400 "Application name is required" ;;
      raise_if dhas "metric_data" r with HTTPError 422 "forecast refused: caller-supplied history is not accepted" ;;
      raise_if negb (py_eq (oget_default "metric_type" (JStr "requests") r) (JStr "requests"))
        with HTTPError 400 "metric_type must be 'requests'" ;;
      match oget_default "horizon_minutes" (JInt 60) r with
      | JInt h =>
          raise_if negb ((10 <=? h) && (h <=? 1440)) with HTTPError 400 "horizon_minutes must be an integer between 10 and 1440" ;; Ok h
      | _ => Raise (HTTPError 400 "horizon_minutes must be an integer between 10 and 1440")
      end
  | _ => Raise (HTTPError 400 "The request must be a JSON object")
  end.

(** [POST /predict]. A fault of the scoring or of the gauges does not fail a forecast. *)
Definition predict_endpoint (request : json) : SE W json :=
  r ← attempt (
    horizon ← lift (check_request request);
    '(prediction, signal, metric_data) ← admitted request horizon;
    let application := rs_name signal in
    let namespace := rs_namespace signal in
    let key : series := (accuracy_scope signal, namespace, "requests") in
    _ ← attempt (track_accuracy key [application; namespace; "requests"] prediction metric_data);
    _ ← attempt (track_components key application namespace prediction metric_data);
    p ← look;
    mret (_json_safe (JObj (foldl (λ d kv, dset kv.1 kv.2 d) prediction (accuracy_of key (ps_tracker p))))));
  match r with
  | Ok v => mret v
  | Raise (PyValueError m) => mthrow (HTTPError 400 m)
  | Raise (HTTPError status m) => mthrow (HTTPError status m)
  | Raise _ => mthrow (HTTPError 500 "Internal server error")
  end.
End serving.
