(* ===== verification/ServingSafety.v ===== *)
(** What a forecast of the older API promises, whatever the other requests do between its steps: it is computed with one record,
    compatible with the resolved query, pinned and not cleaned up while it is used, on a window that ends in the newest
    observation; every served step is a number; and the reload installs only a pair of files that did not change under it. *)
From Stdlib Require Import SpecFloat Ascii.
From stdpp Require Import gmultiset relations.
From S2P Require Import Prelude Float64 Sha256 Json Timestamps Datetimes Numbers Identity Contracts History LegacyHistory.
From S2P Require Import ArtifactFacts Registry Accuracy Gapfill GapfillSafety Serving.

#[local] Arguments gmultiset_disj_union : simpl never.
#[local] Arguments gmultiset_difference : simpl never.
#[local] Arguments gmultiset_singleton : simpl never.

Lemma with_life_of {M} l (r : ModelRecord (M := M)) : with_life l (with_life (mr_life r) r) = with_life l r.
Proof. done. Qed.
Lemma with_life_self {M} (r : ModelRecord (M := M)) : with_life (mr_life r) r = r.
Proof. by destruct r. Qed.

(** A record's own data never changes. *)
Lemma put_data {M} i f (h : list (ModelRecord (M := M))) j r : h !! j = Some r → ∃ l, put i f h !! j = Some (with_life l r).
Proof.
  intros H. rewrite lookup_put. case_decide; rewrite H; [by eexists|]. exists (mr_life r). by rewrite with_life_self.
Qed.

Lemma retire_data {M} old (h : list (ModelRecord (M := M))) j r : h !! j = Some r → ∃ l, (retire_old old h).1 !! j = Some (with_life l r).
Proof.
  intros H. destruct old as [o|]; cbn; [by apply put_data|]. exists (mr_life r). by rewrite with_life_self.
Qed.

Lemma rstep_data {M} (g g' : registry (M := M)) j r : rstep g g' → rg_heap g !! j = Some r → ∃ l, rg_heap g' !! j = Some (with_life l r).
Proof.
  assert (∃ l, Some r = Some (with_life l r)) as Hself by (exists (mr_life r); by rewrite with_life_self).
  destruct 1 as [r'|i g' Hi|key|key i g' Hp|i Hi|p i Hi]; intros H; cbn.
  - rewrite lookup_app_l by (by eapply lookup_lt_Some). by rewrite H.
  - unfold install in Hi. rewrite se_bind_eq in Hi. cbn in Hi. destruct (rg_heap g !! i) as [r'|]; [|done]. destruct (_ || _); [done|].
    destruct (put_data i set_installed _ j r H) as [l Hl].
    pose proof (retire_data (dget (mr_key r') (rg_records g)) _ j _ Hl) as [l' Hl'].
    destruct (retire_old _ _) as [h dispose]. injection Hi as <-. cbn in *. rewrite Hl'. by eexists.
  - unfold remove. pose proof (retire_data (dget key (rg_records g)) _ j r H) as [l Hl]. destruct (retire_old _ _) as [h dispose]. cbn in *.
    rewrite Hl. by eexists.
  - unfold pin in Hp. destruct (dget key (rg_records g)); [|done]. injection Hp as _ <-. cbn. by apply put_data.
  - by apply put_data.
  - by rewrite H.
Qed.

Lemma rsteps_data {M} (g g' : registry (M := M)) j r : rtc rstep g g' → rg_heap g !! j = Some r → ∃ l, rg_heap g' !! j = Some (with_life l r).
Proof.
  intros Hs. revert r. induction Hs as [g|g1 g2 g3 H12 _ IH]; intros r H.
  - exists (mr_life r). by rewrite with_life_self.
  - destruct (rstep_data _ _ _ _ H12 H) as [l Hl]. destruct (IH _ Hl) as [l' Hl']. by exists l'.
Qed.

Lemma rsteps_ok {M} (g g' : registry (M := M)) : registry_ok g → rtc rstep g g' → registry_ok g'.
Proof. intros Hg Hs. induction Hs; [done|]. eauto using rstep_ok. Qed.

(** A record that is held has not been cleaned up, and will not be. *)
Lemma held_uncleaned {M} (g : registry (M := M)) i : registry_ok g → i ∈ rg_pins g → (i ∉ rg_disposing g ++ rg_cleaned g).
Proof.
  intros Hg Hi Hd. destruct (gk_pins _ Hg i Hi) as [r Hr]. destruct (gk_records _ Hg i r Hr) as [A _ _ D].
  destruct (proj1 D Hd) as [_ Hz]. rewrite A in Hz. by destruct (proj1 (elem_of_multiplicity i (rg_pins g)) Hi).
Qed.

(** The registry holds only records that [load_record] accepted. *)
Definition accepted_record {M} (loader : string → res M) (r : ModelRecord) : Prop :=
  ∃ name data sidecar r0, load_record loader name data sidecar = Ok r0 ∧ r = with_life (mr_life r) r0.
Definition all_accepted {M} (loader : string → res M) (g : registry) : Prop := ∀ i r, rg_heap g !! i = Some r → accepted_record loader r.

Lemma accepted_life {M} (loader : string → res M) l r : accepted_record loader r → accepted_record loader (with_life l r).
Proof. intros (name & data & sidecar & r0 & Hr & ->). by exists name, data, sidecar, r0. Qed.

(** A step that adds no record keeps them accepted. *)
Lemma accepted_step {M} (loader : string → res M) g g' : rstep g g' → length (rg_heap g') = length (rg_heap g) →
  all_accepted loader g → all_accepted loader g'.
Proof.
  intros Hs Hl Ha i r Hr. pose proof (lookup_lt_Some _ _ _ Hr) as Hlt. rewrite Hl in Hlt.
  destruct (lookup_lt_is_Some_2 _ _ Hlt) as [r0 Hr0]. destruct (rstep_data _ _ _ _ Hs Hr0) as [l Hl']. rewrite Hr in Hl'. injection Hl' as ->.
  by apply accepted_life, (Ha i).
Qed.

Lemma put_length {M} i f (h : list (ModelRecord (M := M))) : length (put i f h) = length h.
Proof. apply length_alter. Qed.

Lemma install_length {M} i (g g' : registry (M := M)) : install i g = (Ok (), g') → length (rg_heap g') = length (rg_heap g).
Proof.
  unfold install. rewrite se_bind_eq. cbn. destruct (rg_heap g !! i) as [r|]; [|done]. destruct (_ || _); [done|].
  destruct (dget _ _) as [o|]; cbn; intros [= <-]; cbn; by rewrite !put_length.
Qed.

Lemma install_pins {M} i (g g' : registry (M := M)) : install i g = (Ok (), g') → rg_pins g' = rg_pins g.
Proof.
  unfold install. rewrite se_bind_eq. cbn. destruct (rg_heap g !! i) as [r|]; [|done]. destruct (_ || _); [done|].
  destruct (retire_old _ _) as [h dispose]. by intros [= <-].
Qed.

Section calm.
Context {M X : Type} (O : Outside M X) (loader : string → res M).
Context (old_format has_scaler : M → bool) (sequence_length : M → Z) (validity_mask : mask) (prometheus_url : string).
Abbreviation P := (process (M := M)).
Abbreviation W := (P * X)%type.

(** What one request may rely on from the others, and gives them: the registry moves by its steps and takes in only accepted
    records, and nobody lets go of the record this request holds. *)
Record follows (p p' : P) : Prop := {
  fl_steps : rtc rstep (ps_registry p) (ps_registry p');
  fl_accepted : all_accepted loader (ps_registry p) → all_accepted loader (ps_registry p');
  fl_held : ps_held p' = ps_held p;
  fl_pins : ∀ i, ps_held p = Some i → i ∈ rg_pins (ps_registry p) → i ∈ rg_pins (ps_registry p');
}.

#[export] Instance follows_preorder : PreOrder follows.
Proof.
  split; [by intros p; split|]. intros p1 p2 p3 [A1 B1 C1 D1] [A2 B2 C2 D2]. split.
  - by transitivity (ps_registry p2).
  - auto.
  - congruence.
  - intros i Hi Hp. apply D2; [congruence|auto].
Qed.

Lemma same_follows p p' : ps_registry p' = ps_registry p → ps_held p' = ps_held p → follows p p'.
Proof. intros Hr Hh. split; rewrite ?Hr; [done|done|done|auto]. Qed.

Context (others : W → W) (rely : ∀ w : W, follows w.1 (others w).1).

(** A computation that leaves the held record held. *)
Definition calm {A} (m : SE W A) : Prop := ∀ w : W, follows w.1 (m w).2.1.

Lemma calm_ret {A} (a : A) : calm (mret a).
Proof. intros w. done. Qed.
Lemma calm_throw {A} (e : exn) : calm (mthrow e : SE W A).
Proof. intros w. done. Qed.
Lemma calm_lift {A} (r : res A) : calm (lift r).
Proof. intros w. done. Qed.
Lemma calm_bind_ok {A B} (m : SE W A) (k : A → SE W B) :
  calm m → (∀ a w w', m w = (Ok a, w') → calm (k a)) → calm (m ≫= k).
Proof.
  intros Hm Hk w. rewrite se_bind_eq. specialize (Hm w). destruct (m w) as [[a|e] w'] eqn:E; [|done]. cbn in Hm.
  etransitivity; [exact Hm|]. by apply (Hk a w w').
Qed.
Lemma calm_bind {A B} (m : SE W A) (k : A → SE W B) : calm m → (∀ a, calm (k a)) → calm (m ≫= k).
Proof. intros Hm Hk. apply calm_bind_ok; auto. Qed.
Lemma calm_raise_if {A} (c : bool) (e : exn) (k : SE W A) : calm k → calm (raise_if c with e ;; k).
Proof. by destruct c. Qed.
Lemma calm_attempt {A} (m : SE W A) : calm m → calm (attempt m).
Proof. intros Hm w. unfold attempt. specialize (Hm w). by destruct (m w). Qed.
Lemma calm_each {A} (f : A → SE W ()) l : (∀ x, calm (f x)) → calm (each f l).
Proof. intros Hf. induction l as [|x t IH]; [apply calm_ret|]. by apply calm_bind. Qed.
Lemma calm_step {A} (m : P → res A * P) : (∀ p, follows p (m p).2) → calm (step others m).
Proof.
  intros Hm w. unfold step. specialize (Hm (others w).1). destruct (m _) as [r p]. cbn in *. etransitivity; [apply rely|exact Hm].
Qed.
Lemma calm_out {A} (m : SE X A) : calm (out others m).
Proof. intros w. unfold out. destruct (m _) as [r x]. cbn. apply rely. Qed.
Lemma calm_asks {A} (m : X → A * X) : calm (asks others m).
Proof. apply calm_out. Qed.
Lemma calm_look : calm (look others).
Proof. apply calm_step. done. Qed.
Lemma calm_update f : (∀ p, follows p (f p)) → calm (update others f).
Proof. intros Hf. apply calm_step. exact Hf. Qed.
Lemma calm_emit e : calm (emit others e).
Proof. apply calm_update. intros p. by apply same_follows. Qed.
Lemma calm_update_tracker f : calm (update_tracker others f).
Proof. apply calm_update. intros p. by apply same_follows. Qed.
Lemma calm_taken key obs : calm (taken others key obs).
Proof. apply calm_step. intros p. destruct (take_matured _ _ _ _). by apply same_follows. Qed.
End calm.

Create HintDb calm.
#[export] Hint Resolve calm_ret calm_throw calm_lift calm_raise_if calm_attempt calm_each calm_out calm_asks calm_look calm_emit
  calm_update_tracker calm_taken : calm.

(** Takes a computation apart down to its primitives. *)
Ltac calmly :=
  repeat first
    [ apply calm_bind; [|intros ?]
    | apply calm_each; intros ?
    | solve [eauto with calm]
    | progress cbv beta zeta
    | match goal with
      | |- calm _ (match ?x with _ => _ end) => destruct x
      | |- calm _ (λ _, _) => fail 1
      end ].

Section requests.
Context {M X : Type} (O : Outside M X) (loader : string → res M).
Context (old_format has_scaler : M → bool) (sequence_length : M → Z) (validity_mask : mask) (prometheus_url : string).
Abbreviation P := (process (M := M)).
Abbreviation W := (P * X)%type.
Context (others : W → W) (rely : ∀ w : W, follows loader w.1 (others w).1).
#[local] Hint Extern 1 (∀ w, follows _ _ _) => exact rely : calm.

(** ** The parts that hold no record, or leave it held *)

Lemma calm_stamp key : calm loader (_artifact_stamp O others key).
Proof. unfold _artifact_stamp. calmly. Qed.
Lemma calm_backing stamp retry : calm loader (backing_off O others stamp retry).
Proof. unfold backing_off. calmly. Qed.
Lemma calm_load key : calm loader (load_artifact O loader others key).
Proof. unfold load_artifact. calmly. Qed.
Lemma calm_seen key stamp : calm loader (update others (seen key stamp)).
Proof. apply calm_update; [exact rely|]. intros p. by apply same_follows. Qed.
#[local] Hint Resolve calm_stamp calm_backing calm_load calm_seen : calm.

Lemma cleanup_steps n (g : registry (M := M)) : rtc rstep g (run_cleanup n g) ∧ rg_heap (run_cleanup n g) = rg_heap g
  ∧ rg_pins (run_cleanup n g) = rg_pins g ∧ rg_records (run_cleanup n g) = rg_records g.
Proof.
  unfold run_cleanup. destruct (rg_disposing g !! n) as [i|] eqn:E; [|done]. split_and!; try done. by apply rtc_once, rs_cleanup.
Qed.

Lemma install_follows r p : accepted_record loader r → follows loader p (install_record r p).2.
Proof.
  intros Hr. unfold install_record. destruct (install _ _) as [[[]|e] g'] eqn:E; [|done]. cbn.
  destruct (cleanup_steps (length (rg_disposing (ps_registry p))) g') as (Hs & Hh & Hp & _). split; cbn.
  - eapply rtc_l; [apply (rs_load _ r)|]. eapply rtc_l; [by eapply rs_install|]. exact Hs.
  - intros Ha i r'. rewrite Hh. assert (all_accepted loader (load r (ps_registry p))) as Hl.
    { intros j r2. cbn. rewrite lookup_app_Some. intros [Hj|[_ Hj]]; [by eapply Ha|]. apply list_lookup_singleton_Some in Hj as [_ <-].
      by apply accepted_life. }
    revert i r'. fold (all_accepted loader g'). eapply accepted_step; [by eapply rs_install|by eapply install_length|done].
  - done.
  - intros i _. rewrite Hp. by rewrite (install_pins _ _ _ E).
Qed.

Lemma load_artifact_ok key w r w' : load_artifact O loader others key w = (Ok r, w') → accepted_record loader r ∧
  ∃ data sidecar, load_record loader ("lstm_" +:+ key +:+ ".pkl") data sidecar = Ok r.
Proof.
  unfold load_artifact. intros H. apply se_bind_ok in H as ([pkl meta] & w1 & Hp & H). apply lift_ok in Hp as [Hp ->].
  apply se_bind_ok in H as (data & w2 & _ & H). apply se_bind_ok in H as (sidecar & w3 & _ & H). apply lift_ok in H as [H ->].
  unfold artifact_paths in Hp. ok_inv Hp. split.
  - exists ("lstm_" +:+ key +:+ ".pkl"), data, sidecar, r. split; [by simplify_eq|]. by rewrite with_life_self.
  - exists data, sidecar. by simplify_eq.
Qed.

Lemma calm_reload_locked key : calm loader (_reload_locked O loader old_format others key).
Proof.
  unfold _reload_locked. apply calm_bind; [auto with calm|]. intros stamp. apply calm_bind; [auto with calm|]. intros p.
  destruct stamp as [s|]; [|auto with calm]. case_bool_decide; [auto with calm|]. cbv zeta. apply calm_bind; [auto with calm|]. intros wait.
  destruct wait; [auto with calm|]. apply calm_bind_ok; [auto with calm|]. intros r w w' Hr.
  destruct r as [rec|e].
  - apply calm_bind; [auto with calm|]. intros s'. destruct (negb _); [auto with calm|]. apply calm_bind; [auto with calm|]. intros _.
    destruct (old_format _); [auto with calm|]. apply calm_step; [exact rely|]. intros p'. apply install_follows.
    unfold attempt in Hr. destruct (load_artifact _ _ _ _ w) as [[rec'|e] w2] eqn:El; [|done]. injection Hr as -> _.
    by apply load_artifact_ok in El as [? _].
  - assert (calm loader (now ← asks others (ou_monotonic O);
      update others (λ p, set_seen (ps_stamps p) (dset key (now ⊕ next_backoff s (dget key (ps_retry p)), next_backoff s (dget key (ps_retry p)), s) (ps_retry p)) p))) as _.
    { apply calm_bind; [auto with calm|]. intros now. apply calm_update; [exact rely|]. intros p'. by apply same_follows. }
    destruct e; try (apply calm_bind; [auto with calm|]; intros now; apply calm_update; [exact rely|]; intros p'; by apply same_follows).
    auto with calm.
Qed.
#[local] Hint Resolve calm_reload_locked : calm.

Lemma calm_reload key : calm loader (_reload_if_changed O loader old_format others key).
Proof.
  unfold _reload_if_changed. apply calm_bind.
  - apply calm_step; [exact rely|]. intros p. unfold lock_reload. case_bool_decide; [done|]. by apply same_follows.
  - intros [|]; [|auto with calm]. apply calm_bind; [auto with calm|]. intros r. apply calm_bind; [|auto with calm].
    apply calm_update; [exact rely|]. intros p. by apply same_follows.
Qed.

Lemma calm_autoscaler ns name : calm loader (resolve_autoscaler (λ path, out others (ou_kget O path)) ns name).
Proof. unfold resolve_autoscaler. calmly. Qed.
#[local] Hint Resolve calm_autoscaler : calm.
Lemma calm_signal request : calm loader (resolve_signal (λ path, out others (ou_kget O path)) request).
Proof. unfold resolve_signal. calmly. Qed.
Lemma calm_series base query now hours d n :
  calm loader (query_series (λ url d n, out others (ou_fetch O url d n)) base query now hours d n).
Proof. unfold query_series. calmly. Qed.
#[local] Hint Resolve calm_series : calm.
Lemma calm_history base query now hours d n :
  calm loader (query_history (λ url d n, out others (ou_fetch O url d n)) base query now hours d n).
Proof. unfold query_history. calmly. Qed.
Lemma calm_with_record i rec signal history horizon :
  calm loader (_predict_with_record O has_scaler sequence_length validity_mask others i rec signal history horizon).
Proof. unfold _predict_with_record. calmly. Qed.
Lemma calm_gauge gauge s labels : calm loader (_set_error_gauge others gauge s labels).
Proof. unfold _set_error_gauge. auto with calm. Qed.
#[local] Hint Resolve calm_gauge : calm.
Lemma calm_score key labels at_ actual : calm loader (score_forecasts O others key labels at_ actual).
Proof. unfold score_forecasts. calmly. Qed.
#[local] Hint Resolve calm_score : calm.
Lemma calm_accuracy key labels prediction history : calm loader (track_accuracy O others key labels prediction history).
Proof. unfold track_accuracy, queue_step. calmly. Qed.
Lemma calm_components key application namespace prediction history :
  calm loader (track_components O others key application namespace prediction history).
Proof. unfold track_components, step_gauge, score_component. calmly. Qed.
#[local] Hint Resolve calm_reload calm_signal calm_history calm_with_record calm_accuracy calm_components : calm.

(** ** The record of a request *)

Lemma drop_follows i p : ps_held p = Some i → i ∈ rg_pins (ps_registry p) →
  rtc rstep (ps_registry p) (ps_registry (drop_record i p)) ∧
  (all_accepted loader (ps_registry p) → all_accepted loader (ps_registry (drop_record i p))) ∧ ps_held (drop_record i p) = None.
Proof.
  intros _ Hi. unfold drop_record. cbn. destruct (cleanup_steps (length (rg_disposing (ps_registry p))) (unpin i (ps_registry p))) as (Hs & Hh & _).
  assert (rstep (ps_registry p) (unpin i (ps_registry p))) as Hu by by apply rs_unpin. split_and!; [by eapply rtc_l| |done].
  intros Ha j r. rewrite Hh. revert j r. eapply accepted_step; [exact Hu| |done]. cbn. apply put_length.
Qed.

(** The state in which the body of a [with registry.pin(...)] starts. *)
Record pinned (key : string) (i : nat) (rec : ModelRecord) (p : P) : Prop := {
  pd_held : ps_held p = Some i;
  pd_pin : i ∈ rg_pins (ps_registry p);
  pd_record : rg_heap (ps_registry p) !! i = Some rec;
  pd_key : mr_key rec = key;
}.

Lemma with_pin_run {A} key (body : option (nat * ModelRecord) → SE W A) w : (∀ x, calm loader (body x)) →
  ps_held w.1 = None → registry_ok (ps_registry w.1) →
  let '(r, w') := with_pin others key body w in
  follows loader w.1 w'.1 ∧
  ((∃ w1, body None w1 = (r, w')) ∨
   ∃ i rec w1 w2, pinned key i rec w1.1 ∧ rtc rstep (ps_registry w.1) (ps_registry w1.1) ∧
     (all_accepted loader (ps_registry w.1) → all_accepted loader (ps_registry w1.1)) ∧
     body (Some (i, rec)) w1 = (r, w2) ∧ rtc rstep (ps_registry w2.1) (ps_registry w'.1)).
Proof.
  intros Hb Hh Hok. unfold with_pin. rewrite se_bind_eq. unfold step at 1, take_record. pose proof (rely w) as Hr.
  destruct (others w) as [p x]. cbn [fst snd] in *. destruct Hr as [Hs Ha Hheld _]. pose proof (rsteps_ok _ _ Hok Hs) as Hok'.
  assert (follows loader w.1 p) as Hf by (split; [done|done|done|intros i Hi; congruence]).
  destruct (pin key (ps_registry p)) as [[i|] g] eqn:Ep.
  - assert (∃ rec, rg_heap g !! i = Some rec ∧ mr_key rec = key ∧ i ∈ rg_pins g) as (rec & Hrec & Hkey & Hpin).
    { unfold pin in Ep. destruct (dget key _) as [j|] eqn:Ed; [|done]. injection Ep as -> <-. destruct (gk_entries _ Hok' _ _ Ed) as (r & Hr & Hk).
      cbn. rewrite lookup_put, decide_True, Hr by done. cbn. eexists. split_and!; [done|by destruct r|]. change (i ∈ {[+ i +]} ⊎ rg_pins (ps_registry p)).
      apply gmultiset_elem_of_disj_union. left. by apply gmultiset_elem_of_singleton. }
    cbn. rewrite Hrec. cbn. rewrite se_bind_eq. set (w1 := (set_held (Some i) (set_registry g p), x)) in *.
    pose proof (Hb (Some (i, rec)) w1) as Hbody. unfold attempt at 1. destruct (body (Some (i, rec)) w1) as [r w2] eqn:Eb. cbn [fst snd] in Hbody.
    destruct Hbody as [Hs2 Ha2 Hh2 Hp2]. unfold update, step. rewrite se_bind_eq. pose proof (rely w2) as Hr2. destruct (others w2) as [p3 x3].
    cbn [fst snd] in *. destruct Hr2 as [Hs3 Ha3 Hh3 Hp3].
    assert (ps_held p3 = Some i ∧ i ∈ rg_pins (ps_registry p3)) as [Hheld3 Hpin3].
    { split; [by rewrite Hh3, Hh2|]. apply Hp3; [by rewrite Hh2|]. by apply Hp2. }
    destruct (drop_follows i p3 Hheld3 Hpin3) as (Hs4 & Ha4 & Hh4).
    assert (rstep (ps_registry p) g) as Hstep by by eapply rs_pin.
    assert (all_accepted loader (ps_registry p) → all_accepted loader g) as Hag.
    { eapply accepted_step; [done|]. unfold pin in Ep. destruct (dget key _); [|done]. injection Ep as _ <-. apply put_length. }
    unfold lift. cbn. split; [split|right].
    + transitivity (ps_registry p); [done|]. eapply rtc_l; [done|]. transitivity (ps_registry w2.1); [done|]. by transitivity (ps_registry p3).
    + intros H0. by apply Ha4, Ha3, Ha2, Hag, Ha.
    + transitivity (@None nat); [done|by symmetry].
    + intros j Hj. congruence.
    + exists i, rec, w1, w2. split_and!; [by split| |auto|done|by transitivity (ps_registry p3)].
      eapply rtc_r; [exact Hs|done].
  - cbn. pose proof (Hb None (p, x)) as Hbody. destruct (body None (p, x)) as [r w'] eqn:Eb. split; [|left; by eexists].
    etransitivity; [exact Hf|]. exact Hbody.
Qed.

Lemma calm_run {A} (m : SE W A) w r w' : calm loader m → m w = (r, w') → follows loader w.1 w'.1.
Proof. intros Hm E. specialize (Hm w). by rewrite E in Hm. Qed.

(** What a served forecast was computed with: one record of the signal's key, accepted, compatible, held and not cleaned up when
    the model ran, on a checked window of the history; and what it says of that. *)
Record used (signal : ResolvedSignal) (history : list sample) (prediction : list (string * json))
    (i : nat) (rec : ModelRecord) (w1 : W) (call : model_call) (f : forecast) (predictions : list f64) : Prop := {
  us_accepted : accepted_record loader rec;
  us_key : mr_key rec = model_key (rs_namespace signal) (rs_name signal) (rs_metric signal);
  us_compatible : incompatibility rec signal = None;
  us_held : i ∈ rg_pins (ps_registry w1.1);
  us_same : ∃ l, rg_heap (ps_registry w1.1) !! i = Some (with_life l rec);
  us_clean : i ∉ rg_disposing (ps_registry w1.1) ++ rg_cleaned (ps_registry w1.1);
  us_call : ∃ x, ou_predict O i (mr_model rec) call w1.2 = (Ok f, x);
  us_window : ∃ now_s window fill,
    check_inference_window (apply_mask (points_of history) validity_mask "inference").1 now_s (sequence_length (mr_model rec)) GRID_S (2 * GRID_S)
      (mask_intervals validity_mask) = Ok (window, fill)
    ∧ mc_timestamps call = window.*1 ∧ last (mc_timestamps call) = Some (mc_origin call)
    ∧ (mc_sequence call = None ∨ mc_sequence call = Some (last_n (sequence_length (mr_model rec)) (window.*2)));
  us_served : served (fc_predictions f) = Ok predictions ∧ predictions ≠ [] ∧ Forall (λ x, is_finite x = true) predictions;
  us_says : oget "predictions" prediction = JArr (JFloat <$> predictions)
    ∧ oget "artifact_sha256" prediction = JStr (mr_artifact_sha256 rec)
    ∧ oget "metric_query_sha256" prediction = JStr (rs_sha256 signal)
    ∧ oget "contract" prediction = JStr (rs_contract signal);
}.

Ltac ran H :=
  match type of H with
  | ?m ?w = (_, ?w') => let F := fresh "F" in
      assert (follows loader w.1 w'.1) as F by (refine (calm_run m w _ w' _ H); solve [auto with calm])
  end.

Lemma with_record_ok i rec signal history horizon prediction w w' :
  pinned (model_key (rs_namespace signal) (rs_name signal) (rs_metric signal)) i rec w.1 → registry_ok (ps_registry w.1) →
  accepted_record loader rec → incompatibility rec signal = None →
  _predict_with_record O has_scaler sequence_length validity_mask others i rec signal history horizon w = (Ok prediction, w') →
  ∃ w1 call f predictions, used signal history prediction i rec w1 call f predictions.
Proof.
  intros [Hheld Hpin Hrec Hkey] Hok Hacc Hcomp H. unfold _predict_with_record in H. cbv zeta in H.
  apply se_bind_ok in H as (age & w2 & E & H). assert (follows loader w.1 w2.1) as F2.
  { refine (calm_run _ _ _ _ _ E). destruct (_parse_iso _); calmly. }
  clear E. apply se_bind_ok in H as (? & w3 & E & H). ran E. clear E. destruct (apply_mask _ _ _) as [pts info] eqn:Em.
  apply se_bind_ok in H as (now & w4 & E & H). ran E. clear E. apply se_bind_ok in H as (now_s & w5 & E & H). apply lift_ok in E as [_ ->].
  apply se_bind_ok in H as ([window fill] & w6 & E & H). apply lift_ok in E as [Hw ->].
  apply se_bind_ok in H as (first & w7 & E & H). apply lift_ok in E as [Hfirst ->]. apply of_option_ok in Hfirst.
  apply se_bind_ok in H as (p & w8 & E & H). ran E. clear E.
  apply se_bind_ok in H as (f & w9 & Hf & H). apply se_bind_ok in H as (predictions & w10 & E & H). apply lift_ok in E as [Hs ->].
  apply se_raise_if_ok in H as [Hfin H]. apply se_bind_ok in H as (? & w11 & _ & H). apply se_raise_if_ok in H as [Hne H].
  do 3 (apply se_bind_ok in H as (? & ? & E & H); apply lift_ok in E as [_ ->]). apply se_bind_ok in H as (now2 & w12 & _ & H).
  do 2 (apply se_bind_ok in H as (? & ? & E & H); apply lift_ok in E as [_ ->]). injection H as Hp _.
  unfold out in Hf. pose proof (rely w8) as F5. set (w1 := others w8) in *. destruct (ou_predict _ _ _ _ _) as [r xo] eqn:Ec. injection Hf as -> _.
  assert (follows loader w.1 w1.1) as [Fs Fa Fh Fp].
  { repeat (etransitivity; [eassumption|]). reflexivity. }
  eexists w1, _, f, predictions. split; cbn [mc_timestamps mc_origin mc_sequence].
  - done.
  - done.
  - done.
  - by apply Fp.
  - eapply rsteps_data; done.
  - apply held_uncleaned; [by eapply rsteps_ok|by apply Fp].
  - eexists. exact Ec.
  - exists now_s, window, fill. rewrite Em. split_and!; [done|done| |].
    + transitivity (fst <$> last window); [exact (fmap_last (fst : point → Z) window)|by rewrite Hfirst].
    + destruct (_ && _); auto.
  - split_and!; [done|by intros ->|]. apply negb_false_iff in Hfin. apply Forall_forall. intros y Hy. by apply (proj1 (forallb_forall _ _) Hfin), list_elem_of_In.
  - rewrite <-Hp. split_and!; reflexivity.
Qed.

(** ** A computation that starts and ends without a record *)

Definition safe {A} (Q : A → Prop) (m : SE W A) : Prop := ∀ w : W,
  ps_held w.1 = None → registry_ok (ps_registry w.1) → all_accepted loader (ps_registry w.1) →
  let '(r, w') := m w in follows loader w.1 w'.1 ∧ ∀ a, r = Ok a → Q a.

Lemma safe_calm {A} (m : SE W A) : calm loader m → safe (λ a, ∃ w w', m w = (Ok a, w')) m.
Proof. intros Hm w _ _ _. specialize (Hm w). destruct (m w) as [r w'] eqn:E. split; [done|]. intros a ->. by exists w, w'. Qed.

Lemma holds_mono {A} (Q Q' : A → Prop) m : safe Q m → (∀ a, Q a → Q' a) → safe Q' m.
Proof. intros Hm HQ w H1 H2 H3. specialize (Hm w H1 H2 H3). destruct (m w). naive_solver. Qed.

Lemma holds_bind {A B} (Q : A → Prop) (Q' : B → Prop) (m : SE W A) (k : A → SE W B) :
  safe Q m → (∀ a, Q a → safe Q' (k a)) → safe Q' (m ≫= k).
Proof.
  intros Hm Hk w H1 H2 H3. rewrite se_bind_eq. specialize (Hm w H1 H2 H3). destruct (m w) as [[a|e] w1]; destruct Hm as [F HQ]; [|by split].
  specialize (Hk a (HQ a eq_refl) w1). destruct F as [Fs Fa Fh Fp]. specialize (Hk ltac:(congruence) ltac:(by eapply rsteps_ok) ltac:(auto)).
  destruct (k a w1) as [r w2]. destruct Hk as [F2 HQ']. split; [|done]. etransitivity; [|exact F2].
  split; [exact Fs|exact Fa|exact Fh|exact Fp].
Qed.

Lemma safe_attempt {A} (Q : A → Prop) (m : SE W A) : safe Q m → safe (λ r, ∀ a, r = Ok a → Q a) (attempt m).
Proof.
  intros Hm w H1 H2 H3. specialize (Hm w H1 H2 H3). unfold attempt. destruct (m w) as [r w']. destruct Hm as [F HQ]. split; [done|].
  by intros ? [= <-].
Qed.

Lemma holds_ret {A} (Q : A → Prop) a : Q a → safe Q (mret a).
Proof. intros HQ w _ _ _. split; [reflexivity|]. by intros ? [= <-]. Qed.
Lemma holds_throw {A} (Q : A → Prop) (e : exn) : safe Q (mthrow e).
Proof. intros w _ _ _. by split. Qed.
Lemma holds_raise_if {A} (Q : A → Prop) (c : bool) e (m : SE W A) : safe Q m → safe Q (raise_if c with e ;; m).
Proof. destruct c; [intros _; apply holds_throw|done]. Qed.
Lemma holds_lift {A} (r : res A) : safe (λ a, r = Ok a) (lift r).
Proof. intros w _ _ _. split; [reflexivity|]. by intros a ->. Qed.

Definition attests (signal : ResolvedSignal) (history : list sample) (prediction : list (string * json)) : Prop :=
  ∃ i rec w1 call f predictions, used signal history prediction i rec w1 call f predictions.

Lemma predict_safe signal history horizon :
  safe (attests signal history) (predict O loader old_format has_scaler sequence_length validity_mask others signal history horizon).
Proof.
  unfold predict. eapply holds_bind; [apply safe_attempt with (Q := attests signal history)|].
  2:{ intros [a|e] Ha; [by apply holds_ret, Ha|]. eapply holds_bind; [apply safe_calm; auto with calm|]. intros; apply holds_throw. }
  apply holds_raise_if. cbv zeta. eapply holds_bind; [apply safe_calm; auto with calm|]. intros _ _ w H1 H2 H3.
  set (body := λ x : option (nat * ModelRecord), _).
  assert (∀ x, calm loader (body x)) as Hb.
  { intros [[i rec]|]; unfold body; [destruct (incompatibility rec signal)|]; auto with calm. }
  pose proof (with_pin_run (model_key (rs_namespace signal) (rs_name signal) (rs_metric signal)) body w Hb H1 H2) as Hrun. destruct (with_pin _ _ body w) as [r w'].
  destruct Hrun as [F [(w1 & Hn)|(i & rec & w1 & w2 & Hp & Hs & Ha & Hbody & _)]]; (split; [done|]); intros a ->; [by unfold body in Hn|].
  unfold body in Hbody. destruct (incompatibility rec signal) as [why|] eqn:Hc; [done|].
  pose proof (rsteps_ok _ _ H2 Hs) as Hok. destruct Hp as [Q1 Q2 Q3 Q4].
  destruct (with_record_ok i rec signal history horizon a w1 w2) as (w3 & call & f & predictions & Hu); try done.
  - by eapply Ha.
  - by exists i, rec, w3, call, f, predictions.
Qed.

(** What the whole job gives: the forecast of the signal the request resolves to, on the history of its query. *)
Definition job_done (request : json) (x : list (string * json) * ResolvedSignal * list sample) : Prop :=
  let '(prediction, signal, history) := x in
  (∃ w w', resolve_signal (λ path, out others (ou_kget O path)) request w = (Ok signal, w')) ∧
  (∃ now w w', query_history (λ url d n, out others (ou_fetch O url d n)) prometheus_url (JStr (rs_query signal))
     {| dt_local := now; dt_offset := Some 0 |} HISTORY_HOURS DEADLINE_S MAX_RESPONSE_BYTES w = (Ok history, w')) ∧
  attests signal history prediction.

Lemma serve_safe request horizon :
  safe (job_done request) (_serve_forecast O loader old_format has_scaler sequence_length validity_mask prometheus_url others request horizon).
Proof.
  unfold _serve_forecast. eapply holds_bind; [apply safe_calm; auto with calm|]. intros signal Hsig.
  eapply holds_bind; [apply safe_calm; auto with calm|]. intros now _. eapply holds_bind; [apply safe_calm; auto with calm|]. intros history Hh.
  eapply holds_bind; [apply safe_calm; auto with calm|]. intros got _. apply holds_raise_if.
  eapply holds_bind; [apply safe_attempt, predict_safe|]. intros r Hr. eapply holds_bind; [apply safe_calm; auto with calm|]. intros _ _.
  eapply holds_bind; [apply holds_lift|]. intros prediction Hp. apply holds_ret. split_and!; [done|by exists now|by apply Hr].
Qed.

Lemma admitted_safe request horizon :
  safe (job_done request) (admitted O loader old_format has_scaler sequence_length validity_mask prometheus_url others request horizon).
Proof.
  unfold admitted. eapply holds_bind; [apply safe_attempt with (Q := job_done request)|].
  - eapply holds_bind; [apply safe_calm; auto with calm|]. intros got _. apply holds_raise_if. apply serve_safe.
  - intros [a|e] Ha; [by apply holds_ret, Ha|]. destruct e; apply holds_throw.
Qed.

(** The answer keeps what the forecast says; only the error figures are added, and non-finite floats are null. *)
Lemma accuracy_keys key t : (accuracy_of key t).*1 =
  ["mape"; "mape_measured"; "mape_scored"; "mape_recorded"; "mape_availability"; "mae"; "mae_measured"; "mae_scored"].
Proof. unfold accuracy_of. destruct (match _ with Ok s => s | Raise _ => _ end). done. Qed.

Lemma oget_dsets k l (d : list (string * json)) : k ∉ l.*1 → oget k (foldl (λ d kv, dset kv.1 kv.2 d) d l) = oget k d.
Proof.
  revert d. induction l as [|[k' v] l IH]; intros d Hk; [done|]. cbn in *. apply not_elem_of_cons in Hk as [Hne Hk]. rewrite IH by done.
  unfold oget. by rewrite dget_dset_ne.
Qed.

Lemma oget_safe k (o : list (string * json)) : oget k (map (λ kv, (kv.1, _json_safe kv.2)) o) = _json_safe (oget k o).
Proof.
  unfold oget. induction o as [|[k' v] o IH]; [done|]. cbn. by case_decide.
Qed.

Lemma json_safe_floats l : Forall (λ x, is_finite x = true) l → _json_safe (JArr (JFloat <$> l)) = JArr (JFloat <$> l).
Proof. cbn. intros H. f_equal. induction H as [|x l Hx _ IH]; [done|]. cbn. by rewrite Hx, IH. Qed.

(** What the endpoint makes of an outcome. *)
Lemma http_only (m : SE W json) w e w' :
  (r ← attempt m;
   match r with
   | Ok v => mret v
   | Raise (PyValueError why) => mthrow (HTTPError 400 why)
   | Raise (HTTPError status why) => mthrow (HTTPError status why)
   | Raise _ => mthrow (HTTPError 500 "Internal server error")
   end) w = (Raise e, w') → ∃ status why, e = HTTPError status why.
Proof.
  rewrite se_bind_eq. unfold attempt. destruct (m w) as [[v|e'] w2]; [done|]. destruct e'; intros [= <- _]; by eexists _, _.
Qed.

(** An answer: the forecast of the signal the request names, from the history of its query. *)
Definition answers (request v : json) : Prop :=
  ∃ o signal history,
      v = JObj o ∧ attests signal history o ∧
      (∃ fields, request = JObj fields ∧ names_signal fields signal) ∧
      (∃ now w1 w2, query_history (λ url d n, out others (ou_fetch O url d n)) prometheus_url (JStr (rs_query signal))
         {| dt_local := now; dt_offset := Some 0 |} HISTORY_HOURS DEADLINE_S MAX_RESPONSE_BYTES w1 = (Ok history, w2)).

End requests.

(** * Reloading *)

Definition alone {W : Type} : W → W := λ w, w.

Definition waits : list f64 := f64_of_Z <$> [15; 30; 60; 120; 240; 300].
Definition waits_ok {M} (p : process (M := M)) : Prop := ∀ key t b s, dget key (ps_retry p) = Some (t, b, s) → b ∈ waits.

Lemma next_backoff_wait stamp retry : (∀ t b s, retry = Some (t, b, s) → b ∈ waits) → next_backoff stamp retry ∈ waits.
Proof.
  intros H. unfold next_backoff. destruct retry as [[[t b] s]|]; [|by left]. case_bool_decide; [|by left]. specialize (H t b s eq_refl).
  unfold waits in H. cbn in H. rewrite !elem_of_cons, elem_of_nil in H.
  destruct H as [->|[->|[->|[->|[->|[->|[]]]]]]]; apply (bool_decide_unpack _); vm_compute; exact I.
Qed.

Section reload.
Context {M X : Type} (O : Outside M X) (loader : string → res M) (old_format : M → bool) (key : string).
Abbreviation P := (process (M := M)).
Abbreviation W := (P * X)%type.

(** What one reload of a key did: the registry is as it was, or a pair of files that was the same before and after its load is
    the new record of the key. *)
Inductive reloaded (p p' : P) : Prop :=
| rl_kept : ps_registry p' = ps_registry p → reloaded p p'
| rl_installed (q : P) x1 x1' x2 x2' x3 rec s :
    _artifact_stamp O alone key (q, x1) = (Ok (Some s), (q, x1')) →
    load_artifact O loader alone key (q, x2) = (Ok rec, (q, x2')) →
    _artifact_stamp O alone key (q, x2') = (Ok (Some s), (q, x3)) →
    old_format (mr_model rec) = false → dget key (ps_stamps p) ≠ Some s → dget key (ps_stamps p') = Some s →
    mr_key rec = key → dget key (rg_records (ps_registry p')) = Some (length (rg_heap (ps_registry p))) →
    (∃ l, rg_heap (ps_registry p') !! length (rg_heap (ps_registry p)) = Some (with_life l rec) ∧ lf_retired l = false) →
    reloaded p p'.

Record reload_ok (p p' : P) : Prop := {
  ro_reloaded : reloaded p p';
  ro_stamps : ∀ k, k ≠ key → dget k (ps_stamps p') = dget k (ps_stamps p);
  ro_retry : ∀ k, k ≠ key → dget k (ps_retry p') = dget k (ps_retry p);
  ro_waits : waits_ok p → waits_ok p';
  ro_loading : ps_loading p' = ps_loading p;
  ro_held : ps_held p' = ps_held p ∧ ps_tracker p' = ps_tracker p ∧ ps_metrics p' = ps_metrics p;
}.

Lemma reload_ok_refl p : reload_ok p p.
Proof. by split; [apply rl_kept|..]. Qed.

Lemma stamp_alone (w : W) : let '(r, w') := _artifact_stamp O alone key w in w'.1 = w.1.
Proof.
  unfold _artifact_stamp, artifact_paths. rewrite se_bind_eq. unfold lift. destruct (negb _); [done|]. cbn. rewrite se_bind_eq. unfold out, alone.
  destruct (ou_mtime O _ w.2) as [[[a|]|e] x]; cbn; [|done|done]. rewrite se_bind_eq. cbn. by destruct (ou_mtime O _ x) as [[b|e] x'].
Qed.

Lemma load_alone (w : W) : let '(r, w') := load_artifact O loader alone key w in w'.1 = w.1.
Proof.
  unfold load_artifact, artifact_paths. rewrite se_bind_eq. unfold lift at 1. destruct (negb _); [done|]. cbn. rewrite se_bind_eq. unfold out at 1, alone at 1.
  destruct (ou_read O _ w.2) as [[a|e] x]; cbn; [|done]. rewrite se_bind_eq. unfold out, alone. cbn. by destruct (ou_sidecar O _ x) as [[b|e] x'].
Qed.

Lemma backing_alone stamp retry (w : W) : let '(r, w') := backing_off O alone stamp retry w in w'.1 = w.1.
Proof.
  unfold backing_off. destruct retry as [[[t b] s]|]; [|done]. case_bool_decide; [|done]. rewrite se_bind_eq. unfold asks, out, alone.
  by destruct (ou_monotonic O w.2).
Qed.

Lemma seen_ok s p : reload_ok p (seen key s p).
Proof.
  split; unfold waits_ok; cbn -[dget dset ddel]; try done.
  - by apply rl_kept.
  - intros k Hk. by apply dget_dset_ne.
  - intros k Hk. rewrite dget_ddel. by rewrite decide_False.
  - intros Hw k t b s'. rewrite dget_ddel. case_decide; [done|]. apply Hw.
Qed.

Lemma retry_ok t s p : reload_ok p (set_seen (ps_stamps p) (dset key (t, next_backoff s (dget key (ps_retry p)), s) (ps_retry p)) p).
Proof.
  split; unfold waits_ok; cbn -[dget dset ddel]; try done.
  - by apply rl_kept.
  - intros k Hk. by apply dget_dset_ne.
  - intros Hw k t' b s'. rewrite dget_dset. case_decide as E; [|by apply Hw]. intros [= <- <- <-]. apply next_backoff_wait.
    intros t2 b2 s2 E2. by eapply Hw.
Qed.

Lemma load_record_key data sidecar rec : load_record loader ("lstm_" +:+ key +:+ ".pkl") data sidecar = Ok rec → mr_key rec = key.
Proof.
  unfold load_record. destruct (artifact_key _) as [k|] eqn:Ek; [|done]. intros H. destruct sidecar as [t|]; [|done].
  destruct (loads t) as [[| | | | | |meta]|]; try done. ok_inv H. subst rec. cbn [mr_key].
  unfold artifact_key in Ek. apply bind_Some in Ek as (rest & Hr & Ek).
  assert (dollar (chars ("lstm_" +:+ key +:+ ".pkl")) = chars "lstm_" ++ chars key ++ chars ".pkl") as Hd.
  { unfold chars. rewrite !list_of_app. unfold dollar. rewrite !rev_app_distr. reflexivity. }
  rewrite Hd in Hr. cbn in Hr. injection Hr as <-. destruct (key_text _ && _) eqn:E; [|done]. apply andb_true_iff in E as [_ E].
  apply bool_decide_eq_true in E. injection Ek as <-.
  assert (drop 32 (chars key ++ chars ".pkl") = chars ".pkl") as Hdrop.
  { apply (f_equal String.list_ascii_of_string) in E. unfold text in E. by rewrite String.list_ascii_of_string_of_list_ascii in E. }
  assert (take 32 (chars key ++ chars ".pkl") = chars key) as Htake.
  { apply (app_inj_2 _ _ (chars ".pkl") (chars ".pkl")); [done|]. rewrite <-Hdrop at 2. apply take_drop. }
  transitivity (text (take 32 (chars key ++ chars ".pkl"))); [reflexivity|]. rewrite Htake. apply String.string_of_list_ascii_of_string.
Qed.

(** A record just built installs, and serves its key. *)
Lemma install_new (rec : ModelRecord (M := M)) (p : P) : registry_ok (ps_registry p) → let n := length (rg_heap (ps_registry p)) in
  let '(r, p') := install_record rec p in r = Ok () ∧ dget (mr_key rec) (rg_records (ps_registry p')) = Some n
  ∧ (∃ l, rg_heap (ps_registry p') !! n = Some (with_life l rec) ∧ lf_retired l = false)
  ∧ ps_stamps p' = ps_stamps p ∧ ps_retry p' = ps_retry p ∧ ps_loading p' = ps_loading p ∧ ps_held p' = ps_held p
  ∧ ps_tracker p' = ps_tracker p ∧ ps_metrics p' = ps_metrics p.
Proof.
  intros Hok n. unfold install_record. fold n. set (g := ps_registry p) in *.
  assert (rg_heap (load rec g) !! n = Some (with_life new_life rec)) as Hn by (cbn; by apply list_lookup_middle).
  unfold install. rewrite se_bind_eq. cbn [sget]. rewrite Hn. cbn [mr_life with_life lf_retired lf_installed new_life orb mr_key].
  destruct (retire_old (dget (mr_key rec) (rg_records (load rec g))) (put n set_installed (rg_heap (load rec g)))) as [h dispose] eqn:Er.
  assert (h !! n = Some (with_life (set_installed new_life) rec)) as Hh.
  { unfold retire_old in Er. destruct (dget _ _) as [o|] eqn:Eo.
    - destruct (gk_entries _ Hok _ _ Eo) as (r & Hr & _). apply lookup_lt_Some in Hr. fold n in Hr. injection Er as <- _.
      rewrite lookup_put, decide_False by lia. rewrite lookup_put, decide_True by done. etransitivity; [apply f_equal; exact Hn|done].
    - injection Er as <- _. rewrite lookup_put, decide_True by done. etransitivity; [apply f_equal; exact Hn|done]. }
  cbn. split; [done|]. destruct (cleanup_steps (length (rg_disposing g)) {| rg_heap := h; rg_records := dset (mr_key rec) n (rg_records g);
    rg_pins := rg_pins g; rg_disposing := rg_disposing g ++ dispose; rg_cleaned := rg_cleaned g |}) as (_ & -> & _ & ->).
  cbn -[dget dset]. split_and!; try done; [apply dget_dset_eq|]. by exists (set_installed new_life).
Qed.

(** What the locked part does. *)
Lemma reload_locked_ok p x : registry_ok (ps_registry p) →
  reload_ok p (_reload_locked O loader old_format alone key (p, x)).2.1.
Proof.
  intros Hok. unfold _reload_locked. rewrite se_bind_eq. pose proof (stamp_alone (p, x)) as Hs.
  destruct (_artifact_stamp O alone key (p, x)) as [[stamp|e] [p1 x1]] eqn:Es1; cbn in Hs; subst p1; [|apply reload_ok_refl].
  rewrite se_bind_eq. cbn [look step alone fst snd]. destruct stamp as [s|]; [|apply reload_ok_refl].
  case_bool_decide as Hseen; [apply reload_ok_refl|]. cbv zeta. rewrite se_bind_eq.
  pose proof (backing_alone s (dget key (ps_retry p)) (p, x1)) as Hb.
  destruct (backing_off _ _ _ _ _) as [[wait|e] [p1 x2]]; cbn in Hb; subst p1; [|apply reload_ok_refl].
  destruct wait; [apply reload_ok_refl|]. rewrite se_bind_eq. unfold attempt. pose proof (load_alone (p, x2)) as Hl.
  destruct (load_artifact _ _ _ _ _) as [[rec|e] [p1 x3]] eqn:El; cbn in Hl; subst p1.
  - rewrite se_bind_eq. pose proof (stamp_alone (p, x3)) as Hs2.
    destruct (_artifact_stamp O alone key (p, x3)) as [[s'|e] [p1 x4]] eqn:Es2; cbn in Hs2; subst p1; [|apply reload_ok_refl].
    case_bool_decide as Hsame; cbn [negb]; [|apply reload_ok_refl]. subst s'. rewrite se_bind_eq. cbn [update step alone fst snd].
    destruct (old_format _) eqn:Ho; [apply seen_ok|]. unfold step at 1, alone at 1. cbn [fst snd].
    pose proof (install_new rec (seen key s p) Hok) as Hi. destruct (install_record rec (seen key s p)) as [r p'].
    destruct Hi as (-> & Hd & Hh & Hst & Hre & Hlo & Hhe & Htr & Hme). destruct (seen_ok s p) as [_ A B C D E]. cbn [snd fst].
    assert (mr_key rec = key) as Hkey by (apply load_artifact_ok in El as [_ (data & sidecar & El)]; by eapply load_record_key).
    split; rewrite ?Hst, ?Hre, ?Hlo, ?Hhe, ?Htr, ?Hme; try done.
    + apply (rl_installed _ _ p x x1 x2 x3 x4 rec s); try done; [cbn -[dget dset]; rewrite ?Hst; apply dget_dset_eq|by rewrite <-Hkey at 1].
    + unfold waits_ok. rewrite Hre. exact C.
  - destruct e; try (rewrite se_bind_eq; unfold asks, out, alone; destruct (ou_monotonic _ _); cbn [update step fst snd]; apply retry_ok).
    cbn [update step alone fst snd]. apply seen_ok.
Qed.

End reload.
