(* ===== verification/ServingDemo.v ===== *)
(** A forecast of the older API, run: the request loads its model, and while the model runs another thread installs a newer one; the
    answer is the first model's, which is cleaned up when the request lets go of it. *)
From Stdlib Require Import SpecFloat Ascii.
From stdpp Require Import gmultiset relations.
From S2P Require Import Prelude Float64 Sha256 Json Timestamps Datetimes Identity Contracts History LegacyHistory.
From S2P Require Import Registry Accuracy Gapfill Serving ServingSafety.

Definition demo_week : string :=
  q "{'status':'success','data':{'resultType':'matrix','result':[{'metric':{},'values':[[1791546000,'5'],[1791546600,'6.5'],[1791547200,7]]}]}}".

(** The model's files. *)
Definition demo_sidecar_text : string :=
  match canonical_json (JObj (dset "pa_uid" (JStr "pa-uid") (dset "target_uid" (JStr "dep-uid") Registry.demo_meta))) with
  | Ok s => s | Raise _ => EmptyString end.
Definition demo_model : res (ModelRecord (M := string)) := Eval vm_compute in load_record Ok demo_file Registry.demo_bytes (Some demo_sidecar_text).
Definition demo_newer : ModelRecord (M := string) := match demo_model with Ok r => r | Raise _ => demo_record end.
Lemma demo_newer_loads : load_record Ok demo_file Registry.demo_bytes (Some demo_sidecar_text) = Ok demo_newer.
Proof. vm_compute. reflexivity. Qed.

(** The world: nothing fails, the clock stands at 12:05, the files do not change. The model repeats its newest input, scaled. *)
Definition demo_forecast (c : model_call) : forecast := {|
  fc_predictions := (λ k, or_default f0 (l ← mc_sequence c; last l) ⊕ f64_of_Z (Z.of_nat k)) <$> seq 1 (Z.to_nat (mc_steps c));
  fc_confidence := f64_of_dec false 8 (-1); fc_components := JObj [("lstm", JArr [JFloat S754_nan; JInt 2])]; fc_floor_pct := mc_floor c;
  fc_targets := (λ k, isoformat ((mc_origin c + 600 * Z.of_nat k) * SECOND)) <$> seq 1 (Z.to_nat (mc_steps c)) |}.

Definition demo_outside : Outside string () := {|
  ou_kget := Identity.demo_get;
  ou_fetch := λ _ _ _ x, (Ok (Answer 200 demo_week), x);
  ou_now := λ x, (1791547500 * SECOND, x);
  ou_monotonic := λ x, (f0, x);
  ou_mtime := λ _ x, (Ok (Some 1), x);
  ou_read := λ _ x, (Ok Registry.demo_bytes, x);
  ou_sidecar := λ _ x, (Ok (Some demo_sidecar_text), x);
  ou_admit := λ x, (true, x);
  ou_inference := λ _ x, (true, x);
  ou_free_inference := λ x, x;
  ou_predict := λ _ _ c x, (Ok (demo_forecast c), x) |}.

(** While a request holds the only record, another one is installed. *)
Definition demo_others (w : process (M := string) * ()) : process (M := string) * () :=
  if bool_decide (is_Some (ps_held w.1)) && bool_decide (length (rg_heap (ps_registry w.1)) = 1%nat)
  then ((install_record demo_newer w.1).2, w.2) else w.

Lemma demo_rely w : follows (Ok : string → res string) w.1 (demo_others w).1.
Proof.
  unfold demo_others. destruct (_ && _); [|reflexivity]. cbn [fst]. apply install_follows. exists demo_file, Registry.demo_bytes, (Some demo_sidecar_text), demo_newer.
  split; [exact demo_newer_loads|symmetry; apply with_life_self].
Qed.

Definition demo_process : process (M := string) := {|
  ps_registry := empty_registry; ps_stamps := []; ps_retry := []; ps_loading := []; ps_tracker := new_tracker; ps_metrics := []; ps_held := None |}.

Definition demo_endpoint : res json * (process (M := string) * ()) :=
  predict_endpoint demo_outside Ok (λ _, false) (λ _, true) (λ _, 3) no_mask "http://vm" demo_others
    (JObj (dset "horizon_minutes" (JInt 20) Identity.demo_request)) (demo_process, ()).

Example demo_answer :
  let '(r, (p, _)) := demo_endpoint in
  match r with
  | Ok (JObj o) => (oget "predictions" o, oget "artifact_sha256" o, oget "inference_input_end" o, oget "components" o, oget "mape" o)
                   = (JArr [JFloat (f64_of_Z 421); JFloat (f64_of_Z 422)], JStr (sha256_hex Registry.demo_bytes), JStr "2026-10-09T12:00:00Z",
                      JObj [("lstm", JArr [JNull; JInt 2])], JNull)
  | _ => False
  end ∧ rg_cleaned (ps_registry p) = [0%nat] ∧ (snd <$> rg_records (ps_registry p)) = [1%nat]
  ∧ length (concat (snd <$> at_pending (ps_tracker p))) = 3%nat.
Proof. vm_compute. split_and!; reflexivity. Qed.

Lemma demo_start : registry_ok (ps_registry demo_process) ∧ all_accepted Ok (ps_registry demo_process).
Proof. split; [apply empty_ok|]. by intros i r. Qed.

Lemma demo_answers : is_ok demo_endpoint.1 = true.
Proof. vm_compute. reflexivity. Qed.


(** The first load of the demonstration's files: one record, from files that did not change. *)
Definition demo_key : string := model_key "shop" "web" "requests".
Definition demo_reload : res () * (process (M := string) * ()) :=
  _reload_if_changed demo_outside Ok (λ _, false) alone demo_key (demo_process, ()).

Lemma demo_reloads : demo_reload.1 = Ok () ∧ dget demo_key (ps_stamps demo_reload.2.1) = Some (1, 1)
  ∧ length (rg_records (ps_registry demo_reload.2.1)) = 1%nat.
Proof. vm_compute. auto. Qed.


(** A pair of files that is replaced while it is read is not installed: the newer pair waits for the next call. *)
Definition changing : Outside string nat := {|
  ou_kget := λ _ x, (Ok None, x); ou_fetch := λ _ _ _ x, (Ok TransportFailure, x); ou_now := λ x, (0, x); ou_monotonic := λ x, (f0, x);
  ou_mtime := λ _ x, (Ok (Some (Z.of_nat x)), x); ou_read := λ _ x, (Ok Registry.demo_bytes, S x);
  ou_sidecar := λ _ x, (Ok (Some demo_sidecar_text), x); ou_admit := λ x, (true, x); ou_inference := λ _ x, (true, x);
  ou_free_inference := λ x, x; ou_predict := λ _ _ c x, (Ok (demo_forecast c), x) |}.
Example superseded : (_reload_if_changed changing Ok (λ _, false) alone demo_key (demo_process, 0%nat)).2.1 = demo_process.
Proof. vm_compute. reflexivity. Qed.

(** A file that cannot be read: 15 s, then 30 s, and nothing in between. *)
Definition failing : Outside string f64 := {|
  ou_kget := λ _ x, (Ok None, x); ou_fetch := λ _ _ _ x, (Ok TransportFailure, x); ou_now := λ x, (0, x); ou_monotonic := λ x, (x, x);
  ou_mtime := λ _ x, (Ok (Some 1), x); ou_read := λ _ x, (Raise PyOSError, x);
  ou_sidecar := λ _ x, (Ok None, x); ou_admit := λ x, (true, x); ou_inference := λ _ x, (true, x);
  ou_free_inference := λ x, x; ou_predict := λ _ _ c x, (Ok (demo_forecast c), x) |}.
Example backed_off :
  let at_ t p := (_reload_if_changed failing Ok (λ _, false) alone demo_key (p, f64_of_Z t)).2.1 in
  let p1 := at_ 100 demo_process in
  (ps_retry p1, ps_retry (at_ 114 p1), ps_retry (at_ 115 p1))
  = ([(demo_key, (f64_of_Z 115, f64_of_Z 15, (1, 1)))], [(demo_key, (f64_of_Z 115, f64_of_Z 15, (1, 1)))],
     [(demo_key, (f64_of_Z 145, f64_of_Z 30, (1, 1)))]).
Proof. vm_compute. reflexivity. Qed.
