(* ===== verification/Shadow.v ===== *)
(** [ml-engine/observer/shadow.py]: the shadow observer, which looks again at the origins the controller used and records what
    each predictor would have answered. Times are microseconds in UTC; what is looked up (the history, the artifacts, the state of
    the feedback) and what numpy and pandas do are arguments. *)
From Stdlib Require Import SpecFloat Ascii.
From S2P Require Import Prelude Float64 Json Timestamps Datetimes Numbers.

Definition GRID : Z := 600 * SECOND.
Definition DAY : Z := 86400 * SECOND.
Definition PREDICTORS : list string := ["served_hybrid"; "raw_network"; "seasonal_only"; "previous_day"; "persistence"].

(** * Values *)

(** What stands for a time: a [datetime], or a value read from a record. *)
Inductive stamp := Moment (d : datetime) | Written (v : json).

Definition _parse (ts : stamp) : res (option Z) :=
  match ts with
  | Moment d => Some <$> utc_of d
  | Written (JStr s) =>
      if bool_decide (s = EmptyString) then Ok None else
      match fromisoformat (zulu s) with Ok d => Some <$> utc_of d | Raise _ => Ok None end
  | Written _ => Ok None
  end.

(** [float(v)] *)
Definition float_of (v : json) : res f64 :=
  match v with
  | JStr s => of_option (PyValueError "could not convert string to float") (py_float (String.list_ascii_of_string s))
  | JBool b => Ok (if b then f64_of_Z 1 else f0)
  | JInt z => raise_if negb (is_finite (f64_of_Z z)) with PyOverflowError ;; Ok (f64_of_Z z)
  | JFloat x => Ok x
  | _ => Raise PyTypeError
  end.

(** An integer too large for a float is not one of the errors it catches. *)
Definition _finite (v : json) : res bool :=
  match float_of v with
  | Ok x => Ok (is_finite x)
  | Raise PyTypeError | Raise (PyValueError _) => Ok false
  | Raise e => Raise e
  end.

(** [all(_finite(v) for v in l)] *)
Fixpoint all_finite (l : list json) : res bool :=
  match l with [] => Ok true | v :: t => b ← _finite v; if b : bool then all_finite t else Ok false end.

(** [int(v or 0)] *)
Definition int_or_0 (v : json) : res Z :=
  if negb (truthy v) then Ok 0 else
  match v with
  | JInt z => Ok z
  | JBool b => Ok (if b then 1 else 0)
  | JFloat x => py_trunc x
  | JStr s => of_option (PyValueError "invalid literal for int()") (py_int (String.list_ascii_of_string s))
  | _ => Raise PyTypeError
  end.

(** [v.get(k, d)] of what should be a dictionary, and the elements of what should be a list of them. *)
Definition dict_get (k : string) (d v : json) : res json :=
  match v with JObj o => Ok (oget_default k d o) | _ => Raise PyAttributeError end.
Definition records_of (v : json) : res (list json) :=
  if negb (truthy v) then Ok [] else
  match v with JArr l => Ok l | JStr _ | JObj _ => Raise PyAttributeError | _ => Raise PyTypeError end.

(** A time moved by a [timedelta]. *)
Definition shift (t d : Z) : res Z := raise_if (t + d <? min_us) || (max_us <? t + d) with PyOverflowError ;; Ok (t + d).

(** * Observations *)

Inductive status := ok | unavailable | failed | non_finite.
#[export] Instance status_eq_dec : EqDecision status.
Proof. solve_decision. Defined.

(** [asdict] keeps the fields, so one type stands for the observation and for its dictionary. *)
Record StepObservation := { so_step : Z; so_target_at : json; so_value : option f64; so_status : status; so_detail : string }.

Definition answered (t : Z * json) (x : f64) : StepObservation :=
  {| so_step := t.1; so_target_at := t.2; so_value := Some x; so_status := ok; so_detail := EmptyString |}.
Definition StepObservation_unavailable (why : string) (t : Z * json) : StepObservation :=
  {| so_step := t.1; so_target_at := t.2; so_value := None; so_status := unavailable; so_detail := why |}.
Definition StepObservation_failed (why : string) (t : Z * json) : StepObservation :=
  {| so_step := t.1; so_target_at := t.2; so_value := None; so_status := failed; so_detail := String.substring 0 200 why |}.
Definition not_finite (detail : string) (t : Z * json) : StepObservation :=
  {| so_step := t.1; so_target_at := t.2; so_value := None; so_status := non_finite; so_detail := detail |}.

(** The steps of an issuance, from one, each with its target. *)
Fixpoint numbered_from {A} (i : Z) (l : list A) : list (Z * A) :=
  match l with [] => [] | x :: t => (i, x) :: numbered_from (i + 1) t end.
Definition numbered (targets : list json) : list (Z * json) := numbered_from 1 targets.

(** The value given for a step, when it is a finite number. *)
Definition observed (detail : string) (t : Z * json) (v : json) : res StepObservation :=
  b ← _finite v; if b : bool then x ← float_of v; Ok (answered t x) else Ok (not_finite detail t).

(** * What the observer is given *)

(** A point of history, and one whose time is known. *)
Definition raw_point : Type := stamp * json.
Definition point : Type := Z * json.

Definition read_point (p : raw_point) : res (option Z * json) := t ← _parse p.1; Ok (t, p.2).
Definition no_time (p : option Z * json) : bool := match p.1 with None => true | Some _ => false end.
Definition within (lo hi : Z) (p : option Z * json) : option point :=
  match p.1 with Some t => if (lo <=? t) && (t <=? hi) then Some (t, p.2) else None | None => None end.

Definition by_time (p q : point) : bool := p.1 <=? q.1.

(** What one request asks of a model: its input, scaled, with the times of the input, the error fed back, and the history of the
    seasonal component. *)
Record request (S : Type) := {
  rq_last_sequence : list f64; rq_input_timestamps : list Z; rq_mape_for_floor : f64;
  rq_steps_ahead : Z; rq_origin : Z; rq_seasonal_history : S }.
Record prediction := { pr_origin : stamp; pr_target_timestamps : list stamp; pr_components : list (string * json) }.
Arguments rq_last_sequence {S}. Arguments rq_input_timestamps {S}. Arguments rq_mape_for_floor {S}.
Arguments rq_steps_ahead {S}. Arguments rq_origin {S}. Arguments rq_seasonal_history {S}.

(** A fitted model: the length of its input, its scaler, and its answer to a request. *)
Class Model (M S : Type) := {
  sequence_length : M → Z;
  transform : M → list f64 → res (list f64);
  model_predict : M → request S → res prediction;
}.

(** numpy's [asarray(v, dtype=object).ravel()], and pandas' [Series] of a history sorted by time. *)
Class Arrays (S : Type) := {
  ravel : json → res (list json);
  Series : list point → res S;
  empty_series : S;
}.

(** How Python names an exception's class and renders its text. *)
Class ExnText := { exn_class : exn → string; exn_message : exn → string }.
Definition why_of `{ExnText} (e : exn) : string := exn_class e +:+ ": " +:+ exn_message e.

Record ShadowObserver (M : Type) := {
  _history : Z → Z → res (list raw_point);
  _load_model : option (json → res (option M));
  _max_seconds : f64;
  _replay_state : option (json → res json);
}.
Arguments _history {M}. Arguments _load_model {M}. Arguments _max_seconds {M}. Arguments _replay_state {M}.

(** [sr_model_version] is the value before [str]. *)
Record ShadowRecord := {
  sr_issued_at : json; sr_application : json; sr_namespace : json; sr_inference_input_end : json; sr_sequence_length : Z;
  sr_artifact_sha256 : json; sr_model_version : json; sr_training_cutoff : json;
  sr_window_points : Z; sr_window_complete : bool;
  sr_predictors : list (string * list StepObservation);
  sr_observer_version : string; sr_reconstruction : list (string * json); sr_elapsed_ms : f64; sr_notes : list string;
}.

Section observer.
Context {M S : Type} `{Model M S} `{Arrays S} `{ExnText}.
Implicit Types (o : ShadowObserver M) (targets : list json).

(** * The input *)

(** The points of [hist] in the window that ends at [fin], in order of time, and where it starts. *)
Definition window_points (lo hi : Z) (l : list raw_point) : res (list point) :=
  pts ← mapM_res read_point l;
  raise_if existsb no_time pts with PyValueError "invalid history timestamp" ;;
  Ok (sort_by by_time (omap (within lo hi) pts)).
Definition _window_from_snapshot o (fin seq : Z) : res (list point * Z) :=
  start_ ← shift fin (- (GRID * (seq - 1)));
  pts ← _history o start_ fin ≫= window_points start_ fin;
  Ok (pts, start_).

(** * The predictors *)

Definition _persistence (window : list point) targets (origin : Z) : res (list StepObservation) :=
  match filter (λ p : point, p.1 = origin) window with
  | [(_, last)] =>
      b ← _finite last;
      if negb b then Ok (not_finite "last observation" <$> numbered targets)
      else x ← float_of last; Ok ((λ t, answered t x) <$> numbered targets)
  | _ => Ok (StepObservation_unavailable "no unambiguous observation at recorded origin" <$> numbered targets)
  end.

(** [min(pts, key=...)]: the first of the nearest. *)
Definition nearest (want : Z) (p : point) (l : list point) : point :=
  foldl (λ best q, if Z.abs (q.1 - want) <? Z.abs (best.1 - want) then q else best) p l.

Definition tolerance : Z := 5 * 60 * SECOND.

Definition previous_day_points (lo hi : Z) (l : list raw_point) : res (list point) :=
  pts ← mapM_res read_point l; Ok (omap (M:=list) (within lo hi) pts).
Definition previous_day_step o (t : Z * json) : res StepObservation :=
  tgt ← _parse (Written t.2);
  match tgt with
  | None => Raise PyTypeError
  | Some tgt =>
      want ← shift tgt (- DAY); lo ← shift want (- tolerance); hi ← shift want tolerance;
      pts ← _history o lo hi ≫= previous_day_points lo hi;
      match pts with
      | [] => Ok (StepObservation_unavailable "no same-time observation yesterday" t)
      | p :: l => observed "previous-day value" t (nearest want p l).2
      end
  end.
Definition _previous_day o targets : res (list StepObservation) := mapM_res (previous_day_step o) (numbered targets).

(** * The model's components *)

(** What the model answers a request with the recorded input, its own window and its own origin. *)
Definition ask (model : M) (window : list point) targets (origin : Z) (seasonal : S) (feedback : option f64) : res prediction :=
  raise_if negb (sequence_length model =? Z.of_nat (length window))
    with PyValueError "artifact sequence length differs from recorded snapshot" ;;
  values ← mapM_res (λ p : point, float_of p.2) window;
  scaled ← transform model values;
  out ← model_predict model {|
    rq_last_sequence := scaled; rq_input_timestamps := window.*1; rq_mape_for_floor := or_default f0 feedback;
    rq_steps_ahead := Z.of_nat (length targets); rq_origin := origin; rq_seasonal_history := seasonal |};
  let differ := PyValueError "model output origin/targets differ from recorded issuance" in
  t ← _parse (pr_origin out);
  raise_if negb (bool_decide (t = Some origin)) with differ ;;
  got ← mapM_res _parse (pr_target_timestamps out);
  want ← mapM_res _parse (Written <$> targets);
  raise_if negb (bool_decide (got = want)) with differ ;;
  Ok out.

Definition per_step_available (comp : list (string * json)) (steps : nat) : list bool :=
  let whole := replicate steps (truthy (oget_default "pattern_available" (JBool false) comp)) in
  match oget "pattern_available_per_step" comp with
  | JArr l => if (length l <? steps)%nat then whole else truthy <$> l
  | _ => whole
  end.

(** One component of the answer, when it has a value for each step. *)
Definition values_of (src : json) (steps : nat) : option (list json) :=
  match src with
  | JNull => None
  | _ => match ravel src with Ok arr => if (length arr =? steps)%nat then Some arr else None | Raise _ => None end
  end.

Definition component (key : string) (src : json) (available : list bool) targets : res (list StepObservation) :=
  match values_of src (length targets) with
  | None => Ok (StepObservation_unavailable "component absent or wrong length" <$> numbered targets)
  | Some arr =>
      mapM_res (λ '(t, v, a), if negb a then Ok (StepObservation_unavailable "no genuine previous-day backing" t)
                              else observed key t v) (zip (zip (numbered targets) arr) available)
  end.

Definition both (f : Z * json → StepObservation) targets : list (string * list StepObservation) :=
  [("raw_network", f <$> numbered targets); ("seasonal_only", f <$> numbered targets)].

Definition _from_model (model : option M) (window : list point) targets (origin : Z) (seasonal : S) (feedback : option f64)
    : res (list (string * list StepObservation)) :=
  match model with
  | None => Ok (both (StepObservation_unavailable "no model") targets)
  | Some model =>
      match ask model window targets origin seasonal feedback with
      | Raise e => Ok (both (StepObservation_failed (why_of e)) targets)
      | Ok out =>
          let comp := pr_components out in let steps := length targets in
          raw ← component "raw_network" (oget "lstm" comp) (replicate steps true) targets;
          season ← match feedback with
                   | None => Ok (StepObservation_unavailable "contemporaneous feedback state not provided" <$> numbered targets)
                   | Some _ => component "seasonal_only" (oget "pattern" comp) (per_step_available comp steps) targets
                   end;
          Ok [("raw_network", raw); ("seasonal_only", season)]
      end
  end.

(** * One issuance *)

Definition served_step (x : Z * json * json) : res StepObservation :=
  let '(t, f) := x in
  v ← dict_get "rpm" JNull f;
  match v with JNull => Ok (StepObservation_unavailable "recorded RPM absent" t) | _ => observed "recorded RPM" t v end.

Definition grid_failure : string := "invalid issuance target grid".
Definition refuse_served (s : StepObservation) : StepObservation :=
  {| so_step := so_step s; so_target_at := so_target_at s; so_value := so_value s; so_status := failed; so_detail := grid_failure |}.

(** [[end + GRID * (i + 1) for i in range(steps)]] *)
Definition expected_targets (fin : Z) (steps : nat) : res (list Z) :=
  mapM_res (λ i, shift fin (GRID * i)) (range 1 (Z.of_nat steps + 1) 1).
Definition steps_match (forecasts : list json) : res bool :=
  got ← mapM_res (dict_get "step" JNull) forecasts;
  Ok (forallb (λ '(i, v), py_eq v (JInt i)) (numbered_from 1 got)).
Definition grid_broken (fin : Z) targets (forecasts : list json) (expected : list Z) : res bool :=
  if (6 <? length targets)%nat || negb (fin mod GRID =? 0) then Ok true else
  got ← mapM_res _parse (Written <$> targets);
  if negb (bool_decide (got = Some <$> expected)) then Ok true else
  b ← steps_match forecasts; Ok (negb b).

Definition window_is_complete (start_ seq : Z) (window : list point) : res bool :=
  if bool_decide (window.*1 = (λ i, start_ + GRID * i) <$> range 0 seq 1) then all_finite window.*2 else Ok false.

(** The history of the seasonal component: eight days, each time once, all of it finite. *)
Definition seasonal_points (lo hi : Z) (l : list raw_point) : res S :=
  pts ← mapM_res read_point l;
  raise_if existsb no_time pts with PyValueError "invalid seasonal timestamp" ;;
  let hist := omap (within lo hi) pts in
  let bad := PyValueError "duplicate or non-finite seasonal history" in
  raise_if negb (bool_decide (NoDup hist.*1)) with bad ;;
  fine ← all_finite hist.*2;
  raise_if negb fine with bad ;;
  Series hist.
Definition seasonal_of o (fin : Z) : res S := lo ← shift fin (- (8 * DAY)); _history o lo fin ≫= seasonal_points lo fin.

(** The error fed back at that origin, and where the caller says it comes from. *)
Definition feedback_of (state : json) : res (f64 * json) :=
  let bad := PyValueError "feedback requires finite nonnegative MAPE and source" in
  match state with
  | JObj s =>
      let v := oget "mape_for_floor" s in
      b ← _finite v;
      raise_if negb b with bad ;;
      x ← float_of v;
      raise_if x <ᶠ f0 with bad ;;
      match oget "source" s with
      | JStr src => raise_if bool_decide (strip str_space (String.list_ascii_of_string src) = []) with bad ;; Ok (x, JStr src)
      | _ => Raise bad
      end
  | _ => Raise bad
  end.

Definition try_note {A} (prefix : string) (d : A) (r : res A) : A * list string :=
  match r with Ok a => (a, []) | Raise e => (d, [prefix +:+ why_of e]) end.

Definition history_contract : list (string * json) :=
  [("history_contract", JStr "caller-supplied masked observed history; no imputation"); ("feedback_source", JNull)].

(** The feedback, the record of where it came from, and a note when it cannot be had. *)
Definition feedback_stage o (issuance : json) : option f64 * list (string * json) * list string :=
  match _replay_state o with
  | None => (None, history_contract, [])
  | Some lookup =>
      let '(found, notes) := try_note "feedback state unavailable: " None (Some <$> (lookup issuance ≫= feedback_of)) in
      match found with
      | Some (x, src) => (Some x, dset "mape_for_floor" (JFloat x) (dset "feedback_source" src history_contract), notes)
      | None => (None, history_contract, notes)
      end
  end.

Definition model_stage o (complete : bool) (artifact : json) : option M * list string :=
  match _load_model o with
  | Some load => if complete then try_note "model load failed: " None (load artifact) else (None, [])
  | None => (None, [])
  end.

(** What is recorded of an issuance: the components that stage by stage make up the record. *)
Record findings := {
  fi_points : Z; fi_complete : bool; fi_replayed : bool; fi_predictors : list (string * list StepObservation);
  fi_reconstruction : list (string * json); fi_notes : list string }.

Definition unusable : findings := {|
  fi_points := 0; fi_complete := false; fi_replayed := false; fi_predictors := (λ k, (k, [])) <$> PREDICTORS; fi_reconstruction := [];
  fi_notes := ["unusable issuance record: missing forecasts, input end or sequence length"] |}.

(** The record of an issuance that cannot be replayed: what was served, and the other predictors failed. *)
Definition not_replayed (served : list StepObservation) targets (why note : string) : findings := {|
  fi_points := 0; fi_complete := false; fi_replayed := false; fi_reconstruction := []; fi_notes := [note];
  fi_predictors := ("served_hybrid", served)
    :: ((λ k, (k, StepObservation_failed why <$> numbered targets)) <$> filter (λ k, k ≠ "served_hybrid") PREDICTORS) |}.

Definition incomplete_note (got seq : Z) : string :=
  "input window incomplete or invalid: " +:+ string_of (str_of_Z got) +:+ " of " +:+ string_of (str_of_Z seq) +:+ " slots".

Definition replay o (issuance artifact : json) (fin seq start_ : Z) (window : list point) (served : list StepObservation) targets
    : res findings :=
  let got := Z.of_nat (length window) in
  complete ← window_is_complete start_ seq window;
  let '(seasonal, n2) := try_note "seasonal history unavailable: " empty_series (seasonal_of o fin) in
  let '(feedback, reconstruction, n3) := feedback_stage o issuance in
  let '(model, n4) := model_stage o complete artifact in
  components ← (if complete : bool then _from_model model window targets fin seasonal feedback
                else Ok (both (StepObservation_unavailable "invalid input snapshot") targets));
  persistence ← _persistence window targets fin;
  let yesterday := match _previous_day o targets with
                   | Ok l => l
                   | Raise e => StepObservation_failed ("history lookup failed: " +:+ exn_message e) <$> numbered targets
                   end in
  Ok {| fi_points := got; fi_complete := complete; fi_replayed := true;
        fi_predictors := components ++ [("served_hybrid", served); ("persistence", persistence); ("previous_day", yesterday)];
        fi_reconstruction := reconstruction;
        fi_notes := (if complete then [] else [incomplete_note got seq]) ++ n2 ++ n3 ++ n4 |}.

Definition look o (issuance artifact : json) (forecasts targets : list json) (fin seq : Z) : res findings :=
  served ← mapM_res served_step (zip (numbered targets) forecasts);
  expected ← expected_targets fin (length forecasts);
  broken ← grid_broken fin targets forecasts expected;
  if broken : bool then Ok (not_replayed (refuse_served <$> served) targets grid_failure grid_failure) else
  match _window_from_snapshot o fin seq with
  | Raise e => Ok (not_replayed served targets "history lookup failed" ("history lookup failed: " +:+ why_of e))
  | Ok (window, start_) => replay o issuance artifact fin seq start_ window served targets
  end.

Definition milliseconds (t0 t1 : f64) : f64 := (t1 ⊖ t0) ⊗ f64_of_Z 1000.

(** Only a replay is held against the time it took. *)
Definition over_budget o (elapsed : f64) : list string :=
  if _max_seconds o ⊗ f64_of_Z 1000 <ᶠ elapsed then ["observation exceeded its budget"] else [].

(** [t0] and [t1] are what [time.monotonic] answers before and after. *)
Definition observe o (t0 t1 : f64) (issuance : json) : res ShadowRecord :=
  forecasts ← dict_get "forecasts" JNull issuance ≫= records_of;
  targets ← mapM_res (dict_get "target_at" (JStr EmptyString)) forecasts;
  input_end ← dict_get "inference_input_end" JNull issuance;
  fin ← _parse (Written input_end);
  seq ← dict_get "sequence_length" JNull issuance ≫= int_or_0;
  let field k := match issuance with JObj i => oget_default k (JStr EmptyString) i | _ => JNull end in
  let elapsed := milliseconds t0 t1 in
  let out f late := {|
    sr_issued_at := field "issued_at"; sr_application := field "application"; sr_namespace := field "namespace";
    sr_inference_input_end := field "inference_input_end"; sr_sequence_length := seq;
    sr_artifact_sha256 := field "artifact_sha256"; sr_model_version := field "model_version";
    sr_training_cutoff := field "training_cutoff"; sr_window_points := fi_points f; sr_window_complete := fi_complete f;
    sr_predictors := fi_predictors f; sr_observer_version := "2"; sr_reconstruction := fi_reconstruction f;
    sr_elapsed_ms := elapsed; sr_notes := fi_notes f ++ late |} in
  match fin with
  | Some fin =>
      if (length forecasts =? 0)%nat || (seq <=? 0) then Ok (out unusable []) else
      f ← look o issuance (field "artifact_sha256") forecasts targets fin seq;
      Ok (out f (if fi_replayed f then over_budget o elapsed else []))
  | None => Ok (out unusable [])
  end.

(** * A run over a log of issuances *)

Definition counts : Type := list (string * list (status * Z)).
Record summary := { records_written : Z; records_not_written : Z; status_counts : counts }.

Definition count_one (k : string) (c : counts) (ob : StepObservation) : counts :=
  let here := or_default [] (dget k c) in
  dset k (dset (so_status ob) (or_default 0 (dget (so_status ob) here) + 1) here) c.
Definition count_record (c : counts) (r : ShadowRecord) : counts :=
  foldl (λ c p, foldl (count_one p.1) c p.2) c (sr_predictors r).
Definition no_counts : counts := (λ k, (k, [])) <$> PREDICTORS.

(** [write] adds a record's line to the log. *)
Context {W : Type} (write : ShadowRecord → SE W unit).

Definition append_record (r : ShadowRecord) : SE W bool :=
  λ w, match write r w with (Ok _, w) => (Ok true, w) | (Raise _, w) => (Ok false, w) end.

(** An issuance, with the two readings of the clock around its observation. *)
Fixpoint run_from (o : ShadowObserver M) (issuances : list (json * (f64 * f64))) (s : summary) : SE W summary :=
  match issuances with
  | [] => mret s
  | (item, (t0, t1)) :: rest =>
      match observe o t0 t1 item with
      | Raise _ => run_from o rest s
      | Ok r =>
          written ← append_record r;
          run_from o rest {|
            records_written := records_written s + (if written : bool then 1 else 0);
            records_not_written := records_not_written s + (if written then 0 else 1);
            status_counts := count_record (status_counts s) r |}
      end
  end.
Definition run (o : ShadowObserver M) (issuances : list (json * (f64 * f64))) : SE W summary :=
  run_from o issuances {| records_written := 0; records_not_written := 0; status_counts := no_counts |}.
End observer.
