(* ===== verification/ShadowSafety.v ===== *)
(** What the shadow observer may be trusted with: it looks at nothing later than the input the controller used, it answers for
    every predictor and every step, and a run accounts for every record. *)
From Stdlib Require Import SpecFloat Ascii.
From S2P Require Import Prelude Float64 Json Timestamps Datetimes Numbers Shadow.

(** * Nothing later than the input *)

Definition later (fin : Z) (t : option Z) : bool := match t with Some t => fin <? t | None => false end.
Definition later_point (fin : Z) (p : raw_point) : bool := match _parse p.1 with Ok t => later fin t | Raise _ => false end.

(** What of an answer of the history was known at [fin]: all of it but the points of a later time. *)
Definition known (fin : Z) (l : list raw_point) : list raw_point := filter (λ p, negb (later_point fin p)) l.

(** Two histories that differ only in what came after [fin]. *)
Definition agree_until (fin : Z) (h1 h2 : Z → Z → res (list raw_point)) : Prop := ∀ lo hi, known fin <$> h1 lo hi = known fin <$> h2 lo hi.

(** A reading of points that later ones leave as it is. *)
Definition blind {A} (fin : Z) (f : list raw_point → res A) : Prop := ∀ l, f (known fin l) = f l.

Lemma blind_agree {A} fin (f : list raw_point → res A) h1 h2 lo hi : blind fin f → agree_until fin h1 h2 → h1 lo hi ≫= f = h2 lo hi ≫= f.
Proof.
  intros Hf Ha. specialize (Ha lo hi). destruct (h1 lo hi) as [l1|], (h2 lo hi) as [l2|]; try discriminate Ha; [|by injection Ha as ->].
  injection Ha as Hk. cbn. by rewrite <-Hf, Hk, Hf.
Qed.

Lemma read_known fin l : mapM_res read_point (known fin l) = filter (λ p, negb (later fin p.1)) <$> mapM_res read_point l.
Proof.
  unfold known. induction l as [|p l IH]; [done|]. rewrite filter_bool_cons, mapM_res_cons.
  assert (∀ t, _parse p.1 = Ok t → later_point fin p = later fin t) as Hl by (intros t Ht; unfold later_point; by rewrite Ht).
  assert (∀ e, _parse p.1 = Raise e → later_point fin p = false) as Hr by (intros e Ht; unfold later_point; by rewrite Ht).
  destruct (_parse p.1) as [t|e] eqn:Et.
  - assert (read_point p = Ok (t, p.2)) as Hp by (unfold read_point; by rewrite Et). rewrite (Hl t), Hp by done. cbn [mbind res_bind].
    destruct (negb (later fin t)) eqn:El; [rewrite mapM_res_cons, Hp; cbn [mbind res_bind]|];
      rewrite IH; destruct (mapM_res read_point l) as [r|]; try done; cbn [mbind res_bind fmap res_fmap]; rewrite filter_bool_cons; cbn [fst]; by rewrite El.
  - assert (read_point p = Raise e) as Hp by (unfold read_point; by rewrite Et). rewrite (Hr e), Hp by done. cbn [negb].
    by rewrite mapM_res_cons, Hp.
Qed.

Lemma within_known fin lo hi pts : hi ≤ fin →
  omap (M:=list) (within lo hi) (filter (λ p, negb (later fin p.1)) pts) = omap (within lo hi) pts.
Proof.
  intros Hhi. induction pts as [|p l IH]; [done|]. rewrite filter_bool_cons. destruct (negb (later fin p.1)) eqn:El; cbn; [by rewrite IH|].
  rewrite IH. unfold within. destruct p as [[t|] v]; [|done]. cbn in El |- *. bool_prop.
  destruct (Z.leb_spec t hi); [lia|]. by rewrite andb_false_r.
Qed.

Lemma no_time_known fin pts : existsb no_time (filter (λ p, negb (later fin p.1)) pts) = existsb no_time pts.
Proof.
  induction pts as [|p l IH]; [done|]. rewrite filter_bool_cons. destruct (negb (later fin p.1)) eqn:El; cbn; [by rewrite IH|].
  rewrite IH. destruct p as [[t|] v]; [done|discriminate El].
Qed.

Ltac blind := let l := fresh "l" in intros l; rewrite read_known; destruct (mapM_res read_point l) as [pts|]; [|done]; cbn [fmap res_fmap mbind res_bind];
  rewrite ?no_time_known, ?within_known by lia; reflexivity.

Section observer.
Context {M S : Type} `{Model M S} `{Arrays S} `{ExnText}.

Lemma window_blind fin lo hi : hi ≤ fin → blind fin (window_points lo hi).
Proof. intros ?. unfold blind, window_points. blind. Qed.
Lemma previous_day_blind fin lo hi : hi ≤ fin → blind fin (previous_day_points lo hi).
Proof. intros ?. unfold blind, previous_day_points. blind. Qed.
Lemma seasonal_blind fin lo hi : hi ≤ fin → blind fin (seasonal_points (S:=S) lo hi).
Proof. intros ?. unfold blind, seasonal_points. blind. Qed.

(** The observer with another history. *)
Definition with_history (h : Z → Z → res (list raw_point)) (o : ShadowObserver M) : ShadowObserver M :=
  {| _history := h; _load_model := _load_model o; _max_seconds := _max_seconds o; _replay_state := _replay_state o |}.

Lemma expected_range fin steps expected : expected_targets fin steps = Ok expected →
  expected = (λ i, fin + GRID * i) <$> range 1 (Z.of_nat steps + 1) 1.
Proof.
  unfold expected_targets. rewrite mapM_res_Forall2. induction 1 as [|i u l l' Hs Hl IH]; [done|]. cbn. rewrite IH. f_equal.
  unfold shift in Hs. by apply raise_if_ok in Hs as [_ [= <-]].
Qed.

(** The targets of an unbroken grid are the next hour. *)
Lemma grid_targets fin targets forecasts expected t tgt :
  length forecasts = length targets → expected_targets fin (length forecasts) = Ok expected →
  grid_broken fin targets forecasts expected = Ok false → t ∈ targets → _parse (Written t) = Ok (Some tgt) → tgt ≤ fin + 6 * GRID.
Proof.
  intros Hlen He Hg Ht Hp. unfold grid_broken in Hg. destruct ((6 <? _)%nat || _) eqn:Ho; [discriminate Hg|].
  apply orb_false_iff in Ho as [Ho _]. apply Nat.ltb_ge in Ho. apply bind_ok in Hg as (got & Hgot & Hg).
  destruct (negb _) eqn:Hb; [discriminate Hg|]. bool_prop. apply expected_range in He. subst.
  apply mapM_res_Forall2 in Hgot. apply list_elem_of_lookup in Ht as [i Hi].
  destruct (Forall2_lookup_l _ _ _ i (Written t) Hgot) as (y & Hy & Hpy); [by rewrite list_lookup_fmap, Hi|].
  rewrite Hp in Hpy. injection Hpy as <-. apply list_elem_of_lookup_2 in Hy. apply list_elem_of_fmap in Hy as (u & [= ->] & Hu).
  apply list_elem_of_fmap in Hu as (j & -> & Hj). apply elem_of_range in Hj as [Hj _]; [|done]. unfold GRID, SECOND. lia.
Qed.

Lemma elem_of_numbered {A} i (l : list A) x : x ∈ numbered_from i l → x.2 ∈ l.
Proof. revert i. induction l as [|y l IH]; intros i; cbn; [by intros ?%elem_of_nil|]. rewrite !elem_of_cons. intros [->|Hx]; eauto. Qed.

Section agree.
Context (o : ShadowObserver M) (fin : Z) (h1 h2 : Z → Z → res (list raw_point)) (agree : agree_until fin h1 h2).

Lemma window_agree seq : _window_from_snapshot (with_history h1 o) fin seq = _window_from_snapshot (with_history h2 o) fin seq.
Proof. unfold _window_from_snapshot. destruct (shift fin _); [|done]. cbn. by rewrite (blind_agree fin _ h1 h2) by (done || by apply window_blind). Qed.

Lemma seasonal_agree : seasonal_of (with_history h1 o) fin = seasonal_of (with_history h2 o) fin.
Proof. unfold seasonal_of. destruct (shift fin _); [|done]. cbn. by apply (blind_agree fin); [apply seasonal_blind|]. Qed.

Lemma previous_day_agree targets : (∀ t tgt, t ∈ targets → _parse (Written t) = Ok (Some tgt) → tgt ≤ fin + 6 * GRID) →
  _previous_day (with_history h1 o) targets = _previous_day (with_history h2 o) targets.
Proof.
  intros Ht. apply mapM_res_ext. intros [i t] Hi. apply elem_of_numbered in Hi. unfold previous_day_step. cbn [snd] in *.
  destruct (_parse (Written t)) as [[tgt|]|] eqn:Hp; try done. cbn [mbind res_bind]. specialize (Ht t tgt Hi Hp).
  unfold shift. repeat (destruct (_ || _); [done|]; cbn [mbind res_bind]). cbn [_history with_history].
  rewrite (blind_agree fin _ h1 h2); [done| |done]. apply previous_day_blind. unfold DAY, tolerance, GRID, SECOND in *. lia.
Qed.

Lemma look_agree issuance artifact forecasts targets seq : length forecasts = length targets →
  look (with_history h1 o) issuance artifact forecasts targets fin seq = look (with_history h2 o) issuance artifact forecasts targets fin seq.
Proof.
  intros Hlen. unfold look. destruct (mapM_res _ _) as [served|]; [|done]. cbn [mbind res_bind].
  destruct (expected_targets _ _) as [expected|] eqn:He; [|done]. cbn [mbind res_bind].
  destruct (grid_broken _ _ _ _) as [[]|] eqn:Hg; try done. cbn [mbind res_bind]. rewrite window_agree.
  destruct (_window_from_snapshot _ _ _) as [[window start_]|]; [|done]. unfold replay. rewrite seasonal_agree.
  rewrite previous_day_agree; [done|]. intros t tgt. by eapply grid_targets.
Qed.
End agree.

(** * A record is complete *)

Definition slot (s : StepObservation) : Z * json := (so_step s, so_target_at s).
Definition sound (s : StepObservation) : Prop :=
  match so_status s with ok => ∃ x, so_value s = Some x ∧ is_finite x = true | _ => so_value s = None end.

(** The answer of one predictor: an observation for each step, a value in those that answered and only in those. *)
Record answer (targets : list json) (l : list StepObservation) : Prop := {
  an_slots : slot <$> l = numbered targets;
  an_sound : Forall sound l;
}.

(** What the controller recorded for a step, when it is a finite number. *)
Definition recorded_rpm (f : json) : option f64 :=
  match dict_get "rpm" JNull f ≫= float_of with Ok x => if is_finite x then Some x else None | Raise _ => None end.

Lemma observed_ok detail t v s : observed detail t v = Ok s → slot s = t ∧ sound s ∧ (so_status s = ok ∨ so_status s = non_finite)
  ∧ so_value s = match float_of v with Ok x => if is_finite x then Some x else None | Raise _ => None end.
Proof.
  unfold observed, _finite. destruct t as [i t]. destruct (float_of v) as [x|e]; cbn [mbind res_bind].
  - destruct (is_finite x) eqn:Hx; intros [= <-]; split_and!; cbn; eauto.
  - destruct e; try discriminate; intros [= <-]; split_and!; cbn; eauto.
Qed.

Lemma answer_fmap targets f : (∀ t, slot (f t) = t ∧ sound (f t)) → answer targets (f <$> numbered targets).
Proof.
  intros Hf. split.
  - rewrite <-list_fmap_compose. rewrite <-(list_fmap_id (numbered targets)) at 2. apply list_fmap_ext. intros i t _. apply Hf.
  - apply Forall_fmap, Forall_true. intros t. apply Hf.
Qed.

Lemma answer_unavailable targets why : answer targets (StepObservation_unavailable why <$> numbered targets).
Proof. apply answer_fmap. by intros [i t]. Qed.
Lemma answer_failed targets why : answer targets (StepObservation_failed why <$> numbered targets).
Proof. apply answer_fmap. by intros [i t]. Qed.
Lemma answer_not_finite targets why : answer targets (not_finite why <$> numbered targets).
Proof. apply answer_fmap. by intros [i t]. Qed.
Lemma answer_answered targets x : is_finite x = true → answer targets ((λ t, answered t x) <$> numbered targets).
Proof. intros. apply answer_fmap. intros [i t]. split; [done|]. by exists x. Qed.
Create HintDb answers.
#[local] Hint Resolve answer_unavailable answer_failed answer_not_finite answer_answered : answers.

Lemma answer_mapM {A} targets (proj : A → Z * json) (f : A → res StepObservation) xs l :
  proj <$> xs = numbered targets → (∀ x s, f x = Ok s → slot s = proj x ∧ sound s) → mapM_res f xs = Ok l → answer targets l.
Proof.
  intros Hp Hf Hm. apply mapM_res_Forall2 in Hm. split; [rewrite <-Hp|]; clear Hp; induction Hm as [|x s xs l Hx Hl IH]; cbn; auto.
  - rewrite IH. f_equal. by apply (Hf x).
  - constructor; [by eapply Hf|done].
Qed.

Lemma zip_numbered {A} i (targets : list json) (l : list A) : (length targets ≤ length l)%nat → (zip (numbered_from i targets) l).*1 = numbered_from i targets.
Proof. revert i l. induction targets as [|t ts IH]; intros i l Hl; [done|]. destruct l as [|x l]; cbn in *; [lia|]. rewrite IH; [done|lia]. Qed.

Lemma length_numbered {A} i (l : list A) : length (numbered_from i l) = length l.
Proof. revert i. induction l as [|x l IH]; intros i; cbn; [done|]. by rewrite IH. Qed.

Lemma per_step_long comp steps : (steps ≤ length (per_step_available comp steps))%nat.
Proof.
  unfold per_step_available. destruct (oget _ comp); rewrite ?length_replicate; try lia.
  destruct (Nat.ltb_spec (length l) steps); [by rewrite length_replicate|]. by rewrite length_fmap.
Qed.

Lemma component_answer key src available targets l : (length targets ≤ length available)%nat →
  component key src available targets = Ok l → answer targets l.
Proof.
  intros Ha. unfold component. destruct (values_of src _) as [arr|] eqn:Hv; [|intros [= <-]; auto with answers].
  assert (length arr = length targets) as Hlen.
  { unfold values_of in Hv. destruct src; try done; destruct (ravel _) as [arr'|]; try done; destruct (Nat.eqb_spec (length arr') (length targets));
      by simplify_eq. }
  apply answer_mapM with (proj := λ x, x.1.1).
  - transitivity ((zip (zip (numbered targets) arr) available).*1.*1); [by rewrite <-list_fmap_compose|].
    rewrite fst_zip; [apply zip_numbered; lia|]. rewrite length_zip_with. unfold numbered. rewrite length_numbered. lia.
  - intros [[[i t] v] a] s. destruct (negb a); [by intros [= <-]|]. intros Ho. apply observed_ok in Ho as (Hs & Hd & _). done.
Qed.

Lemma persistence_answer window targets origin l : _persistence window targets origin = Ok l → answer targets l.
Proof.
  unfold _persistence, _finite. destruct (filter _ window) as [|[t v] [|]]; try (intros [= <-]; auto with answers).
  destruct (float_of v) as [x|e] eqn:Hx; cbn [mbind res_bind].
  - destruct (is_finite x) eqn:Hf; intros [= <-]; auto with answers.
  - destruct e; try discriminate; intros [= <-]; auto with answers.
Qed.

Lemma previous_day_answer (o : ShadowObserver M) targets l : _previous_day o targets = Ok l → answer targets l.
Proof.
  apply (answer_mapM targets id); [by rewrite list_fmap_id|]. intros [i t] s Hs. unfold previous_day_step in Hs.
  apply bind_ok in Hs as ([tgt|] & _ & Hs); [|done].
  do 3 apply bind_ok in Hs as (? & _ & Hs). apply bind_ok in Hs as ([|p ps] & _ & Hs); [by injection Hs as <-|].
  apply observed_ok in Hs as (? & ? & _). done.
Qed.
#[local] Hint Resolve component_answer persistence_answer previous_day_answer : answers.

(** ** What was served *)

(** The first list is what the controller recorded, step by step. *)
Definition as_served (forecasts : list json) (l : list StepObservation) : Prop :=
  Forall2 (λ f s, so_value s = recorded_rpm f) forecasts l.

Lemma served_step_ok t f s : served_step (t, f) = Ok s → slot s = t ∧ sound s ∧ so_value s = recorded_rpm f.
Proof.
  unfold served_step, recorded_rpm. intros Hs. apply bind_ok in Hs as (v & -> & Hs). cbn [mbind res_bind].
  destruct v; try (apply observed_ok in Hs as (? & ? & _ & ->); done). injection Hs as <-. by destruct t.
Qed.

Lemma served_ok targets forecasts l : length forecasts = length targets → mapM_res served_step (zip (numbered targets) forecasts) = Ok l →
  answer targets l ∧ as_served forecasts l.
Proof.
  intros Hlen Hm. split.
  - eapply answer_mapM; [| |exact Hm]; [apply zip_numbered; lia|]. intros [t f] s Hs. apply served_step_ok in Hs. tauto.
  - apply mapM_res_Forall2 in Hm. unfold as_served. revert Hm. unfold numbered. generalize 1. revert targets l Hlen.
    induction forecasts as [|f fs IH]; intros [|t ts] l Hlen i Hm; try discriminate Hlen; cbn in *; inversion Hm as [|? s ? l' Hs Hl]; subst; constructor.
    + apply served_step_ok in Hs. tauto.
    + apply (IH ts l' ltac:(by injection Hlen) (i + 1)), Hl.
Qed.

(** ** The record of an issuance that could be looked at *)

Definition silent (l : list StepObservation) : Prop := Forall (λ s, so_status s ≠ ok) l.

Record attests (forecasts targets : list json) (preds : list (string * list StepObservation)) (complete : bool)
    (reconstruction : list (string * json)) (notes : list string) : Prop := {
  at_keys : preds.*1 ≡ₚ PREDICTORS;
  at_slots : ∀ k l, (k, l) ∈ preds → slot <$> l = numbered targets;
  at_sound : ∀ k l, (k, l) ∈ preds → Forall sound l ∨ k = "served_hybrid" ∧ grid_failure ∈ notes;
  at_served : ∀ l, ("served_hybrid", l) ∈ preds → as_served forecasts l;
  at_network : complete = false → ∀ l, ("raw_network", l) ∈ preds → silent l;
  at_seasonal : complete = false ∨ dget "feedback_source" reconstruction ∈ [None; Some JNull] →
                ∀ l, ("seasonal_only", l) ∈ preds → silent l;
}.

Lemma silent_fmap f (l : list (Z * json)) : (∀ t, so_status (f t) ≠ ok) → silent (f <$> l).
Proof. intros Hf. apply Forall_fmap, Forall_true. exact Hf. Qed.
Lemma silent_unavailable why l : silent (StepObservation_unavailable why <$> l).
Proof. by apply silent_fmap. Qed.
Lemma silent_failed why l : silent (StepObservation_failed why <$> l).
Proof. by apply silent_fmap. Qed.
#[local] Hint Resolve silent_unavailable silent_failed : answers.

(** What the two components answer: always both, and the seasonal one only with the feedback of the time. *)
Definition components_of (targets : list json) (feedback : option f64) (preds : list (string * list StepObservation)) : Prop :=
  ∃ raw season, preds = [("raw_network", raw); ("seasonal_only", season)] ∧ answer targets raw ∧ answer targets season
    ∧ (feedback = None → silent season).

Lemma from_model_ok model window targets origin (seasonal : S) feedback preds :
  _from_model (M:=M) model window targets origin seasonal feedback = Ok preds → components_of targets feedback preds.
Proof.
  assert (∀ why, components_of targets feedback (both (StepObservation_failed why) targets)) as Hfail
    by (intros why; do 2 eexists; split_and!; [done|auto with answers..]).
  unfold _from_model. destruct model as [model|].
  - destruct (ask _ _ _ _ _ _) as [out|e]; [|by intros [= <-]]. intros Hc.
    apply bind_ok in Hc as (raw & Hr & Hc). apply bind_ok in Hc as (season & Hs & Hc). injection Hc as <-. exists raw, season.
    apply component_answer in Hr; [|by rewrite length_replicate]. split_and!; [done..| |].
    + destruct feedback; [|injection Hs as <-; auto with answers]. apply component_answer in Hs; [done|apply per_step_long].
    + intros ->. injection Hs as <-. auto with answers.
  - intros [= <-]. do 2 eexists. split_and!; [done|auto with answers..].
Qed.

Lemma feedback_known (o : ShadowObserver M) issuance feedback reconstruction notes :
  feedback_stage o issuance = (feedback, reconstruction, notes) → dget "feedback_source" reconstruction ∈ [None; Some JNull] → feedback = None.
Proof.
  unfold feedback_stage. destruct (_replay_state o) as [lookup|]; [|by intros [= <- _ _]].
  destruct (lookup issuance ≫= feedback_of) as [[x src]|e] eqn:Hf; cbn; [|by intros [= <- _ _]]. intros [= <- <- _].
  apply bind_ok in Hf as (st & _ & Hf). destruct st as [| | | | | |st]; try discriminate Hf. cbn in Hf.
  apply bind_ok in Hf as (b & _ & Hf). apply raise_if_ok in Hf as [_ Hf]. apply bind_ok in Hf as (y & _ & Hf).
  apply raise_if_ok in Hf as [_ Hf]. destruct (oget "source" st); try discriminate Hf. apply raise_if_ok in Hf as [_ [= _ <-]].
  cbn. rewrite !elem_of_cons, elem_of_nil. intros [?|[?|[]]]; discriminate.
Qed.

Ltac one_of E := cbn; rewrite !elem_of_cons, elem_of_nil; intros [E|[E|[E|[E|[E|[]]]]]].
Ltac same_keys := apply NoDup_Permutation; [apply (bool_decide_unpack _); vm_compute; done..|];
  let k := fresh "k" in intros k; unfold PREDICTORS; cbn; rewrite !elem_of_cons; tauto.

Lemma replay_attests (o : ShadowObserver M) issuance artifact fin seq start_ window forecasts served targets f :
  answer targets served → as_served forecasts served →
  replay o issuance artifact fin seq start_ window served targets = Ok f →
  attests forecasts targets (fi_predictors f) (fi_complete f) (fi_reconstruction f) (fi_notes f).
Proof.
  intros [Hslots Hsound] Has. unfold replay. intros Hr. apply bind_ok in Hr as (complete & _ & Hr).
  destruct (try_note _ empty_series _) as [seasonal n2]. destruct (feedback_stage _ _) as [[feedback reconstruction] n3] eqn:Hfb.
  destruct (model_stage _ _ _) as [model n4]. apply bind_ok in Hr as (components & Hc & Hr). apply bind_ok in Hr as (persistence & Hp & Hr).
  injection Hr as <-. cbn [fi_predictors fi_complete fi_reconstruction fi_notes]. apply persistence_answer in Hp as [Hps Hpd].
  assert (answer targets match _previous_day o targets with Ok l => l
    | Raise e => StepObservation_failed ("history lookup failed: " +:+ exn_message e) <$> numbered targets end) as [Hys Hyd]
    by (destruct (_previous_day o targets) eqn:Hy; eauto with answers).
  set (yesterday := match _previous_day o targets with Ok l => l | Raise _ => _ end) in *. clearbody yesterday.
  assert (components_of targets feedback components
    ∧ (complete = false → components = both (StepObservation_unavailable "invalid input snapshot") targets)) as [Hco Hgate].
  { destruct complete; [split; [by eapply from_model_ok|done]|]. injection Hc as <-. split; [|done]. do 2 eexists. split_and!; [done|auto with answers..]. }
  destruct Hco as (raw & season & -> & [Hrs Hrd] & [Hss Hsd] & Hquiet).
  split.
  - same_keys.
  - intros k l. one_of E; by injection E as -> ->.
  - intros k l. one_of E; injection E as -> ->; by left.
  - intros l. one_of E; try discriminate E. by injection E as ->.
  - intros Hf l. one_of E; try discriminate E. injection E as ->.
    injection (Hgate Hf) as -> _. auto with answers.
  - intros Hf l. one_of E; try discriminate E. injection E as ->.
    destruct Hf as [Hf|Hf]; [injection (Hgate Hf) as _ ->; auto with answers|]. apply Hquiet. by eapply feedback_known.
Qed.

Lemma not_replayed_predictors served targets why note : fi_predictors (not_replayed served targets why note) =
  ("served_hybrid", served) :: ((λ k, (k, StepObservation_failed why <$> numbered targets))
                                 <$> ["raw_network"; "seasonal_only"; "previous_day"; "persistence"]).
Proof. reflexivity. Qed.

Lemma not_replayed_attests forecasts targets served why note :
  slot <$> served = numbered targets → as_served forecasts served → Forall sound served ∨ note = grid_failure →
  let f := not_replayed served targets why note in
  attests forecasts targets (fi_predictors f) (fi_complete f) (fi_reconstruction f) (fi_notes f).
Proof.
  intros Hslots Has Hsound. cbv zeta. rewrite not_replayed_predictors. cbn [fi_complete fi_reconstruction fi_notes not_replayed].
  pose proof (answer_failed targets why) as [Hfs Hfd]. pose proof (silent_failed why (numbered targets)) as Hq.
  split.
  - same_keys.
  - intros k l. one_of E; by injection E as -> ->.
  - intros k l. one_of E; injection E as -> ->; try by left.
    destruct Hsound as [?| ->]; [by left|]. right. split; [done|by constructor].
  - intros l. one_of E; try discriminate E. by injection E as ->.
  - intros _ l. one_of E; try discriminate E. by injection E as ->.
  - intros _ l. one_of E; try discriminate E. by injection E as ->.
Qed.

Lemma look_attests (o : ShadowObserver M) issuance artifact forecasts targets fin seq f : length forecasts = length targets →
  look o issuance artifact forecasts targets fin seq = Ok f →
  attests forecasts targets (fi_predictors f) (fi_complete f) (fi_reconstruction f) (fi_notes f).
Proof.
  intros Hlen. unfold look. intros Hl. apply bind_ok in Hl as (served & Hs & Hl). apply bind_ok in Hl as (expected & _ & Hl).
  apply bind_ok in Hl as (broken & _ & Hl). apply served_ok in Hs as [Han Has]; [|done].
  destruct broken; [injection Hl as <-; apply not_replayed_attests; [| |by right]|].
  - rewrite <-(an_slots _ _ Han), <-list_fmap_compose. done.
  - unfold as_served in *. rewrite Forall2_fmap_r. eapply Forall2_impl; [exact Has|]. done.
  - destruct (_window_from_snapshot o fin seq) as [[window start_]|e]; [by eapply replay_attests|]. injection Hl as <-.
    destruct Han. apply not_replayed_attests; auto.
Qed.

Lemma attests_more_notes forecasts targets preds complete reconstruction notes late :
  attests forecasts targets preds complete reconstruction notes → attests forecasts targets preds complete reconstruction (notes ++ late).
Proof. intros []. split; try done. intros k l Hk. destruct (at_sound0 k l Hk) as [?|[? ?]]; [by left|]. right. split; [done|]. apply elem_of_app. by left. Qed.

Definition issued (issuance : json) : res (list json * list json) :=
  forecasts ← dict_get "forecasts" JNull issuance ≫= records_of;
  targets ← mapM_res (dict_get "target_at" (JStr EmptyString)) forecasts;
  Ok (forecasts, targets).
Definition input_end (issuance : json) : res (option Z) := v ← dict_get "inference_input_end" JNull issuance; _parse (Written v).

(** C24: an observation looks at nothing later than the input the controller used: whatever the history holds of later times, the
    record is the same. *)
Theorem shadow_no_look_ahead (o : ShadowObserver M) (h1 h2 : Z → Z → res (list raw_point)) (t0 t1 : f64) (issuance : json) :
  (∀ fin, input_end issuance = Ok (Some fin) → agree_until fin h1 h2) →
  observe (with_history h1 o) t0 t1 issuance = observe (with_history h2 o) t0 t1 issuance.
Proof.
  intros Ha. unfold observe, input_end in *. destruct (_ ≫= records_of) as [forecasts|]; [|done]. cbn [mbind res_bind].
  destruct (mapM_res _ forecasts) as [targets|] eqn:Ht; [|done]. cbn [mbind res_bind]. apply mapM_res_length in Ht.
  destruct (dict_get "inference_input_end" JNull issuance) as [v|]; [|done]. cbn [mbind res_bind] in *.
  destruct (_parse (Written v)) as [[fin|]|]; try done. cbn [mbind res_bind]. destruct (_ ≫= int_or_0) as [seq|]; [|done]. cbn [mbind res_bind].
  destruct (_ || _); [done|]. by rewrite (look_agree o fin h1 h2 (Ha fin eq_refl)).
Qed.


(** * A run *)

Definition observed_records (o : ShadowObserver M) (issuances : list (json * (f64 * f64))) : list ShadowRecord :=
  omap (λ x, match observe o x.2.1 x.2.2 x.1 with Ok r => Some r | Raise _ => None end) issuances.

Lemma observed_records_cons o item t0 t1 rest : observed_records o ((item, (t0, t1)) :: rest)
  = match observe o t0 t1 item with Ok r => [r] | Raise _ => [] end ++ observed_records o rest.
Proof. unfold observed_records. cbn. by destruct (observe o t0 t1 item). Qed.

Definition count_of (k : string) (st : status) (c : counts) : Z := or_default 0 (dget st (or_default [] (dget k c))).
Definition tally (k : string) (st : status) (preds : list (string * list StepObservation)) : Z :=
  sumZ ((λ p, if decide (p.1 = k) then Z.of_nat (length (filter (λ s, so_status s = st) p.2)) else 0) <$> preds).

Lemma count_one_of k st k' c ob :
  count_of k st (count_one k' c ob) = count_of k st c + (if decide (k' = k ∧ so_status ob = st) then 1 else 0).
Proof.
  unfold count_of, count_one. rewrite dget_dset. destruct (decide (k = k')) as [->|Hk]; cbn [or_default].
  - rewrite dget_dset. destruct (decide (st = so_status ob)) as [->|Hs]; case_decide; cbn [or_default]; try lia; naive_solver.
  - case_decide; [naive_solver|lia].
Qed.

Lemma count_list_of k st k' l c : count_of k st (foldl (count_one k') c l)
  = count_of k st c + (if decide (k' = k) then Z.of_nat (length (filter (λ s, so_status s = st) l)) else 0).
Proof.
  revert c. induction l as [|ob l IH]; intros c; cbn [foldl]; [case_decide; cbn; lia|]. rewrite IH, count_one_of, filter_cons.
  repeat case_decide; cbn [length]; try lia; naive_solver.
Qed.

Lemma count_record_of k st r c : count_of k st (count_record c r) = count_of k st c + tally k st (sr_predictors r).
Proof.
  unfold count_record, tally. generalize (sr_predictors r) as preds. intros preds. revert c.
  induction preds as [|p preds IH]; intros c; cbn [foldl fmap list_fmap]; [cbn; lia|]. rewrite IH, count_list_of, sumZ_cons. lia.
Qed.

Section run.
Context {W : Type} (write : ShadowRecord → SE W unit).

Lemma run_from_ok o issuances s w : let rs := observed_records o issuances in
  ∃ s' w', run_from write o issuances s w = (Ok s', w')
    ∧ records_written s' + records_not_written s' = records_written s + records_not_written s + Z.of_nat (length rs)
    ∧ (∀ k st, count_of k st (status_counts s') = count_of k st (status_counts s) + sumZ (tally k st ∘ sr_predictors <$> rs))
    ∧ w' = foldl (λ w r, (write r w).2) w rs.
Proof.
  revert s w. induction issuances as [|[item [t0 t1]] rest IH]; intros s w rs.
  - exists s, w. split_and!; [done|cbn; lia|intros; cbn; lia|done].
  - subst rs. rewrite observed_records_cons. cbn [run_from]. destruct (observe o t0 t1 item) as [r|e]; [|apply IH]. cbn [app].
    unfold append_record. rewrite se_bind_eq. destruct (write r w) as [a w1] eqn:Hw.
    assert (∃ b, (match a with Ok _ => (Ok true, w1) | Raise _ => (Ok false, w1) end : res bool * W) = (Ok b, w1)) as [b ->] by (destruct a; eauto).
    destruct (IH {| records_written := records_written s + (if b then 1 else 0);
                    records_not_written := records_not_written s + (if b then 0 else 1);
                    status_counts := count_record (status_counts s) r |} w1) as (s' & w' & -> & Hn & Hc & ->).
    exists s'. eexists. split_and!; [done| | |].
    + rewrite Hn. cbn [records_written records_not_written length]. destruct b; lia.
    + intros k st. rewrite Hc. cbn [status_counts fmap list_fmap]. rewrite count_record_of, sumZ_cons. unfold compose. lia.
    + cbn [foldl]. by rewrite Hw.
Qed.

(** A run always answers, whatever the issuances, the lookups and the log do: each record it could make is either written or
    counted as not written, in order, and the counts are those of the observations made. *)
Theorem run_accounts (o : ShadowObserver M) (issuances : list (json * (f64 * f64))) (w : W) :
  let rs := observed_records o issuances in
  ∃ s w', run write o issuances w = (Ok s, w')
    ∧ records_written s + records_not_written s = Z.of_nat (length rs)
    ∧ (∀ k st, count_of k st (status_counts s) = sumZ (tally k st ∘ sr_predictors <$> rs))
    ∧ w' = foldl (λ w r, (write r w).2) w rs.
Proof.
  cbv zeta. unfold run. destruct (run_from_ok o issuances {| records_written := 0; records_not_written := 0; status_counts := no_counts |} w)
    as (s & w' & Hr & Hn & Hc & Hw). exists s, w'. split_and!; [done..| |done]. intros k st. rewrite Hc.
  assert (count_of k st no_counts = 0) as Hz; [|cbn [status_counts]; lia]. unfold count_of, no_counts, PREDICTORS. cbn [fmap list_fmap dget].
  by repeat (case_decide; [done|]).
Qed.
End run.
End observer.
