(* ===== verification/ShadowDemo.v ===== *)
(** The shadow observer at work: a model that repeats its last input, an issuance of two steps, and what later observations, a
    missing input and an oversized number make of the record. *)
From Stdlib Require Import SpecFloat Ascii.
From S2P Require Import Prelude Float64 Json Timestamps Datetimes Numbers Shadow ShadowSafety.

#[local] Instance demo_text : ExnText := {
  exn_class e := match e with PyOSError => "OSError" | PyOverflowError => "OverflowError" | _ => "ValueError" end;
  exn_message e := match e with PyValueError m => m | _ => EmptyString end }.
#[local] Instance demo_arrays : Arrays (list point) := {
  ravel v := match v with JArr l => Ok l | v => Ok [v] end;
  Series l := Ok (sort_by by_time l);
  empty_series := [] }.

(** Three inputs, unscaled; the answer repeats the last of them and the first of the seasonal history. *)
#[local] Instance demo_model : Model () (list point) := {
  sequence_length _ := 3;
  transform _ l := Ok l;
  model_predict _ rq :=
    let n := Z.to_nat (rq_steps_ahead rq) in
    let targets := (λ i, Moment {| dt_local := rq_origin rq + GRID * i; dt_offset := Some 0 |}) <$> range 1 (rq_steps_ahead rq + 1) 1 in
    Ok {| pr_origin := Moment {| dt_local := rq_origin rq; dt_offset := None |}; pr_target_timestamps := targets;
          pr_components := [("lstm", JArr (replicate n (JFloat (List.last (rq_last_sequence rq) f0))));
                            ("pattern", JArr (replicate n (or_default JNull (snd <$> head (rq_seasonal_history rq)))));
                            ("pattern_available_per_step", JArr (JBool true :: replicate (n - 1) (JBool false)))] |} }.

Definition demo_end : Z := or_default 0 (dt_local <$> read_iso (String.list_ascii_of_string "2026-07-01T00:20:00")).
Definition demo_point (t v : Z) : raw_point := (Moment {| dt_local := t; dt_offset := None |}, JInt v).
Definition demo_history : list raw_point :=
  [demo_point (demo_end - 2 * GRID) 100; demo_point (demo_end - GRID) 110; demo_point demo_end 120;
   demo_point (demo_end + GRID - DAY + 60 * SECOND) 95; demo_point (demo_end + GRID - DAY - 120 * SECOND) 90].
(** The same, and an hour that had not happened yet. *)
Definition demo_hindsight : list raw_point := demo_point (demo_end + GRID) 9000 :: demo_history ++ [demo_point (demo_end + 6 * GRID) 9000].

Definition demo_forecast (step : Z) (target : string) (rpm : json) : json := JObj [("step", JInt step); ("target_at", JStr target); ("rpm", rpm)].
Definition demo_issuance (rpm : json) : json := JObj [
  ("issued_at", JStr "2026-07-01T00:21:00Z"); ("application", JStr "shop"); ("namespace", JStr "web");
  ("inference_input_end", JStr "2026-07-01T00:20:00Z"); ("sequence_length", JInt 3); ("artifact_sha256", JStr "5f0c");
  ("forecasts", JArr [demo_forecast 1 "2026-07-01T00:30:00Z" rpm; demo_forecast 2 "2026-07-01T00:40:00Z" (JFloat (f64_of_Z 130))])].

Definition demo_observer (h : Z → Z → res (list raw_point)) : ShadowObserver () := {|
  _history := h; _load_model := Some (λ _, Ok (Some ())); _max_seconds := f64_of_Z 5;
  _replay_state := Some (λ _, Ok (JObj [("mape_for_floor", JFloat (f64_of_Z 12)); ("source", JStr "chronology")])) |}.

Definition demo_statuses (r : res ShadowRecord) : list (string * list (status * option f64)) :=
  match r with Ok r => (λ p : string * list StepObservation, (p.1, (λ s, (so_status s, so_value s)) <$> p.2)) <$> sr_predictors r | Raise _ => [] end.
Definition number_of (z : Z) : option f64 := Some (f64_of_Z z).

(** The nearest of the two observations of the day before is a minute late; nothing is known of the second step's. *)
Definition demo_expected : list (string * list (status * option f64)) := [
  ("raw_network", [(ok, number_of 120); (ok, number_of 120)]);
  ("seasonal_only", [(ok, number_of 90); (unavailable, None)]);
  ("served_hybrid", [(ok, number_of 125); (ok, number_of 130)]);
  ("persistence", [(ok, number_of 120); (ok, number_of 120)]);
  ("previous_day", [(ok, number_of 95); (unavailable, None)])].

Lemma shadow_no_look_ahead_witness :
  let o := demo_observer (λ _ _, Ok []) in
  observe (with_history (λ _ _, Ok demo_history) o) f0 f0 (demo_issuance (JInt 125))
  = observe (with_history (λ _ _, Ok demo_hindsight) o) f0 f0 (demo_issuance (JInt 125))
  ∧ demo_statuses (observe (with_history (λ _ _, Ok demo_hindsight) o) f0 f0 (demo_issuance (JInt 125))) = demo_expected.
Proof.
  intros o. split; [|vm_compute; reflexivity]. apply shadow_no_look_ahead. intros fin Hfin lo hi.
  assert (fin = demo_end) as -> by (vm_compute in Hfin; injection Hfin as <-; reflexivity). vm_compute. reflexivity.
Defined.

Definition demo_record : ShadowRecord :=
  match observe (demo_observer (λ _ _, Ok demo_history)) f0 f0 (demo_issuance (JInt 125)) with
  | Ok r => r
  | Raise _ => {| sr_issued_at := JNull; sr_application := JNull; sr_namespace := JNull; sr_inference_input_end := JNull; sr_sequence_length := 0;
      sr_artifact_sha256 := JNull; sr_model_version := JNull; sr_training_cutoff := JNull; sr_window_points := 0; sr_window_complete := false;
      sr_predictors := []; sr_observer_version := EmptyString; sr_reconstruction := []; sr_elapsed_ms := f0; sr_notes := [] |}
  end.


(** Without the input nothing is asked of the model; what was served is recorded all the same. *)
Example no_history :
  demo_statuses (observe (demo_observer (λ _ _, Raise PyOSError)) f0 f0 (demo_issuance (JInt 125)))
  = ("served_hybrid", [(ok, number_of 125); (ok, number_of 130)])
      :: ((λ k, (k, [(failed, None); (failed, None)])) <$> ["raw_network"; "seasonal_only"; "previous_day"; "persistence"]).
Proof. vm_compute. reflexivity. Qed.

(** An integer that no float holds is not recorded as a failure: the observation raises, and the run goes on without a record of the
    issuance and without counting it. *)
Example huge_rpm_lost :
  let o := demo_observer (λ _ _, Ok demo_history) in
  observe o f0 f0 (demo_issuance (JInt (10 ^ 400))) = Raise PyOverflowError
  ∧ match run (W := list ShadowRecord) (λ r w, (Ok (), r :: w)) o [(demo_issuance (JInt (10 ^ 400)), (f0, f0)); (demo_issuance (JInt 125), (f0, f0))] [] with
    | (Ok s, w) => (records_written s, records_not_written s, length w) = (1, 0, 1%nat)
    | (Raise _, _) => False
    end.
Proof. vm_compute. auto. Qed.
