(* ===== verification/Admission.v ===== *)
(** [ml-engine/api/admission.py], and [_Admission] of [ml-engine/api/auth.py], which waits for a slot by the same rule: request
    work takes a slot first and keeps it until its future is done. A future is done when its worker thread has finished or
    when it was cancelled before it started; the callback that releases the slot is registered after the submission, and runs
    at once when the future is already done. What a caller does after that (wait, leave, be cancelled) changes nothing here. *)
From stdpp Require Import relations.
From S2P Require Import Prelude.

Inductive future := Queued | Running | Finished.

(** One call of [run]: the slot is taken; the work is submitted, its callback registered or not yet; the slot is back. *)
Inductive call :=
| Acquired
| Submitted (f : future) (callback : bool)
| Released.

Record admission := { ad_slots : Z; ad_free : Z; ad_calls : list call; ad_down : bool }.

(** [Admission(slots)] *)
Definition new_admission (slots : Z) : res admission :=
  raise_if slots <? 1 with PyValueError "admission needs at least one slot" ;;
  Ok {| ad_slots := slots; ad_free := slots; ad_calls := []; ad_down := false |}.

Definition set_call (i : nat) (c : call) (a : admission) : admission :=
  {| ad_slots := ad_slots a; ad_free := ad_free a; ad_calls := <[i := c]> (ad_calls a); ad_down := ad_down a |}.

(** [BoundedSemaphore.release]: one release too many is an error. *)
Definition release (a : admission) : res admission :=
  raise_if ad_slots a <=? ad_free a with PyValueError "Semaphore released too many times" ;;
  Ok {| ad_slots := ad_slots a; ad_free := ad_free a + 1; ad_calls := ad_calls a; ad_down := ad_down a |}.

(** The head of [run]. *)
Definition acquire (a : admission) : res admission :=
  raise_if ad_free a <=? 0 with Busy "the service is at capacity" ;;
  Ok {| ad_slots := ad_slots a; ad_free := ad_free a - 1; ad_calls := ad_calls a ++ [Acquired]; ad_down := ad_down a |}.

(** A submitted call in a new state: the callback runs once the future is done and it is registered. *)
Definition settle_call (i : nat) (f : future) (callback : bool) (a : admission) : res admission :=
  match f, callback with
  | Finished, true => release (set_call i Released a)
  | _, _ => Ok (set_call i (Submitted f callback) a)
  end.

(** What can happen next to call [i]; [None] when it cannot. A submission fails after a shutdown, or when no thread starts. *)
Inductive act := Submit | SubmitFails | Register | Start | Finish | Cancel.

Definition perform (x : act) (i : nat) (a : admission) : option (res admission) :=
  match x, ad_calls a !! i with
  | Submit, Some Acquired => if ad_down a then None else Some (settle_call i Queued false a)
  | SubmitFails, Some Acquired => Some (release (set_call i Released a))
  | Register, Some (Submitted f false) => Some (settle_call i f true a)
  | Start, Some (Submitted Queued cb) => Some (settle_call i Running cb a)
  | Finish, Some (Submitted Running cb) => Some (settle_call i Finished cb a)
  | Cancel, Some (Submitted Queued cb) => Some (settle_call i Finished cb a)
  | _, _ => None
  end.

Definition shutdown (a : admission) : admission :=
  {| ad_slots := ad_slots a; ad_free := ad_free a; ad_calls := ad_calls a; ad_down := true |}.

Inductive astep (a : admission) : admission → Prop :=
| as_acquire a' : acquire a = Ok a' → astep a a'
| as_perform x i a' : perform x i a = Some (Ok a') → astep a a'
| as_shutdown : astep a (shutdown a).

(** * Slots *)

Definition holds (c : call) : bool := match c with Released => false | _ => true end.
Definition held (a : admission) : Z := Z.of_nat (sum_list_with (λ c, if holds c then 1 else 0)%nat (ad_calls a)).

(** How many steps of its own a call can still take. *)
Definition rank (c : call) : nat :=
  match c with
  | Acquired => 4
  | Submitted f cb => (match f with Queued => 2 | Running => 1 | Finished => 0 end) + (if cb then 0 else 1)
  | Released => 0
  end.
Definition todo (a : admission) : nat := sum_list_with rank (ad_calls a).

Record admission_ok (a : admission) : Prop := {
  ao_slots : ad_free a + held a = ad_slots a;
  ao_free : 0 ≤ ad_free a;
  ao_done : Forall (λ c, c ≠ Submitted Finished true) (ad_calls a);
}.

Lemma sum_insert {A} (f : A → nat) l i x y : l !! i = Some x →
  (sum_list_with f (<[i := y]> l) + f x = sum_list_with f l + f y)%nat.
Proof.
  revert i. induction l as [|z l IH]; intros [|i] Hi; [done|done|injection Hi as ->; cbn; lia|].
  change (<[S i := y]> (z :: l)) with (z :: <[i := y]> l). cbn [sum_list_with]. specialize (IH i Hi). lia.
Qed.

Lemma held_set i c c' a : ad_calls a !! i = Some c → held (set_call i c' a) = held a - (if holds c then 1 else 0) + (if holds c' then 1 else 0).
Proof.
  intros Hi. unfold held, set_call. cbn [ad_calls].
  pose proof (sum_insert (λ c, if holds c then 1 else 0)%nat _ _ _ c' Hi) as H. cbn beta in H. destruct (holds c), (holds c'); lia.
Qed.

Lemma release_ok i c a : admission_ok a → ad_calls a !! i = Some c → holds c = true →
  ∃ a', release (set_call i Released a) = Ok a' ∧ admission_ok a' ∧ ad_calls a' = <[i := Released]> (ad_calls a) ∧ ad_slots a' = ad_slots a.
Proof.
  intros [H1 H2 H3] Hi Hc. pose proof (held_set i c Released a Hi) as Hh. rewrite Hc in Hh. cbn in Hh.
  assert (0 ≤ held (set_call i Released a)) as Hp by (unfold held; lia). unfold release. cbn [ad_slots set_call ad_free].
  destruct (_ <=? _) eqn:E; bool_prop; [lia|]. eexists. split; [reflexivity|]. split; [|done].
  split; cbn; [unfold held in *; cbn in *; lia|lia|]. by apply Forall_insert.
Qed.

Lemma settle_ok i c f cb a : admission_ok a → ad_calls a !! i = Some c → holds c = true →
  ∃ a', settle_call i f cb a = Ok a' ∧ admission_ok a' ∧ ad_slots a' = ad_slots a ∧
    ad_calls a' = <[i := if match f with Finished => cb | _ => false end then Released else Submitted f cb]> (ad_calls a).
Proof.
  intros Hok Hi Hc.
  assert (Submitted f cb ≠ Submitted Finished true → ∃ a', Ok (set_call i (Submitted f cb) a) = Ok a' ∧ admission_ok a' ∧
    ad_slots a' = ad_slots a ∧ ad_calls a' = <[i := Submitted f cb]> (ad_calls a)) as Hset.
  { intros Hne. eexists. split; [reflexivity|]. split; [|done]. destruct Hok as [H1 H2 H3].
    pose proof (held_set i c (Submitted f cb) a Hi) as Hh. rewrite Hc in Hh. cbn [holds] in Hh.
    split; cbn [set_call ad_free ad_slots ad_calls]; [lia|done|by apply Forall_insert]. }
  destruct f, cb; cbn [settle_call]; try (by apply Hset).
  destruct (release_ok i c a Hok Hi Hc) as (a' & -> & ? & ? & ?). by exists a'.
Qed.

(** Every step keeps the count, and a call's own steps use up what it has left to do. *)
Lemma perform_ok x i a r : admission_ok a → perform x i a = Some r →
  ∃ a', r = Ok a' ∧ admission_ok a' ∧ ad_slots a' = ad_slots a ∧ (todo a' < todo a)%nat.
Proof.
  intros Hok H. assert (∀ c c' a', ad_calls a !! i = Some c → ad_calls a' = <[i := c']> (ad_calls a) → (rank c' < rank c)%nat → (todo a' < todo a)%nat) as Ht.
  { intros c c' a' Hi E Hr. unfold todo. rewrite E. pose proof (sum_insert rank _ _ _ c' Hi). lia. }
  destruct (ad_calls a !! i) as [c|] eqn:Hi; [|destruct x; cbn in H; rewrite Hi in H; discriminate].
  assert (∀ f cb, (rank (if match f with Finished => cb | _ => false end then Released else Submitted f cb) < rank c)%nat → holds c = true →
    r = settle_call i f cb a → ∃ a', r = Ok a' ∧ admission_ok a' ∧ ad_slots a' = ad_slots a ∧ (todo a' < todo a)%nat) as Hs.
  { intros f cb Hr Hc ->. destruct (settle_ok i c f cb a Hok Hi Hc) as (a' & -> & Ha & Hsl & Hca). exists a'. split_and!; try done. by eapply Ht. }
  unfold perform in H. rewrite Hi in H. destruct x, c as [|f cb|]; try discriminate.
  - destruct (ad_down a); [discriminate|]. injection H as <-. refine (Hs Queued false _ eq_refl eq_refl). cbn. lia.
  - injection H as <-. destruct (release_ok i Acquired a Hok Hi eq_refl) as (a' & -> & Ha & Hca & Hsl). exists a'. split_and!; try done.
    eapply Ht; [done|exact Hca|cbn; lia].
  - destruct cb; [discriminate|]. injection H as <-. refine (Hs f true _ eq_refl eq_refl). destruct f; cbn; lia.
  - destruct f; try discriminate. injection H as <-. refine (Hs Running cb _ eq_refl eq_refl). destruct cb; cbn; lia.
  - destruct f; try discriminate. injection H as <-. refine (Hs Finished cb _ eq_refl eq_refl). destruct cb; cbn; lia.
  - destruct f; try discriminate. injection H as <-. refine (Hs Finished cb _ eq_refl eq_refl). destruct cb; cbn; lia.
Qed.

Lemma acquire_ok a a' : admission_ok a → acquire a = Ok a' → admission_ok a' ∧ ad_slots a' = ad_slots a.
Proof.
  intros [H1 H2 H3] H. unfold acquire in H. ok_inv H. subst a'. bool_prop. split; [|done]. split; cbn.
  - unfold held in *. cbn. rewrite sum_list_with_app. cbn. lia.
  - lia.
  - apply Forall_app_2; [done|]. by repeat constructor.
Qed.

Lemma astep_ok a a' : admission_ok a → astep a a' → admission_ok a' ∧ ad_slots a' = ad_slots a.
Proof.
  intros Hok []; [by apply acquire_ok| |split; [by destruct Hok|done]].
  match goal with E : perform _ _ _ = _ |- _ => destruct (perform_ok _ _ _ _ Hok E) as (? & [= ->] & ? & ? & _) end. done.
Qed.

(** A call that still holds its slot can always go on: its next step is waiting for nothing of this component but its worker
    thread. *)
Lemma call_goes_on i c a : admission_ok a → ad_calls a !! i = Some c → holds c = true → ∃ x r, perform x i a = Some r.
Proof.
  intros Hok Hi Hc. unfold perform. destruct c as [|[] []|]; try done.
  - exists SubmitFails. rewrite Hi. by eexists.
  - exists Start. rewrite Hi. by eexists.
  - exists Register. rewrite Hi. by eexists.
  - exists Finish. rewrite Hi. by eexists.
  - exists Register. rewrite Hi. by eexists.
  - by apply (proj1 (Forall_lookup _ _) (ao_done _ Hok)) in Hi.
  - exists Register. rewrite Hi. by eexists.
Qed.

(** C40: In every interleaving of callers, worker threads, cancellations and shutdown: a free slot and a call that has not let
    go of its own always add up to the configured slots; a caller is refused exactly when that many calls are unfinished; no
    release is ever one too many; and every call that holds a slot has a step left to take, of which it takes at most four, so
    no slot leaks. *)
Theorem admission_sound slots a0 a : new_admission slots = Ok a0 → rtc astep a0 a →
  ad_free a + held a = slots ∧ 0 ≤ ad_free a ∧
  (acquire a = Raise (Busy "the service is at capacity") ↔ held a = slots) ∧
  (∀ x i r, perform x i a = Some r → ∃ a', r = Ok a' ∧ (todo a' < todo a)%nat) ∧
  (∀ i c, ad_calls a !! i = Some c → holds c = true → ∃ x r, perform x i a = Some r) ∧
  (∀ c, c ∈ ad_calls a → (rank c ≤ 4)%nat).
Proof.
  intros H0 Hs. unfold new_admission in H0. ok_inv H0. bool_prop.
  assert (admission_ok a ∧ ad_slots a = slots) as [Hok Hsl].
  { apply (rtc_ind_r (λ a, admission_ok a ∧ ad_slots a = slots)) in Hs; [done| |].
    - subst a0. split; [|done]. split; unfold held; cbn; [lia|lia|constructor].
    - intros y z _ Hyz [Hy Hysl]. destruct (astep_ok _ _ Hy Hyz). by split; [|congruence]. }
  pose proof Hok as [H1 H2 _]. rewrite Hsl in H1. split_and!; try done.
  - unfold acquire. destruct (_ <=? _) eqn:E; bool_prop; split; intros; try done; first [lia|exfalso; lia].
  - intros x i r Hx. destruct (perform_ok _ _ _ _ Hok Hx) as (a' & -> & _ & _ & ?). by exists a'.
  - intros i c Hi Hc. by eapply call_goes_on.
  - intros c _. destruct c as [|[] []|]; cbn; lia.
Qed.

(** One slot: the second caller is refused while the first call's work runs, although its future is done before the callback
    is registered. *)
Definition steps_of (l : list (act * nat)) (a : admission) : option admission :=
  foldl (λ oa xi, a ← oa; r ← perform xi.1 xi.2 a; match r with Ok a' => Some a' | Raise _ => None end) (Some a) l.
Definition one_slot : admission := {| ad_slots := 1; ad_free := 1; ad_calls := []; ad_down := false |}.
Definition taken : admission := match acquire one_slot with Ok a => a | Raise _ => one_slot end.

Example busy_until_registered :
  (λ a, (ad_free a, is_ok (acquire a))) <$> steps_of [(Submit, 0%nat); (Start, 0%nat); (Finish, 0%nat)] taken = Some (0, false).
Proof. reflexivity. Qed.
Example free_when_registered :
  ad_free <$> steps_of [(Submit, 0%nat); (Start, 0%nat); (Finish, 0%nat); (Register, 0%nat)] taken = Some 1.
Proof. reflexivity. Qed.

Lemma admission_sound_witness : held taken = 1 ∧ acquire taken = Raise (Busy "the service is at capacity").
Proof.
  assert (rtc astep one_slot taken) as Hs by (apply rtc_once, as_acquire; reflexivity).
  destruct (admission_sound 1 one_slot taken eq_refl Hs) as (_ & _ & H & _). split; [reflexivity|]. apply H. reflexivity.
Defined.
