(* ===== verification/Server.v ===== *)
(** [ml-engine/api/statistical.py]: the app that serves the statistical service. What it refuses to start with, its four
    endpoints over the service it holds, and the whole of a request: the middleware of [Auth], then the endpoint. Routing an
    exact path and method to its endpoint is what the framework documents; what it answers elsewhere is left to it. A body is
    text of code points below 256. *)
From Stdlib Require Import Ascii.
From stdpp Require Import gmap relations.
From S2P Require Import Prelude Float64 Sha256 Json JsonRoundtrip Numbers Identity Contracts Response Clock Maturation Store Journal.
From S2P Require Import Calibration Trust TrustSafety History Metrics Statistical StatisticalFacts Artifacts ArtifactFacts.
From S2P Require Import Worker State StateRoundtrip Service ServiceState ServiceSafety ServiceDemo Admission Identity Auth AuthSafety.

Definition VERSION : string := "0.1.0-preview".
Definition BENCHMARK_SWITCHES : list string :=
  ["ALLOW_BENCHMARK_EXPERIMENTS"; "SEASONAL_EXPERIMENT"; "ENSEMBLE_EXPERIMENT"; "ENSEMBLE_HISTORY_HOURS"; "VALIDITY_MASK";
   "COLD_START_CRONJOB"].
Definition MAX_BODY : Z := Z.shiftl 64 10.

Definition refuse_benchmark_switches (env : list (string * string)) : res () :=
  raise_if existsb (λ k, dhas k env) BENCHMARK_SWITCHES
    with Refused "the statistical forecasting service has no benchmark or legacy experiment modes" ;;
  Ok ().

(** [int(text)] *)
Definition int_text (s : string) : res Z :=
  of_option (PyValueError "invalid literal for int() with base 10") (py_int (chars s)).

(** What [default_service] builds its service from. *)
Definition default_service (env : list (string * string)) : res (ServiceConfig * string * Z) :=
  let url := env_get "PROMETHEUS_URL" EmptyString env in
  raise_if negb (nonempty url) with Refused "PROMETHEUS_URL is required" ;;
  quota ← match dget "FORECAST_STATE_QUOTA_BYTES" env with Some t => int_text t | None => Ok (Z.shiftl 1536 20) end;
  let mode := env_get "FORECAST_FIT_MODE" "worker" env in
  raise_if negb (bool_decide (mode ∈ ["worker"; "inline"; "off"])) with PyValueError "unknown fit mode" ;;
  Ok ({| prometheus_url := url; fit_mode := mode; compact_every_seconds := 3600 |}, env_get "FORECAST_STATE_DIR" "/state" env, quota).

(** [create_app]: the authentication and the admission it is built with. *)
Record App := { ap_auth : AuthConfig; ap_admission : admission }.

Definition create_app (isfile : string → bool) (env : list (string * string)) : res App :=
  _ ← refuse_benchmark_switches env;
  auth ← config_from_env isfile env;
  slots ← match dget "FORECAST_ADMISSION" env with Some t => int_text t | None => Ok 4 end;
  a ← new_admission slots;
  Ok {| ap_auth := auth; ap_admission := a |}.

(** * The endpoints *)

Record reply := { rp_status : Z; rp_body : json }.

Definition error (status : Z) (reason message : string) : reply :=
  {| rp_status := status; rp_body := JObj [("detail", JObj [("error", JStr reason); ("message", JStr message)])] |}.

Inductive endpoint := Health | Ready | MetricsPage | Predict.

Definition route (method path : string) : option endpoint :=
  if bool_decide ((method, path) = ("GET", "/health")) then Some Health
  else if bool_decide ((method, path) = ("GET", "/ready")) then Some Ready
  else if bool_decide ((method, path) = ("GET", "/metrics")) then Some MetricsPage
  else if bool_decide ((method, path) = ("POST", "/v2/predict")) then Some Predict
  else None.

(** [{"status": "healthy", "version": ..., **rest}] *)
Definition merge (o rest : list (string * json)) : list (string * json) := foldl (λ o kv, dset kv.1 kv.2 o) o rest.

Definition health_page (holder : option service) : reply := {|
  rp_status := 200;
  rp_body := JObj (merge [("status", JStr "healthy"); ("version", JStr VERSION)]
               match holder with
               | None => [("state", JStr "starting")]
               | Some s => match Service.health s with JObj o => o | _ => [] end
               end) |}.

Definition ready_page (holder : option service) : reply :=
  match holder with
  | None => error 503 "Starting" "the service is not started"
  | Some s => if negb (Service.ready s) then error 503 "StateUnavailable" "the forecast journal cannot support issuance"
              else {| rp_status := 200; rp_body := JObj [("status", JStr "ready")] |}
  end.

Section server.
Context (np : NumLib) (ct : Containers) (cfg : ServiceConfig).
Context {X : Type} (kget : string → SE X (option json)) (fetch : string → f64 → Z → SE X exchange) (monotonic : SE X f64)
  (wall_clock : SE X json) (disk : SE X (Z * option sql_error)).
(** What the exporter prints of the process's own registry and of the forecast families. *)
Context (process_page : string) (page : list family → string).
Abbreviation H := (option service * X)%type.

Definition metrics_page (holder : option service) : res reply :=
  extra ← match holder with None => Ok EmptyString | Some s => fams ← collect (sv_metrics s); Ok (page fams) end;
  Ok {| rp_status := 200; rp_body := JStr (process_page +:+ extra) |}.

(** [json.loads(raw)] of a body *)
Definition loads_body (raw : string) : res json :=
  match utf8_decode (chars raw) with Some t => loads (text t) | None => Raise not_json end.

(** The answer to a request body: the slot is taken after the service is known to be there, and the service's own errors keep
    their status. Any other exception is the framework's to answer. *)
Definition predict_endpoint (adm : admission) (raw : string) : SE H reply :=
  λ w, if MAX_BODY <? Z.of_nat (String.length raw) then (Ok (error 413 "BodyTooLarge" "the request body exceeds 65536 bytes"), w) else
  match loads_body raw with
  | Raise (PyValueError _) => (Ok (error 422 "IdentityMismatch" "the request is not JSON"), w)
  | Raise e => (Raise e, w)
  | Ok body =>
      match w.1 with
      | None => (Ok (error 503 "StateUnavailable" "the service is starting or stopping"), w)
      | Some s =>
          match acquire adm with
          | Raise (Busy m) => (Ok (error 503 "StateUnavailable" m), w)
          | Raise e => (Raise e, w)
          | Ok _ =>
              match predict np ct cfg kget fetch monotonic wall_clock disk body (s, w.2) with
              | (Ok answer, (s', x')) => (Ok {| rp_status := 200; rp_body := answer |}, (Some s', x'))
              | (Raise (ServiceError status reason m), (s', x')) => (Ok (error status reason m), (Some s', x'))
              | (Raise (Busy m), (s', x')) => (Ok (error 503 "StateUnavailable" m), (Some s', x'))
              | (Raise e, (s', x')) => (Raise e, (Some s', x'))
              end
          end
      end
  end.

(** * A request *)

(** What the caller sees: the middleware's refusal, the app's answer, the framework's (no endpoint), or nothing. *)
Inductive outcome :=
| Refusal (status : Z) (reason message : string) (challenge : bool)
| Answered (r : reply)
| NoEndpoint
| NoAnswer.

(** An endpoint, on the body the app is given, if it has arrived; only the forecast reads it. *)
Definition dispatch (adm : admission) (method path : string) (body : option string) : SE H outcome :=
  w ← sget;
  match route method path with
  | Some Health => mret (Answered (health_page w.1))
  | Some Ready => mret (Answered (ready_page w.1))
  | Some MetricsPage => r ← lift (metrics_page w.1); mret (Answered r)
  | Some Predict => match body with
                    | Some raw => r ← predict_endpoint adm raw; mret (Answered r)
                    | None => mret NoAnswer
                    end
  | None => mret NoEndpoint
  end.

(** The body the app reads itself, when the middleware did not. *)
Definition own_body (ms : list incoming) : option string :=
  match read_body (Z.of_nat (sum_list_with (λ m, match m with Body c _ => String.length c | Disconnect => O end) ms)) EmptyString 0 ms with
  | inl b => Some b
  | inr _ => None
  end.

Section request.
Context (app : App) (authenticate : string → gset string → SE (cache * X) string).
Abbreviation W := (option service * (cache * X))%type.

Definition over_service {A} (m : SE H A) : SE W A := λ w, let '(r, (h, x)) := m (w.1, w.2.2) in (r, (h, (w.2.1, x))).
Definition over_reviews {A} (m : SE (cache * X) A) : SE W A := λ w, let '(r, cx) := m w.2 in (r, (w.1, cx)).

Definition run_app (method : string) (sc : Scope) (body : option string) : SE W outcome :=
  over_service (dispatch (ap_admission app) method (sc_path sc) body).

Definition serve (method : string) (scope : Scope) (ms : list incoming) : SE W outcome :=
  if enabled (ap_auth app) then
    a ← over_reviews (admit_request (ap_auth app) Auth.MAX_BODY authenticate scope ms);
    match a with
    | CallApp sc body => run_app method sc (match body with Some b => Some b | None => own_body ms end)
    | Respond status reason m challenge => mret (Refusal status reason m challenge)
    | CloseWebsocket | Gone | Auth.Waiting => mret NoAnswer
    end
  else run_app method scope (own_body ms).
End request.
End server.

(** * What a request can reach *)

Lemma route_predict method path : route method path = Some Predict → path = "/v2/predict".
Proof. unfold route. repeat case_bool_decide; try done. intros _. congruence. Qed.

Lemma dispatch_quiet {X} np ct cfg kget fetch monotonic wall_clock disk process_page page adm method path body (w : option service * X) :
  path ≠ "/v2/predict" →
  (dispatch np ct cfg kget fetch monotonic wall_clock disk process_page page adm method path body w).2 = w.
Proof.
  intros Hp. unfold dispatch. rewrite se_bind_eq. cbn [sget]. destruct (route method path) as [[]|] eqn:E; try done.
  - rewrite se_bind_eq. unfold lift. by destruct (metrics_page _ _ _).
  - by destruct (Hp (route_predict _ _ E)).
Qed.

Lemma create_app_ok isfile env app : create_app isfile env = Ok app →
  (∀ k, k ∈ BENCHMARK_SWITCHES → dget k env = None) ∧ config_from_env isfile env = Ok (ap_auth app) ∧
  ∃ slots, 1 ≤ slots ∧ new_admission slots = Ok (ap_admission app).
Proof.
  unfold create_app, refuse_benchmark_switches. intros H. ok_inv H. subst app.
  match goal with E : (_ ;; _) = Ok _ |- _ => idtac | _ => idtac end. cbn [ap_auth ap_admission].
  match goal with E : (if existsb _ _ then _ else _) = Ok _ |- _ => ok_inv E; rename E into Hu end.
  match goal with E : existsb _ _ = false |- _ => rewrite existsb_false in E; rename E into Hsw end.
  split; [|split; [done|]].
  - intros k Hk. apply Hsw in Hk. unfold dhas in Hk. apply bool_decide_eq_false in Hk. by apply eq_None_not_Some.
  - match goal with E : new_admission ?n = Ok _ |- _ => exists n; split; [unfold new_admission in E; ok_inv E; bool_prop; lia|done] end.
Qed.

(** The world of a request: who may reach what. *)
Definition open_path (c : AuthConfig) (path : string) : Prop :=
  path = "/health" ∨ path = "/ready" ∨ path = "/metrics" ∧ ac_metrics_subjects c = ∅.
Definition vouched_caller {R} (c : AuthConfig) (authenticate : string → gset string → SE R string) (scope : Scope) (r : R) : Prop :=
  ∃ token u r', (sc_scheme scope = "https" ∨ ac_allow_plaintext c = true) ∧ bearer (sc_headers scope) = inl token ∧
    (authenticate token (if bool_decide (sc_path scope = "/metrics") then ac_metrics_subjects c else ac_subjects c) r = (Ok u, r')) ∧
    u ∈ (if bool_decide (sc_path scope = "/metrics") then ac_metrics_subjects c else ac_subjects c) ∧ subject_text u = true.

(** C7: An app that starts has no benchmark switch set and at least one slot; and with authentication, whatever a request
    carries and the API server answers: either its path is open, and the service it holds is untouched; or the caller is a
    configured service account that a review of its one bearer token named, over TLS unless plain text was asked for; or the
    service is untouched and no endpoint answers. In particular no forecast, and no line of the journal, is made for a caller
    who is not authenticated. *)
Theorem service_guarded {X} np ct cfg kget fetch monotonic wall_clock disk process_page page isfile env app authenticate
    `{!Authenticator authenticate} method scope ms h (cx : cache * X) r h' cx' :
  create_app isfile env = Ok app → sc_type scope = "http" →
  serve np ct cfg kget fetch monotonic wall_clock disk process_page page app authenticate method scope ms (h, cx) = (r, (h', cx')) →
  (∀ k, k ∈ BENCHMARK_SWITCHES → dget k env = None) ∧ 1 ≤ ad_slots (ap_admission app) ∧
  (enabled (ap_auth app) = true →
     (open_path (ap_auth app) (sc_path scope) ∧ h' = h) ∨
     vouched_caller (ap_auth app) authenticate scope cx ∨
     (h' = h ∧ ∀ rp, r ≠ Ok (Answered rp) ∧ r ≠ Ok NoEndpoint)).
Proof.
  intros Ha Ht H. destruct (create_app_ok _ _ _ Ha) as (Hsw & Hcfg & slots & Hn & Hadm). split; [done|].
  unfold new_admission in Hadm. ok_inv Hadm. split; [by rewrite <-Hadm|]. intros He. unfold serve in H. rewrite He, se_bind_eq in H.
  unfold over_reviews in H. cbn [fst snd] in H.
  destruct (admit_request (ap_auth app) Auth.MAX_BODY authenticate scope ms cx) as [[a|e] cx1] eqn:Hr.
  2:{ right. right. injection H as <- <- <-. by split. }
  destruct a as [|status reason m ch| | |sc body]; try (right; right; injection H as <- <- <-; by split).
  destruct (app_gate _ _ _ _ _ _ _ _ _ _ _ Hcfg He Ht Hr) as [(Hopen & -> & -> & ->)|(token & u & cs & last & rest & Htls & Hb & Hau & Hin & Hs & _)].
  - left. split; [exact Hopen|]. unfold run_app, over_service in H. cbn [fst snd] in H.
    match type of H with context [dispatch ?a ?b ?c ?d ?e ?f ?g ?i ?j ?k ?l ?m ?n ?o ?w] =>
      pose proof (dispatch_quiet a b c d e f g i j k l m n o w) as Hq; destruct (dispatch a b c d e f g i j k l m n o w) as [r1 [h1 x1]] end.
    injection H as <- <- <-. cbn [snd] in Hq. assert (sc_path scope ≠ "/v2/predict") as Hp.
    { destruct Hopen as [->|[->|[-> _]]]; done. }
    by specialize (Hq Hp) as [= -> _].
  - right. left. exists token, u, cx1. done.
Qed.

(** * The service of [ServiceDemo], served *)

#[local] Opaque predict _issue issue_new.

Definition live_isfile (_ : string) : bool := true.
Definition live_env : list (string * string) := ("FORECAST_ADMISSION", " 2 ") :: demo_env.
Definition no_app : App := {| ap_auth := default_config; ap_admission := one_slot |}.
Definition live_app : App := match create_app live_isfile live_env with Ok a => a | Raise _ => no_app end.
Definition live_review := review (ap_auth live_app) "https://10.0.0.1:443" 1024 (λ x : (), (Ok (Some "own"), x)) (λ x, (Ok true, x))
  (λ _ _ _ x, (Ok demo_answer, x)) (λ x, (Ok (f64_of_Z 100), x)) (λ x, (Ok demo_wall, x)).
Definition live_serve := serve demo_np demo_ct live_cfg demo_get live_fetch live_mono live_clock live_disk "process" (λ _, "families")
  live_app live_review.
Definition live_world : option service * (cache * ()) := (Some live_start.1, ([], ())).
Definition live_body : string := match canonical_json demo_body with Ok t => t | Raise _ => EmptyString end.

Lemma live_app_starts : create_app live_isfile live_env = Ok live_app.
Proof. vm_compute. reflexivity. Qed.

(** The operator's request goes all the way and is answered. *)
Example authenticated_forecast :
  match (live_serve "POST" demo_request [Body live_body false] live_world).1 with
  | Ok (Answered r) => rp_status r =? 200 | _ => false end = true.
Proof. vm_compute. reflexivity. Qed.

Example metrics_stay_open : (live_serve "GET" (demo_scope "/metrics" []) [] live_world).1 =
  Ok (Answered {| rp_status := 200; rp_body := JStr "processfamilies" |}).
Proof. vm_compute. reflexivity. Qed.
Example benchmark_refused : is_ok (create_app live_isfile (("VALIDITY_MASK", EmptyString) :: live_env)) = false.
Proof. vm_compute. reflexivity. Qed.
Example not_json_refused : (live_serve "POST" demo_request [Body "{" false] live_world).1 =
  Ok (Answered (error 422 "IdentityMismatch" "the request is not JSON")).
Proof. vm_compute. reflexivity. Qed.

Definition anonymous : Scope := demo_scope "/v2/predict" [("Host", "forecaster")].
Definition anonymous_run := live_serve "POST" anonymous [Body live_body false] live_world.

Lemma service_guarded_witness : anonymous_run.2.1 = Some live_start.1 ∧ ∀ rp, anonymous_run.1 ≠ Ok (Answered rp).
Proof.
  assert (anonymous_run = (anonymous_run.1, (anonymous_run.2.1, anonymous_run.2.2))) as E by reflexivity.
  destruct (service_guarded demo_np demo_ct live_cfg demo_get live_fetch live_mono live_clock live_disk "process" (λ _, "families")
    live_isfile live_env live_app live_review "POST" anonymous [Body live_body false] (Some live_start.1) ([], ()) _ _ _
    live_app_starts eq_refl E) as (_ & _ & H).
  destruct (H eq_refl) as [[Ho _]|[(token & u & r' & _ & Hb & _)|[Hh Hr]]].
  - destruct Ho as [Ho|[Ho|[Ho _]]]; discriminate Ho.
  - vm_compute in Hb. discriminate Hb.
  - split; [exact Hh|]. intros rp. apply (Hr rp).
Defined.
